(* ===== verification/_CoqProject ===== *)
-Q . S2P
Prelude.v
Utf8.v
Zend.v
Tokio.v
Tonic.v
Error.v
Runtime.v
Timeval.v
Codec.v
Credentials.v
Metadata.v
Compat.v
Channel.v
Deadline.v
Driver.v
Stream.v
Delivery.v
Expiry.v
Bidi.v
Interleave.v
Release.v
Unary.v
Frame.v
Call.v
Equiv.v
Spec.v
Session.v
Thread.v
Server.v
Lifecycle.v
Module.v
Tests.v
