(* ===== verification/Prelude.v ===== *)
(** * grpc-php-rs: a verification of the Rust gRPC client extension for PHP

    The program (src/src, crate [grpc]) is a PHP extension written in Rust: it
    registers the classes of the C extension ext-grpc ([Grpc\Channel],
    [Grpc\Call], [Grpc\Timeval], [Grpc\ChannelCredentials],
    [Grpc\CallCredentials]) and implements them on tonic and tokio.  A PHP
    program builds a Channel, builds a Call on it and drives the call by
    [startBatch], each batch an array of send and receive operations.  A unary
    call runs inside one [block_on]; a streaming call, and a unary call that is
    started and awaited in two batches, is driven by a background task that
    talks to the PHP thread over bounded channels.

    ** Layout

    - Prelude: this header; results, the state-and-error monad [M] of the PHP
      methods, machine integers, strings, tactics and shared lemmas.
    - Utf8: Rust's [String::from_utf8_lossy].
    - Zend, Tonic, Tokio: the third-party interfaces, each a class of the
      operations the crate calls ([ZendApi], [TonicApi], [TokioApi]) and a class
      of the documented behaviour the theorems use ([ZendLaws], [TonicLaws],
      [TokioLaws]), with a concrete instance of both ([ZendModel], [TonicModel],
      [TokioModel]) on which every witness computes.  [TlsApi] (Credentials),
      [EndpointApi] (Channel) and [BufApi] (Codec) are the smaller ones.
    - Error: src/src/error.rs.  Runtime: src/src/runtime.rs, with a second
      section in which threads race through the initialisation step by step.
      Timeval: src/src/timeval.rs.  Codec: src/src/codec.rs, tonic's codec
      traits as classes and their raw-bytes instances.  Credentials:
      src/src/credentials.rs.  Compat: src/src/compat.rs.  Module:
      src/src/lib.rs, the constants and ini entries and the module table, over
      the builder of ext-php-rs ([ModuleApi], [ModuleLaws]).
    - Channel: src/src/channel.rs.  [ChanState] is the thread's registry, the
      shared transports with their connectivity state, the closed flags, the
      connection probes in flight and the runtime cells; [channel_construct],
      [get_connectivity_state], [watch_connectivity_state] and [channel_close]
      are the methods; [chan_step] is any of them or a scheduler tick.  Calls
      write the connectivity state too: that is in Lifecycle.
    - Metadata, Deadline: the metadata and deadline functions of
      src/src/call.rs.
    - Driver: the background task of a stream ([start_server_stream] and
      [start_bidi_stream] spawn the same one) as a state machine over the events
      of the network and of the timer ([Pc], [Event], [driver_event]); the
      [World] it shares with the PHP thread; [block_on], in which the task may
      take any number of events before the waiting future is polled again; and
      the reference machine [Rpc], which says what the events of a call mean without any
      channel, buffer or task, with the simulation [sim] between the two.
    - Stream: the [GrpcCall] record, the stream handles, starting a stream,
      sending to it, and [build_stream_result].
    - Delivery: what a reader of a stream receives, end to end.  Expiry: the
      deadline of a stream.  Bidi: the request direction.  Interleave: the
      stream with every access of the PHP thread an atomic step ([il_step]),
      in any order with the steps of the task and the network.  Release: a call
      destroyed in the middle of a stream ([drop_stream]).
    - Unary: [execute_call] and [build_unary_result].
    - Frame: what no method of a call changes ([world_keep], [stable]).
    - Call: the constructor, [parse_ops], [dispatch_batch], [start_batch] and
      the other methods of [Grpc\Call].
    - Equiv: the unary call made in one batch against the split one, for every
      reply of a connected server ([Reply]).
    - Spec: the abstract streaming call ([spec_step]): its headers, the items
      read and to come, the messages sent, and what a batch may answer; and its
      refinement by programs that run alone with their call.  Session: the
      refinement for programs that send, receive, half-close and cancel while
      the task, the network, the timer and the thread's other work happen at
      any time ([session]).
    - Thread: any number of open calls of one thread ([thread]), sharing its
      clock, its runtime and its channels, and their projection to sessions.  In
      the default mode their tasks make progress only while PHP is inside a
      method that drives the runtime, in multi-thread mode at any time
      ([progress]).
    - Server: the handlers of the test server, tests/server/src/main.rs, over
      [ServerApi], and its bidi echo as a process ([echo_step]).
    - Lifecycle: calls and channels of one thread together ([life_step]), and
      what they do to its channels ([conn_step]).
    - Tests: the unit tests of the crate.

    ** How the code is modelled

    A method that mutates is a function of the monad [M S E]: it returns, throws
    a PHP exception (the mutations made so far stay) or is [Blocked], which is a
    [block_on] whose future never becomes ready.  The environment of a call is
    data: [w_script] lists what the network and the timer make happen and in
    which order, [w_wake] when the task gives up the thread between two events
    that are both there, [clock] gives each reading of the wall clock, [select] the
    order in which each poll of a [select!] looks at its branches, [php_call]
    the outcome of each call of a credentials plugin.  An event the task is not
    waiting for is not consumed: it stays with the network.  Shared objects are
    shared: transports and closed flags are indices into the thread's state, the
    channels of a stream live in one [Wire] used by both sides, the cancellation
    token in the world.  Integers are [Z] with the width's saturation or wrap
    written out.

    Fuel appears once: [drain_loop], one poll of the loop that discards messages
    while the status is awaited, goes round once per buffered message and is
    given one more than their number; [drain_loop_sim] shows that it is enough.
    Every other loop is structural on the script, on the clock readings, or on
    the data.

    ** What the theorems show

    - Delivery: whatever the stream's length and however it ends, RECV_MESSAGE
      batches answer exactly the server's messages in order and then null; the
      status can be asked for at any point, never deadlocks against the bounded
      buffer and is the one the call ended with; initial metadata is delivered
      once; an expired call sends nothing.  Expiry: a stream ends when its
      deadline passes.  Bidi: request messages reach the wire in order, and the
      half-close after them, in every interleaving.  Interleave: in every
      interleaving what PHP sees of a stream is one run of the reference call.
      Release: a destroyed call's task takes a bounded number of events.
    - Spec and Session: [start_batch] refines the abstract call.  In Session
      every program on an open stream, under every interleaving, is answered as
      the abstract call allows over one run of the reference on the events that
      happened, what it reads is what the network delivered and what tonic
      pulls is what it sent.  In Spec a program of receives alone, given a
      network that ends the call, is also answered at every step.
    - Thread: each call of a thread is answered as if it were alone
      ([calls_do_not_interfere]).
    - Server: a PHP program connected to the bidi echo by any number of pulls,
      deliveries and failures reads back what it sent ([bidi_echo_reads_back]),
      over [session_seen], the view of a session in the program's own terms; and
      EchoMetadata shows what a client sent ([echo_metadata_shows_request]).
    - Call and Unary: a unary call end to end, made in one batch or started in
      one and awaited in another; the deadline bounds connection
      establishment; the split start dispatches at once; a finished or cancelled
      call never runs again; initial metadata is accepted once; a failing plugin
      sends nothing; the batch parser's flags are the operations present.
      Equiv: what the two ways of making a unary call answer to every reply, and
      that they agree on plain ones ([unary_paths_agree]).
    - Channel: transports are shared exactly when the registry keys agree, keys
      separate credentials, the order of arguments is irrelevant, a credentials
      argument never degrades to plaintext (for targets without a scheme or a
      bar, through the registry too), the watch loop is exact and ends with the
      deadline, a closed channel rejects every method.
    - Lifecycle: the handles a call keeps of its channel stay valid whatever the
      thread does, closing a channel stops exactly the calls made from it, and
      connectivity stays within its states and never returns to idle, whatever
      channels and calls store.
    - Metadata, Codec, Deadline, Timeval, Credentials, Runtime, Compat, Module:
      grouping and visibility of metadata, strict and lenient parsing, codec
      round trips, deadline arithmetic and status mapping, saturating time
      arithmetic, unique credential ids, one runtime per thread (or per process,
      under races), return-type stripping and which methods it misses,
      constants.  Tests: the unit tests pass with every tonic and tokio that
      have the documented behaviour.
    - Behaviours that differ from what the comments or the parity tests of the
      repository say are theorems too ([connection_failure_status_lost],
      [first_message_drops_metadata], [plugin_called_per_send_batch],
      [persist_key_bar_collision], [infinite_deadlines_unbounded],
      [call_composite_first_plugin]).

    ** What is not modelled

    The HTTP/2 transport, TLS and DNS (tonic, rustls, the resolver) beyond the
    interfaces above; memory and reference counting; attributes, imports and the
    derivations of the macros; the listeners of the test server and its build
    script.  Delivery, Expiry, Equiv and Spec follow the default current-thread
    mode with one call, where the task runs only inside the [block_on] of that
    call; Bidi, Interleave, Session, Release and Lifecycle let it run at any
    time, as in multi-thread mode or while PHP waits for another call, and
    Thread has both modes.  A [getPeer] drives the runtime while it resolves a
    name: the tasks' steps meanwhile are steps of their own.  The wait for
    the trailers after the last message is not raced against the deadline, in
    the code and in Expiry.  The limits on message sizes are handed to tonic and
    not followed further. *)

From Stdlib Require Import ZArith Lia Ascii String Strings.Byte.
From stdpp Require Import base tactics option list strings pretty sorting gmap.

#[global] Instance byte_eq_decision : EqDecision byte := Byte.byte_eq_dec.

(** * Results and outcomes *)

(** Rust's [Result], error type first so that [result E] is a monad. *)
Inductive result (E A : Type) : Type :=
| Ok (a : A)
| Err (e : E).
Arguments Ok {E A} a.
Arguments Err {E A} e.

#[global] Instance result_ret E : MRet (result E) := fun A a => Ok a.
#[global] Instance result_bind E : MBind (result E) := fun A B f r =>
  match r with Ok a => f a | Err e => Err e end.
#[global] Instance result_fmap E : FMap (result E) := fun A B f r =>
  match r with Ok a => Ok (f a) | Err e => Err e end.

#[global] Instance result_eq_dec `{EqDecision E, EqDecision A} :
  EqDecision (result E A).
Proof. solve_decision. Defined.

Definition map_err {E F A} (f : E -> F) (r : result E A) : result F A :=
  match r with Ok a => Ok a | Err e => Err (f e) end.

Definition ok_or {E A} (o : option A) (e : E) : result E A :=
  match o with Some a => Ok a | None => Err e end.

Definition result_ok {E A} (r : result E A) : option A :=
  match r with Ok a => Some a | Err _ => None end.

Definition is_ok {E A} (r : result E A) : bool :=
  match r with Ok _ => true | Err _ => false end.

(** A loop over a [Vec] whose body may return early with an error. *)
Fixpoint try_fold {E A B} (f : B -> A -> result E B) (b : B) (l : list A) : result E B :=
  match l with
  | [] => Ok b
  | x :: l' => match f b x with Ok b' => try_fold f b' l' | Err e => Err e end
  end.

(** * The PHP thread's state-and-error monad

    A method of the extension mutates its object and its environment, may
    return early with an error (the mutations done so far stay), and may park
    the PHP thread: [Blocked] is a [block_on] whose future never becomes ready
    in the environment's script. *)
Inductive outcome (E A : Type) : Type :=
| Return (a : A)
| Throw (e : E)
| Blocked.
Arguments Return {E A} a.
Arguments Throw {E A} e.
Arguments Blocked {E A}.

Definition is_return {E A} (r : outcome E A) : bool := match r with Return _ => true | _ => false end.

Definition M (S E A : Type) : Type := S -> outcome E A * S.

#[global] Instance M_ret S E : MRet (M S E) := fun A a s => (Return a, s).
#[global] Instance M_bind S E : MBind (M S E) := fun A B f m s =>
  match m s with
  | (Return a, s') => f a s'
  | (Throw e, s') => (Throw e, s')
  | (Blocked, s') => (Blocked, s')
  end.

Definition get {S E} : M S E S := fun s => (Return s, s).
Definition gets {S E A} (f : S -> A) : M S E A := fun s => (Return (f s), s).
Definition modify {S E} (f : S -> S) : M S E unit := fun s => (Return tt, f s).
Definition throw {S E A} (e : E) : M S E A := fun s => (Throw e, s).
Definition lift {S E A} (r : result E A) : M S E A := fun s =>
  match r with Ok a => (Return a, s) | Err e => (Throw e, s) end.
Definition when {S E} (b : bool) (m : M S E unit) : M S E unit :=
  if b then m else mret tt.

(** A run whose result is evaluated and whose final state is kept symbolic. *)
Lemma run_fst {A B} (p : A * B) (a : A) : p.1 = a -> p = (a, p.2).
Proof. destruct p. by intros <-. Qed.
Lemma run_returns {S E A} (p : outcome E A * S) : is_return p.1 = true -> exists a, p = (Return a, p.2).
Proof. destruct p as [[a| |] s]; [eauto|done..]. Qed.
Lemma run_default {A} (d : A) (o : option A) : bool_decide (is_Some o) = true -> o = Some (default d o).
Proof. destruct o; [done|]. intros H%bool_decide_eq_true. by destruct H. Qed.

(** * Machine integers

    An [i64] is a [Z] in [i64_min, i64_max]; the operations below are the ones
    of Rust's standard library at that width. *)
Definition i64_min : Z := -9223372036854775808.
Definition i64_max : Z := 9223372036854775807.
Definition u32_max : Z := 4294967295.
Definition u64_max : Z := 18446744073709551615.
Definition usize_max : Z := 18446744073709551615.

Definition in_i64 (z : Z) : Prop := (i64_min <= z <= i64_max)%Z.
#[global] Instance in_i64_dec z : Decision (in_i64 z).
Proof. unfold in_i64. apply _. Defined.

Definition sat_i64 (z : Z) : Z := Z.max i64_min (Z.min i64_max z).
Definition saturating_add (a b : Z) : Z := sat_i64 (a + b).
Definition saturating_sub (a b : Z) : Z := sat_i64 (a - b).
Definition saturating_abs (a : Z) : Z := sat_i64 (Z.abs a).

(** [as i64] on a wider integer keeps the low 64 bits; [as u64] likewise. *)
Definition wrap_i64 (z : Z) : Z := ((z + 2 ^ 63) mod 2 ^ 64 - 2 ^ 63)%Z.
Definition wrap_u64 (z : Z) : Z := (z mod 2 ^ 64)%Z.

(** [i64::try_from(u128)] and [u32::try_from(i64)]. *)
Definition i64_try_from (z : Z) : option Z :=
  if decide (in_i64 z) then Some z else None.
Definition u32_try_from (z : Z) : option Z :=
  if ((0 <=? z) && (z <=? u32_max))%Z then Some z else None.

Declare Scope rust_scope.
Delimit Scope rust_scope with rust.
Notation "a +! b" := (saturating_add a b) (at level 50, left associativity) : rust_scope.
Notation "a -! b" := (saturating_sub a b) (at level 50, left associativity) : rust_scope.

(** * Wall clock

    [SystemTime::now().duration_since(UNIX_EPOCH)]: the microseconds since the
    epoch, or the error of a clock set before it. *)
Definition clock_reading : Type := result string Z.

(** * Bytes and strings

    [Bytes] and [Vec<u8>] are lists of bytes; a Rust [String] is a [string] of
    8-bit characters holding its UTF-8 bytes. *)
Abbreviation bytes := (list byte).
Definition as_bytes (s : string) : bytes := list_byte_of_string s.

(** Decimal digits and [str::parse::<i64>]. *)
Definition digit_of (a : ascii) : option Z :=
  let n := Z.of_N (N_of_ascii a) in
  if ((48 <=? n) && (n <=? 57))%Z then Some (n - 48)%Z else None.

Fixpoint parse_digits (acc : Z) (s : string) : option Z :=
  match s with
  | EmptyString => Some acc
  | String a s' => d ← digit_of a; parse_digits (10 * acc + d) s'
  end.

(** [from_str_radix(10)]: an optional sign, then at least one digit; a value
    that does not fit the width is an error. *)
Definition parse_i64 (s : string) : option Z :=
  match s with
  | EmptyString => None
  | String a rest =>
      let neg := bool_decide (a = "-"%char) in
      let body := if neg || bool_decide (a = "+"%char) then rest else s in
      match body with
      | EmptyString => None
      | _ => v ← parse_digits 0 body;
             i64_try_from (if neg then - v else v)%Z
      end
  end.

(** [slice.join(sep)]. *)
Fixpoint str_join (sep : string) (l : list string) : string :=
  match l with
  | [] => ""
  | [x] => x
  | x :: l' => (x +:+ sep +:+ str_join sep l')%string
  end.

(** [str::contains] for a pattern string. *)
Fixpoint str_contains (pat s : string) : bool :=
  String.prefix pat s ||
  match s with EmptyString => false | String _ s' => str_contains pat s' end.

(** * Automation *)
Create HintDb grpc.

Ltac i64_unfold :=
  unfold saturating_add, saturating_sub, saturating_abs, sat_i64, in_i64,
    i64_min, i64_max in *.
Ltac i64_lia := i64_unfold; lia.

(** Unfold the monads of this development in the goal. *)
Ltac mred :=
  repeat first
    [ progress cbn [mbind mret fmap result_bind result_ret result_fmap M_bind M_ret
                    map_err ok_or result_ok get gets modify throw lift when]
    | progress unfold mbind, mret, M_bind, M_ret, result_bind, result_ret, result_fmap,
        get, gets, modify, throw, lift ];
  simpl;
  repeat match goal with
    | |- context [option_bind ?A ?B ?f ?o] => change (option_bind A B f o) with (mbind (M := option) f o)
    end.

Ltac bool_prop :=
  repeat match goal with
    | H : _ && _ = true |- _ => apply andb_true_iff in H; destruct H
    | H : _ || _ = false |- _ => apply orb_false_iff in H; destruct H
    | H : negb _ = true |- _ => apply negb_true_iff in H
    | H : negb _ = false |- _ => apply negb_false_iff in H
    | H : (_ <? _)%Z = true |- _ => apply Z.ltb_lt in H
    | H : (_ <? _)%Z = false |- _ => apply Z.ltb_ge in H
    | H : (_ <=? _)%Z = true |- _ => apply Z.leb_le in H
    | H : (_ <=? _)%Z = false |- _ => apply Z.leb_gt in H
    | H : (_ =? _)%Z = true |- _ => apply Z.eqb_eq in H
    | H : (_ =? _)%Z = false |- _ => apply Z.eqb_neq in H
    end.

(** * Shared lemmas *)

Lemma sat_i64_in z : in_i64 (sat_i64 z).
Proof. i64_lia. Qed.

Lemma sat_i64_id z : in_i64 z -> sat_i64 z = z.
Proof. i64_lia. Qed.

Lemma saturating_add_in a b : in_i64 (a +! b)%rust.
Proof. apply sat_i64_in. Qed.

Lemma saturating_sub_in a b : in_i64 (a -! b)%rust.
Proof. apply sat_i64_in. Qed.

Lemma wrap_i64_in z : in_i64 (wrap_i64 z).
Proof.
  unfold wrap_i64, in_i64, i64_min, i64_max.
  pose proof (Z.mod_pos_bound (z + 2 ^ 63) (2 ^ 64) ltac:(lia)). lia.
Qed.

Lemma wrap_i64_id z : in_i64 z -> wrap_i64 z = z.
Proof.
  unfold wrap_i64, in_i64, i64_min, i64_max. intros.
  rewrite Z.mod_small; lia.
Qed.

Lemma wrap_u64_id z : (0 <= z <= u64_max)%Z -> wrap_u64 z = z.
Proof. unfold wrap_u64, u64_max. intros. rewrite Z.mod_small; lia. Qed.

Lemma i64_try_from_Some z : in_i64 z -> i64_try_from z = Some z.
Proof. intros. unfold i64_try_from. by rewrite decide_True. Qed.

(** One step of a method. *)
Lemma M_bind_return {S E A B} (m : M S E A) (f : A -> M S E B) s a s' :
  m s = (Return a, s') -> (m ≫= f) s = f a s'.
Proof. unfold mbind, M_bind. by intros ->. Qed.

Lemma M_bind_throw {S E A B} (m : M S E A) (f : A -> M S E B) s e s' :
  m s = (Throw e, s') -> (m ≫= f) s = (Throw e, s').
Proof. unfold mbind, M_bind. by intros ->. Qed.

Lemma try_fold_app {E A B} (f : B -> A -> result E B) b l1 l2 :
  try_fold f b (l1 ++ l2) = (b' ← try_fold f b l1; try_fold f b' l2).
Proof.
  revert b. induction l1 as [|x l1 IH]; intros b; simpl; [done|].
  destruct (f b x); [apply IH | done].
Qed.

(** An invariant of the accumulator is kept by the whole loop. *)
Lemma try_fold_inv {E A B} (P : B -> Prop) (f : B -> A -> result E B) b l b' :
  (forall b x b', P b -> f b x = Ok b' -> P b') ->
  P b -> try_fold f b l = Ok b' -> P b'.
Proof.
  intros Hf. revert b. induction l as [|x l IH]; simpl; intros b Hb H.
  - by simplify_eq.
  - destruct (f b x) eqn:Hx; [eauto | done].
Qed.

Lemma fmap_alter_id {A B} (g : A -> B) (f : A -> A) (l : list A) i : (forall x, g (f x) = g x) -> g <$> alter f i l = g <$> l.
Proof.
  intros H. apply list_eq. intros j. rewrite !list_lookup_fmap. destruct (decide (i = j)) as [->|Hne].
  - rewrite list_lookup_alter_eq. destruct (l !! j); simpl; [by rewrite H|done].
  - by rewrite list_lookup_alter_ne.
Qed.

Lemma parse_digits_pretty_go n s :
  parse_digits 0 (pretty_N_go n s) = parse_digits (Z.of_N n) s.
Proof.
  revert s. induction (N.lt_wf_0 n) as [n _ IH]; intros s.
  destruct (decide (n = 0)%N) as [->|Hn]; [done|].
  rewrite pretty_N_go_step by lia. rewrite IH by (apply N.div_lt; lia).
  simpl.
  assert (Hd : digit_of (pretty_N_char (n `mod` 10)) = Some (Z.of_N (n `mod` 10))).
  { assert (n `mod` 10 < 10)%N as Hlt by (apply N.mod_lt; lia).
    destruct (n `mod` 10)%N as [|p]; [done|].
    do 4 (destruct p as [p|p|]; try done); lia. }
  rewrite Hd. simpl. f_equal.
  rewrite (N.div_mod n 10) at 3 by lia. lia.
Qed.

Lemma pretty_N_head (n : N) : exists a s, pretty n = String a s /\ is_Some (digit_of a).
Proof.
  destruct (decide (n = 0)%N) as [->|Hn]; [by exists "0"%char, ""%string|].
  assert (Hp : pretty n = pretty_N_go n "") by (unfold pretty, pretty_N; by rewrite decide_False).
  rewrite Hp. pose proof (parse_digits_pretty_go n "") as Hd. simpl in Hd.
  destruct (pretty_N_go n "") as [|a s]; simpl in Hd.
  - simplify_eq. lia.
  - exists a, s. split; [done|]. destruct (digit_of a); [eauto|done].
Qed.

Lemma parse_digits_pretty (n : N) : parse_digits 0 (pretty n) = Some (Z.of_N n).
Proof.
  destruct (decide (n = 0)%N) as [->|Hn]; [done|].
  assert (Hp : pretty n = pretty_N_go n "") by (unfold pretty, pretty_N; by rewrite decide_False).
  rewrite Hp. apply parse_digits_pretty_go.
Qed.

(** Printing an [i64] and parsing it back is the identity. *)
Lemma parse_i64_pretty z : in_i64 z -> parse_i64 (pretty z) = Some z.
Proof.
  intros Hz.
  assert (Hpos : forall n : N, in_i64 (Z.of_N n) -> parse_i64 (pretty n) = Some (Z.of_N n)).
  { intros n Hn. pose proof (parse_digits_pretty n) as Hd.
    destruct (pretty_N_head n) as (a & s & Hp & Ha). rewrite Hp in *. unfold parse_i64.
    rewrite (bool_decide_eq_false_2 (a = "-"%char)) by (intros ->; by destruct Ha).
    rewrite (bool_decide_eq_false_2 (a = "+"%char)) by (intros ->; by destruct Ha).
    simpl orb. cbv iota. rewrite Hd. simpl. by apply i64_try_from_Some. }
  destruct z as [|p|p].
  - done.
  - apply (Hpos (Npos p)). done.
  - change (pretty (Zneg p)) with ("-" +:+ pretty (Npos p))%string.
    pose proof (parse_digits_pretty (Npos p)) as Hd.
    destruct (pretty_N_head (Npos p)) as (a & s & Hp & Ha). rewrite Hp in *.
    simpl. simpl in Hd. rewrite Hd. simpl. by apply i64_try_from_Some.
Qed.

#[export] Hint Resolve sat_i64_in saturating_add_in saturating_sub_in wrap_i64_in : grpc.

(** * Strings with a separator character *)
Fixpoint str_has (c : ascii) (s : string) : bool :=
  match s with
  | EmptyString => false
  | String a s' => bool_decide (a = c) || str_has c s'
  end.

Lemma str_has_app c s1 s2 : str_has c (s1 +:+ s2) = str_has c s1 || str_has c s2.
Proof. induction s1 as [|a s1 IH]; simpl; [done|]. by rewrite IH, orb_assoc. Qed.

Lemma str_app_assoc (s1 s2 s3 : string) : (s1 +:+ s2) +:+ s3 = s1 +:+ s2 +:+ s3.
Proof.
  induction s1 as [|a s1 IH]; [done|].
  change (String a ((s1 +:+ s2) +:+ s3) = String a (s1 +:+ s2 +:+ s3)). by rewrite IH.
Qed.

(** Two strings cut at their first separator are equal part by part. *)
Lemma str_split_unique c s1 s2 r1 r2 :
  str_has c s1 = false -> str_has c s2 = false ->
  s1 +:+ String c r1 = s2 +:+ String c r2 -> s1 = s2 /\ r1 = r2.
Proof.
  revert s2. induction s1 as [|a s1 IH]; intros [|b s2]; simpl; intros H1 H2 Heq; simplify_eq.
  - done.
  - apply orb_false_iff in H2 as [Hb _]. by rewrite bool_decide_true in Hb.
  - apply orb_false_iff in H1 as [Hb _]. by rewrite bool_decide_true in Hb.
  - apply orb_false_iff in H1 as [_ H1]. apply orb_false_iff in H2 as [_ H2].
    by destruct (IH s2 H1 H2) as [-> ->].
Qed.

(** A decimal number contains digits and a leading minus only. *)
Lemma pretty_Z_no_char c (z : Z) :
  digit_of c = None -> c <> "-"%char -> str_has c (pretty z) = false.
Proof.
  intros Hd Hm.
  assert (Hchar : forall x, (x < 10)%N -> pretty_N_char x <> c).
  { intros x Hx <-. revert Hd. destruct x as [|p]; [done|].
    do 4 (destruct p as [p|p|]; try done); lia. }
  assert (Hgo : forall n s, str_has c s = false -> str_has c (pretty_N_go n s) = false).
  { intros n. induction (N.lt_wf_0 n) as [n _ IH]; intros s Hs.
    destruct (decide (n = 0)%N) as [->|Hn]; [done|].
    rewrite pretty_N_go_step by lia. apply IH; [apply N.div_lt; lia|]. simpl.
    rewrite bool_decide_false, Hs; [done|]. apply Hchar, N.mod_lt. lia. }
  assert (HN : forall n : N, str_has c (pretty n) = false).
  { intros n. unfold pretty, pretty_N. case_decide; [|by apply Hgo].
    simpl. rewrite bool_decide_false; [done|]. by apply (Hchar 0%N). }
  destruct z as [|p|p]; [apply (HN 0%N)|apply (HN (Npos p))|].
  change (pretty (Zneg p)) with ("-" +:+ pretty (Npos p))%string.
  rewrite str_has_app, HN. simpl. rewrite bool_decide_false; [done|]. congruence.
Qed.
