(* ===== verification/Utf8.v ===== *)
(** UTF-8 as Rust's standard library treats it: validation ([str::from_utf8],
    what makes a byte sequence a [String]) and lossy decoding
    ([String::from_utf8_lossy], which call.rs applies to every outgoing metadata
    value), with the two facts the metadata theorems use: the lossy decoder
    always yields valid UTF-8, and it is the identity on valid UTF-8. *)

From S2P Require Import Prelude.
From Stdlib Require Import ZArith Lia Ascii String Strings.Byte.
From stdpp Require Import base list strings.

#[local] Open Scope Z_scope.

(** * Byte classes *)
Definition byte_val (b : byte) : Z := Z.of_N (Byte.to_N b).
Definition byte_in (lo hi : Z) (b : byte) : bool := (lo <=? byte_val b) && (byte_val b <=? hi).

Definition is_ascii (b : byte) : bool := byte_val b <? 128.
Definition is_cont (b : byte) : bool := byte_in 128 191 b.
Definition width2 (b : byte) : bool := byte_in 194 223 b.
Definition width3 (b : byte) : bool := byte_in 224 239 b.
Definition width4 (b : byte) : bool := byte_in 240 244 b.

(** Second byte of a three- or four-byte sequence: no overlong forms, no
    surrogates, nothing above U+10FFFF. *)
Definition second3 (b c : byte) : bool :=
  (byte_in 224 224 b && byte_in 160 191 c) || (byte_in 225 236 b && byte_in 128 191 c)
  || (byte_in 237 237 b && byte_in 128 159 c) || (byte_in 238 239 b && byte_in 128 191 c).
Definition second4 (b c : byte) : bool :=
  (byte_in 240 240 b && byte_in 144 191 c) || (byte_in 241 243 b && byte_in 128 191 c)
  || (byte_in 244 244 b && byte_in 128 143 c).

(** * Validation and lossy decoding *)
Fixpoint valid_utf8 (l : bytes) : bool :=
  match l with
  | [] => true
  | b :: l1 =>
      if is_ascii b then valid_utf8 l1
      else if width2 b then
        match l1 with c :: l2 => is_cont c && valid_utf8 l2 | [] => false end
      else if width3 b then
        match l1 with
        | c :: d :: l3 => second3 b c && is_cont d && valid_utf8 l3
        | _ => false
        end
      else if width4 b then
        match l1 with
        | c :: d :: e :: l4 => second4 b c && is_cont d && is_cont e && valid_utf8 l4
        | _ => false
        end
      else false
  end.

(** U+FFFD REPLACEMENT CHARACTER. *)
Definition replacement : bytes := [xef; xbf; xbd].

(** Each maximal ill-formed prefix becomes one replacement character. *)
Fixpoint utf8_lossy (l : bytes) : bytes :=
  match l with
  | [] => []
  | b :: l1 =>
      if is_ascii b then b :: utf8_lossy l1
      else if width2 b then
        match l1 with
        | c :: l2 => if is_cont c then b :: c :: utf8_lossy l2 else replacement ++ utf8_lossy l1
        | [] => replacement
        end
      else if width3 b then
        match l1 with
        | c :: l2 =>
            if second3 b c then
              match l2 with
              | d :: l3 =>
                  if is_cont d then b :: c :: d :: utf8_lossy l3
                  else replacement ++ utf8_lossy l2
              | [] => replacement
              end
            else replacement ++ utf8_lossy l1
        | [] => replacement
        end
      else if width4 b then
        match l1 with
        | c :: l2 =>
            if second4 b c then
              match l2 with
              | d :: l3 =>
                  if is_cont d then
                    match l3 with
                    | e :: l4 =>
                        if is_cont e then b :: c :: d :: e :: utf8_lossy l4
                        else replacement ++ utf8_lossy l3
                    | [] => replacement
                    end
                  else replacement ++ utf8_lossy l2
              | [] => replacement
              end
            else replacement ++ utf8_lossy l1
        | [] => replacement
        end
      else replacement ++ utf8_lossy l1
  end.

(** [str::from_utf8]. *)
Definition from_utf8 (l : bytes) : option string :=
  if valid_utf8 l then Some (string_of_list_byte l) else None.

(** [String::from_utf8_lossy(bytes).into_owned()]. *)
Definition from_utf8_lossy (l : bytes) : string := string_of_list_byte (utf8_lossy l).

(** * Facts *)

(** Case analysis that follows the decoder's branches. *)
Ltac utf8_cases :=
  repeat match goal with
    | |- context [if ?c then _ else _] => destruct c eqn:?
    | |- context [match ?l with [] => _ | _ :: _ => _ end] => is_var l; destruct l
    end.

Lemma utf8_lossy_valid l : valid_utf8 (utf8_lossy l) = true.
Proof.
  remember (length l) as n eqn:Hn. revert l Hn.
  induction (lt_wf n) as [n _ IH]; intros l ->.
  assert (Hrep : forall k, (length k < length l)%nat ->
            valid_utf8 (replacement ++ utf8_lossy k) = true).
  { intros k Hk. apply (IH _ Hk k eq_refl). }
  destruct l as [|b l]; [done|]. simpl.
  utf8_cases; try reflexivity; try (apply Hrep; simpl; lia);
    simpl; repeat (match goal with H : _ = _ |- _ => rewrite H end; simpl);
    eapply (IH (length _)); try reflexivity; simpl; lia.
Qed.

Lemma utf8_lossy_id l : valid_utf8 l = true -> utf8_lossy l = l.
Proof.
  remember (length l) as n eqn:Hn. revert l Hn.
  induction (lt_wf n) as [n _ IH]; intros l -> Hv.
  destruct l as [|b l]; [done|]. simpl in Hv |- *.
  destruct (is_ascii b); [f_equal; eapply IH; try done; simpl; lia|].
  destruct (width2 b).
  { destruct l as [|c l]; [done|]. bool_prop. rewrite H.
    do 2 f_equal. eapply IH; try done; simpl; lia. }
  destruct (width3 b).
  { destruct l as [|c [|d l]]; try done. bool_prop. rewrite H, H1.
    do 3 f_equal. eapply IH; try done; simpl; lia. }
  destruct (width4 b); [|done].
  destruct l as [|c [|d [|e l]]]; try done. bool_prop. rewrite H, H2, H1.
  do 4 f_equal. eapply IH; try done; simpl; lia.
Qed.

Lemma valid_utf8_ascii l : forallb is_ascii l = true -> valid_utf8 l = true.
Proof. induction l as [|b l IH]; simpl; [done|]. intros [-> Hl]%andb_true_iff. auto. Qed.

(** A value that is valid UTF-8 survives the lossy decoder byte for byte. *)
Lemma from_utf8_lossy_id l :
  valid_utf8 l = true -> as_bytes (from_utf8_lossy l) = l.
Proof.
  intros Hv. unfold as_bytes, from_utf8_lossy.
  rewrite list_byte_of_string_of_list_byte. by apply utf8_lossy_id.
Qed.

Lemma from_utf8_lossy_valid l : valid_utf8 (as_bytes (from_utf8_lossy l)) = true.
Proof. unfold as_bytes, from_utf8_lossy. rewrite list_byte_of_string_of_list_byte. apply utf8_lossy_valid. Qed.

(** The two decoders agree where the strict one succeeds. *)
Lemma from_utf8_lossy_strict l s : from_utf8 l = Some s -> from_utf8_lossy l = s.
Proof.
  unfold from_utf8, from_utf8_lossy. destruct (valid_utf8 l) eqn:Hv; [|done]. intros [= <-]. by rewrite utf8_lossy_id.
Qed.
