(* ===== verification/Zend.v ===== *)
(** The PHP engine as the extension sees it through ext-php-rs (a third-party
    crate): values, arrays, strings, objects and the class table, as the
    interface [ZendApi] of the operations src/src/*.rs calls, and [ZendLaws],
    the documented behaviour the theorems rely on (a new array or stdClass
    accepts and keeps what is stored in it).  [ZendModel] is a concrete
    instance of both, used by the witnesses. *)

From S2P Require Import Prelude Utf8.
From Stdlib Require Import ZArith Ascii String Strings.Byte SpecFloat.
From stdpp Require Import base list strings.

(** [ext_php_rs::types::ArrayKey]. *)
Inductive ArrayKey (ZStr : Type) : Type :=
| AK_Long (n : Z)
| AK_String (s : string)
| AK_Str (s : string)
| AK_ZendString (zs : ZStr).
Arguments AK_Long {ZStr} n.
Arguments AK_String {ZStr} s.
Arguments AK_Str {ZStr} s.
Arguments AK_ZendString {ZStr} zs.

(** * The interface *)
Class ZendApi := {
  Zval : Type;
  HashTable : Type;
  ZStr : Type;
  ZObject : Type;
  (* typed readers of a value; [None] when it has another type *)
  zv_long : Zval -> option Z;
  zv_double : Zval -> option spec_float;
  zv_bool : Zval -> option bool;
  zv_string : Zval -> option string;
  zv_zend_str : Zval -> option ZStr;
  zv_array : Zval -> option HashTable;
  zv_is_null : Zval -> bool;
  zv_is_callable : Zval -> bool;
  zs_as_bytes : ZStr -> bytes;
  zs_as_str : ZStr -> option string;
  (* arrays *)
  ht_iter : HashTable -> list (ArrayKey ZStr * Zval);
  ht_get : HashTable -> string -> option Zval;
  ak_to_string : ArrayKey ZStr -> string;
  ht_new : HashTable;
  ht_push : HashTable -> Zval -> result string HashTable;
  ht_insert : HashTable -> string -> Zval -> result string HashTable;
  (* building values and objects *)
  zv_of_bytes : bytes -> Zval;
  zv_null : Zval;
  zv_of_long : Z -> Zval;
  zv_of_bool : bool -> Zval;
  zv_of_string : string -> Zval;
  zv_of_ht : HashTable -> Zval;
  zv_of_obj : ZObject -> Zval;
  obj_new : ZObject;
  obj_set_property : ZObject -> string -> Zval -> result string ZObject;
  (* the class table *)
  ce_try_find : string -> bool;
}.

(** Observations of what was built, and the behaviour relied on.  A fresh key
    or property is appended, a pushed value is appended, and storing into a
    new array or a stdClass does not fail. *)
Class ZendLaws (Zd : ZendApi) := {
  ht_named : HashTable -> list (string * Zval);
  ht_values : HashTable -> list Zval;
  obj_props : ZObject -> list (string * Zval);
  ht_named_new : ht_named ht_new = [];
  ht_values_new : ht_values ht_new = [];
  obj_props_new : obj_props obj_new = [];
  ht_push_ok h v : exists h', ht_push h v = Ok h' /\ ht_values h' = ht_values h ++ [v];
  ht_insert_ok h k v : k ∉ (ht_named h).*1 ->
    exists h', ht_insert h k v = Ok h' /\ ht_named h' = ht_named h ++ [(k, v)];
  obj_set_property_ok o k v : k ∉ (obj_props o).*1 ->
    exists o', obj_set_property o k v = Ok o' /\ obj_props o' = obj_props o ++ [(k, v)];
}.

(** A PHP string is bytes: [as_str] is there when they are UTF-8, and the string
    reader of a value that is a string is its [as_str]. *)
Class ZendStrLaws (Zd : ZendApi) : Prop := {
  zs_as_str_utf8 zs : zs_as_str zs = from_utf8 (zs_as_bytes zs);
  zv_string_of_str v zs : zv_zend_str v = Some zs -> zv_string v = zs_as_str zs;
}.

(** * A concrete engine, for the witnesses *)
Inductive Zv : Type :=
| ZvNull
| ZvBool (b : bool)
| ZvLong (n : Z)
| ZvDouble (d : spec_float)
| ZvStr (b : bytes)
| ZvArr (l : list (ArrayKey bytes * Zv))
| ZvObj (l : list (string * Zv))
| ZvClosure (id : nat)
| ZvCreds (id : nat).

Definition zv_str (s : string) : Zv := ZvStr (as_bytes s).

Definition ak_name (k : ArrayKey bytes) : option string :=
  match k with
  | AK_Long _ => None
  | AK_String s | AK_Str s => Some s
  | AK_ZendString b => Some (string_of_list_byte b)
  end.

Definition zm_named (h : list (ArrayKey bytes * Zv)) : list (string * Zv) :=
  omap (fun '(k, v) => k' ← ak_name k; Some (k', v)) h.

#[global] Instance ZendModel : ZendApi := {|
  Zval := Zv;
  HashTable := list (ArrayKey bytes * Zv);
  ZStr := bytes;
  ZObject := list (string * Zv);
  zv_long v := match v with ZvLong n => Some n | _ => None end;
  zv_double v := match v with ZvDouble d => Some d | _ => None end;
  zv_bool v := match v with ZvBool b => Some b | _ => None end;
  zv_string v := match v with ZvStr b => from_utf8 b | _ => None end;
  zv_zend_str v := match v with ZvStr b => Some b | _ => None end;
  zv_array v := match v with ZvArr l => Some l | _ => None end;
  zv_is_null v := match v with ZvNull => true | _ => false end;
  zv_is_callable v := match v with ZvClosure _ => true | _ => false end;
  zs_as_bytes b := b;
  zs_as_str := from_utf8;
  ht_iter h := h;
  ht_get h k := (fun '(_, kv) => snd kv) <$> list_find (fun kv => kv.1 = k) (zm_named h);
  ak_to_string k := match k with
                    | AK_Long n => pretty.pretty n
                    | AK_String s | AK_Str s => s
                    | AK_ZendString b => string_of_list_byte b
                    end;
  ht_new := [];
  ht_push h v := Ok (h ++ [(AK_Long (Z.of_nat (length h)), v)]);
  ht_insert h k v := Ok (h ++ [(AK_Str k, v)]);
  zv_of_bytes := ZvStr;
  zv_null := ZvNull;
  zv_of_long := ZvLong;
  zv_of_bool := ZvBool;
  zv_of_string := zv_str;
  zv_of_ht := ZvArr;
  zv_of_obj := ZvObj;
  obj_new := [];
  obj_set_property o k v := Ok (o ++ [(k, v)]);
  ce_try_find _ := true;
|}.

#[global, refine] Instance ZendModelLaws : ZendLaws ZendModel := {|
  ht_named := zm_named;
  ht_values h := h.*2;
  obj_props o := o;
|}.
Proof.
  - done.
  - done.
  - done.
  - intros h v. eexists; split; [done|]. by rewrite fmap_app.
  - intros h k v _. eexists; split; [done|].
    unfold zm_named. by rewrite omap_app.
  - intros o k v _. eexists; split; done.
Defined.

#[global] Instance ZendModelStrLaws : ZendStrLaws ZendModel.
Proof. split; [done|]. by intros [] ? [= <-]. Qed.
