(* ===== verification/Tokio.v ===== *)
(** The parts of tokio and tokio-util the calls are built on (third-party
    crates): bounded mpsc channels, oneshot channels and cancellation tokens,
    as the interface [TokioApi] with the documented behaviour as laws over a
    view of each channel.  [TokioModel] is a concrete instance. *)

From S2P Require Import Prelude.
From stdpp Require Import base list.

(** One poll of [Sender::send], of [Receiver::recv] (and of [try_recv], which
    distinguishes the same cases), and of a oneshot receiver. *)
Inductive SendPoll (C : Type) : Type := SendOk (c : C) | SendPending | SendClosed.
Arguments SendOk {C} c.
Arguments SendPending {C}.
Arguments SendClosed {C}.

Inductive RecvPoll (A C : Type) : Type := RecvItem (a : A) (c : C) | RecvEmpty | RecvClosed.
Arguments RecvItem {A C} a c.
Arguments RecvEmpty {A C}.
Arguments RecvClosed {A C}.

Inductive OneshotPoll (A : Type) : Type := OsPending | OsValue (a : A) | OsClosed.
Arguments OsPending {A}.
Arguments OsValue {A} a.
Arguments OsClosed {A}.

(** What can be observed of a bounded channel: the queued items in order, the
    capacity, and whether each side is still alive. *)
Record MpscView (A : Type) : Type := MkView {
  mv_queue : list A;
  mv_cap : nat;
  mv_tx : bool;
  mv_rx : bool;
}.
Arguments MkView {A}.
Arguments mv_queue {A}.
Arguments mv_cap {A}.
Arguments mv_tx {A}.
Arguments mv_rx {A}.

Class TokioApi := {
  mpsc : Type -> Type;
  mpsc_view {A} : mpsc A -> MpscView A;
  mpsc_channel {A} : nat -> mpsc A;
  mpsc_send {A} : mpsc A -> A -> SendPoll (mpsc A);
  mpsc_recv {A} : mpsc A -> RecvPoll A (mpsc A);
  mpsc_try_recv {A} : mpsc A -> RecvPoll A (mpsc A);
  mpsc_drop_tx {A} : mpsc A -> mpsc A;
  mpsc_drop_rx {A} : mpsc A -> mpsc A;
  oneshot : Type -> Type;
  oneshot_channel {A} : oneshot A;
  oneshot_send {A} : oneshot A -> A -> oneshot A;
  oneshot_drop_tx {A} : oneshot A -> oneshot A;
  oneshot_poll {A} : oneshot A -> OneshotPoll A;
  CancellationToken : Type;
  token_new : CancellationToken;
  token_cancel : CancellationToken -> CancellationToken;
  token_is_cancelled : CancellationToken -> bool;
}.

Section views.
Context {A : Type}.
Implicit Types (v : MpscView A).

Definition view_set_queue v q : MpscView A := MkView q (mv_cap v) (mv_tx v) (mv_rx v).
Definition view_drop_tx v : MpscView A := MkView (mv_queue v) (mv_cap v) false (mv_rx v).
Definition view_drop_rx v : MpscView A := MkView [] (mv_cap v) (mv_tx v) false.

(** A send is accepted while the receiver lives and the buffer has room, waits
    while it is full, and fails once the receiver is gone. *)
Definition send_law `{TokioApi} (v : MpscView A) (x : A) (r : SendPoll (mpsc A)) : Prop :=
  match r with
  | SendOk c => mv_rx v = true /\ length (mv_queue v) < mv_cap v
                /\ mpsc_view c = view_set_queue v (mv_queue v ++ [x])
  | SendPending => mv_rx v = true /\ mv_cap v <= length (mv_queue v)
  | SendClosed => mv_rx v = false
  end.

(** Items come out in the order they went in; the end is seen only when the
    buffer is empty and every sender is gone. *)
Definition recv_law `{TokioApi} (v : MpscView A) (r : RecvPoll A (mpsc A)) : Prop :=
  match r with
  | RecvItem x c => exists q, mv_queue v = x :: q /\ mpsc_view c = view_set_queue v q
  | RecvEmpty => mv_queue v = [] /\ mv_tx v = true
  | RecvClosed => mv_queue v = [] /\ mv_tx v = false
  end.

End views.

Class TokioLaws (T : TokioApi) : Prop := {
  mpsc_channel_view A n : mpsc_view (@mpsc_channel T A n) = MkView [] n true true;
  mpsc_send_law A (c : mpsc A) x : send_law (mpsc_view c) x (mpsc_send c x);
  mpsc_recv_law A (c : mpsc A) : recv_law (mpsc_view c) (mpsc_recv c);
  mpsc_try_recv_law A (c : mpsc A) : recv_law (mpsc_view c) (mpsc_try_recv c);
  mpsc_drop_tx_view A (c : mpsc A) : mpsc_view (mpsc_drop_tx c) = view_drop_tx (mpsc_view c);
  mpsc_drop_rx_view A (c : mpsc A) : mpsc_view (mpsc_drop_rx c) = view_drop_rx (mpsc_view c);
  oneshot_channel_poll A : oneshot_poll (@oneshot_channel T A) = OsPending;
  oneshot_send_poll A (c : oneshot A) a :
    oneshot_poll c = OsPending -> oneshot_poll (oneshot_send c a) = OsValue a;
  oneshot_drop_poll A (c : oneshot A) :
    oneshot_poll (oneshot_drop_tx c)
    = match oneshot_poll c with OsPending => OsClosed | p => p end;
  token_new_live : token_is_cancelled token_new = false;
  token_cancel_done t : token_is_cancelled (token_cancel t) = true;
}.

(** * A concrete runtime, for the witnesses *)
#[global] Instance TokioModel : TokioApi := {|
  mpsc := MpscView;
  mpsc_view _ c := c;
  mpsc_channel _ n := MkView [] n true true;
  mpsc_send _ c x :=
    if negb (mv_rx c) then SendClosed
    else if Nat.ltb (length (mv_queue c)) (mv_cap c)
         then SendOk (view_set_queue c (mv_queue c ++ [x])) else SendPending;
  mpsc_recv _ c :=
    match mv_queue c with
    | x :: q => RecvItem x (view_set_queue c q)
    | [] => if mv_tx c then RecvEmpty else RecvClosed
    end;
  mpsc_try_recv _ c :=
    match mv_queue c with
    | x :: q => RecvItem x (view_set_queue c q)
    | [] => if mv_tx c then RecvEmpty else RecvClosed
    end;
  mpsc_drop_tx _ c := view_drop_tx c;
  mpsc_drop_rx _ c := view_drop_rx c;
  oneshot := OneshotPoll;
  oneshot_channel _ := OsPending;
  oneshot_send _ _ a := OsValue a;
  oneshot_drop_tx _ c := match c with OsPending => OsClosed | p => p end;
  oneshot_poll _ c := c;
  CancellationToken := bool;
  token_new := false;
  token_cancel _ := true;
  token_is_cancelled t := t;
|}.

#[global] Instance TokioModelLaws : TokioLaws TokioModel.
Proof.
  assert (Hrecv : forall A (c : MpscView A),
    recv_law c match mv_queue c with
               | x :: q => RecvItem x (view_set_queue c q)
               | [] => if mv_tx c then RecvEmpty else RecvClosed
               end).
  { intros A [[|x q] cap [] rx]; simpl; eauto. }
  split; simpl; intros; try done; try apply Hrecv.
  - destruct c as [q cap tx []]; simpl; [|done].
    destruct (Nat.ltb_spec (length q) cap); simpl; auto.
  - by destruct c.
Qed.
