(* ===== verification/Tonic.v ===== *)
(** tonic and http as the extension uses them (third-party crates): metadata
    maps, statuses, transport errors and request paths, as the interface
    [TonicApi], with the documented behaviour of metadata insertion as
    [TonicLaws].  [TonicModel] is a concrete instance. *)

From S2P Require Import Prelude.
From Stdlib Require Import ZArith Ascii String Strings.Byte.
From stdpp Require Import base list strings.

(** [tonic::metadata::KeyAndValueRef]. *)
Inductive KeyAndValueRef (AVal BVal : Type) : Type :=
| KV_Ascii (key : string) (value : AVal)
| KV_Binary (key : string) (value : BVal).
Arguments KV_Ascii {AVal BVal} key value.
Arguments KV_Binary {AVal BVal} key value.

Class TonicApi := {
  MetadataMap : Type;
  AsciiKey : Type;
  AsciiVal : Type;
  BinVal : Type;
  Status : Type;
  TransportError : Type;
  md_default : MetadataMap;
  md_iter : MetadataMap -> list (KeyAndValueRef AsciiVal BinVal);
  key_from_bytes : bytes -> option AsciiKey;
  val_parse : string -> option AsciiVal;
  val_to_str : AsciiVal -> option string;
  bin_to_bytes : BinVal -> option bytes;
  bin_from_bytes : bytes -> BinVal;
  md_insert : MetadataMap -> AsciiKey -> AsciiVal -> MetadataMap;
  md_insert_bin : MetadataMap -> string -> BinVal -> MetadataMap;
  st_code : Status -> Z;
  st_message : Status -> string;
  st_details : Status -> bytes;
  st_metadata : Status -> MetadataMap;
  transport_display : TransportError -> string;
  status_from_error : TransportError -> Status;
  path_try_from : string -> result string unit;
}.

(** gRPC status codes ([tonic::Code as i32]). *)
Definition Code_Cancelled : Z := 1.
Definition Code_Unknown : Z := 2.
Definition Code_Unavailable : Z := 14.

(** The values a metadata map holds under a key, in iteration order. *)
Definition ascii_at {AVal BVal} (k : string) (l : list (KeyAndValueRef AVal BVal)) : list AVal :=
  omap (fun kv => match kv with
                  | KV_Ascii k' v => if bool_decide (k' = k) then Some v else None
                  | KV_Binary _ _ => None
                  end) l.
Definition binary_at {AVal BVal} (k : string) (l : list (KeyAndValueRef AVal BVal)) : list BVal :=
  omap (fun kv => match kv with
                  | KV_Ascii _ _ => None
                  | KV_Binary k' v => if bool_decide (k' = k) then Some v else None
                  end) l.

(** [insert] and [insert_bin] replace every value under the key and leave the
    other keys alone; a binary value decodes to the bytes it was made from; an
    ASCII key never carries the reserved [-bin] suffix, and its name is the
    bytes it was parsed from when those are already in canonical form. *)
Class TonicLaws (T : TonicApi) := {
  key_str : AsciiKey -> string;
  md_iter_default : md_iter md_default = [];
  md_insert_ascii m k v k' :
    ascii_at k' (md_iter (md_insert m k v))
    = if bool_decide (key_str k = k') then [v] else ascii_at k' (md_iter m);
  md_insert_binary m k v k' :
    binary_at k' (md_iter (md_insert m k v)) = binary_at k' (md_iter m);
  md_insert_bin_ascii m k v k' :
    ascii_at k' (md_iter (md_insert_bin m k v)) = ascii_at k' (md_iter m);
  md_insert_bin_binary m k v k' :
    binary_at k' (md_iter (md_insert_bin m k v))
    = if bool_decide (k = k') then [v] else binary_at k' (md_iter m);
  bin_roundtrip b : bin_to_bytes (bin_from_bytes b) = Some b;
  key_from_bytes_not_bin s : key_from_bytes (as_bytes (s +:+ "-bin")%string) = None;
}.

(** * A concrete instance, for the witnesses *)
Record ModelStatus : Type := MkStatus {
  ms_code : Z;
  ms_message : string;
  ms_details : bytes;
  ms_metadata : list (KeyAndValueRef string bytes);
}.

Definition kv_key {AVal BVal} (kv : KeyAndValueRef AVal BVal) : string :=
  match kv with KV_Ascii k _ | KV_Binary k _ => k end.

Definition drop_ascii (k : string) (l : list (KeyAndValueRef string bytes)) :=
  List.filter (fun kv => match kv with
                        | KV_Ascii k' _ => negb (bool_decide (k' = k))
                        | KV_Binary _ _ => true
                        end) l.
Definition drop_binary (k : string) (l : list (KeyAndValueRef string bytes)) :=
  List.filter (fun kv => match kv with
                        | KV_Ascii _ _ => true
                        | KV_Binary k' _ => negb (bool_decide (k' = k))
                        end) l.

(** The last four bytes spell ["-bin"]. *)
Fixpoint ends_bin (s : string) : bool :=
  bool_decide (s = "-bin"%string) ||
  match s with EmptyString => false | String _ s' => ends_bin s' end.

Definition header_byte_ok (b : byte) : bool :=
  ((32 <=? Z.of_N (Byte.to_N b)) && negb (Z.of_N (Byte.to_N b) =? 127))%Z.

#[global] Instance TonicModel : TonicApi := {|
  MetadataMap := list (KeyAndValueRef string bytes);
  AsciiKey := string;
  AsciiVal := string;
  BinVal := bytes;
  Status := ModelStatus;
  TransportError := string;
  md_default := [];
  md_iter m := m;
  key_from_bytes b := let s := string_of_list_byte b in if ends_bin s then None else Some s;
  val_parse s := if forallb header_byte_ok (as_bytes s) then Some s else None;
  val_to_str s := Some s;
  bin_to_bytes b := Some b;
  bin_from_bytes b := b;
  md_insert m k v := drop_ascii k m ++ [KV_Ascii k v];
  md_insert_bin m k v := drop_binary k m ++ [KV_Binary k v];
  st_code := ms_code;
  st_message := ms_message;
  st_details := ms_details;
  st_metadata := ms_metadata;
  transport_display e := e;
  status_from_error e := MkStatus 14 e [] [];
  path_try_from s := if String.prefix "/" s then Ok tt else Err "invalid uri character"%string;
|}.

Lemma ends_bin_app s : ends_bin (s +:+ "-bin")%string = true.
Proof.
  induction s as [|a s IH]; [done|]. simpl.
  rewrite IH. by rewrite orb_true_r.
Qed.

Lemma at_drop k k' l :
  ascii_at k' (drop_ascii k l) = (if bool_decide (k = k') then [] else ascii_at k' l)
  /\ binary_at k' (drop_ascii k l) = binary_at k' l
  /\ ascii_at k' (drop_binary k l) = ascii_at k' l
  /\ binary_at k' (drop_binary k l) = (if bool_decide (k = k') then [] else binary_at k' l).
Proof.
  unfold drop_ascii, drop_binary, ascii_at, binary_at.
  induction l as [|[q v|q v] l (IH1 & IH2 & IH3 & IH4)]; simpl.
  - by case_bool_decide.
  - repeat case_bool_decide; simpl; repeat case_bool_decide; simplify_eq;
      repeat split; solve [assumption | f_equal; assumption | congruence].
  - repeat case_bool_decide; simpl; repeat case_bool_decide; simplify_eq;
      repeat split; solve [assumption | f_equal; assumption | congruence].
Qed.

#[global, refine] Instance TonicModelLaws : TonicLaws TonicModel := {| key_str k := k |}.
Proof.
  all: simpl; try done; intros.
  - destruct (at_drop k k' m) as (H & _). unfold ascii_at in *. rewrite omap_app, H. simpl.
    case_bool_decide; simpl; by rewrite ?app_nil_r.
  - destruct (at_drop k k' m) as (_ & H & _). unfold binary_at in *.
    rewrite omap_app, H. by rewrite app_nil_r.
  - destruct (at_drop k k' m) as (_ & _ & H & _). unfold ascii_at in *.
    rewrite omap_app, H. by rewrite app_nil_r.
  - destruct (at_drop k k' m) as (_ & _ & _ & H). unfold binary_at in *. rewrite omap_app, H. simpl.
    case_bool_decide; simpl; by rewrite ?app_nil_r.
  - unfold as_bytes. rewrite string_of_list_byte_of_string. by rewrite ends_bin_app.
Defined.
