(* ===== verification/Error.v ===== *)
(** src/src/error.rs: the error enum of the crate and the PHP exceptions the
    extension throws (class, code and message). *)

From S2P Require Import Prelude Zend Tonic.
From Stdlib Require Import ZArith String.
From stdpp Require Import base strings pretty.

#[local] Open Scope string_scope.

(** [ext_php_rs::exception::PhpException]. *)
Record PhpException : Type := MkExn {
  exn_class : string;
  exn_code : Z;
  exn_message : string;
}.

#[global] Instance PhpException_eq_dec : EqDecision PhpException.
Proof. solve_decision. Defined.

(** [PhpException::default]: class [Exception], code 0. *)
Definition exn_default (message : string) : PhpException := MkExn "Exception" 0 message.

Section error.
Context {Zd : ZendApi} {Tn : TonicApi}.

Definition class_exception (class message : string) (code : Z) : PhpException :=
  MkExn (if ce_try_find class then class else "Exception") code message.

Definition invalid_argument (message : string) : PhpException :=
  class_exception "InvalidArgumentException" message 1.

Definition logic_exception (message : string) (call_error : Z) : PhpException :=
  class_exception "LogicException" message call_error.

Definition runtime_exception (message : string) : PhpException :=
  class_exception "RuntimeException" message 0.

Inductive GrpcError : Type :=
| RuntimeInit (io_error : string)
| Transport (e : TransportError)
| StatusError (code : Z) (message : string)
| InvalidArg (message : string)
| InvalidUri (message : string)
| CallbackFailed (message : string).

(** The [#[error(...)]] formats. *)
Definition grpc_error_display (e : GrpcError) : string :=
  match e with
  | RuntimeInit io => "failed to initialize tokio runtime: " +:+ io
  | Transport t => "transport error: " +:+ transport_display t
  | StatusError code message => "gRPC status " +:+ pretty code +:+ ": " +:+ message
  | InvalidArg m => "invalid argument: " +:+ m
  | InvalidUri m => "invalid URI: " +:+ m
  | CallbackFailed m => "callback failed: " +:+ m
  end.

(** [impl From<GrpcError> for PhpException]. *)
Definition exn_of_grpc_error (e : GrpcError) : PhpException :=
  MkExn "Exception" 0 (grpc_error_display e).

(** The class an argument error surfaces with, and its fallback. *)
Lemma invalid_argument_class m :
  ce_try_find "InvalidArgumentException" = true ->
  invalid_argument m = MkExn "InvalidArgumentException" 1 m.
Proof. intros H. unfold invalid_argument, class_exception. by rewrite H. Qed.

End error.
