(* ===== verification/Runtime.v ===== *)
(** src/src/runtime.rs: which tokio runtime a PHP thread uses.

    [RtState] holds the process-wide [MODE] and [MULTI] cells and the
    thread-local [LOCAL] cells; runtimes are named by numbers in creation
    order.  The environment variable and the outcome of building a runtime are
    parameters.  The second section runs several threads through the
    multi-thread initialisation with every step interleaved. *)

From S2P Require Import Prelude Zend Tonic Error.
From Stdlib Require Import ZArith Lia String.
From stdpp Require Import base gmap strings list.

Inductive Mode : Type := CurrentThread | MultiThread.
#[global] Instance Mode_eq_dec : EqDecision Mode.
Proof. solve_decision. Defined.

Record RtState : Type := MkRt {
  rt_mode : option Mode;
  rt_multi : option nat;
  rt_local : gmap nat nat;
  rt_next : nat;
}.

Definition rt_init : RtState := MkRt None None ∅ 0.

Section runtime.
Context {Zd : ZendApi} {Tn : TonicApi}.
(** [std::env::var("GRPC_PHP_RS_RUNTIME").ok()], and the I/O error of the n-th
    attempt to build a runtime ([None]: it succeeds). *)
Context (env_var : option string) (build_error : nat -> option string).

Definition parse_mode (v : option string) : Mode :=
  match v with
  | Some "multi-thread"%string | Some "multi_thread"%string | Some "mt"%string => MultiThread
  | _ => CurrentThread
  end.

(** [MODE.get_or_init]. *)
Definition mode : M RtState GrpcError Mode := fun s =>
  match rt_mode s with
  | Some m => (Return m, s)
  | None =>
      let m := parse_mode env_var in
      (Return m, MkRt (Some m) (rt_multi s) (rt_local s) (rt_next s))
  end.

(** [Runtime::new()] / [Builder::new_current_thread().enable_all().build()]. *)
Definition build_runtime : M RtState GrpcError nat := fun s =>
  let s' := MkRt (rt_mode s) (rt_multi s) (rt_local s) (S (rt_next s)) in
  match build_error (rt_next s) with
  | Some io => (Throw (RuntimeInit io), s')
  | None => (Return (rt_next s), s')
  end.

(** [MULTI.set(rt)]: keeps the value already there. *)
Definition multi_set (rt : nat) (s : RtState) : RtState :=
  match rt_multi s with
  | Some _ => s
  | None => MkRt (rt_mode s) (Some rt) (rt_local s) (rt_next s)
  end.

Definition local_set (tid rt : nat) (s : RtState) : RtState :=
  match rt_local s !! tid with
  | Some _ => s
  | None => MkRt (rt_mode s) (rt_multi s) (<[tid := rt]> (rt_local s)) (rt_next s)
  end.

(** The [Mode::MultiThread] arm. *)
Definition get_multi : M RtState GrpcError nat :=
  o ← gets rt_multi;
  match o with
  | Some rt => mret rt
  | None =>
      rt ← build_runtime;
      modify (multi_set rt) ;;
      o' ← gets rt_multi;
      lift (ok_or o' (RuntimeInit "runtime init failed"))
  end.

(** The [Mode::CurrentThread] arm. *)
Definition get_local (tid : nat) : M RtState GrpcError nat :=
  o ← gets (fun s => rt_local s !! tid);
  match o with
  | Some rt => mret rt
  | None => rt ← build_runtime; modify (local_set tid rt) ;; mret rt
  end.

Definition get_runtime (tid : nat) : M RtState GrpcError nat :=
  m ← mode;
  match m with
  | MultiThread => get_multi
  | CurrentThread => get_local tid
  end.

(** [pump]: four scheduler ticks; [tick] is what one tick lets the queued
    background tasks do to the rest of the world. *)
Definition pump {W} (tick : W -> W) (tid : nat) : M (RtState * W) GrpcError unit := fun sw =>
  match get_runtime tid (sw.1) with
  | (Return _, s') => (Return tt, (s', Nat.iter 4 tick (sw.2)))
  | (Throw e, s') => (Throw e, (s', sw.2))
  | (Blocked, s') => (Blocked, (s', sw.2))
  end.

(** * Properties of sequential use *)

(** Runtimes are numbered below [rt_next], and no two threads share one. *)
Record rt_wf (s : RtState) : Prop := {
  wf_bound : forall t rt, rt_local s !! t = Some rt -> rt < rt_next s;
  wf_inj : forall t1 t2 rt, rt_local s !! t1 = Some rt -> rt_local s !! t2 = Some rt -> t1 = t2;
  wf_multi : forall rt, rt_multi s = Some rt -> rt < rt_next s;
}.

Lemma rt_init_wf : rt_wf rt_init.
Proof. split; simpl; intros; simplify_map_eq; done. Qed.

Lemma mode_run s :
  exists m, mode s = (Return m, MkRt (Some m) (rt_multi s) (rt_local s) (rt_next s))
    /\ m = default (parse_mode env_var) (rt_mode s).
Proof. unfold mode. destruct s as [[m|] ???]; simpl; eauto. Qed.

Lemma get_multi_spec s r s' :
  get_multi s = (r, s') ->
  rt_mode s' = rt_mode s /\ rt_local s' = rt_local s
  /\ match r with
     | Return rt => rt_multi s' = Some rt
                    /\ (s' = s \/ rt = rt_next s /\ rt_next s' = S rt /\ rt_multi s = None)
     | Throw e => (exists io, e = RuntimeInit io)
                  /\ rt_multi s' = rt_multi s /\ rt_next s' = S (rt_next s)
     | Blocked => False
     end.
Proof.
  unfold get_multi. mred. destruct (rt_multi s) eqn:Hm; simpl.
  - intros; simplify_eq. eauto 10.
  - unfold build_runtime, multi_set. rewrite Hm.
    destruct (build_error (rt_next s)); simpl; intros; simplify_eq; simpl; rewrite ?Hm; eauto 10.
Qed.

Lemma get_local_spec tid s r s' :
  get_local tid s = (r, s') ->
  rt_mode s' = rt_mode s /\ rt_multi s' = rt_multi s
  /\ match r with
     | Return rt => rt_local s' !! tid = Some rt
                    /\ (s' = s \/ rt = rt_next s /\ rt_next s' = S rt
                                  /\ rt_local s' = <[tid := rt]> (rt_local s)
                                  /\ rt_local s !! tid = None)
     | Throw e => (exists io, e = RuntimeInit io)
                  /\ rt_local s' = rt_local s /\ rt_next s' = S (rt_next s)
     | Blocked => False
     end.
Proof.
  unfold get_local. mred. destruct (rt_local s !! tid) eqn:Hm; simpl.
  - intros; simplify_eq. eauto 10.
  - unfold build_runtime, local_set.
    destruct (build_error (rt_next s)); simpl; [|rewrite Hm; simpl];
      intros; simplify_eq; simpl; rewrite ?lookup_insert_eq; eauto 10.
Qed.

Lemma get_multi_wf s r s' : rt_wf s -> get_multi s = (r, s') -> rt_wf s'.
Proof.
  intros [H1 H2 H3] (_ & Hl & Hr)%get_multi_spec.
  split; rewrite ?Hl; [|done|].
  - intros t rt Ht%H1. destruct r as [rt'|e|]; [|lia|done].
    destruct Hr as (_ & [->|(? & ? & ?)]); lia.
  - intros rt Hrt. destruct r as [rt'|e|]; [|destruct Hr as (_ & Hm & ->); rewrite Hm in Hrt|done].
    + destruct Hr as (Hm & [->|(? & ? & ?)]); [auto|]. simplify_eq. lia.
    + specialize (H3 _ Hrt). lia.
Qed.

Lemma get_local_wf tid s r s' : rt_wf s -> get_local tid s = (r, s') -> rt_wf s'.
Proof.
  intros [H1 H2 H3] (_ & Hm & Hr)%get_local_spec.
  destruct r as [rt'|e|]; [|destruct Hr as (_ & Hl & Hn)|done].
  - destruct Hr as (_ & [->|(-> & Hn & Hl & _)]); [done|].
    split; rewrite ?Hm, ?Hl, ?Hn.
    + intros t rt. rewrite lookup_insert. case_decide; intros Ht; simplify_eq; [lia|].
      apply H1 in Ht. lia.
    + intros t1 t2 rt. rewrite !lookup_insert.
      repeat case_decide; intros Ha Hb; simplify_eq; eauto;
        [apply H1 in Hb | apply H1 in Ha]; lia.
    + intros rt Hrt%H3. lia.
  - split; rewrite ?Hm, ?Hl, ?Hn; eauto; intros; [etrans; [by eapply H1|] | etrans; [by eapply H3|]]; lia.
Qed.

Lemma get_runtime_wf tid s r s' : rt_wf s -> get_runtime tid s = (r, s') -> rt_wf s'.
Proof.
  intros Hwf. unfold get_runtime. mred.
  destruct (mode_run s) as (m & -> & _). simpl.
  assert (rt_wf (MkRt (Some m) (rt_multi s) (rt_local s) (rt_next s))) by (destruct Hwf; by split).
  destruct m; [by apply get_local_wf | by apply get_multi_wf].
Qed.

(** Once obtained, the runtime of a thread is a fixed point: asking again
    returns it and changes nothing. *)
Lemma get_runtime_idem tid s rt s' :
  get_runtime tid s = (Return rt, s') -> get_runtime tid s' = (Return rt, s').
Proof.
  unfold get_runtime. mred. destruct (mode_run s) as (m & -> & _). simpl. intros H.
  destruct m.
  - pose proof (get_local_spec _ _ _ _ H) as (Hmo & _ & Hl & _). simpl in Hmo.
    unfold mode. rewrite Hmo. unfold get_local. mred. by rewrite Hl.
  - pose proof (get_multi_spec _ _ _ H) as (Hmo & _ & Hl & _). simpl in Hmo.
    unfold mode. rewrite Hmo. unfold get_multi. mred. by rewrite Hl.
Qed.

(** Obtaining the runtime never parks the thread. *)
Lemma get_runtime_not_blocked tid s : (get_runtime tid s).1 <> Blocked.
Proof.
  unfold get_runtime. mred. destruct (mode_run s) as ([] & -> & _); simpl.
  - destruct (get_local tid _) as [r s'] eqn:H. apply get_local_spec in H as (_ & _ & H).
    by destruct r.
  - destruct (get_multi _) as [r s'] eqn:H. apply get_multi_spec in H as (_ & _ & H).
    by destruct r.
Qed.

(** In current-thread mode another thread's cell is never touched. *)
Lemma get_runtime_frame tid tid' s r s' :
  tid <> tid' -> get_runtime tid s = (r, s') -> rt_local s' !! tid' = rt_local s !! tid'.
Proof.
  intros Hne. unfold get_runtime. mred. destruct (mode_run s) as (m & -> & _). simpl. intros H.
  destruct m.
  - apply get_local_spec in H as (_ & _ & Hr). destruct r as [rt|e|]; [| |done].
    + destruct Hr as (_ & [->|(_ & _ & -> & _)]); simpl; [done|]. by rewrite lookup_insert_ne.
    + by destruct Hr as (_ & -> & _).
  - by apply get_multi_spec in H as (_ & -> & _).
Qed.

(** A history of [get_runtime] calls, by thread, with the answers. *)
Fixpoint get_runtimes (tids : list nat) (s : RtState)
    : list (nat * outcome GrpcError nat) * RtState :=
  match tids with
  | [] => ([], s)
  | t :: tids' =>
      let '(r, s1) := get_runtime t s in
      let '(rs, s2) := get_runtimes tids' s1 in ((t, r) :: rs, s2)
  end.

Lemma get_runtime_mode tid s r s' :
  get_runtime tid s = (r, s') -> rt_mode s' = Some (default (parse_mode env_var) (rt_mode s)).
Proof.
  unfold get_runtime. mred. destruct (mode_run s) as (m & -> & Hm). simpl. rewrite <- Hm.
  destruct m; [intros (H & _)%get_local_spec | intros (H & _)%get_multi_spec]; exact H.
Qed.

(** What an answered call leaves in the state, and keeps for good. *)
Definition rt_cell (m : Mode) (tid : nat) (s : RtState) : option nat :=
  match m with CurrentThread => rt_local s !! tid | MultiThread => rt_multi s end.

Lemma get_runtime_cell m tid s r s' :
  default (parse_mode env_var) (rt_mode s) = m -> get_runtime tid s = (r, s') ->
  (forall rt, r = Return rt -> rt_cell m tid s' = Some rt)
  /\ (forall t rt, rt_cell m t s = Some rt -> rt_cell m t s' = Some rt).
Proof.
  unfold get_runtime. mred. destruct (mode_run s) as (m' & -> & ->). simpl. intros -> H.
  destruct m; simpl.
  - apply get_local_spec in H as (_ & _ & Hr). destruct r as [rt|e|]; [| |done].
    + destruct Hr as (H1 & H2). split; [intros; by simplify_eq|].
      intros t rt0 Ht. destruct H2 as [->|(-> & _ & Hl & Hn)]; [done|]. simpl in *.
      rewrite Hl, lookup_insert_ne by congruence. done.
    + destruct Hr as (_ & Hl & _). split; [done|]. intros t rt. by rewrite Hl.
  - apply get_multi_spec in H as (_ & _ & Hr). destruct r as [rt|e|]; [| |done].
    + destruct Hr as (H1 & [->|(_ & _ & Hn)]); (split; [intros; by simplify_eq|]);
        intros t rt0 Ht; simpl in *; congruence.
    + destruct Hr as (_ & Hl & _). split; [done|]. intros t rt. by rewrite Hl.
Qed.

Lemma get_runtimes_cells m tids s rs s' :
  rt_wf s -> default (parse_mode env_var) (rt_mode s) = m -> get_runtimes tids s = (rs, s') ->
  rt_wf s'
  /\ (forall t rt, rt_cell m t s = Some rt -> rt_cell m t s' = Some rt)
  /\ (forall t rt, (t, Return rt) ∈ rs -> rt_cell m t s' = Some rt).
Proof.
  revert s rs. induction tids as [|t0 tids IH]; simpl; intros s rs W Hm H.
  - simplify_eq. split_and!; [done|done|]. intros ?? []%not_elem_of_nil.
  - destruct (get_runtime t0 s) as [r s1] eqn:H1.
    destruct (get_runtimes tids s1) as [rs1 s2] eqn:H2. simplify_eq.
    destruct (get_runtime_cell _ _ _ _ _ eq_refl H1) as [C1 C2].
    destruct (IH s1 rs1) as (I1 & I2 & I3); [by eapply get_runtime_wf| |done|].
    { by rewrite (get_runtime_mode _ _ _ _ H1). }
    split_and!; [done|by eauto|].
    intros t rt [?|Hin]%elem_of_cons; [|by apply I3]. simplify_eq. eauto.
Qed.

(** C36: through every history of calls from a fresh
    process, a thread that obtained a runtime always obtains the same one
    again, whatever failures and other threads come in between.  Two threads
    obtain different runtimes in the default mode and the same one in
    multi-thread mode. *)
Theorem runtime_per_thread (tids : list nat) rs s' t1 rt1 t2 rt2 :
  get_runtimes tids rt_init = (rs, s') -> (t1, Return rt1) ∈ rs -> (t2, Return rt2) ∈ rs ->
  match parse_mode env_var with
  | CurrentThread => rt1 = rt2 <-> t1 = t2
  | MultiThread => rt1 = rt2
  end.
Proof.
  intros H In1 In2.
  destruct (get_runtimes_cells (parse_mode env_var) tids rt_init rs s' rt_init_wf eq_refl H)
    as (W & _ & C). apply C in In1, In2.
  destruct (parse_mode env_var); simpl in *; [|congruence].
  split; [intros ->; by eapply wf_inj|congruence].
Qed.

End runtime.

(** * Threads racing through the multi-thread arm

    Several PHP threads run [get_multi] at once; [OnceLock::get] and
    [OnceLock::set] are atomic, everything else is thread-local. *)
Section race.
Context {Zd : ZendApi} {Tn : TonicApi}.
Context (build_error : nat -> option string).

Inductive MtPc : Type :=
| MtStart                                   (* before [MULTI.get()] *)
| MtMissing                                 (* it was empty: build a runtime *)
| MtBuilt (rt : nat)                        (* before [MULTI.set(rt)] *)
| MtSet                                     (* before the final [MULTI.get()] *)
| MtDone (r : result GrpcError nat).

Record MtSys : Type := MkMt {
  mt_multi : option nat;
  mt_next : nat;
  mt_pc : nat -> MtPc;
}.

Definition mt_upd (f : nat -> MtPc) (t : nat) (p : MtPc) : nat -> MtPc :=
  fun t' => if bool_decide (t' = t) then p else f t'.

Definition mt_init : MtSys := MkMt None 0 (fun _ => MtStart).

Inductive mt_step : MtSys -> MtSys -> Prop :=
| step_get_some t mu n f rt :
    f t = MtStart -> mu = Some rt ->
    mt_step (MkMt mu n f) (MkMt mu n (mt_upd f t (MtDone (Ok rt))))
| step_get_none t n f :
    f t = MtStart ->
    mt_step (MkMt None n f) (MkMt None n (mt_upd f t MtMissing))
| step_build_ok t mu n f :
    f t = MtMissing -> build_error n = None ->
    mt_step (MkMt mu n f) (MkMt mu (S n) (mt_upd f t (MtBuilt n)))
| step_build_err t mu n f io :
    f t = MtMissing -> build_error n = Some io ->
    mt_step (MkMt mu n f) (MkMt mu (S n) (mt_upd f t (MtDone (Err (RuntimeInit io)))))
| step_set t mu n f rt :
    f t = MtBuilt rt ->
    mt_step (MkMt mu n f)
            (MkMt (match mu with Some r => Some r | None => Some rt end) n (mt_upd f t MtSet))
| step_final t mu n f :
    f t = MtSet ->
    mt_step (MkMt mu n f)
            (MkMt mu n (mt_upd f t (MtDone (ok_or mu (RuntimeInit "runtime init failed"))))).

Record mt_inv (s : MtSys) : Prop := {
  inv_set : forall t, mt_pc s t = MtSet -> is_Some (mt_multi s);
  inv_done : forall t rt, mt_pc s t = MtDone (Ok rt) -> mt_multi s = Some rt;
  inv_err : forall t e, mt_pc s t = MtDone (Err e) ->
    exists n io, build_error n = Some io /\ e = RuntimeInit io;
}.

Lemma mt_step_inv s s' : mt_step s s' -> mt_inv s -> mt_inv s'.
Proof.
  intros Hs [H1 H2 H3]. split; destruct Hs; simpl in *; unfold mt_upd; intros t';
    try (intros r'); case_bool_decide; intros; simplify_eq; eauto.
  - by destruct mu.
  - by destruct mu.
  - erewrite H2 by done. done.
  - destruct mu; simpl in *; congruence.
  - destruct (H1 t) as [r ->]; [done|]. simpl in *. simplify_eq.
Qed.

Lemma mt_reach_inv s : rtc mt_step mt_init s -> mt_inv s.
Proof.
  intros H. assert (Hi : mt_inv mt_init) by (split; done).
  induction H; eauto using mt_step_inv.
Qed.

(** C35: threads initialising the shared runtime at the
    same time, in any interleaving, all obtain the one runtime stored in the
    cell; a thread gets an error only when building its own runtime failed,
    so the final [runtime init failed] branch is never taken. *)
Theorem multi_thread_race s t1 t2 r1 r2 :
  rtc mt_step mt_init s -> mt_pc s t1 = MtDone r1 -> mt_pc s t2 = MtDone r2 ->
  match r1, r2 with
  | Ok rt1, Ok rt2 => rt1 = rt2 /\ mt_multi s = Some rt1
  | Err e, _ | _, Err e => exists n io, build_error n = Some io /\ e = RuntimeInit io
  end.
Proof.
  intros [_ H2 H3]%mt_reach_inv E1 E2. destruct r1, r2; eauto.
  pose proof (H2 _ _ E1). pose proof (H2 _ _ E2). split; congruence.
Qed.

End race.

(** * Witnesses *)
Lemma runtime_per_thread_witness :
  (get_runtimes (Tn := TonicModel) None (fun n => if Nat.eqb n 1 then Some "io"%string else None)
     [7; 8; 7; 8] rt_init).1
  = [(7, Return 0); (8, Throw (RuntimeInit "io")); (7, Return 0); (8, Return 2)]
  /\ (0 = 2 <-> 7 = 8).
Proof.
  split; [reflexivity|].
  apply (runtime_per_thread (Tn := TonicModel) None
           (fun n => if Nat.eqb n 1 then Some "io"%string else None) [7; 8; 7; 8] _ _ 7 0 8 2
           eq_refl); vm_compute; repeat constructor.
Defined.

Lemma multi_thread_race_witness :
  exists s, rtc (mt_step (Tn := TonicModel) (fun _ => None)) mt_init s
    /\ mt_pc s 1 = MtDone (Ok 0) /\ mt_pc s 2 = MtDone (Ok 0) /\ mt_multi s = Some 0.
Proof.
  eexists. assert (Hr : rtc (mt_step (Tn := TonicModel) (fun _ => None)) mt_init
    (MkMt (Some 0) 2
       (mt_upd (mt_upd (mt_upd (mt_upd (mt_upd (mt_upd (mt_upd (mt_upd (fun _ => MtStart)
          1 MtMissing) 2 MtMissing) 1 (MtBuilt 0)) 2 (MtBuilt 1)) 1 MtSet) 2 MtSet)
          1 (MtDone (Ok 0))) 2 (MtDone (Ok 0))))).
  { eapply rtc_l; [by apply (step_get_none _ 1)|].
    eapply rtc_l; [by apply (step_get_none _ 2)|].
    eapply rtc_l; [by apply (step_build_ok _ 1)|].
    eapply rtc_l; [by apply (step_build_ok _ 2)|].
    eapply rtc_l; [by apply (step_set _ 1 _ _ _ 0)|].
    eapply rtc_l; [by apply (step_set _ 2 _ _ _ 1)|].
    eapply rtc_l; [by apply (step_final _ 1)|].
    eapply rtc_l; [by apply (step_final _ 2)|]. apply rtc_refl. }
  split; [exact Hr|]. split; [reflexivity|]. split; [reflexivity|].
  exact (proj2 (multi_thread_race (Tn := TonicModel) (fun _ => None) _ 1 2 (Ok 0) (Ok 0) Hr eq_refl eq_refl)).
Defined.
