(* ===== verification/Timeval.v ===== *)
(** src/src/timeval.rs: [Grpc\Timeval], microsecond times that are either
    absolute or a span, with saturating 64-bit arithmetic.  The wall clock and
    the PHP value given to the constructor are parameters. *)

From S2P Require Import Prelude Zend Tonic Error Runtime.
From Stdlib Require Import ZArith Lia String SpecFloat.
From stdpp Require Import base strings.

#[local] Open Scope Z_scope.

Record GrpcTimeval : Type := MkTimeval {
  tv_usec : Z;
  tv_is_span : bool;
}.

#[global] Instance GrpcTimeval_eq_dec : EqDecision GrpcTimeval.
Proof. solve_decision. Defined.

(** [d as i64]: NaN is 0, the fraction is dropped, and a value out of range
    saturates. *)
Definition f64_as_i64 (d : spec_float) : Z :=
  match d with
  | S754_zero _ => 0
  | S754_nan => 0
  | S754_infinity s => if s then i64_min else i64_max
  | S754_finite s m e =>
      let mag := if 0 <=? e then Z.pos m * 2 ^ e else Z.pos m / 2 ^ (- e) in
      sat_i64 (if s then - mag else mag)
  end.

Section timeval.
Context {Zd : ZendApi} {Tn : TonicApi}.

Definition timeval_construct (usec : Zval) : result PhpException GrpcTimeval :=
  match zv_long usec with
  | Some l => Ok (MkTimeval l true)
  | None =>
      match zv_double usec with
      | Some d => Ok (MkTimeval (f64_as_i64 d) true)
      | None => Err (invalid_argument "Timeval expects a numeric microseconds value")
      end
  end.

Definition timeval_get_usec (self : GrpcTimeval) : Z := tv_usec self.

Definition to_absolute_usec (clock : clock_reading) (self : GrpcTimeval) : Z :=
  if negb (tv_is_span self) || (tv_usec self =? i64_max) || (tv_usec self =? i64_min)
  then tv_usec self
  else
    let now := default 0 (d ← result_ok clock; i64_try_from d) in
    saturating_add now (tv_usec self).

Definition timeval_now (clock : clock_reading) : result PhpException GrpcTimeval :=
  match clock with
  | Err e => Err (exn_default e)
  | Ok d =>
      match i64_try_from d with
      | Some usec => Ok (MkTimeval usec false)
      | None => Err (exn_default "out of range integral type conversion attempted")
      end
  end.

Definition timeval_inf_future : GrpcTimeval := MkTimeval i64_max false.
Definition timeval_inf_past : GrpcTimeval := MkTimeval i64_min false.
Definition timeval_zero : GrpcTimeval := MkTimeval 0 true.

Definition timeval_similar (a b threshold : GrpcTimeval) : bool :=
  let diff := saturating_abs (saturating_sub (tv_usec a) (tv_usec b)) in
  diff <=? saturating_abs (tv_usec threshold).

Definition timeval_compare (a b : GrpcTimeval) : Z :=
  match tv_usec a ?= tv_usec b with
  | Lt => -1
  | Eq => 0
  | Gt => 1
  end.

Definition timeval_add (self other : GrpcTimeval) : GrpcTimeval :=
  if (tv_usec self =? i64_max) || (tv_usec self =? i64_min)
  then MkTimeval (tv_usec self) (tv_is_span self)
  else MkTimeval (saturating_add (tv_usec self) (tv_usec other))
                 (tv_is_span self && tv_is_span other).

Definition timeval_subtract (self other : GrpcTimeval) : GrpcTimeval :=
  if (tv_usec self =? i64_max) || (tv_usec self =? i64_min)
  then MkTimeval (tv_usec self) (tv_is_span self)
  else MkTimeval (saturating_sub (tv_usec self) (tv_usec other))
                 (tv_is_span self && tv_is_span other).

(** [sleepUntil]: [Some d] when the PHP thread sleeps for [d] microseconds. *)
Definition timeval_sleep_until (env_var : option string) (build_error : nat -> option string)
    (tid : nat) (clock : clock_reading) (self : GrpcTimeval)
    : M RtState PhpException (option Z) := fun rt =>
  match clock with
  | Err e => (Throw (exn_default e), rt)
  | Ok d =>
      match i64_try_from d with
      | None => (Throw (exn_default "out of range integral type conversion attempted"), rt)
      | Some now_usec =>
          let remaining := saturating_sub (tv_usec self) now_usec in
          if (0 <? remaining) && negb (tv_usec self =? i64_max) then
            match get_runtime env_var build_error tid rt with
            | (Return _, rt') => (Return (Some (wrap_u64 remaining)), rt')
            | (Throw e, rt') => (Throw (exn_of_grpc_error e), rt')
            | (Blocked, rt') => (Blocked, rt')
            end
          else (Return None, rt)
      end
  end.

(** * Properties *)

Definition timeval_wf (t : GrpcTimeval) : Prop := in_i64 (tv_usec t).

(** What a [Timeval] denotes: an infinity or a finite time. *)
Definition timeval_infinite (t : GrpcTimeval) : bool :=
  (tv_usec t =? i64_max) || (tv_usec t =? i64_min).

Lemma f64_as_i64_in d : in_i64 (f64_as_i64 d).
Proof. destruct d as [?|[]| |[] m e]; simpl; try apply sat_i64_in; i64_lia. Qed.

Lemma timeval_add_sub_wf a b :
  timeval_wf a -> timeval_wf (timeval_add a b) /\ timeval_wf (timeval_subtract a b).
Proof.
  unfold timeval_wf, timeval_add, timeval_subtract. intros.
  split; case_match; simpl; auto with grpc; apply sat_i64_in.
Qed.

Lemma saturating_abs_sub a b :
  saturating_abs (saturating_sub a b) = Z.min i64_max (Z.abs (a - b)).
Proof. i64_lia. Qed.

(** Every operation that makes a Timeval keeps its microseconds a
    64-bit integer: the constructor (whatever number PHP passes), the clock,
    the constants, and addition and subtraction of any two Timevals, which
    saturate instead of wrapping; resolving a deadline stays in range too. *)
Theorem timeval_ops_preserve_i64 (v : Zval) (clock : clock_reading) (a b t : GrpcTimeval) :
  timeval_wf a ->
  (forall l, zv_long v = Some l -> in_i64 l) ->
  (timeval_construct v = Ok t \/ timeval_now clock = Ok t \/ t = timeval_inf_future
   \/ t = timeval_inf_past \/ t = timeval_zero
   \/ t = timeval_add a b \/ t = timeval_subtract a b) ->
  timeval_wf t /\ in_i64 (to_absolute_usec clock t).
Proof.
  intros Ha Hv Ht.
  assert (Hwf : timeval_wf t).
  { destruct Ht as [Ht|[Ht|[->|[->|[->|[->| ->]]]]]].
    - unfold timeval_construct in Ht. destruct (zv_long v) eqn:E; simplify_eq; [apply Hv; done|].
      destruct (zv_double v); simplify_eq. apply f64_as_i64_in.
    - unfold timeval_now in Ht. destruct clock as [d|]; [|done].
      unfold i64_try_from in Ht. case_decide; by simplify_eq.
    - unfold timeval_wf; simpl; i64_lia.
    - unfold timeval_wf; simpl; i64_lia.
    - unfold timeval_wf; simpl; i64_lia.
    - by apply timeval_add_sub_wf.
    - by apply timeval_add_sub_wf. }
  split; [done|]. unfold to_absolute_usec. case_match; [done|]. apply saturating_add_in.
Qed.

(** Addition and subtraction are exact on finite times whenever the sum fits,
    an infinite left operand absorbs the other, and the result is a span
    exactly when both operands are spans. *)
Theorem timeval_arith_spec (a b : GrpcTimeval) :
  (timeval_infinite a = true -> timeval_add a b = a /\ timeval_subtract a b = a)
  /\ (timeval_infinite a = false ->
       (in_i64 (tv_usec a + tv_usec b) ->
          timeval_add a b = MkTimeval (tv_usec a + tv_usec b) (tv_is_span a && tv_is_span b))
       /\ (in_i64 (tv_usec a - tv_usec b) ->
          timeval_subtract a b = MkTimeval (tv_usec a - tv_usec b) (tv_is_span a && tv_is_span b))
       /\ (tv_usec a + tv_usec b > i64_max ->
          tv_usec (timeval_add a b) = tv_usec timeval_inf_future)
       /\ (tv_usec a + tv_usec b < i64_min ->
          tv_usec (timeval_add a b) = tv_usec timeval_inf_past)).
Proof.
  unfold timeval_infinite, timeval_add, timeval_subtract. split; intros Hinf; rewrite Hinf.
  - by destruct a.
  - repeat split; intros H; simpl; try f_equal; i64_lia.
Qed.

(** [compare] is the order of the microsecond values: its sign is the sign
    of the difference, it is antisymmetric and transitive, and it is 0 exactly
    on equal values. *)
Theorem timeval_compare_order (a b c : GrpcTimeval) :
  timeval_compare a b = Z.sgn (tv_usec a - tv_usec b)
  /\ timeval_compare b a = - timeval_compare a b
  /\ (timeval_compare a b = 0 <-> tv_usec a = tv_usec b)
  /\ (timeval_compare a b <= 0 -> timeval_compare b c <= 0 -> timeval_compare a c <= 0).
Proof.
  assert (Hs : forall x y, timeval_compare x y = Z.sgn (tv_usec x - tv_usec y)).
  { intros x y. unfold timeval_compare. destruct (Z.compare_spec (tv_usec x) (tv_usec y)); lia. }
  rewrite !Hs. lia.
Qed.

(** [similar] holds exactly when the true distance of the two times,
    capped at the largest 64-bit value, is within the capped threshold; it is
    symmetric, and no overflow of the difference is visible. *)
Theorem timeval_similar_spec (a b t : GrpcTimeval) :
  timeval_similar a b t
  = (Z.min i64_max (Z.abs (tv_usec a - tv_usec b)) <=? Z.min i64_max (Z.abs (tv_usec t)))
  /\ timeval_similar a b t = timeval_similar b a t.
Proof.
  assert (Hs : forall x y, timeval_similar x y t
    = (Z.min i64_max (Z.abs (tv_usec x - tv_usec y)) <=? Z.min i64_max (Z.abs (tv_usec t)))).
  { intros. unfold timeval_similar. rewrite saturating_abs_sub. f_equal. i64_lia. }
  rewrite !Hs. split; [done|]. do 2 f_equal. lia.
Qed.

(** A PHP float becomes the integer it truncates to (toward zero) when that
    fits, and the nearest 64-bit bound otherwise; NaN becomes 0. *)
Theorem timeval_float_truncates (v : Zval) (s : bool) (m : positive) (e : Z) :
  zv_long v = None -> zv_double v = Some (S754_finite s m e) ->
  exists q, timeval_construct v = Ok (MkTimeval (sat_i64 (if s then - q else q)) true)
    /\ 0 <= q /\ (0 <= e -> q = Z.pos m * 2 ^ e)
    /\ (e < 0 -> q * 2 ^ (- e) <= Z.pos m < (q + 1) * 2 ^ (- e)).
Proof.
  intros Hl Hd. unfold timeval_construct. rewrite Hl, Hd. simpl.
  destruct (Z.leb_spec 0 e).
  - exists (Z.pos m * 2 ^ e). repeat split; try lia; try done.
  - exists (Z.pos m / 2 ^ (- e)).
    assert (0 < 2 ^ (- e)) by (apply Z.pow_pos_nonneg; lia).
    pose proof (Z.div_mod (Z.pos m) (2 ^ (- e)) ltac:(lia)).
    pose proof (Z.mod_pos_bound (Z.pos m) (2 ^ (- e)) ltac:(lia)).
    repeat split; try lia; try nia.
Qed.

(** As a deadline, a finite span means that long from now: it resolves to
    the clock reading plus the span (saturating), while absolute times and the
    two infinities resolve to themselves whatever the clock says. *)
Theorem timeval_span_deadline (now : Z) (t : GrpcTimeval) :
  in_i64 now ->
  to_absolute_usec (Ok now) t
  = if tv_is_span t && negb (timeval_infinite t)
    then saturating_add now (tv_usec t) else tv_usec t.
Proof.
  intros Hn. unfold to_absolute_usec, timeval_infinite. simpl. rewrite i64_try_from_Some by done.
  destruct (tv_is_span t); simpl; [|done].
  by destruct ((tv_usec t =? i64_max) || (tv_usec t =? i64_min)).
Qed.

(** [sleepUntil] sleeps exactly the remaining time of an absolute deadline in
    the future, and returns at once for a past deadline and for [infFuture]. *)
Theorem timeval_sleep_until_spec env be tid now (t : GrpcTimeval) rt o rt' :
  in_i64 now -> 0 <= now -> timeval_wf t ->
  timeval_sleep_until env be tid (Ok now) t rt = (Return o, rt') ->
  o = (if (now <? tv_usec t) && negb (tv_usec t =? i64_max)
       then Some (tv_usec t - now) else None).
Proof.
  intros Hn H0 Ht. unfold timeval_sleep_until. rewrite i64_try_from_Some by done.
  unfold timeval_wf in Ht.
  assert (Hr : (0 <? saturating_sub (tv_usec t) now) = (now <? tv_usec t)) by i64_lia.
  rewrite Hr. destruct (_ && _) eqn:E; [|by intros; simplify_eq].
  bool_prop. destruct (get_runtime _ _ _ _) as [[]?]; intros; simplify_eq.
  f_equal. rewrite wrap_u64_id; unfold u64_max; i64_lia.
Qed.

End timeval.

(** * Witnesses *)
Lemma timeval_ops_preserve_i64_witness :
  timeval_wf (timeval_subtract (MkTimeval i64_min true) (MkTimeval 1 true))
  /\ in_i64 (to_absolute_usec (Ok 5) (timeval_subtract (MkTimeval i64_min true) (MkTimeval 1 true))).
Proof.
  apply (timeval_ops_preserve_i64 (Zd := ZendModel) ZvNull (Ok 5) (MkTimeval i64_min true)
           (MkTimeval 1 true)).
  - unfold timeval_wf; simpl; i64_lia.
  - simpl. intros. discriminate.
  - do 6 right. reflexivity.
Defined.

Lemma timeval_arith_spec_witness :
  timeval_subtract timeval_inf_future (MkTimeval 1000 true) = timeval_inf_future
  /\ timeval_add (MkTimeval 7 false) (MkTimeval 5 true) = MkTimeval 12 false.
Proof.
  split.
  - apply (timeval_arith_spec timeval_inf_future (MkTimeval 1000 true)). reflexivity.
  - apply (timeval_arith_spec (MkTimeval 7 false) (MkTimeval 5 true)); [reflexivity|simpl; i64_lia].
Defined.

Lemma timeval_compare_order_witness :
  timeval_compare (MkTimeval 1 true) (MkTimeval 3 true) <= 0.
Proof.
  apply (timeval_compare_order (MkTimeval 1 true) (MkTimeval 2 true) (MkTimeval 3 true));
    vm_compute; discriminate.
Defined.

Lemma timeval_float_truncates_witness :
  exists q, timeval_construct (Zd := ZendModel) (ZvDouble (S754_finite true 5 (-1)))
    = Ok (MkTimeval (sat_i64 (- q)) true) /\ q = 2.
Proof.
  destruct (timeval_float_truncates (Zd := ZendModel) (ZvDouble (S754_finite true 5 (-1))) true 5 (-1)
    eq_refl eq_refl) as (q & Hq & H0 & _ & Hb).
  exists q. split; [exact Hq|]. specialize (Hb ltac:(lia)). simpl in Hb. lia.
Defined.

Lemma timeval_span_deadline_witness :
  to_absolute_usec (Ok 1000) (MkTimeval 5 true) = 1005.
Proof. rewrite (timeval_span_deadline 1000 (MkTimeval 5 true)); [reflexivity | i64_lia]. Defined.

Lemma timeval_sleep_until_spec_witness :
  exists rt', timeval_sleep_until (Tn := TonicModel) None (fun _ => None) 0 (Ok 10)
    (MkTimeval 15 false) rt_init = (Return (Some 5), rt').
Proof.
  eexists. pose proof (timeval_sleep_until_spec (Tn := TonicModel) None (fun _ => None)
    0 10 (MkTimeval 15 false) rt_init (Some 5)) as H.
  specialize (H _ ltac:(i64_lia) ltac:(lia) ltac:(unfold timeval_wf; simpl; i64_lia) eq_refl).
  reflexivity.
Defined.
