(* ===== verification/Codec.v ===== *)
(** src/src/codec.rs: the raw-bytes codec tonic is instantiated with.  The
    buffers are the [Buf]/[BufMut] traits of the bytes crate, an interface
    whose laws say that [put] appends, [remaining] counts and [copy_to_bytes]
    takes from the front. *)

From S2P Require Import Prelude Tonic.
From Stdlib Require Import Strings.Byte.
From stdpp Require Import base list.

Class BufApi := {
  EncodeBuf : Type;
  DecodeBuf : Type;
  enc_bytes : EncodeBuf -> bytes;
  dec_bytes : DecodeBuf -> bytes;
  buf_put : EncodeBuf -> bytes -> EncodeBuf;
  buf_remaining : DecodeBuf -> nat;
  buf_copy_to_bytes : DecodeBuf -> nat -> bytes * DecodeBuf;
  buf_put_bytes b x : enc_bytes (buf_put b x) = enc_bytes b ++ x;
  buf_remaining_length b : buf_remaining b = length (dec_bytes b);
  buf_copy_spec b n : n <= buf_remaining b ->
    (buf_copy_to_bytes b n).1 = take n (dec_bytes b)
    /\ dec_bytes (buf_copy_to_bytes b n).2 = drop n (dec_bytes b);
}.

(** * tonic's codec traits

    An encoder and a decoder are objects the runtime of tonic keeps for the
    whole call and feeds one frame at a time. *)
Section traits.
Context {Tn : TonicApi} {Bf : BufApi}.

Class Encoder (E Item : Type) := encode : Item -> M (E * EncodeBuf) Status unit.
Class Decoder (D Item : Type) := decode : M (D * DecodeBuf) Status (option Item).
Class Codec (C E D Item : Type) `{Encoder E Item} `{Decoder D Item} := {
  encoder : C -> E * C;
  decoder : C -> D * C;
}.

End traits.

Inductive RawBytesCodec : Type := MkRawBytesCodec.
Inductive RawBytesEncoder : Type := MkRawBytesEncoder.
Inductive RawBytesDecoder : Type := MkRawBytesDecoder.

Section codec.
Context {Tn : TonicApi} {Bf : BufApi}.

Definition raw_encode (item : bytes) : M (RawBytesEncoder * EncodeBuf) Status unit := fun '(self, dst) =>
  (Return tt, (self, buf_put dst item)).
#[global] Instance raw_encoder : Encoder RawBytesEncoder bytes := raw_encode.

(** A zero-length message is a message. *)
Definition raw_decode : M (RawBytesDecoder * DecodeBuf) Status (option bytes) := fun '(self, src) =>
  let remaining := buf_remaining src in
  if Nat.eqb remaining 0 then (Return (Some []), (self, src))
  else let '(b, src') := buf_copy_to_bytes src remaining in (Return (Some b), (self, src')).
#[global] Instance raw_decoder : Decoder RawBytesDecoder bytes := raw_decode.

Definition codec_encoder (self : RawBytesCodec) : RawBytesEncoder * RawBytesCodec := (MkRawBytesEncoder, self).
Definition codec_decoder (self : RawBytesCodec) : RawBytesDecoder * RawBytesCodec := (MkRawBytesDecoder, self).
#[global] Instance raw_codec : Codec RawBytesCodec RawBytesEncoder RawBytesDecoder bytes := {|
  encoder := codec_encoder;
  decoder := codec_decoder;
|}.

(** The frames of a sequence of messages: what each call of [encode] appends. *)
Fixpoint encode_frames (e : RawBytesEncoder) (dst : EncodeBuf) (ms : list bytes) : option (list bytes) :=
  match ms with
  | [] => Some []
  | m :: ms =>
      match encode m (e, dst) with
      | (Return _, (e, dst')) =>
          (fun l => drop (length (enc_bytes dst)) (enc_bytes dst') :: l) <$> encode_frames e dst' ms
      | _ => None
      end
  end.

(** One call of [decode] per frame; [None]: an error, no message, or bytes left
    over. *)
Fixpoint decode_frames (d : RawBytesDecoder) (srcs : list DecodeBuf) : option (list bytes) :=
  match srcs with
  | [] => Some []
  | src :: srcs =>
      match decode (d, src) with
      | (Return (Some m), (d, src')) =>
          match dec_bytes src' with [] => (fun l => m :: l) <$> decode_frames d srcs | _ => None end
      | _ => None
      end
  end.

Lemma raw_decode_frame d src : exists src', decode (d, src) = (Return (Some (dec_bytes src)), (d, src')) /\ dec_bytes src' = [].
Proof.
  unfold decode, raw_decoder, raw_decode. rewrite buf_remaining_length. destruct (Nat.eqb_spec (length (dec_bytes src)) 0) as [E|E].
  - destruct (dec_bytes src) eqn:Es; [|done]. eauto.
  - pose proof (buf_copy_spec src (length (dec_bytes src))) as [H1 H2]; [by rewrite buf_remaining_length|].
    destruct (buf_copy_to_bytes src _) as [b src']; simpl in *. exists src'. by rewrite H1, H2, firstn_all, drop_all.
Qed.

(** C28: for any sequence of messages of a call, empty ones included, the frames
    the codec's encoder writes are decoded by its decoder, frame by frame, to
    exactly these messages: neither fails, the decoder never answers that there
    is no message, and it consumes each frame to the end. *)
Theorem codec_roundtrip (codec : RawBytesCodec) (ms : list bytes) (dst : EncodeBuf) :
  let '(e, codec) := encoder codec in
  let '(d, _) := decoder codec in
  exists frames, encode_frames e dst ms = Some frames
    /\ forall srcs : list DecodeBuf, dec_bytes <$> srcs = frames -> decode_frames d srcs = Some ms.
Proof.
  simpl. revert dst. induction ms as [|m ms IH]; intros dst; simpl.
  - exists []. split; [done|]. by intros [].
  - rewrite buf_put_bytes, drop_app_length. destruct (IH (buf_put dst m)) as (fs & -> & Hd).
    exists (m :: fs). split; [done|]. intros [|src srcs] H; simplify_eq/=.
    destruct (raw_decode_frame MkRawBytesDecoder src) as (src' & -> & ->). by rewrite Hd.
Qed.

End codec.

(** * A concrete buffer, for the witness *)
#[global, refine] Instance BufModel : BufApi := {|
  EncodeBuf := bytes;
  DecodeBuf := bytes;
  enc_bytes b := b;
  dec_bytes b := b;
  buf_put b x := b ++ x;
  buf_remaining b := length b;
  buf_copy_to_bytes b n := (take n b, drop n b);
|}.
Proof. all: done. Defined.

Lemma codec_roundtrip_witness :
  decode_frames (Bf := BufModel) (Tn := TonicModel) MkRawBytesDecoder [[x07]; []; [x00; xff]] = Some [[x07]; []; [x00; xff]].
Proof.
  destruct (codec_roundtrip (Bf := BufModel) (Tn := TonicModel) MkRawBytesCodec [[x07]; []; [x00; xff]] [x01; x02])
    as (frames & He & Hd).
  apply Hd. apply (inj Some). rewrite <- He. reflexivity.
Defined.
