(* ===== verification/Credentials.v ===== *)
(** src/src/credentials.rs: channel and call credentials.

    The process-wide state is the default root PEM and the credentials id
    counter.  The TLS configuration builder is tonic's ([TlsApi], a
    third-party type).  A plugin cell [Arc<Mutex<Option<Zval>>>] is written
    only when it is created, so sharing it is sharing its value. *)

From S2P Require Import Prelude Zend Tonic Error.
From Stdlib Require Import ZArith Lia String.
From stdpp Require Import base list strings.

#[local] Open Scope Z_scope.

(** [tonic::transport::ClientTlsConfig] and its builder calls. *)
Class TlsApi := {
  ClientTlsConfig : Type;
  tls_new : ClientTlsConfig;
  tls_with_webpki_roots : ClientTlsConfig -> ClientTlsConfig;
  tls_ca_certificate : ClientTlsConfig -> string -> ClientTlsConfig;
  tls_identity : ClientTlsConfig -> string -> string -> ClientTlsConfig;
  tls_domain_name : ClientTlsConfig -> string -> ClientTlsConfig;
}.

Section credentials.
Context {Zd : ZendApi} {Tn : TonicApi} {Tls : TlsApi}.

Inductive CredentialsInner : Type :=
| Ssl (tls_config : ClientTlsConfig)
| Composite (tls_config : ClientTlsConfig) (call_plugin : option Zval).

Record GrpcChannelCredentials : Type := MkCreds {
  cc_inner : CredentialsInner;
  cc_id : Z;
}.

Record GrpcCallCredentials : Type := MkCallCreds {
  call_creds_plugin : option Zval;
}.

(** [DEFAULT_ROOTS_PEM] and [NEXT] (an [AtomicU64]). *)
Record CredsState : Type := MkCredsState {
  default_roots_pem : option string;
  creds_next : Z;
}.

Definition creds_init : CredsState := MkCredsState None 1.

Abbreviation CM := (M CredsState PhpException).

Definition next_credentials_id : CM Z := fun s =>
  (Return (creds_next s), MkCredsState (default_roots_pem s) (wrap_u64 (creds_next s + 1))).

Definition create_ssl (pem_root_certs pem_private_key pem_cert_chain : option string)
    : CM GrpcChannelCredentials :=
  let tls := tls_with_webpki_roots tls_new in
  guard_ ← gets default_roots_pem;
  let roots := match pem_root_certs with Some p => Some p | None => guard_ end in
  let tls := match roots with Some pem => tls_ca_certificate tls pem | None => tls end in
  let tls := match pem_cert_chain, pem_private_key with
             | Some cert_chain, Some private_key => tls_identity tls cert_chain private_key
             | _, _ => tls
             end in
  id ← next_credentials_id;
  mret (MkCreds (Ssl tls) id).

(** [createInsecure] is PHP null. *)
Definition create_insecure : option GrpcChannelCredentials := None.

Definition creds_tls (c : CredentialsInner) : ClientTlsConfig :=
  match c with Ssl t => t | Composite t _ => t end.

Definition create_composite (channel_creds : GrpcChannelCredentials)
    (call_creds : GrpcCallCredentials) : CM GrpcChannelCredentials :=
  let tls_config := creds_tls (cc_inner channel_creds) in
  id ← next_credentials_id;
  mret (MkCreds (Composite tls_config (call_creds_plugin call_creds)) id).

Definition create_default : CM GrpcChannelCredentials :=
  let tls := tls_with_webpki_roots tls_new in
  guard_ ← gets default_roots_pem;
  let tls := match guard_ with Some pem => tls_ca_certificate tls pem | None => tls end in
  id ← next_credentials_id;
  mret (MkCreds (Ssl tls) id).

Definition set_default_roots_pem (pem : string) : CM unit :=
  modify (fun s => MkCredsState (Some pem) (creds_next s)).

Definition is_default_roots_pem_set : CM bool :=
  gets (fun s => bool_decide (is_Some (default_roots_pem s))).

Definition invalidate_default_roots_pem : CM unit :=
  modify (fun s => MkCredsState None (creds_next s)).

Definition create_from_plugin (callback : Zval) : result PhpException GrpcCallCredentials :=
  if negb (zv_is_callable callback)
  then Err (exn_default "createFromPlugin expects a callable")
  else Ok (MkCallCreds (Some callback)).

(** [CallCredentials::createComposite]. *)
Definition call_create_composite (creds1 creds2 : GrpcCallCredentials)
    : result PhpException GrpcCallCredentials :=
  let plugin := call_creds_plugin creds1 in
  let plugin := match plugin with Some p => Some p | None => call_creds_plugin creds2 end in
  Ok (MkCallCreds plugin).

(** * Properties *)

(** One call of the static PHP methods. *)
Inductive CredOp : Type :=
| OpCreateSsl (root key cert : option string)
| OpCreateComposite (cc : GrpcChannelCredentials) (call : GrpcCallCredentials)
| OpCreateDefault
| OpSetRoots (pem : string)
| OpInvalidateRoots.

Definition cred_op (op : CredOp) : CM (option GrpcChannelCredentials) :=
  match op with
  | OpCreateSsl r k c => x ← create_ssl r k c; mret (Some x)
  | OpCreateComposite cc call => x ← create_composite cc call; mret (Some x)
  | OpCreateDefault => x ← create_default; mret (Some x)
  | OpSetRoots pem => set_default_roots_pem pem ;; mret None
  | OpInvalidateRoots => invalidate_default_roots_pem ;; mret None
  end.

(** The credentials a sequence of calls creates, in order. *)
Fixpoint cred_run (ops : list CredOp) (s : CredsState) : list GrpcChannelCredentials :=
  match ops with
  | [] => []
  | op :: ops' =>
      match cred_op op s with
      | (Return (Some c), s') => c :: cred_run ops' s'
      | (_, s') => cred_run ops' s'
      end
  end.

Lemma cred_op_spec op s :
  exists r s', cred_op op s = (Return r, s')
    /\ match r with
       | Some c => cc_id c = creds_next s /\ creds_next s' = wrap_u64 (creds_next s + 1)
       | None => creds_next s' = creds_next s
       end.
Proof. destruct op; eexists _, _; split; try reflexivity; simpl; auto. Qed.

Lemma cred_run_ids ops s :
  1 <= creds_next s -> creds_next s + Z.of_nat (length ops) <= u64_max ->
  Forall (fun c => creds_next s <= cc_id c < creds_next s + Z.of_nat (length ops)) (cred_run ops s)
  /\ NoDup (cc_id <$> cred_run ops s).
Proof.
  revert s. induction ops as [|op ops IH]; intros s H1 H2; simpl.
  - split; constructor.
  - destruct (cred_op_spec op s) as (r & s' & -> & Hr).
    destruct r as [c|]; simpl in *.
    + destruct Hr as [Hid Hn]. rewrite wrap_u64_id in Hn by (unfold u64_max in *; lia).
      destruct (IH s') as [IHf IHn]; [lia|lia|]. rewrite Hn in IHf. split.
      * constructor; [lia|]. eapply Forall_impl; [exact IHf|]. simpl. lia.
      * simpl. constructor; [|done]. rewrite list_elem_of_fmap. intros (c' & He & Hin).
        rewrite Forall_forall in IHf. specialize (IHf _ Hin). simpl in IHf. lia.
    + destruct (IH s') as [IHf IHn]; [lia|lia|]. rewrite Hr in IHf. split; [|done].
      eapply Forall_impl; [exact IHf|]. simpl. lia.
Qed.

(** No two credentials objects created in a process ever have the same id, and
    none has the id 0 that stands for an insecure channel, for every sequence
    of fewer than 2^64 - 1 calls of the static methods. *)
Theorem credentials_ids_distinct (ops : list CredOp) :
  1 + Z.of_nat (length ops) <= u64_max ->
  NoDup (cc_id <$> cred_run ops creds_init)
  /\ Forall (fun c => cc_id c <> 0) (cred_run ops creds_init).
Proof.
  intros H. destruct (cred_run_ids ops creds_init) as [Hf Hn]; [simpl; lia|simpl; lia|].
  split; [done|]. eapply Forall_impl; [exact Hf|]. simpl. lia.
Qed.

(** [createSsl] always enables the bundled Mozilla roots, adds the explicit root
    PEM or else the process default (never both), and adds a client identity
    exactly when both the certificate chain and the key are given; without
    arguments it is [createDefault]; it never changes the default. *)
Theorem create_ssl_spec (root key cert : option string) (s : CredsState) :
  let base := tls_with_webpki_roots tls_new in
  let rooted := match root, default_roots_pem s with
                | Some p, _ | None, Some p => tls_ca_certificate base p
                | None, None => base
                end in
  let final := match cert, key with
               | Some c, Some k => tls_identity rooted c k
               | _, _ => rooted
               end in
  (exists s', create_ssl root key cert s = (Return (MkCreds (Ssl final) (creds_next s)), s')
     /\ default_roots_pem s' = default_roots_pem s)
  /\ create_ssl None None None s = create_default s.
Proof.
  destruct root, cert, key, s as [[] ?]; simpl; unfold create_ssl; mred;
    (split; [eexists; split; reflexivity | reflexivity]).
Qed.

(** The default-roots cell is a write-last register: after [set] it is set and
    every later [createDefault] uses that PEM, after [invalidate] it is unset
    and [createDefault] uses only the bundled roots. *)
Theorem default_roots_lifecycle (pem : string) (s : CredsState) :
  let s1 := (set_default_roots_pem pem s).2 in
  let s2 := (invalidate_default_roots_pem s1).2 in
  is_default_roots_pem_set s1 = (Return true, s1)
  /\ (create_default s1).1
     = Return (MkCreds (Ssl (tls_ca_certificate (tls_with_webpki_roots tls_new) pem)) (creds_next s))
  /\ is_default_roots_pem_set s2 = (Return false, s2)
  /\ (create_default s2).1
     = Return (MkCreds (Ssl (tls_with_webpki_roots tls_new)) (creds_next s)).
Proof. repeat split. Qed.

(** Composing call credentials keeps one plugin only: the first operand's when
    it has one, so the second operand's plugin is never invoked. *)
Theorem call_composite_first_plugin (z1 z2 : Zval) (c1 c2 c : GrpcCallCredentials) :
  create_from_plugin z1 = Ok c1 -> create_from_plugin z2 = Ok c2 ->
  call_create_composite c1 c2 = Ok c ->
  call_creds_plugin c = Some z1.
Proof.
  unfold create_from_plugin, call_create_composite.
  destruct (zv_is_callable z1), (zv_is_callable z2); simpl; intros; by simplify_eq.
Qed.

End credentials.

(** * Witnesses *)
#[global] Instance TlsModel : TlsApi := {|
  ClientTlsConfig := list string;
  tls_new := [];
  tls_with_webpki_roots t := t ++ ["webpki"%string];
  tls_ca_certificate t p := t ++ ["ca"%string; p];
  tls_identity t c k := t ++ ["identity"%string; c; k];
  tls_domain_name t n := t ++ ["domain"%string; n];
|}.

Lemma credentials_ids_distinct_witness :
  NoDup (cc_id (Zd := ZendModel) (Tls := TlsModel)
           <$> cred_run [OpCreateDefault; OpSetRoots "pem"; OpCreateSsl None None None] creds_init)
  /\ (cc_id (Zd := ZendModel) (Tls := TlsModel)
           <$> cred_run [OpCreateDefault; OpSetRoots "pem"; OpCreateSsl None None None] creds_init)
     = [1; 2].
Proof.
  split; [|reflexivity].
  apply (credentials_ids_distinct (Zd := ZendModel) (Tls := TlsModel)
           [OpCreateDefault; OpSetRoots "pem"; OpCreateSsl None None None]).
  vm_compute. discriminate.
Defined.

Lemma call_composite_first_plugin_witness :
  call_creds_plugin (Zd := ZendModel) (MkCallCreds (Zd := ZendModel) (Some (ZvClosure 1)))
  = Some (ZvClosure 1).
Proof.
  apply (call_composite_first_plugin (Zd := ZendModel) (ZvClosure 1) (ZvClosure 2)
    (MkCallCreds (Zd := ZendModel) (Some (ZvClosure 1)))
    (MkCallCreds (Zd := ZendModel) (Some (ZvClosure 2)))); reflexivity.
Defined.
