(* ===== verification/Metadata.v ===== *)
(** Metadata in src/src/call.rs: parsing the PHP arrays of a send batch and of
    a credentials plugin, writing the pairs into a tonic request, and turning
    response metadata and statuses back into PHP arrays. *)

From S2P Require Import Prelude Utf8 Zend Tonic Error.
From Stdlib Require Import ZArith Lia Ascii String Strings.Byte.
From stdpp Require Import base list strings sets.

#[local] Open Scope string_scope.
#[local] Open Scope list_scope.

Section metadata.
Context {Zd : ZendApi} {Tn : TonicApi}.

(** * Keys *)

Definition array_key_to_string (key : ArrayKey ZStr) : option string :=
  match key with
  | AK_String s => Some s
  | AK_Str s => Some s
  | AK_ZendString zs => zs_as_str zs
  | AK_Long _ => None
  end.

Definition array_key_to_long (key : ArrayKey ZStr) : result GrpcError Z :=
  match key with
  | AK_Long n => Ok n
  | AK_String s => ok_or (parse_i64 s) (InvalidArg ("invalid op key: " +:+ s))
  | AK_Str s => ok_or (parse_i64 s) (InvalidArg ("invalid op key: " +:+ s))
  | AK_ZendString zs =>
      ok_or (s ← zs_as_str zs; parse_i64 s) (InvalidArg "invalid op key")
  end.

Definition header_byte_is_legal (b : byte) : bool :=
  byte_in 97 122 b || byte_in 48 57 b || byte_in 45 45 b || byte_in 95 95 b || byte_in 46 46 b.

Definition header_key_is_legal (key : string) : bool :=
  negb (String.eqb key "") && forallb header_byte_is_legal (as_bytes key).

(** * From PHP *)

Definition bad_metadata : PhpException := invalid_argument "Bad metadata value given".

(** The body of the inner loop: one value of the key [k]. *)
Definition push_value (k : string) (metadata : list (string * string)) (iv : ArrayKey ZStr * Zval)
    : result PhpException (list (string * string)) :=
  s ← ok_or (zv_zend_str iv.2) bad_metadata;
  Ok (metadata ++ [(k, from_utf8_lossy (zs_as_bytes s))]).

(** The body of the outer loop: one entry of the array. *)
Definition push_entry (metadata : list (string * string)) (kv : ArrayKey ZStr * Zval)
    : result PhpException (list (string * string)) :=
  k ← ok_or (array_key_to_string kv.1) bad_metadata;
  if negb (header_key_is_legal k) then Err bad_metadata
  else
    values ← ok_or (zv_array kv.2) bad_metadata;
    try_fold (push_value k) metadata (ht_iter values).

Definition parse_send_metadata (ht : HashTable) : result PhpException (list (string * string)) :=
  try_fold push_entry [] (ht_iter ht).

Definition parse_metadata (ht : HashTable) : list (string * string) :=
  foldl (fun metadata kv =>
    match array_key_to_string kv.1 with
    | None => metadata
    | Some k =>
        match zv_array kv.2 with
        | Some arr =>
            foldl (fun metadata iv =>
              match zv_string iv.2 with
              | Some s => metadata ++ [(k, s)]
              | None => metadata
              end) metadata (ht_iter arr)
        | None =>
            match zv_string kv.2 with
            | Some s => metadata ++ [(k, s)]
            | None => metadata
            end
        end
    end) [] (ht_iter ht).

(** * Into a tonic request *)

(** One insertion loop of [build_request]: pairs tonic refuses are skipped. *)
Definition apply_pairs (m : MetadataMap) (pairs : list (string * string)) : MetadataMap :=
  foldl (fun m kv =>
    match key_from_bytes (as_bytes kv.1), val_parse kv.2 with
    | Some name, Some val => md_insert m name val
    | _, _ => m
    end) m pairs.

Definition apply_metadata (send_metadata plugin_metadata : list (string * string)) : MetadataMap :=
  apply_pairs (apply_pairs md_default send_metadata) plugin_metadata.

(** * To PHP *)

(** The [(key, bytes)] of one entry of the map; [None]: the entry is skipped. *)
Definition decode_entry (kv : KeyAndValueRef AsciiVal BinVal) : option (string * bytes) :=
  match kv with
  | KV_Ascii key value => s ← val_to_str value; Some (key, as_bytes s)
  | KV_Binary key value => d ← bin_to_bytes value; Some (key, d)
  end.

(** [entries.iter_mut().find(..)]: append to the slot of the key, or add one. *)
Fixpoint add_entry (key : string) (b : bytes) (entries : list (string * list bytes))
    : list (string * list bytes) :=
  match entries with
  | [] => [(key, [b])]
  | (k, vs) :: rest =>
      if bool_decide (k = key) then (k, vs ++ [b]) :: rest else (k, vs) :: add_entry key b rest
  end.

Definition collect_metadata (map : MetadataMap) : list (string * list bytes) :=
  foldl (fun entries kv =>
    match decode_entry kv with
    | Some (key, b) => add_entry key b entries
    | None => entries
    end) [] (md_iter map).

Definition bytes_to_php_string_zval (b : bytes) : Zval := zv_of_bytes b.

Definition is_reserved_header (key : string) : bool :=
  bool_decide (key = "content-type") || bool_decide (key = "grpc-status")
  || bool_decide (key = "grpc-message") || bool_decide (key = "grpc-encoding")
  || bool_decide (key = "grpc-accept-encoding").

Definition metadata_build_error (e : string) : GrpcError := InvalidArg ("metadata build: " +:+ e).

Definition php_push (arr : HashTable) (v : bytes) : result GrpcError HashTable :=
  map_err metadata_build_error (ht_push arr (bytes_to_php_string_zval v)).

Definition php_add_group (ht : HashTable) (kv : string * list bytes) : result GrpcError HashTable :=
  if is_reserved_header kv.1 then Ok ht
  else
    arr ← try_fold php_push ht_new kv.2;
    map_err metadata_build_error (ht_insert ht kv.1 (zv_of_ht arr)).

Definition metadata_to_php (map : MetadataMap) : result GrpcError HashTable :=
  try_fold php_add_group ht_new (collect_metadata map).

Definition status_metadata_for_php (status : Status) : MetadataMap :=
  let metadata := st_metadata status in
  match st_details status with
  | [] => metadata
  | details => md_insert_bin metadata "grpc-status-details-bin" (bin_from_bytes details)
  end.

(** * Reference definitions *)

(** Keys in the order they first occur. *)
Fixpoint first_occ (l : list string) : list string :=
  match l with
  | [] => []
  | x :: l' => x :: filter (fun y => y <> x) (first_occ l')
  end.

Definition values_of {A} (k : string) (l : list (string * A)) : list A :=
  omap (fun kv => if bool_decide (kv.1 = k) then Some kv.2 else None) l.

(** Grouping by key: first occurrences in order, each with all its values. *)
Definition group_by_key (pairs : list (string * bytes)) : list (string * list bytes) :=
  (fun k => (k, values_of k pairs)) <$> first_occ pairs.*1.

(** The value a [(key, value)] list would send under a wire key, in order. *)
Definition accepted `{!TonicLaws Tn} (k : string) (pairs : list (string * string)) : list AsciiVal :=
  omap (fun kv =>
    name ← key_from_bytes (as_bytes kv.1);
    val ← val_parse kv.2;
    if bool_decide (key_str name = k) then Some val else None) pairs.

(** What one entry of a send-metadata array contributes. *)
Inductive send_entry : ArrayKey ZStr * Zval -> list (string * string) -> Prop :=
| send_entry_intro key val k values ss :
    array_key_to_string key = Some k ->
    header_key_is_legal k = true ->
    zv_array val = Some values ->
    Forall2 (fun iv s => exists zs, zv_zend_str iv.2 = Some zs
                                    /\ s = from_utf8_lossy (zs_as_bytes zs)) (ht_iter values) ss ->
    send_entry (key, val) ((fun s => (k, s)) <$> ss).

(** * Lemmas *)

Lemma first_occ_elem l x : x ∈ first_occ l <-> x ∈ l.
Proof.
  induction l as [|y l IH]; simpl; [done|].
  rewrite !elem_of_cons, list_elem_of_filter, IH.
  destruct (decide (x = y)); naive_solver.
Qed.

Lemma first_occ_NoDup l : NoDup (first_occ l).
Proof.
  induction l as [|x l IH]; simpl; constructor.
  - rewrite list_elem_of_filter. naive_solver.
  - by apply NoDup_filter.
Qed.

Lemma first_occ_snoc l x :
  first_occ (l ++ [x]) = if bool_decide (x ∈ l) then first_occ l else first_occ l ++ [x].
Proof.
  induction l as [|y l IH]; [done|]. cbn [first_occ app].
  rewrite IH. repeat case_bool_decide; try (exfalso; set_solver); try done.
  - assert (x = y) as -> by set_solver.
    rewrite filter_app, filter_cons_False, filter_nil, app_nil_r by (by intros []). done.
  - rewrite filter_app, filter_cons_True, filter_nil by set_solver. done.
Qed.

Lemma values_of_app {A} k (l1 l2 : list (string * A)) :
  values_of k (l1 ++ l2) = values_of k l1 ++ values_of k l2.
Proof. apply omap_app. Qed.

Lemma values_of_notin {A} k (l : list (string * A)) : k ∉ l.*1 -> values_of k l = [].
Proof.
  induction l as [|[k' v] l IH]; csimpl; [done|]. intros H.
  rewrite bool_decide_false by set_solver. apply IH. set_solver.
Qed.

Lemma values_of_in {A} k (l : list (string * A)) : k ∈ l.*1 -> values_of k l <> [].
Proof.
  induction l as [|[k' v] l IH]; csimpl; [set_solver|]. intros H.
  case_bool_decide; [done|]. apply IH. set_solver.
Qed.

Lemma add_entry_map k b (f : string -> list bytes) l :
  NoDup l ->
  add_entry k b ((fun k => (k, f k)) <$> l)
  = if bool_decide (k ∈ l)
    then (fun k' => (k', if bool_decide (k' = k) then f k' ++ [b] else f k')) <$> l
    else ((fun k => (k, f k)) <$> l) ++ [(k, [b])].
Proof.
  induction l as [|x l IH]; csimpl; intros Hnd; [done|].
  inversion Hnd as [|?? Hx Hl]; subst.
  destruct (decide (x = k)) as [->|Hne].
  - rewrite !bool_decide_true by set_solver. f_equal.
    apply list_fmap_ext. intros i y Hy. rewrite bool_decide_false; [done|].
    intros ->. apply Hx. by eapply list_elem_of_lookup_2.
  - rewrite (bool_decide_false (x = k)), IH by done.
    destruct (decide (k ∈ l)).
    + rewrite !bool_decide_true by set_solver. done.
    + rewrite !bool_decide_false by set_solver. done.
Qed.

Lemma group_by_key_snoc pairs k b :
  group_by_key (pairs ++ [(k, b)]) = add_entry k b (group_by_key pairs).
Proof.
  unfold group_by_key. rewrite add_entry_map by apply first_occ_NoDup.
  rewrite fmap_app. simpl. rewrite first_occ_snoc.
  rewrite (bool_decide_ext (k ∈ first_occ pairs.*1) (k ∈ pairs.*1)) by apply first_occ_elem.
  case_bool_decide as Hk.
  - apply list_fmap_ext. intros i k' _. rewrite values_of_app. simpl.
    case_bool_decide; subst; [by rewrite bool_decide_true|].
    by rewrite bool_decide_false, app_nil_r by done.
  - rewrite fmap_app. csimpl. f_equal.
    + apply list_fmap_ext. intros i k' Hk'. rewrite values_of_app. simpl.
      rewrite bool_decide_false, app_nil_r; [done|]. intros ->.
      apply Hk. apply first_occ_elem. by eapply list_elem_of_lookup_2.
    + rewrite values_of_app, values_of_notin by done. csimpl. by rewrite bool_decide_true.
Qed.

Lemma collect_metadata_group m :
  collect_metadata m = group_by_key (omap decode_entry (md_iter m)).
Proof.
  unfold collect_metadata. induction (md_iter m) as [|kv l IH] using rev_ind; [done|].
  rewrite foldl_app, omap_app, IH. simpl.
  destruct (decode_entry kv) as [[k b]|]; simpl; [|by rewrite app_nil_r].
  by rewrite group_by_key_snoc.
Qed.

(** The inner loop over the values of one key. *)
Lemma parse_values_ok k vs acc md :
  try_fold (push_value k) acc vs = Ok md
  <-> exists ss : list string, Forall2 (fun (iv : ArrayKey ZStr * Zval) s =>
                   exists zs, zv_zend_str iv.2 = Some zs
                              /\ s = from_utf8_lossy (zs_as_bytes zs)) vs ss
                /\ md = acc ++ ((fun s => (k, s)) <$> ss).
Proof.
  revert acc. induction vs as [|[i v] vs IH]; intros acc; simpl; unfold push_value; simpl.
  - split.
    + intros; simplify_eq. exists []. split; [constructor|]. by rewrite app_nil_r.
    + intros (ss & Hss & ->). inversion Hss; subst. by rewrite app_nil_r.
  - destruct (zv_zend_str v) as [zs|] eqn:Hz; simpl.
    + rewrite IH. split.
      * intros (ss & Hss & ->). eexists (_ :: ss). split; [constructor; eauto|].
        simpl. by rewrite <- app_assoc.
      * intros (ss & Hss & ->). inversion Hss as [|?? ? ss' (zs' & Hzs & ->) Hr]; subst.
        simpl in Hzs. rewrite Hz in Hzs. simplify_eq. exists ss'. split; [done|].
        simpl. by rewrite <- app_assoc.
    + split; [done|]. intros (ss & Hss & _).
      inversion Hss as [|?? ? ss' (zs' & Hzs & _) Hr]; subst. simpl in Hzs. congruence.
Qed.

Lemma parse_send_metadata_ok ht md :
  parse_send_metadata ht = Ok md <->
  exists parts, Forall2 send_entry (ht_iter ht) parts /\ md = concat parts.
Proof.
  unfold parse_send_metadata.
  assert (Hg : forall l acc, try_fold push_entry acc l = Ok md <->
    exists parts, Forall2 send_entry l parts /\ md = acc ++ concat parts); [|apply (Hg _ [])].
  induction l as [|[key val] l IH]; intros acc; simpl; unfold push_entry; simpl.
  + split.
    * intros; simplify_eq. exists []. split; [constructor|]. by rewrite app_nil_r.
    * intros (parts & Hp & ->). inversion Hp; subst. by rewrite app_nil_r.
  + split.
    * destruct (array_key_to_string key) as [k|] eqn:Hk; [simpl|done].
      destruct (header_key_is_legal k) eqn:Hl; [simpl|done].
      destruct (zv_array val) as [vs|] eqn:Ha; [simpl|done].
      case_match eqn:Hv; [|done]. apply parse_values_ok in Hv as (ss & Hss & ->).
      rewrite IH. intros (parts & Hp & ->). eexists (_ :: parts).
      split; [constructor; [by econstructor|done]|]. simpl. by rewrite app_assoc.
    * intros (parts & Hp & ->). inversion Hp as [|?? ? parts' He Hr]; subst.
      inversion He as [key' val' k vs ss Hk Hl Ha Hss]; subst.
      rewrite Hk. simpl. rewrite Hl. simpl. rewrite Ha. simpl.
      rewrite (proj2 (parse_values_ok k (ht_iter vs) acc _)) by eauto.
      apply IH. exists parts'. split; [done|]. simpl. by rewrite app_assoc.
Qed.

Lemma try_fold_err {E A B} (f : B -> A -> result E B) (e0 : E) b l e :
  (forall b x e, f b x = Err e -> e = e0) -> try_fold f b l = Err e -> e = e0.
Proof.
  intros Hf. revert b. induction l as [|x l IH]; simpl; intros b; [done|].
  destruct (f b x) eqn:Hx; [apply IH|]. intros; simplify_eq. eauto.
Qed.

(** Insertion keeps, under each wire key, the last accepted value only. *)
Lemma apply_pairs_ascii `{!TonicLaws Tn} m pairs k :
  ascii_at k (md_iter (apply_pairs m pairs))
  = match last (accepted k pairs) with Some v => [v] | None => ascii_at k (md_iter m) end.
Proof.
  unfold apply_pairs. induction pairs as [|[key v] l IH] using rev_ind; [done|].
  rewrite foldl_app. unfold accepted in *. rewrite omap_app. simpl.
  destruct (key_from_bytes (as_bytes key)) as [name|]; simpl; [|by rewrite app_nil_r].
  destruct (val_parse v) as [val|]; simpl; [|by rewrite app_nil_r].
  rewrite md_insert_ascii. case_bool_decide; simpl.
  - by rewrite last_snoc.
  - by rewrite app_nil_r.
Qed.

Lemma apply_pairs_binary `{!TonicLaws Tn} m pairs k :
  binary_at k (md_iter (apply_pairs m pairs)) = binary_at k (md_iter m).
Proof.
  unfold apply_pairs. induction pairs as [|[key v] l IH] using rev_ind; [done|].
  rewrite foldl_app. simpl. repeat case_match; rewrite ?md_insert_binary; done.
Qed.

(** The array of one key's values, as [metadata_to_php] builds it. *)
Lemma push_values_ok `{!ZendLaws Zd} vs arr :
  exists arr', try_fold php_push arr vs = Ok arr'
    /\ ht_values arr' = ht_values arr ++ (bytes_to_php_string_zval <$> vs).
Proof.
  revert arr. induction vs as [|v vs IH]; intros arr; simpl.
  - exists arr. by rewrite app_nil_r.
  - unfold php_push at 1.
    destruct (ht_push_ok arr (bytes_to_php_string_zval v)) as (h & -> & Hv). simpl.
    destruct (IH h) as (arr' & -> & Ha). exists arr'. split; [done|].
    by rewrite Ha, Hv, <- app_assoc.
Qed.

(** What PHP sees of a group of values. *)
Definition php_group `{!ZendLaws Zd} (kz : string * Zval) (kv : string * list bytes) : Prop :=
  kz.1 = kv.1 /\ exists arr, kz.2 = zv_of_ht arr
    /\ ht_values arr = bytes_to_php_string_zval <$> kv.2.

Definition unreserved (kv : string * list bytes) : Prop := is_reserved_header kv.1 = false.
#[global] Instance unreserved_dec kv : Decision (unreserved kv).
Proof. unfold unreserved. apply _. Defined.

Lemma metadata_to_php_loop `{!ZendLaws Zd} es ht done_ :
  NoDup (done_.*1 ++ es.*1) -> Forall2 php_group (ht_named ht) (filter unreserved done_) ->
  exists ht', try_fold php_add_group ht es = Ok ht'
    /\ Forall2 php_group (ht_named ht') (filter unreserved (done_ ++ es)).
Proof.
  revert ht done_. induction es as [|[k vs] es IH]; intros ht done_ Hnd Hf; simpl.
  - exists ht. by rewrite app_nil_r.
  - unfold php_add_group at 1. simpl. rewrite (cons_middle (k, vs)), (app_assoc done_).
    assert (Hnd' : NoDup ((done_ ++ [(k, vs)]).*1 ++ es.*1)).
    { rewrite fmap_app, <- app_assoc. done. }
    destruct (is_reserved_header k) eqn:Hr.
    + apply IH; [done|]. rewrite filter_app, filter_cons_False, filter_nil, app_nil_r; [done|].
      unfold unreserved. simpl. congruence.
    + destruct (push_values_ok vs ht_new) as (arr & -> & Ha). simpl.
      rewrite ht_values_new in Ha. simpl in Ha.
      destruct (ht_insert_ok ht k (zv_of_ht arr)) as (h & -> & Hn).
      { assert (Heq : (ht_named ht).*1 = (filter unreserved done_).*1).
        { clear -Hf. induction Hf as [|x y ? ? [Hxy _] _ IHf]; csimpl; congruence. }
        rewrite Heq. apply NoDup_app in Hnd as (_ & Hd & _).
        intros Hin%list_elem_of_fmap. destruct Hin as ([k' vs'] & -> & Hin).
        apply list_elem_of_filter in Hin as [_ Hin].
        apply (Hd k'); [|csimpl; left].
        apply list_elem_of_fmap. by exists (k', vs'). }
      simpl. apply IH; [done|]. rewrite Hn, filter_app, filter_cons_True, filter_nil by done.
      apply Forall2_app; [done|]. constructor; [|constructor]. split; [done|]. simpl. eauto.
Qed.

Lemma metadata_to_php_total `{!ZendLaws Zd} (m : MetadataMap) :
  exists ht, metadata_to_php m = Ok ht
    /\ Forall2 php_group (ht_named ht) (filter unreserved (collect_metadata m)).
Proof.
  destruct (metadata_to_php_loop (collect_metadata m) ht_new []) as (ht & Hht & Hf); eauto.
  - simpl. rewrite collect_metadata_group. unfold group_by_key.
    rewrite <- list_fmap_compose. simpl. rewrite (list_fmap_ext _ id) by done.
    rewrite list_fmap_id. apply first_occ_NoDup.
  - rewrite ht_named_new. constructor.
Qed.

(** * Properties *)

(** C25: the strict parser accepts a send-metadata array exactly when every key is
    a legal header name and every value is an array of strings; it then yields
    one pair per string in iteration order, and in every other case it throws
    the same InvalidArgumentException. *)
Theorem parse_send_metadata_spec (ht : HashTable) :
  (forall md, parse_send_metadata ht = Ok md <->
     exists parts, Forall2 send_entry (ht_iter ht) parts /\ md = concat parts)
  /\ (forall e, parse_send_metadata ht = Err e -> e = bad_metadata).
Proof.
  split.
  - apply parse_send_metadata_ok.
  - intros e. apply try_fold_err. intros md [key val] e'. unfold push_entry. simpl.
    destruct (array_key_to_string key) as [k|]; [simpl|by intros; simplify_eq/=].
    destruct (header_key_is_legal k); [simpl|by intros; simplify_eq/=].
    destruct (zv_array val) as [vs|]; [simpl|by intros; simplify_eq/=].
    apply try_fold_err. intros md' [i v] e''. unfold push_value. simpl.
    by destruct (zv_zend_str v); simpl; intros; simplify_eq/=.
Qed.

(** The pairs of a send-metadata array with the values as PHP has them. *)
Definition raw_entry (kv : ArrayKey ZStr * Zval) : list (string * bytes) :=
  match array_key_to_string kv.1, zv_array kv.2 with
  | Some k, Some vs => omap (fun iv : ArrayKey ZStr * Zval => zs ← zv_zend_str iv.2; Some (k, zs_as_bytes zs)) (ht_iter vs)
  | _, _ => []
  end.
Definition raw_pairs (ht : HashTable) : list (string * bytes) := ht_iter ht ≫= raw_entry.

(** What an entry contributes to the lenient parser. *)
Definition lenient_entry (kv : ArrayKey ZStr * Zval) : list (string * string) :=
  match array_key_to_string kv.1 with
  | None => []
  | Some k =>
      match zv_array kv.2 with
      | Some arr => omap (fun iv : ArrayKey ZStr * Zval => s ← zv_string iv.2; Some (k, s)) (ht_iter arr)
      | None => match zv_string kv.2 with Some s => [(k, s)] | None => [] end
      end
  end.

Lemma foldl_bind {A B} (f : list B -> A -> list B) (g : A -> list B) acc l :
  (forall acc x, f acc x = acc ++ g x) -> foldl f acc l = acc ++ (l ≫= g).
Proof.
  intros Hf. revert acc. induction l as [|x l IH]; intros acc; csimpl; [by rewrite app_nil_r|].
  by rewrite IH, Hf, <- app_assoc.
Qed.

Lemma parse_metadata_flat ht : parse_metadata ht = ht_iter ht ≫= lenient_entry.
Proof.
  unfold parse_metadata. apply (foldl_bind _ lenient_entry []). intros acc [key val]. unfold lenient_entry. simpl.
  destruct (array_key_to_string key) as [k|]; [|by rewrite app_nil_r].
  destruct (zv_array val) as [arr|]; [|destruct (zv_string val); by rewrite ?app_nil_r].
  rewrite (foldl_bind _ (fun iv : ArrayKey ZStr * Zval => option_list (s ← zv_string iv.2; Some (k, s)))).
  - f_equal. induction (ht_iter arr) as [|iv l IH]; csimpl; [done|]. rewrite IH. by destruct (zv_string iv.2).
  - intros acc' [i v]. simpl. by destruct (zv_string v); simpl; rewrite ?app_nil_r.
Qed.

(** The pairs of the two parsers, value by value. *)
Definition lossy_pair (kb : string * bytes) : string * string := (kb.1, from_utf8_lossy kb.2).
Definition strict_pair (kb : string * bytes) : option (string * string) := s ← from_utf8 kb.2; Some (kb.1, s).

Lemma send_entry_pairs `{!ZendStrLaws Zd} kv part :
  send_entry kv part -> part = lossy_pair <$> raw_entry kv /\ lenient_entry kv = omap strict_pair (raw_entry kv).
Proof.
  intros [key val k vs ss Hk _ Ha Hss]. unfold raw_entry, lenient_entry. simpl. rewrite Hk, Ha.
  induction Hss as [|[i v] s l ss (zs & Hz & ->) _ [IH1 IH2]]; [done|]. simpl in Hz. csimpl.
  rewrite Hz, (zv_string_of_str _ _ Hz), zs_as_str_utf8. csimpl. rewrite IH1, IH2. unfold strict_pair. simpl.
  by destruct (from_utf8 _).
Qed.

Lemma parsers_pairs `{!ZendStrLaws Zd} ht md :
  parse_send_metadata ht = Ok md ->
  md = lossy_pair <$> raw_pairs ht /\ parse_metadata ht = omap strict_pair (raw_pairs ht).
Proof.
  intros (parts & Hf & ->)%parse_send_metadata_ok. rewrite parse_metadata_flat. unfold raw_pairs.
  induction Hf as [|kv part l parts (H1 & H2)%send_entry_pairs _ [IH1 IH2]]; [done|]. csimpl.
  by rewrite fmap_app, omap_app, <- H1, <- H2, <- IH1, <- IH2.
Qed.

Lemma omap_strict_pair raw :
  omap strict_pair raw = lossy_pair <$> raw <-> Forall (fun kb => valid_utf8 kb.2 = true) raw.
Proof.
  assert (Hlen : forall raw, (length (omap strict_pair raw) <= length raw)%nat).
  { induction raw0 as [|kb raw0 IH]; csimpl; [done|]. destruct (strict_pair kb); simpl; lia. }
  induction raw as [|[k b] raw IH]; [done|]. csimpl. rewrite Forall_cons, <- IH. unfold strict_pair at 1. simpl.
  destruct (from_utf8 b) as [s|] eqn:Hs; simpl.
  - unfold lossy_pair at 1. simpl. rewrite (from_utf8_lossy_strict _ _ Hs).
    unfold from_utf8 in Hs. destruct (valid_utf8 b); [|done]. split; [by intros [= ->]|by intros [_ ->]].
  - unfold from_utf8 in Hs. destruct (valid_utf8 b); [done|]. split; [|by intros [? _]].
    intros H%(f_equal length). simpl in H. rewrite length_fmap in H. specialize (Hlen raw). lia.
Qed.

(** C27: on an array the strict parser of a send batch accepts, it yields PHP's
    values with every ill-formed sequence replaced, so that each is valid
    UTF-8; the lenient parser of a credentials plugin's answer yields the same
    keys in the same order with the values that are valid UTF-8, unchanged, and
    drops the others; and the two agree exactly when all values are valid
    UTF-8. *)
Theorem metadata_parsers_agree `{!ZendStrLaws Zd} (ht : HashTable) (md : list (string * string)) :
  parse_send_metadata ht = Ok md ->
  md = (fun kb => (kb.1, from_utf8_lossy kb.2)) <$> raw_pairs ht
  /\ Forall (fun kv => valid_utf8 (as_bytes kv.2) = true) md
  /\ parse_metadata ht = omap (fun kb => s ← from_utf8 kb.2; Some (kb.1, s)) (raw_pairs ht)
  /\ (parse_metadata ht = md <-> Forall (fun kb => valid_utf8 kb.2 = true) (raw_pairs ht)).
Proof.
  intros [Hm Hp]%parsers_pairs. split_and!; [exact Hm| |exact Hp|].
  - rewrite Hm. apply Forall_fmap, Forall_true. intros kb. apply from_utf8_lossy_valid.
  - rewrite Hm, Hp. apply omap_strict_pair.
Qed.

(** C24: collecting a metadata map is grouping by key: the keys appear once each,
    in the order they first occur, each with all its decoded values in the
    map's order; entries that fail to decode are skipped and lose nothing else. *)
Theorem collect_metadata_groups (m : MetadataMap) :
  collect_metadata m = group_by_key (omap decode_entry (md_iter m))
  /\ NoDup (collect_metadata m).*1
  /\ (forall k vs, (k, vs) ∈ collect_metadata m ->
        vs = values_of k (omap decode_entry (md_iter m)) /\ vs <> []).
Proof.
  rewrite collect_metadata_group. unfold group_by_key. split; [done|]. split.
  - rewrite <- list_fmap_compose. simpl. rewrite (list_fmap_ext _ id); [|done].
    rewrite list_fmap_id. apply first_occ_NoDup.
  - intros k vs (k' & Heq & Hk)%list_elem_of_fmap. simplify_eq. split; [done|].
    apply values_of_in. by apply first_occ_elem.
Qed.

(** C23: the PHP array of a metadata map is total (no branch fails), shows exactly
    the groups whose key is not a reserved transport header, in order, each as
    the list of its values' raw bytes; no reserved header is ever visible. *)
Theorem metadata_to_php_spec `{!ZendLaws Zd} (m : MetadataMap) :
  exists ht, metadata_to_php m = Ok ht
    /\ Forall2 php_group (ht_named ht) (filter unreserved (collect_metadata m))
    /\ Forall (fun k => is_reserved_header k = false) (ht_named ht).*1.
Proof.
  destruct (metadata_to_php_total m) as (ht & Hht & Hf).
  exists ht. split; [done|]. split; [done|]. apply Forall_fmap, Forall_lookup.
  intros i x Hx. destruct (Forall2_lookup_l _ _ _ _ _ Hf Hx) as (y & Hy & [Hk _]). simpl.
  rewrite Hk. apply list_elem_of_lookup_2, list_elem_of_filter in Hy as [Hy _]. done.
Qed.

(** For an error status that carries rich details, the metadata shown to PHP
    holds them under grpc-status-details-bin, decoding to exactly those bytes
    and replacing any previous value, and every other key is as tonic left it;
    a status without details is shown unchanged. *)
Theorem status_details_reinjected `{!TonicLaws Tn} (st : Status) :
  let key := "grpc-status-details-bin" in
  let shown := md_iter (status_metadata_for_php st) in
  (st_details st = [] -> status_metadata_for_php st = st_metadata st)
  /\ (st_details st <> [] ->
       (bin_to_bytes <$> binary_at key shown) = [Some (st_details st)]
       /\ (forall k, ascii_at k shown = ascii_at k (md_iter (st_metadata st)))
       /\ (forall k, k <> key -> binary_at k shown = binary_at k (md_iter (st_metadata st)))).
Proof.
  unfold status_metadata_for_php. destruct (st_details st) as [|b d] eqn:E; simpl.
  - split; [done|]. by intros [].
  - split; [done|]. intros _. split; [|split].
    + rewrite md_insert_bin_binary, bool_decide_true by done. simpl. by rewrite bin_roundtrip.
    + intros k. by rewrite md_insert_bin_ascii.
    + intros k Hk. by rewrite md_insert_bin_binary, bool_decide_false.
Qed.

(** Under each wire key a request carries at most one value: the last one of
    the caller's pairs followed by the plugin's pairs that tonic accepts.  A
    key given several values in PHP sends only the last, a plugin overrides
    the caller, and no binary (-bin) metadata is ever sent. *)
Lemma request_metadata_last `{!TonicLaws Tn} (send plugin : list (string * string)) (k : string) :
  ascii_at k (md_iter (apply_metadata send plugin))
  = match last (accepted k (send ++ plugin)) with Some v => [v] | None => [] end
  /\ binary_at k (md_iter (apply_metadata send plugin)) = [].
Proof.
  unfold apply_metadata. rewrite !apply_pairs_ascii, !apply_pairs_binary, md_iter_default.
  split; [|done]. unfold accepted. rewrite omap_app.
  set (a := omap _ send). set (b := omap _ plugin).
  destruct b as [|x b _] using rev_ind.
  - by rewrite app_nil_r.
  - rewrite app_assoc, !last_snoc. done.
Qed.

(** An operation code given as a decimal string key (as PHP does for some
    arrays) is read as the same integer as the integer key itself, for every
    64-bit code and either string representation. *)
Theorem op_key_roundtrip (n : Z) (zs : ZStr) :
  in_i64 n -> zs_as_str zs = Some (pretty.pretty n) ->
  array_key_to_long (AK_Long n) = Ok n
  /\ array_key_to_long (AK_String (pretty.pretty n)) = Ok n
  /\ array_key_to_long (AK_Str (pretty.pretty n)) = Ok n
  /\ array_key_to_long (AK_ZendString zs) = Ok n.
Proof.
  intros Hn Hz. unfold array_key_to_long. rewrite Hz. simpl.
  by rewrite parse_i64_pretty.
Qed.

End metadata.

(** * Witnesses *)

(** An array with a value that is not UTF-8. *)
Definition wit_raw_ht : HashTable (ZendApi := ZendModel) :=
  [(AK_Str "x-a", ZvArr [(AK_Long 0, zv_str "v1"); (AK_Long 1, ZvStr [xff])])].

Lemma metadata_parsers_agree_witness :
  parse_metadata (Zd := ZendModel) wit_raw_ht = [("x-a", "v1")]
  /\ ~ parse_metadata (Zd := ZendModel) wit_raw_ht = [("x-a", "v1"); ("x-a", from_utf8_lossy [xff])].
Proof.
  destruct (metadata_parsers_agree (Zd := ZendModel) wit_raw_ht [("x-a", "v1"); ("x-a", from_utf8_lossy [xff])] eq_refl)
    as (_ & _ & Hp & Hiff).
  split; [rewrite Hp; reflexivity|]. rewrite Hiff. intros H. apply Forall_inv_tail, Forall_inv in H. discriminate H.
Defined.

(** Two headers of a response, one of them reserved. *)
Definition wit_md : MetadataMap (TonicApi := TonicModel) :=
  [KV_Ascii "content-type" "application/grpc"; KV_Ascii "x-a" "1"; KV_Binary "x-bin" [x00; xff];
   KV_Ascii "x-a" "2"].

Lemma metadata_to_php_spec_witness :
  exists ht, metadata_to_php (Zd := ZendModel) (Tn := TonicModel) wit_md = Ok ht
    /\ (ht_named (ZendLaws := ZendModelLaws) ht).*1 = ["x-a"; "x-bin"].
Proof.
  destruct (metadata_to_php_spec (Zd := ZendModel) (Tn := TonicModel) wit_md) as (ht & Hht & Hf & _).
  exists ht. split; [exact Hht|]. vm_compute in Hht. simplify_eq. reflexivity.
Defined.

Lemma status_details_reinjected_witness :
  (bin_to_bytes (TonicApi := TonicModel) <$> binary_at "grpc-status-details-bin"
     (md_iter (TonicApi := TonicModel)
        (status_metadata_for_php (Tn := TonicModel) (MkStatus 13 "test error" [x08; x0d] wit_md))))
  = [Some [x08; x0d]].
Proof.
  apply (status_details_reinjected (Tn := TonicModel) (MkStatus 13 "test error" [x08; x0d] wit_md)).
  discriminate.
Defined.

Lemma op_key_roundtrip_witness :
  array_key_to_long (Zd := ZendModel) (Tn := TonicModel) (AK_ZendString (as_bytes "-12")) = Ok (-12)%Z.
Proof.
  apply (op_key_roundtrip (Zd := ZendModel) (Tn := TonicModel) (-12) (as_bytes "-12"));
    [i64_lia | reflexivity].
Defined.
