(* ===== verification/Compat.v ===== *)
(** src/src/compat.rs: the first request startup clears the return-type flag of
    the extension's methods in the engine's class table.  The class table is a
    map from class name to function table, a function table a map from the
    lower-case method name to its flag word. *)

From S2P Require Import Prelude.
From Stdlib Require Import ZArith Lia String.
From stdpp Require Import base gmap strings list sets.

#[local] Open Scope string_scope.
#[local] Open Scope list_scope.

Definition CHANNEL_METHODS : list string :=
  ["gettarget"; "getconnectivitystate"; "watchconnectivitystate"; "close"].

Definition CALL_METHODS : list string := ["startbatch"; "getpeer"; "cancel"; "setcredentials"].

Definition TIMEVAL_METHODS : list string :=
  ["getusec"; "now"; "inffuture"; "infpast"; "zero"; "similar"; "compare"; "add"; "subtract";
   "sleepuntil"].

Definition CHANNEL_CREDENTIALS_METHODS : list string :=
  ["createssl"; "createinsecure"; "createcomposite"; "createdefault"; "setdefaultrootspem";
   "isdefaultrootspemset"; "invalidatedefaultrootspem"].

Definition CALL_CREDENTIALS_METHODS : list string := ["createfromplugin"; "createcomposite"].

Section compat.
(** [ZEND_ACC_HAS_RETURN_TYPE], a bit of the engine's flag word. *)
Context (has_return_type : Z).

Abbreviation fn_table := (gmap string Z).
Abbreviation class_table := (gmap string fn_table).

(** [fn_flags &= !ZEND_ACC_HAS_RETURN_TYPE], when the method exists. *)
Definition strip_method_return_type (ft : fn_table) (method_name : string) : fn_table :=
  match ft !! method_name with
  | None => ft
  | Some fn_flags => <[method_name := Z.land fn_flags (Z.lnot has_return_type)]> ft
  end.

Definition strip_class_methods (class_name : string) (methods : list string) (ct : class_table)
    : class_table :=
  match ct !! class_name with
  | None => ct
  | Some ft => <[class_name := foldl strip_method_return_type ft methods]> ct
  end.

(** RINIT; the boolean is the [Once]: whether the patching has run. *)
Definition strip_return_types (s : bool * class_table) : Z * (bool * class_table) :=
  let '(done_, ct) := s in
  (0%Z, if done_ then (true, ct)
        else
          let ct := strip_class_methods "Grpc\Channel" CHANNEL_METHODS ct in
          let ct := strip_class_methods "Grpc\Call" CALL_METHODS ct in
          let ct := strip_class_methods "Grpc\Timeval" TIMEVAL_METHODS ct in
          let ct := strip_class_methods "Grpc\ChannelCredentials" CHANNEL_CREDENTIALS_METHODS ct in
          let ct := strip_class_methods "Grpc\CallCredentials" CALL_CREDENTIALS_METHODS ct in
          (true, ct)).

(** The classes and the methods stripped of each, in the order they are
    visited. *)
Definition stripped_classes : list (string * list string) :=
  [("Grpc\Channel", CHANNEL_METHODS); ("Grpc\Call", CALL_METHODS);
   ("Grpc\Timeval", TIMEVAL_METHODS); ("Grpc\ChannelCredentials", CHANNEL_CREDENTIALS_METHODS);
   ("Grpc\CallCredentials", CALL_CREDENTIALS_METHODS)].

Definition is_stripped (l : list (string * list string)) (c m : string) : bool :=
  existsb (fun cm => bool_decide (c = cm.1 /\ m ∈ cm.2)) l.

Definition strip_flag (flags : Z) : Z := Z.land flags (Z.lnot has_return_type).

Lemma strip_flag_idem flags : strip_flag (strip_flag flags) = strip_flag flags.
Proof. unfold strip_flag. by rewrite <- Z.land_assoc, Z.land_diag. Qed.

Lemma strip_methods_lookup ft methods m :
  foldl strip_method_return_type ft methods !! m
  = if bool_decide (m ∈ methods) then strip_flag <$> ft !! m else ft !! m.
Proof.
  induction methods as [|x methods IH] using rev_ind; [done|].
  rewrite foldl_app. simpl. unfold strip_method_return_type at 1.
  destruct (decide (m = x)) as [->|Hne].
  - rewrite (bool_decide_true (x ∈ methods ++ [x])) by set_solver.
    destruct (foldl _ ft methods !! x) as [f|] eqn:Hf; rewrite ?lookup_insert_eq, ?Hf;
      rewrite IH in Hf; case_bool_decide; destruct (ft !! x); simplify_eq/=; try done.
    f_equal. apply strip_flag_idem.
  - rewrite (bool_decide_ext (m ∈ methods ++ [x]) (m ∈ methods)) by set_solver.
    destruct (foldl _ ft methods !! x); [rewrite lookup_insert_ne by done|]; apply IH.
Qed.

Lemma strip_class_lookup c ms ct c' m :
  (ft ← strip_class_methods c ms ct !! c'; ft !! m)
  = if bool_decide (c' = c /\ m ∈ ms) then strip_flag <$> (ft ← ct !! c'; ft !! m)
    else (ft ← ct !! c'; ft !! m).
Proof.
  unfold strip_class_methods. destruct (ct !! c) as [ft|] eqn:Hc.
  - destruct (decide (c' = c)) as [->|Hne].
    + rewrite lookup_insert_eq, Hc. simpl. rewrite strip_methods_lookup.
      by rewrite (bool_decide_ext (c = c /\ m ∈ ms) (m ∈ ms)) by naive_solver.
    + rewrite lookup_insert_ne by done. by rewrite bool_decide_false by naive_solver.
  - case_bool_decide as Hd; [|done]. destruct Hd as [-> _]. by rewrite Hc.
Qed.

Lemma strip_classes_lookup l ct c m :
  (ft ← foldl (fun ct cm => strip_class_methods cm.1 cm.2 ct) ct l !! c; ft !! m)
  = if is_stripped l c m then strip_flag <$> (ft ← ct !! c; ft !! m)
    else (ft ← ct !! c; ft !! m).
Proof.
  induction l as [|[c' ms] l IH] using rev_ind; [done|].
  rewrite foldl_app. simpl. rewrite strip_class_lookup, IH.
  unfold is_stripped. rewrite existsb_app. simpl. rewrite orb_false_r.
  destruct (existsb _ l); simpl; case_bool_decide; try done.
  destruct (ct !! c ≫= _); simpl; [|done]. f_equal. apply strip_flag_idem.
Qed.

(** The first request startup clears the return-type bit of exactly the listed
    methods that exist, changing no other bit of their flags and no other
    method of any class; every later startup changes nothing. *)
Theorem strip_return_types_spec (ct : gmap string (gmap string Z)) (c m : string) :
  let s1 := (strip_return_types (false, ct)).2 in
  (ft ← s1.2 !! c; ft !! m)
  = (if is_stripped stripped_classes c m then strip_flag <$> (ft ← ct !! c; ft !! m)
     else (ft ← ct !! c; ft !! m))
  /\ (strip_return_types s1).2 = s1.
Proof. split; [apply (strip_classes_lookup stripped_classes) | done]. Qed.

End compat.
