(* ===== verification/Channel.v ===== *)
(** src/src/channel.rs: [Grpc\Channel], the persistent channel registry and
    connectivity state.

    [ChanState] is what a PHP thread's channels share: the registry (keyed by
    target, credentials id and arguments), the [SharedChannel]s it and the
    channel objects refer to ([Arc]s, named by their index), the closed flags
    ([Arc<AtomicBool>]s, by index), the connection probes in flight, and the
    runtime cells.  [ch_sched] is the environment: what the background tasks
    complete at each scheduler tick.  Endpoints are tonic's ([EndpointApi]). *)

From S2P Require Import Prelude Zend Tonic Error Runtime Timeval Credentials.
From Stdlib Require Import ZArith Lia Ascii String.
From stdpp Require Import base gmap list strings sorting pretty sets.

#[local] Open Scope string_scope.
#[local] Open Scope list_scope.
#[local] Open Scope Z_scope.

Definition CHANNEL_IDLE : Z := 0.
Definition CHANNEL_CONNECTING : Z := 1.
Definition CHANNEL_READY : Z := 2.
Definition CHANNEL_TRANSIENT_FAILURE : Z := 3.

(** [tonic::transport::Endpoint] and [Channel], with the builder calls made. *)
Class EndpointApi (Tn : TonicApi) (Tls : TlsApi) := {
  Endpoint : Type;
  TonicChannel : Type;
  ep_from_shared : string -> result string Endpoint;
  ep_http2_keep_alive_interval : Endpoint -> Z -> Endpoint;
  ep_keep_alive_timeout : Endpoint -> Z -> Endpoint;
  ep_max_frame_size : Endpoint -> Z -> Endpoint;
  ep_initial_stream_window_size : Endpoint -> Z -> Endpoint;
  ep_initial_connection_window_size : Endpoint -> Z -> Endpoint;
  ep_http2_adaptive_window : Endpoint -> bool -> Endpoint;
  ep_user_agent : Endpoint -> string -> result string Endpoint;
  ep_tls_config : Endpoint -> ClientTlsConfig -> result TransportError Endpoint;
  ep_connect_timeout : Endpoint -> Z -> Endpoint;
  ep_connect_lazy : Endpoint -> TonicChannel;
}.

Section channel.
Context {Zd : ZendApi} {Tn : TonicApi} {Tls : TlsApi} {Ep : EndpointApi Tn Tls}.
(** [creds_zval.extract::<&GrpcChannelCredentials>()]. *)
Context (zv_extract_creds : Zval -> option GrpcChannelCredentials).
Context (env_var : option string) (build_error : nat -> option string) (tid : nat).

Record SharedChannel : Type := MkShared {
  sh_channel : TonicChannel;
  sh_state : Z;
}.

Record ChannelInner : Type := MkInner {
  ci_shared : nat;
  ci_target : string;
  ci_call_plugin : option (option Zval);
  ci_max_decoding : option Z;
  ci_max_encoding : option Z;
}.

Record GrpcChannel : Type := MkChannel {
  gc_inner : option ChannelInner;
  gc_closed_flag : nat;
}.

(** A probe task [grpc.ready().await] of a shared channel finished. *)
Inductive ProbeEvent : Type := ProbeDone (shared : nat) (ok : bool).

Record ChanState : Type := MkChanState {
  ch_registry : gmap string nat;
  ch_shared : list SharedChannel;
  ch_flags : list bool;
  ch_probes : list nat;
  ch_rt : RtState;
  ch_sched : list (list ProbeEvent);
  ch_slept : list Z;
}.

Abbreviation HM := (M ChanState PhpException).

(** * The constructor *)

Record ParsedArgs : Type := MkParsed {
  pa_force_new : bool;
  pa_parts : list string;
}.

(** An argument value is an int or a string. *)
Definition arg_value (val : Zval) : result PhpException string :=
  match zv_long val with
  | Some l => Ok (pretty l)
  | None => ok_or (zv_string val) (invalid_argument "args values must be int or string")
  end.

Definition parse_arg (acc : ParsedArgs) (kv : ArrayKey ZStr * Zval)
    : result PhpException ParsedArgs :=
  match kv.1 with
  | AK_Long _ => Err (invalid_argument "args keys must be strings")
  | key =>
      let key_str := ak_to_string key in
      if bool_decide (key_str = "credentials") then Ok acc
      else if bool_decide (key_str = "force_new") then
        Ok (MkParsed (default false (zv_bool kv.2)
                      || match zv_long kv.2 with Some l => negb (l =? 0) | None => false end)
                     (pa_parts acc))
      else
        val_str ← arg_value kv.2;
        Ok (MkParsed (pa_force_new acc) (pa_parts acc ++ [key_str +:+ "=" +:+ val_str]))
  end.

(** Validation of the arguments; the parts come out sorted. *)
Definition parse_args (args : HashTable) : result PhpException ParsedArgs :=
  p ← try_fold parse_arg (MkParsed false []) (ht_iter args);
  Ok (MkParsed (pa_force_new p) (merge_sort String.le (pa_parts p))).

Record ParsedCreds : Type := MkPCreds {
  pc_tls : option ClientTlsConfig;
  pc_plugin : option (option Zval);
  pc_id : Z;
}.

Definition parse_credentials (args : HashTable) : result PhpException ParsedCreds :=
  match ht_get args "credentials" with
  | None => Ok (MkPCreds None None 0)
  | Some creds_zval =>
      if zv_is_null creds_zval then Ok (MkPCreds None None 0)
      else
        creds ← ok_or (zv_extract_creds creds_zval)
                  (invalid_argument "credentials must be a ChannelCredentials object");
        match cc_inner creds with
        | Ssl tls_cfg => Ok (MkPCreds (Some tls_cfg) None (cc_id creds))
        | Composite tls_cfg plugin => Ok (MkPCreds (Some tls_cfg) (Some plugin) (cc_id creds))
        end
  end.

(** [-1] means unlimited; other non-positive values are ignored. *)
Definition message_limit (args : HashTable) (key : string) : option Z :=
  v ← ht_get args key;
  v ← zv_long v;
  if v =? -1 then Some usize_max else if 0 <? v then Some v else None.

Definition persist_key (target : string) (creds_id : Z) (parts : list string) : string :=
  target +:+ "|creds=" +:+ pretty creds_id +:+ "|" +:+ str_join "," parts.

Definition persist_key_of (target : string) (pa : ParsedArgs) (pc : ParsedCreds) : option string :=
  match pc_plugin pc with
  | None => if negb (pa_force_new pa)
            then Some (persist_key target (pc_id pc) (pa_parts pa)) else None
  | Some _ => None
  end.

Definition uri_target (target : string) (tls_config : option ClientTlsConfig) : string :=
  if str_contains "://" target then target
  else match tls_config with
       | Some _ => "https://" +:+ target
       | None => "http://" +:+ target
       end.

Definition arg_long (args : HashTable) (key : string) : option Z :=
  val ← ht_get args key; zv_long val.
Definition arg_string (args : HashTable) (key : string) : option string :=
  val ← ht_get args key; zv_string val.

(** Keepalive and HTTP/2 tuning arguments, those out of range ignored. *)
Definition endpoint_keepalive (args : HashTable) (endpoint : Endpoint) : Endpoint :=
  let endpoint := match arg_long args "grpc.keepalive_time_ms" with
                  | Some ms => if 0 <? ms then ep_http2_keep_alive_interval endpoint ms else endpoint
                  | None => endpoint
                  end in
  match arg_long args "grpc.keepalive_timeout_ms" with
  | Some ms => if 0 <? ms then ep_keep_alive_timeout endpoint ms else endpoint
  | None => endpoint
  end.

Definition tls_override (args : HashTable) (tls_config : option ClientTlsConfig)
    : option ClientTlsConfig :=
  match arg_string args "grpc.ssl_target_name_override", tls_config with
  | Some name, Some tls => Some (tls_domain_name tls name)
  | _, _ => tls_config
  end.

Definition endpoint_http2 (args : HashTable) (endpoint : Endpoint) : Endpoint :=
  let endpoint := match n ← arg_long args "grpc.http2.max_frame_size"; u32_try_from n with
                  | Some n => if (16384 <=? n) && (n <=? 16777215)
                              then ep_max_frame_size endpoint n else endpoint
                  | None => endpoint
                  end in
  let endpoint := match n ← arg_long args "grpc.http2.lookahead_bytes"; u32_try_from n with
                  | Some n => if 0 <? n then
                                ep_initial_connection_window_size
                                  (ep_initial_stream_window_size endpoint n)
                                  (Z.max n (5 * 1024 * 1024))
                              else endpoint
                  | None => endpoint
                  end in
  match arg_long args "grpc.http2.bdp_probe" with
  | Some n => ep_http2_adaptive_window endpoint (negb (n =? 0))
  | None => endpoint
  end.

(** The endpoint, from the URI to the TLS configuration. *)
Definition build_endpoint (target : string) (args : HashTable) (tls_config : option ClientTlsConfig)
    : result PhpException Endpoint :=
  endpoint ← map_err (fun e => exn_of_grpc_error (InvalidUri e))
               (ep_from_shared (uri_target target tls_config));
  let endpoint := endpoint_keepalive args endpoint in
  let tls_config := tls_override args tls_config in
  let endpoint := endpoint_http2 args endpoint in
  endpoint ← match arg_string args "grpc.primary_user_agent" with
             | Some ua => map_err (fun e => exn_of_grpc_error (InvalidArg e)) (ep_user_agent endpoint ua)
             | None => Ok endpoint
             end;
  match tls_config with
  | Some tls => map_err (fun e => exn_of_grpc_error (Transport e)) (ep_tls_config endpoint tls)
  | None => Ok endpoint
  end.

(** [Arc::new(AtomicBool::new(false))] and the channel object. *)
Definition new_channel (inner : ChannelInner) : HM GrpcChannel := fun s =>
  (Return (MkChannel (Some inner) (length (ch_flags s))),
   MkChanState (ch_registry s) (ch_shared s) (ch_flags s ++ [false]) (ch_probes s) (ch_rt s)
     (ch_sched s) (ch_slept s)).

Definition channel_get_runtime : HM nat := fun s =>
  let '(r, rt) := get_runtime env_var build_error tid (ch_rt s) in
  let s' := MkChanState (ch_registry s) (ch_shared s) (ch_flags s) (ch_probes s) rt
              (ch_sched s) (ch_slept s) in
  match r with
  | Return id => (Return id, s')
  | Throw e => (Throw (exn_of_grpc_error e), s')
  | Blocked => (Blocked, s')
  end.

(** [Arc::new(SharedChannel { .. })], inserted in the registry under its key. *)
Definition new_shared (channel : TonicChannel) (key : option string) : HM nat := fun s =>
  let id := length (ch_shared s) in
  (Return id,
   MkChanState (match key with Some k => <[k := id]> (ch_registry s) | None => ch_registry s end)
     (ch_shared s ++ [MkShared channel CHANNEL_IDLE]) (ch_flags s) (ch_probes s) (ch_rt s)
     (ch_sched s) (ch_slept s)).

(** [CHANNEL_REGISTRY.with(|r| r.borrow().get(key).map(Arc::clone))]. *)
Definition registry_lookup (key : option string) (s : ChanState) : option nat :=
  match key with Some k => ch_registry s !! k | None => None end.

Definition channel_construct (target : string) (args : HashTable) : HM GrpcChannel :=
  pa ← lift (parse_args args);
  pc ← lift (parse_credentials args);
  let max_decoding := message_limit args "grpc.max_receive_message_length" in
  let max_encoding := message_limit args "grpc.max_send_message_length" in
  let key := persist_key_of target pa pc in
  existing ← gets (registry_lookup key);
  match existing with
  | Some shared =>
      new_channel (MkInner shared target (pc_plugin pc) max_decoding max_encoding)
  | None =>
      endpoint ← lift (build_endpoint target args (pc_tls pc));
      _ ← channel_get_runtime;
      let endpoint := ep_connect_timeout endpoint 20 in
      let channel := ep_connect_lazy endpoint in
      shared ← new_shared channel key;
      new_channel (MkInner shared target (pc_plugin pc) max_decoding max_encoding)
  end.

(** * Methods *)

Definition channel_get_target (self : GrpcChannel) : result PhpException string :=
  inner ← ok_or (gc_inner self)
            (runtime_exception "getTarget error.Channel is already closed.");
  Ok (ci_target inner).

Definition set_shared_state (id : nat) (next : Z) (s : ChanState) : ChanState :=
  MkChanState (ch_registry s)
    (alter (fun sh => MkShared (sh_channel sh) next) id (ch_shared s))
    (ch_flags s) (ch_probes s) (ch_rt s) (ch_sched s) (ch_slept s).

(** Removes the first occurrence. *)
Fixpoint remove_first (x : nat) (l : list nat) : list nat :=
  match l with
  | [] => []
  | y :: l' => if bool_decide (y = x) then l' else y :: remove_first x l'
  end.

(** A probe in flight completes: the task stores READY or TRANSIENT_FAILURE. *)
Definition probe_done (ev : ProbeEvent) (s : ChanState) : ChanState :=
  let '(ProbeDone id ok) := ev in
  if bool_decide (id ∈ ch_probes s) then
    let s := set_shared_state id (if ok then CHANNEL_READY else CHANNEL_TRANSIENT_FAILURE) s in
    MkChanState (ch_registry s) (ch_shared s) (ch_flags s)
      (remove_first id (ch_probes s)) (ch_rt s) (ch_sched s) (ch_slept s)
  else s.

(** One scheduler tick of the thread's runtime. *)
Definition sched_tick (s : ChanState) : ChanState :=
  match ch_sched s with
  | [] => s
  | evs :: rest =>
      foldl (fun s ev => probe_done ev s)
        (MkChanState (ch_registry s) (ch_shared s) (ch_flags s) (ch_probes s) (ch_rt s) rest
           (ch_slept s)) evs
  end.

Definition channel_pump : HM unit := fun s =>
  let '(r, (rt, s')) := pump env_var build_error sched_tick tid (ch_rt s, s) in
  let s'' := MkChanState (ch_registry s') (ch_shared s') (ch_flags s') (ch_probes s') rt
               (ch_sched s') (ch_slept s') in
  match r with
  | Return _ => (Return tt, s'')
  | Throw e => (Throw (exn_of_grpc_error e), s'')
  | Blocked => (Blocked, s'')
  end.

Definition shared_state (id : nat) (s : ChanState) : Z :=
  match ch_shared s !! id with Some sh => sh_state sh | None => CHANNEL_IDLE end.

(** [rt.spawn(..)] of the probe task. *)
Definition spawn_probe (id : nat) : HM unit :=
  modify (fun s => MkChanState (ch_registry s) (ch_shared s) (ch_flags s) (ch_probes s ++ [id])
                     (ch_rt s) (ch_sched s) (ch_slept s)).

Definition get_connectivity_state (self : GrpcChannel) (try_to_connect : option Zval) : HM Z :=
  if match try_to_connect with Some zv => bool_decide (zv_bool zv = None) | None => false end
  then throw (invalid_argument "getConnectivityState expects a bool")
  else
    inner ← lift (ok_or (gc_inner self)
                   (runtime_exception "getConnectivityState error.Channel is already closed."));
    channel_pump ;;
    current ← gets (shared_state (ci_shared inner));
    let connect := default false (zv ← try_to_connect; zv_bool zv) in
    if connect && (current =? CHANNEL_IDLE) then
      _ ← channel_get_runtime;
      modify (set_shared_state (ci_shared inner) CHANNEL_CONNECTING) ;;
      spawn_probe (ci_shared inner) ;;
      mret current
    else mret current.

(** [call::now_usec]: the [as i64] of the microseconds, 0 before the epoch. *)
Definition now_usec (clock : clock_reading) : Z :=
  match clock with Ok d => wrap_i64 d | Err _ => 0 end.

Definition sleep_usec (wait_usec : Z) (s : ChanState) : ChanState :=
  sched_tick (MkChanState (ch_registry s) (ch_shared s) (ch_flags s) (ch_probes s) (ch_rt s)
                (ch_sched s) (ch_slept s ++ [wait_usec])).

(** The polling loop; one clock reading per iteration.  [Blocked]: the
    readings given ran out before the loop was left. *)
Fixpoint watch_loop (id : nat) (last_state deadline_usec : Z) (clocks : list clock_reading)
    : HM bool := fun s =>
  if negb (shared_state id s =? last_state) then (Return true, s)
  else
    match clocks with
    | [] => (Blocked, s)
    | clock :: clocks' =>
        let now := now_usec clock in
        if deadline_usec <=? now then (Return false, s)
        else
          let wait_usec := Z.min (Z.max (saturating_sub deadline_usec now) 1) 10000 in
          watch_loop id last_state deadline_usec clocks' (sleep_usec (wrap_u64 wait_usec) s)
    end.

Definition watch_connectivity_state (self : GrpcChannel) (last_state : Z) (deadline : GrpcTimeval)
    (clock0 : clock_reading) (clocks : list clock_reading) : HM bool :=
  inner ← lift (ok_or (gc_inner self)
                 (runtime_exception "watchConnectivityState errorChannel is already closed."));
  let deadline_usec := to_absolute_usec clock0 deadline in
  _ ← channel_get_runtime;
  watch_loop (ci_shared inner) last_state deadline_usec clocks.

(** [close]: drops the inner and raises the flag its calls observe. *)
Definition channel_close (self : GrpcChannel) : HM GrpcChannel := fun s =>
  (Return (MkChannel None (gc_closed_flag self)),
   MkChanState (ch_registry s) (ch_shared s) (<[gc_closed_flag self := true]> (ch_flags s))
     (ch_probes s) (ch_rt s) (ch_sched s) (ch_slept s)).

Definition get_tonic_channel (self : GrpcChannel) (s : ChanState) : option TonicChannel :=
  i ← gc_inner self; sh ← ch_shared s !! ci_shared i; Some (sh_channel sh).
Definition get_shared (self : GrpcChannel) : option nat := ci_shared <$> gc_inner self.
Definition get_target_uri (self : GrpcChannel) : option string := ci_target <$> gc_inner self.
Definition get_closed_flag (self : GrpcChannel) : nat := gc_closed_flag self.
Definition get_call_plugin (self : GrpcChannel) : option (option Zval) :=
  i ← gc_inner self; ci_call_plugin i.
Definition get_max_decoding_message_size (self : GrpcChannel) : option Z :=
  i ← gc_inner self; ci_max_decoding i.
Definition get_max_encoding_message_size (self : GrpcChannel) : option Z :=
  i ← gc_inner self; ci_max_encoding i.

(** * Reachable states *)

Definition chan_init (sched : list (list ProbeEvent)) : ChanState :=
  MkChanState ∅ [] [] [] rt_init sched [].

(** One PHP method call on some channel object of the thread, whatever its
    outcome, or a scheduler tick: the steps of src/src/channel.rs.  Calls store
    connectivity states too; Lifecycle.v adds them ([conn_step]). *)
Inductive chan_step : ChanState -> ChanState -> Prop :=
| cs_construct target args s r s' : channel_construct target args s = (r, s') -> chan_step s s'
| cs_state c arg s r s' : get_connectivity_state c arg s = (r, s') -> chan_step s s'
| cs_watch c last dl c0 cs s r s' :
    watch_connectivity_state c last dl c0 cs s = (r, s') -> chan_step s s'
| cs_close c s r s' : channel_close c s = (r, s') -> chan_step s s'
| cs_tick s : chan_step s (sched_tick s).

(** The registry key a constructor call uses; [None]: it never shares. *)
Definition construct_key (target : string) (args : HashTable) : option string :=
  match parse_args args, parse_credentials args with
  | Ok pa, Ok pc => persist_key_of target pa pc
  | _, _ => None
  end.

Record reg_wf (s : ChanState) : Prop := {
  reg_bound : forall k id, ch_registry s !! k = Some id -> (id < length (ch_shared s))%nat;
  reg_inj : forall k1 k2 id, ch_registry s !! k1 = Some id -> ch_registry s !! k2 = Some id -> k1 = k2;
  reg_states : Forall (fun sh => 0 <= sh_state sh <= 3) (ch_shared s);
}.

(** What never goes backwards: registry entries stay, transports are only
    added, a transport that left IDLE never returns to it. *)
Record reg_le (s s' : ChanState) : Prop := {
  le_registry : forall k id, ch_registry s !! k = Some id -> ch_registry s' !! k = Some id;
  le_shared : (length (ch_shared s) <= length (ch_shared s'))%nat;
  le_fresh : forall k id, ch_registry s' !! k = Some id ->
    ch_registry s !! k = Some id \/ (length (ch_shared s) <= id)%nat;
  le_idle : forall id, (id < length (ch_shared s))%nat ->
    shared_state id s <> CHANNEL_IDLE -> shared_state id s' <> CHANNEL_IDLE;
}.

#[global] Instance reg_le_preorder : PreOrder reg_le.
Proof.
  split; [split; auto|]. intros s1 s2 s3 [A1 B1 C1 D1] [A2 B2 C2 D2]. split; auto; [lia| |].
  - intros k id [H|H]%C2; [by apply C1|]. right. lia.
  - intros id Hid Hn. apply D2; [lia|]. by apply D1.
Qed.

(** A transition that only rewrites the connectivity states (to non-idle
    values), the probes, the runtime and the scheduler's state. *)
Record state_only (s s' : ChanState) : Prop := {
  so_registry : ch_registry s' = ch_registry s;
  so_flags : ch_flags s' = ch_flags s;
  so_channels : sh_channel <$> ch_shared s' = sh_channel <$> ch_shared s;
  so_length : length (ch_shared s') = length (ch_shared s);
  so_states : forall id, (id < length (ch_shared s))%nat ->
    shared_state id s' = shared_state id s \/ 1 <= shared_state id s' <= 3;
}.

#[global] Instance state_only_preorder : PreOrder state_only.
Proof.
  split; [split; auto|]. intros s1 s2 s3 [A1 F1 G1 B1 C1] [A2 F2 G2 B2 C2].
  split; [congruence..|]. intros id Hid.
  destruct (C2 id) as [H|H]; [lia| |auto]. rewrite H. by apply C1.
Qed.

Lemma shared_state_lookup s id :
  (id < length (ch_shared s))%nat ->
  exists sh, ch_shared s !! id = Some sh /\ shared_state id s = sh_state sh.
Proof.
  intros [sh Hsh]%lookup_lt_is_Some. exists sh. unfold shared_state. by rewrite Hsh.
Qed.

Lemma state_only_wf s s' : state_only s s' -> reg_wf s -> reg_wf s' /\ reg_le s s'.
Proof.
  intros [Hr _ _ Hl Hs] [W1 W2 W3]. repeat split.
  - intros k id. rewrite Hr, Hl. apply W1.
  - intros k1 k2 id. rewrite Hr. apply W2.
  - apply Forall_lookup. intros id sh Hsh.
    assert (Hid : (id < length (ch_shared s))%nat) by (rewrite <- Hl; by eapply lookup_lt_Some).
    destruct (shared_state_lookup s id Hid) as (sh0 & Hsh0 & Heq).
    rewrite Forall_lookup in W3. specialize (W3 _ _ Hsh0).
    assert (Heq' : shared_state id s' = sh_state sh) by (unfold shared_state; by rewrite Hsh).
    specialize (Hs id Hid). rewrite Heq, Heq' in Hs. simpl in *. lia.
  - by rewrite Hr.
  - lia.
  - rewrite Hr. auto.
  - intros id Hid Hn. unfold CHANNEL_IDLE in *. destruct (Hs id Hid); lia.
Qed.

Lemma set_shared_state_only id n s : 1 <= n <= 3 -> state_only s (set_shared_state id n s).
Proof.
  intros Hn. split; simpl; [done|done|by apply fmap_alter_id|by rewrite length_alter|].
  intros id' Hid. unfold shared_state, set_shared_state. simpl.
  destruct (decide (id = id')) as [->|Hne].
  - rewrite list_lookup_alter_eq. destruct (lookup_lt_is_Some_2 _ _ Hid) as [sh ->]. simpl. auto.
  - rewrite list_lookup_alter_ne by done. auto.
Qed.

Lemma probe_done_only ev s : state_only s (probe_done ev s).
Proof.
  destruct ev as [id ok]. unfold probe_done. case_bool_decide; [|done].
  assert (H1 : state_only s (set_shared_state id (if ok then CHANNEL_READY else CHANNEL_TRANSIENT_FAILURE) s)).
  { apply set_shared_state_only. destruct ok; unfold CHANNEL_READY, CHANNEL_TRANSIENT_FAILURE; lia. }
  destruct H1. split; done.
Qed.

Lemma sched_tick_only s : state_only s (sched_tick s).
Proof.
  unfold sched_tick. destruct (ch_sched s) as [|evs rest]; [done|].
  assert (Hf : forall evs s0, state_only s0 (foldl (fun s ev => probe_done ev s) s0 evs)).
  { clear. induction evs as [|ev evs IH]; intros s0; simpl; [done|].
    etrans; [apply probe_done_only | apply IH]. }
  etrans; [|apply Hf]. by split; auto.
Qed.

Lemma channel_get_runtime_only s r s' : channel_get_runtime s = (r, s') ->
  ch_registry s' = ch_registry s /\ ch_shared s' = ch_shared s /\ ch_flags s' = ch_flags s
  /\ state_only s s'.
Proof.
  unfold channel_get_runtime. destruct (get_runtime _ _ _ _) as [[] rt]; intros; simplify_eq;
    repeat split; simpl; auto.
Qed.

Lemma channel_pump_only s r s' : channel_pump s = (r, s') -> state_only s s'.
Proof.
  unfold channel_pump, pump. simpl.
  assert (H4 : state_only s (Nat.iter 4 sched_tick s)).
  { simpl. etrans; [apply sched_tick_only|]. etrans; [apply sched_tick_only|].
    etrans; [apply sched_tick_only|]. apply sched_tick_only. }
  destruct (get_runtime _ _ _ _) as [[] rt]; intros; simplify_eq; [|by split; auto..].
  destruct H4. by split.
Qed.

(** Every way the constructor succeeds: it reuses the transport registered
    under its key, or builds a new one and registers it. *)
Lemma channel_construct_inv target args s c s' :
  channel_construct target args s = (Return c, s') ->
  exists pa pc i, parse_args args = Ok pa /\ parse_credentials args = Ok pc
    /\ gc_inner c = Some i /\ ci_target i = target /\ ci_call_plugin i = pc_plugin pc
    /\ ci_max_decoding i = message_limit args "grpc.max_receive_message_length"
    /\ ci_max_encoding i = message_limit args "grpc.max_send_message_length"
    /\ gc_closed_flag c = length (ch_flags s) /\ ch_flags s' = ch_flags s ++ [false]
    /\ ((exists k, construct_key target args = Some k /\ ch_registry s !! k = Some (ci_shared i)
           /\ ch_registry s' = ch_registry s /\ ch_shared s' = ch_shared s)
        \/ (registry_lookup (construct_key target args) s = None
           /\ ci_shared i = length (ch_shared s)
           /\ exists ep, build_endpoint target args (pc_tls pc) = Ok ep
              /\ ch_shared s' = ch_shared s
                   ++ [MkShared (ep_connect_lazy (ep_connect_timeout ep 20)) CHANNEL_IDLE]
              /\ ch_registry s' = match construct_key target args with
                                  | Some k => <[k := length (ch_shared s)]> (ch_registry s)
                                  | None => ch_registry s
                                  end)).
Proof.
  unfold channel_construct, construct_key. mred.
  destruct (parse_args args) as [pa|] eqn:Hpa; [|done].
  destruct (parse_credentials args) as [pc|] eqn:Hpc; [|done].
  destruct (registry_lookup (persist_key_of target pa pc) s) as [sh|] eqn:Hk.
  - intros H. unfold new_channel in H. simplify_eq. eexists pa, pc, _.
    do 2 (split; [done|]). split; [reflexivity|]. repeat (split; [done|]). left.
    destruct (persist_key_of target pa pc) as [k|]; [|done]. simpl in Hk. eauto.
  - destruct (build_endpoint target args (pc_tls pc)) as [ep|] eqn:Hep; [|done].
    destruct (channel_get_runtime s) as [[rt| |] s1] eqn:Hrt; [|done..].
    apply channel_get_runtime_only in Hrt as (Hreg & Hsh & Hfl & _).
    unfold new_shared, new_channel. simpl. intros; simplify_eq. eexists pa, pc, _.
    do 2 (split; [done|]). split; [reflexivity|]. simpl. rewrite Hfl, Hsh, Hreg.
    repeat (split; [done|]). right. repeat (split; [done|]). exists ep. repeat (split; [done|]).
    by destruct (persist_key_of target pa pc).
Qed.

(** A constructor that fails or blocks leaves registry and transports alone. *)
Lemma channel_construct_fail target args s r s' :
  channel_construct target args s = (r, s') -> (forall c, r <> Return c) -> state_only s s'.
Proof.
  unfold channel_construct. mred.
  destruct (parse_args args) as [pa|]; [|by intros; simplify_eq].
  destruct (parse_credentials args) as [pc|]; [|by intros; simplify_eq].
  destruct (registry_lookup _ s) as [sh|]; [unfold new_channel; intros; simplify_eq; naive_solver|].
  destruct (build_endpoint _ _ _) as [ep|]; [|by intros; simplify_eq].
  destruct (channel_get_runtime s) as [[rt| |] s1] eqn:Hrt;
    apply channel_get_runtime_only in Hrt as (_ & _ & _ & Hso);
    unfold new_shared, new_channel; simpl; intros; simplify_eq; naive_solver.
Qed.

Lemma channel_construct_wf target args s r s' :
  reg_wf s -> channel_construct target args s = (r, s') -> reg_wf s' /\ reg_le s s'.
Proof.
  intros Hwf H. destruct r as [c|e|]; [|eapply state_only_wf; [|done]; by eapply channel_construct_fail..].
  apply channel_construct_inv in H
    as (pa & pc & i & _ & _ & _ & _ & _ & _ & _ & _ & _ & [(k & _ & _ & Hr & Hs)|(Hk & _ & ep & _ & Hs & Hr)]).
  { destruct Hwf as [W1 W2 W3]. split; split; rewrite ?Hr, ?Hs; auto. intros id _. unfold shared_state. by rewrite Hs. }
  assert (Hst : forall id, (id < length (ch_shared s))%nat -> shared_state id s' = shared_state id s).
  { intros id Hid. unfold shared_state. by rewrite Hs, lookup_app_l. }
  destruct Hwf as [W1 W2 W3].
  assert (Hlen : length (ch_shared s') = S (length (ch_shared s))) by (rewrite Hs, length_app; simpl; lia).
  destruct (construct_key target args) as [k|]; simpl in *.
  - split; split; rewrite ?Hr, ?Hlen.
    + intros k' id. rewrite lookup_insert. case_decide; intros; simplify_eq; [lia|].
      etrans; [by eapply W1|lia].
    + intros k1 k2 id. rewrite !lookup_insert.
      repeat case_decide; intros Ha Hb; simplify_eq; eauto;
        [apply W1 in Hb | apply W1 in Ha]; lia.
    + rewrite Hs. apply Forall_app. split; [done|]. by repeat constructor.
    + intros k' id Hk'. rewrite lookup_insert_ne; [done|]. intros ->. congruence.
    + lia.
    + intros k' id. rewrite lookup_insert. case_decide; intros; simplify_eq; auto.
    + intros id Hid. by rewrite Hst.
  - split; split; rewrite ?Hr, ?Hlen; auto.
    + intros k' id H. apply W1 in H. lia.
    + rewrite Hs. apply Forall_app. split; [done|]. by repeat constructor.
    + intros id Hid. by rewrite Hst.
Qed.

Lemma get_connectivity_state_only c arg s r s' :
  get_connectivity_state c arg s = (r, s') -> state_only s s'.
Proof.
  unfold get_connectivity_state, throw.
  destruct (match arg with Some zv => _ | None => _ end); [by intros; simplify_eq|]. mred.
  destruct (gc_inner c) as [i|]; simpl; [|by intros; simplify_eq].
  destruct (channel_pump s) as [[u|e|] s1] eqn:Hp; apply channel_pump_only in Hp;
    [|by intros; simplify_eq..].
  destruct (default false _ && _); [|by intros; simplify_eq].
  destruct (channel_get_runtime s1) as [[rt| |] s2] eqn:Hrt;
    apply channel_get_runtime_only in Hrt as (_ & _ & _ & Hso); simpl; intros Heq; inversion Heq; subst;
    [|etrans; eassumption..].
  etrans; [eassumption|]. etrans; [eassumption|].
  assert (H3 : state_only s2 (set_shared_state (ci_shared i) CHANNEL_CONNECTING s2)).
  { apply set_shared_state_only. unfold CHANNEL_CONNECTING. lia. }
  destruct H3. by split.
Qed.

Lemma watch_loop_only id last dl cs s r s' :
  watch_loop id last dl cs s = (r, s') -> state_only s s'.
Proof.
  revert s. induction cs as [|c cs IH]; intros s; simpl; case_match; try (by intros; simplify_eq).
  case_match; [by intros; simplify_eq|]. intros Hw%IH. etrans; [|exact Hw].
  unfold sleep_usec. etrans; [|apply sched_tick_only]. by split; auto.
Qed.

Lemma watch_connectivity_only c last dl c0 cs s r s' :
  watch_connectivity_state c last dl c0 cs s = (r, s') -> state_only s s'.
Proof.
  unfold watch_connectivity_state. mred. destruct (gc_inner c) as [i|]; simpl; [|by intros; simplify_eq].
  destruct (channel_get_runtime s) as [[rt| |] s1] eqn:Hrt;
    apply channel_get_runtime_only in Hrt as (_ & _ & _ & Hso); [|by intros; simplify_eq..].
  intros H%watch_loop_only. etrans; eassumption.
Qed.

Lemma chan_step_wf s s' : reg_wf s -> chan_step s s' -> reg_wf s' /\ reg_le s s'.
Proof.
  intros Hwf Hs. destruct Hs as [???? s' H|???? s' H|??????? s' H|??? s' H|?].
  - by eapply channel_construct_wf.
  - eapply state_only_wf; [|done]. by eapply get_connectivity_state_only.
  - eapply state_only_wf; [|done]. by eapply watch_connectivity_only.
  - unfold channel_close in H. simplify_eq. destruct Hwf. by split; split; auto.
  - eapply state_only_wf; [apply sched_tick_only | done].
Qed.

Lemma chan_steps_wf s s' : rtc chan_step s s' -> reg_wf s -> reg_wf s' /\ reg_le s s'.
Proof.
  induction 1 as [s|s1 s2 s3 H12 H23 IH]; intros Hwf; [done|].
  destruct (chan_step_wf _ _ Hwf H12) as [H2 L2]. destruct (IH H2) as [H3 L3].
  split; [done|by etrans].
Qed.

Lemma chan_init_wf sched : reg_wf (chan_init sched).
Proof. split; simpl; intros; simplify_map_eq; try done. Qed.

Lemma persist_key_inj t1 t2 id1 id2 p1 p2 :
  str_has "|" t1 = false -> str_has "|" t2 = false ->
  persist_key t1 id1 p1 = persist_key t2 id2 p2 ->
  t1 = t2 /\ id1 = id2 /\ str_join "," p1 = str_join "," p2.
Proof.
  unfold persist_key. intros H1 H2 [Ht Hr]%str_split_unique; [|done..].
  simpl in Hr. simplify_eq. apply str_split_unique in Hr as [Hid Hj]; [|by apply pretty_Z_no_char..].
  apply (inj pretty) in Hid. done.
Qed.

(** A key in the registry belongs to the call that made or reused it. *)
Lemma channel_construct_registered target args s c s' k :
  channel_construct target args s = (Return c, s') -> construct_key target args = Some k ->
  exists i, gc_inner c = Some i /\ ch_registry s' !! k = Some (ci_shared i).
Proof.
  intros H Hk. apply channel_construct_inv in H
    as (pa & pc & i & _ & _ & Hi & _ & _ & _ & _ & _ & _ & [(k' & Hk' & Hl & Hr & _)|(_ & Hsh & ep & _ & _ & Hr)]);
    exists i; split; try done; rewrite Hr.
  - congruence.
  - rewrite Hk, lookup_insert_eq. by rewrite Hsh.
Qed.

(** The accumulators of two argument orders that will sort alike. *)
Definition parsed_eqv (a b : ParsedArgs) : Prop :=
  pa_force_new a = pa_force_new b /\ pa_parts a ≡ₚ pa_parts b.

Definition arg_name (kv : ArrayKey ZStr * Zval) : string := ak_to_string kv.1.

(** What a valid argument contributes: a part, or the [force_new] setting. *)
Lemma parse_arg_eqv a b x a' :
  parsed_eqv a b -> parse_arg a x = Ok a' ->
  exists b', parse_arg b x = Ok b' /\ parsed_eqv a' b'.
Proof.
  intros [Hf Hp]. unfold parse_arg. destruct x as [key v]; simpl.
  destruct key; [done|..].
  all: case_bool_decide; [intros; simplify_eq; eexists; split; [done|by split]|].
  all: case_bool_decide; [intros; simplify_eq; eexists; split; [done|by split]|].
  all: destruct (arg_value v); simpl; intros; simplify_eq;
       eexists; split; try done; split; simpl; try done.
  all: by rewrite Hp.
Qed.

Lemma parse_arg_swap a x y a1 a2 :
  arg_name x <> arg_name y -> parse_arg a x = Ok a1 -> parse_arg a1 y = Ok a2 ->
  exists b1 b2, parse_arg a y = Ok b1 /\ parse_arg b1 x = Ok b2 /\ parsed_eqv a2 b2.
Proof.
  unfold parse_arg, arg_name. destruct x as [kx vx], y as [ky vy]; simpl. intros Hne.
  destruct kx; [done|..]; destruct ky; try done.
  all: destruct (arg_value vx), (arg_value vy); simpl;
       repeat case_bool_decide; intros; simplify_eq; try congruence;
       do 2 eexists; (split; [done|]); (split; [done|]); split; simpl; try done.
  all: rewrite <- !app_assoc; simpl; by rewrite (Permutation_swap _ _ []).
Qed.

Lemma parse_args_perm l1 l2 a b p :
  l1 ≡ₚ l2 -> NoDup (arg_name <$> l1) -> parsed_eqv a b -> try_fold parse_arg a l1 = Ok p ->
  exists q, try_fold parse_arg b l2 = Ok q /\ parsed_eqv p q.
Proof.
  clear zv_extract_creds env_var build_error tid. intros HP. revert a b p.
  assert (Hsame : forall l a b p, parsed_eqv a b -> try_fold parse_arg a l = Ok p ->
    exists q, try_fold parse_arg b l = Ok q /\ parsed_eqv p q).
  { induction l as [|x l IH]; simpl; intros a b p Hab; [intros; simplify_eq; eauto|].
    destruct (parse_arg a x) as [a'|] eqn:Ha; [|done].
    destruct (parse_arg_eqv _ _ _ _ Hab Ha) as (b' & -> & Hab'). by apply IH. }
  induction HP as [|x l1 l2 HP IH|x y l|l1 l2 l3 H12 IH1 H23 IH2]; intros a b p Hnd Hab; csimpl in *.
  - intros; simplify_eq. eauto.
  - apply NoDup_cons in Hnd as [_ Hnd].
    destruct (parse_arg a x) as [a'|] eqn:Ha; [|done].
    destruct (parse_arg_eqv _ _ _ _ Hab Ha) as (b' & -> & Hab'). by apply IH.
  - destruct (parse_arg a y) as [a1|] eqn:Ha; [|done].
    destruct (parse_arg a1 x) as [a2|] eqn:Ha2; [|done]. intros Hl.
    destruct (parse_arg_eqv _ _ _ _ Hab Ha) as (c1 & Hc1 & Hac1).
    destruct (parse_arg_eqv _ _ _ _ Hac1 Ha2) as (c2 & Hc2 & Hac2).
    assert (arg_name y <> arg_name x) by (apply NoDup_cons in Hnd as [Hnd _]; set_solver).
    destruct (parse_arg_swap _ _ _ _ _ H Hc1 Hc2) as (b1 & b2 & -> & -> & [Hf Hp]).
    destruct Hac2 as [Hf2 Hp2]. eapply Hsame; [|exact Hl]. split; [congruence|by rewrite Hp2].
  - intros Hl. destruct (IH1 a a p Hnd) as (q & Hq & Hpq); [by split|done|].
    destruct (IH2 a b q) as (q' & Hq' & Hqq'); [by rewrite <- H12|done|done|].
    exists q'. split; [done|]. destruct Hpq, Hqq'. split; [congruence|by etrans].
Qed.

(** Sharing, followed through the reachable states in between. *)
Lemma channel_sharing_key sched t1 a1 t2 a2 s1 c1 s1' s2 c2 s2' :
  rtc chan_step (chan_init sched) s1 ->
  channel_construct t1 a1 s1 = (Return c1, s1') -> rtc chan_step s1' s2 ->
  channel_construct t2 a2 s2 = (Return c2, s2') ->
  (get_shared c1 = get_shared c2 <->
   exists k, construct_key t1 a1 = Some k /\ construct_key t2 a2 = Some k).
Proof.
  intros R1 H1 R2 H2.
  destruct (chan_steps_wf _ _ R1 (chan_init_wf sched)) as [W1 _].
  destruct (channel_construct_wf _ _ _ _ _ W1 H1) as [W1' _].
  destruct (chan_steps_wf _ _ R2 W1') as [W2 L2].
  pose proof (channel_construct_inv _ _ _ _ _ H1) as (pa1 & pc1 & i1 & _ & _ & Hi1 & _ & _ & _ & _ & _ & _ & D1).
  pose proof (channel_construct_inv _ _ _ _ _ H2) as (pa2 & pc2 & i2 & _ & _ & Hi2 & _ & _ & _ & _ & _ & _ & D2).
  assert (Hb1 : (ci_shared i1 < length (ch_shared s1'))%nat).
  { destruct D1 as [(k & _ & Hk & _ & ->)|(_ & -> & ep & _ & -> & _)].
    - by eapply reg_bound.
    - rewrite length_app. simpl. lia. }
  unfold get_shared. rewrite Hi1, Hi2. simpl. split.
  - intros Heq. simplify_eq.
    destruct D2 as [(k2 & Hk2 & Hr2 & _)|(_ & Hs2 & _)]; [|destruct L2; lia].
    exists k2. split; [|done]. rewrite <- Heq in Hr2.
    destruct (le_fresh _ _ L2 _ _ Hr2) as [Hold|?]; [|lia].
    destruct D1 as [(k1 & Hk1 & Hr1 & Hreg & _)|(_ & Hs1 & ep & _ & _ & Hreg)].
    + rewrite Hreg in Hold. by rewrite (reg_inj _ W1 _ _ _ Hold Hr1).
    + rewrite Hreg in Hold. destruct (construct_key t1 a1) as [k1|]; [|apply (reg_bound _ W1) in Hold; lia].
      rewrite lookup_insert in Hold. case_decide; [congruence|]. apply (reg_bound _ W1) in Hold. lia.
  - intros (k & Hk1 & Hk2). f_equal.
    destruct (channel_construct_registered _ _ _ _ _ _ H1 Hk1) as (i1' & Hi1' & Hr1).
    apply (le_registry _ _ L2) in Hr1.
    destruct D2 as [(k' & Hk' & Hr2 & _)|(Hn & _)]; [congruence|].
    rewrite Hk2 in Hn. simpl in Hn. congruence.
Qed.

(** * Properties *)

(** C11: two Channel objects of a thread, constructed at any two points of its life
    with any operations in between, share a transport exactly when both calls
    have a registry key (no call-credentials plugin, no force_new) and the keys
    are equal. *)
Theorem channel_sharing_iff_key sched t1 a1 t2 a2 s1 c1 s1' s2 c2 s2' :
  rtc chan_step (chan_init sched) s1 ->
  channel_construct t1 a1 s1 = (Return c1, s1') -> rtc chan_step s1' s2 ->
  channel_construct t2 a2 s2 = (Return c2, s2') ->
  (get_shared c1 = get_shared c2 <->
   exists k, construct_key t1 a1 = Some k /\ construct_key t2 a2 = Some k).
Proof. apply channel_sharing_key. Qed.

(** C17: channels of targets without a bar character that share a transport were
    built for the same target with the same credentials: the same credentials
    object, or both insecure. *)
Theorem channel_credentials_isolated sched t1 a1 t2 a2 s1 c1 s1' s2 c2 s2' pc1 pc2 :
  rtc chan_step (chan_init sched) s1 ->
  channel_construct t1 a1 s1 = (Return c1, s1') -> rtc chan_step s1' s2 ->
  channel_construct t2 a2 s2 = (Return c2, s2') ->
  parse_credentials a1 = Ok pc1 -> parse_credentials a2 = Ok pc2 ->
  str_has "|" t1 = false -> str_has "|" t2 = false ->
  get_shared c1 = get_shared c2 -> t1 = t2 /\ pc_id pc1 = pc_id pc2.
Proof.
  intros R1 H1 R2 H2 P1 P2 N1 N2 Heq.
  assert (Hk : exists k, construct_key t1 a1 = Some k /\ construct_key t2 a2 = Some k).
  { eapply channel_sharing_key; eauto. }
  destruct Hk as (k & Hk1 & Hk2). unfold construct_key in *. rewrite P1 in Hk1. rewrite P2 in Hk2.
  destruct (parse_args a1) as [p1|]; [|done]. destruct (parse_args a2) as [p2|]; [|done].
  unfold persist_key_of in *. destruct (pc_plugin pc1), (pc_plugin pc2); try done.
  destruct (pa_force_new p1), (pa_force_new p2); simplify_eq/=.
  destruct (persist_key_inj t2 t1 (pc_id pc2) (pc_id pc1) (pa_parts p2) (pa_parts p1)) as (-> & -> & _); done.
Qed.

(** The registry key does not depend on the order of the arguments: a
    permutation of a valid argument array gives the same key. *)
Theorem persist_key_order_insensitive (target : string) (args args' : HashTable) (p : ParsedArgs) :
  parse_args args = Ok p -> ht_iter args ≡ₚ ht_iter args' ->
  NoDup (arg_name <$> ht_iter args) -> parse_credentials args = parse_credentials args' ->
  parse_args args' = Ok p /\ construct_key target args' = construct_key target args.
Proof.
  intros Hp HP Hnd Hc.
  assert (Ha : parse_args args' = Ok p).
  { revert Hp. unfold parse_args. mred.
    destruct (try_fold parse_arg _ (ht_iter args)) as [q|] eqn:Hq; [|done]. intros; simplify_eq.
    destruct (parse_args_perm _ _ _ (MkParsed false []) _ HP Hnd ltac:(by split) Hq) as (q' & -> & [Hf Hpp]).
    f_equal. f_equal; [done|].
    apply (StronglySorted_unique String.le); [apply StronglySorted_merge_sort; apply _..|].
    by rewrite !merge_sort_Permutation. }
  split; [done|]. unfold construct_key. by rewrite Ha, Hp, Hc.
Qed.

(** ** What the transport of a secure channel is *)

(** A transport built for [target] with the TLS configuration [tls]: from an
    https URI through the tuning arguments and the user agent to
    [tls_config], with the domain name the arguments ask for. *)
Definition tls_transport (target : string) (args : HashTable) (tls : ClientTlsConfig) (ch : TonicChannel) : Prop :=
  exists ep0 ep1 ep, ep_from_shared ("https://" +:+ target) = Ok ep0
    /\ match arg_string args "grpc.primary_user_agent" with
       | Some ua => ep_user_agent (endpoint_http2 args (endpoint_keepalive args ep0)) ua = Ok ep1
       | None => ep1 = endpoint_http2 args (endpoint_keepalive args ep0)
       end
    /\ ep_tls_config ep1 (match arg_string args "grpc.ssl_target_name_override" with
                          | Some n => tls_domain_name tls n
                          | None => tls
                          end) = Ok ep
    /\ ch = ep_connect_lazy (ep_connect_timeout ep 20).

Lemma build_endpoint_tls target args tls ep :
  str_contains "://" target = false -> build_endpoint target args (Some tls) = Ok ep ->
  tls_transport target args tls (ep_connect_lazy (ep_connect_timeout ep 20)).
Proof.
  intros Hs. unfold build_endpoint, uri_target, tls_override, tls_transport. rewrite Hs. mred.
  destruct (ep_from_shared _) as [ep0|]; [simpl|done].
  assert (Hmap : forall (r : result TransportError Endpoint) e,
    map_err (fun e => exn_of_grpc_error (Transport e)) r = Ok e -> r = Ok e).
  { intros [] ?; simpl; intros; by simplify_eq. }
  destruct (arg_string args "grpc.ssl_target_name_override") as [n|]; simpl;
    destruct (arg_string args "grpc.primary_user_agent") as [ua|]; simpl;
    try (destruct (ep_user_agent _ ua) eqn:Hu; [simpl|done]); intros H%Hmap;
    eexists ep0, _, ep; by split_and!.
Qed.

(** The life of a thread whose targets have no bar: further channels are made,
    and everything else (the other methods of channels and calls, their tasks
    and the network) leaves the registry and the transports alone. *)
Inductive bar_free_step : ChanState -> ChanState -> Prop :=
| bf_construct target args s r s' :
    str_has "|" target = false -> channel_construct target args s = (r, s') -> bar_free_step s s'
| bf_other s s' :
    ch_registry s' = ch_registry s -> sh_channel <$> ch_shared s' = sh_channel <$> ch_shared s -> bar_free_step s s'.

Lemma chan_step_bar_free s s' :
  chan_step s s' -> (exists target args r, channel_construct target args s = (r, s')) \/ bar_free_step s s'.
Proof.
  intros Hs. destruct Hs as [target args s r s' H|c arg s r s' H|c last dl c0 cs s r s' H|c s r s' H|s]; [by eauto|right..].
  - apply get_connectivity_state_only in H as []. by apply bf_other.
  - apply watch_connectivity_only in H as []. by apply bf_other.
  - unfold channel_close in H. simplify_eq. by apply bf_other.
  - destruct (sched_tick_only s). by apply bf_other.
Qed.

(** The transport [id] was built by a constructor call with the key [k]. *)
Definition built_as (channels : list TonicChannel) (k : string) (id : nat) : Prop :=
  exists target args pc ep, str_has "|" target = false /\ construct_key target args = Some k
    /\ parse_credentials args = Ok pc /\ build_endpoint target args (pc_tls pc) = Ok ep
    /\ channels !! id = Some (ep_connect_lazy (ep_connect_timeout ep 20)).

Lemma built_as_app channels more k id : built_as channels k id -> built_as (channels ++ more) k id.
Proof.
  intros (t & a & pc & ep & ? & ? & ? & ? & Hl). exists t, a, pc, ep. split_and!; try done. by apply lookup_app_l_Some.
Qed.

Definition registered_built (s : ChanState) : Prop := forall k id,
  ch_registry s !! k = Some id -> built_as (sh_channel <$> ch_shared s) k id.

Lemma bar_free_step_built s s' : bar_free_step s s' -> registered_built s -> registered_built s'.
Proof.
  intros Hs Hb k id Hk. destruct Hs as [target args s r s' Ht H|s s' Hr Hc]; [|rewrite Hr in Hk; rewrite Hc; by apply Hb].
  assert (Hfail : (forall c, r <> Return c) -> built_as (sh_channel <$> ch_shared s') k id).
  { intros Hr. apply channel_construct_fail in H as [Hreg _ Hc _ _]; [|done]. rewrite Hreg in Hk. rewrite Hc. by apply Hb. }
  destruct r as [c|e|]; [clear Hfail|by apply Hfail..].
  apply channel_construct_inv in H as (pa & pc & i & _ & Hpc & _ & _ & _ & _ & _ & _ & _ &
    [(k' & _ & _ & Hr & Hs)|(_ & _ & ep & Hep & Hs & Hr)]); rewrite Hr in Hk; rewrite Hs; [by apply Hb|].
  rewrite fmap_app. destruct (construct_key target args) as [k1|] eqn:Ek; [|by apply built_as_app, Hb].
  rewrite lookup_insert in Hk. case_decide as Ek1; [|by apply built_as_app, Hb].
  injection Hk as <-. subst k1. exists target, args, pc, ep. split_and!; try done.
  apply list_lookup_middle. by rewrite length_fmap.
Qed.

Lemma bar_free_steps_built sched s : rtc bar_free_step (chan_init sched) s -> registered_built s.
Proof.
  intros R. assert (H0 : registered_built (chan_init sched)) by (intros k id Hk; simpl in Hk; by rewrite lookup_empty in Hk).
  revert H0. induction R as [|s1 s2 s3 H12 _ IH]; [done|]. intros H1. eapply IH, bar_free_step_built; eauto.
Qed.

(** The ids of credentials objects: each its own, and none the 0 of a channel
    without credentials. *)
Record creds_ids : Prop := {
  ci_nonzero : forall z c, zv_extract_creds z = Some c -> cc_id c <> 0;
  ci_unique : forall z z' c c', zv_extract_creds z = Some c -> zv_extract_creds z' = Some c' ->
    cc_id c = cc_id c' -> cc_inner c = cc_inner c';
}.

Lemma parse_credentials_some args z creds :
  ht_get args "credentials" = Some z -> zv_is_null z = false -> zv_extract_creds z = Some creds ->
  exists plugin, parse_credentials args = Ok (MkPCreds (Some (creds_tls (cc_inner creds))) plugin (cc_id creds)).
Proof. intros Hg Hn Hz. unfold parse_credentials. rewrite Hg, Hn, Hz. simpl. destruct (cc_inner creds); eauto. Qed.

(** Credentials with the id of an object have its TLS configuration. *)
Lemma parse_credentials_id args pc z creds :
  creds_ids -> parse_credentials args = Ok pc -> zv_extract_creds z = Some creds -> pc_id pc = cc_id creds ->
  pc_tls pc = Some (creds_tls (cc_inner creds)).
Proof.
  intros [Hnz Huq] Hp Hz Hid. unfold parse_credentials in Hp.
  assert (H0 : cc_id creds <> 0) by (by eapply Hnz).
  destruct (ht_get args "credentials") as [z0|]; [|by simplify_eq].
  destruct (zv_is_null z0); [by simplify_eq|].
  destruct (zv_extract_creds z0) as [c0|] eqn:Hz0; [|done]. simpl in Hp.
  assert (Hi : cc_id c0 = cc_id creds -> cc_inner c0 = cc_inner creds) by (by apply (Huq z0 z)).
  destruct (cc_inner c0) eqn:E; simplify_eq; simpl in *; by rewrite <- (Hi Hid).
Qed.

(** C34: a credentials argument that is not null never leads to a plaintext
    channel.  If it is not a ChannelCredentials object the constructor throws
    InvalidArgumentException and makes nothing.  If it is one, and the target
    has no scheme of its own, the transport of the channel (built by this call
    or taken from the registry, whatever channels the thread made before)
    connects to the https URI of this target with the TLS configuration of
    this object applied.  Outside the claim: a target that brings its own
    scheme keeps it, so [http://..] with credentials is the caller's choice;
    and no target of the thread has a bar, which would make keys collide. *)
Theorem channel_no_plaintext_fallback sched target args s r s' z :
  creds_ids -> rtc bar_free_step (chan_init sched) s ->
  str_has "|" target = false -> str_contains "://" target = false ->
  ht_get args "credentials" = Some z -> zv_is_null z = false -> is_ok (parse_args args) = true ->
  channel_construct target args s = (r, s') ->
  match zv_extract_creds z with
  | None => r = Throw (invalid_argument "credentials must be a ChannelCredentials object") /\ s' = s
  | Some creds => forall c, r = Return c ->
      exists args0 ch, get_tonic_channel c s' = Some ch
        /\ tls_transport target args0 (creds_tls (cc_inner creds)) ch
        /\ (args0 = args \/ exists k, construct_key target args0 = Some k /\ construct_key target args = Some k)
  end.
Proof.
  intros Hids Hreach Hbar Hscheme Hg Hn Hpa H. destruct (zv_extract_creds z) as [creds|] eqn:Hz.
  2: { revert H. unfold channel_construct. mred. destruct (parse_args args); [|done].
       unfold parse_credentials. rewrite Hg, Hn, Hz. simpl. by intros [= <- <-]. }
  intros c ->. destruct (parse_credentials_some args z creds Hg Hn Hz) as [plugin Hpc].
  apply channel_construct_inv in H as (pa & pc & i & Hpa' & Hpc' & Hi & _ & _ & _ & _ & _ & _ & Hd).
  assert (pc = MkPCreds (Some (creds_tls (cc_inner creds))) plugin (cc_id creds)) as -> by congruence.
  unfold get_tonic_channel. rewrite Hi. simpl. destruct Hd as [(k & Hk & Hreg & _ & Hs)|(_ & Hsh & ep & Hep & Hs & _)].
  - destruct (bar_free_steps_built _ _ Hreach _ _ Hreg) as (t0 & a0 & pc0 & ep & Hb0 & Hk0 & Hp0 & Hep & Hl).
    rewrite list_lookup_fmap in Hl. rewrite Hs. destruct (ch_shared s !! ci_shared i) as [sh|]; [|done].
    simpl in Hl. injection Hl as Hl. simpl.
    assert (Ht : t0 = target /\ pc_id pc0 = cc_id creds).
    { pose proof Hk as Hk1. unfold construct_key in Hk1, Hk0. rewrite Hpa', Hpc in Hk1. rewrite Hp0 in Hk0.
      destruct (parse_args a0) as [pa0|]; [|done]. unfold persist_key_of in Hk1, Hk0. simpl in Hk1.
      destruct plugin, (pc_plugin pc0), (pa_force_new pa), (pa_force_new pa0); simplify_eq/=.
      by edestruct (persist_key_inj target t0 (cc_id creds) (pc_id pc0) (pa_parts pa) (pa_parts pa0)) as (-> & -> & _). }
    destruct Ht as [-> Hid]. rewrite (parse_credentials_id a0 pc0 z creds Hids Hp0 Hz Hid) in Hep.
    exists a0, (sh_channel sh). split; [done|]. rewrite Hl. split; [by apply build_endpoint_tls|]. right. eauto.
  - rewrite Hs, Hsh, list_lookup_middle by done. simpl. exists args. eexists. split; [done|]. split; [|by left].
    by apply build_endpoint_tls.
Qed.

(** Asking an idle channel to connect. *)
Lemma idle_connects c i z s r s' :
  gc_inner c = Some i -> (ci_shared i < length (ch_shared s))%nat -> zv_bool z = Some true ->
  get_connectivity_state c (Some z) s = (Return r, s') -> r = CHANNEL_IDLE ->
  shared_state (ci_shared i) s' = CHANNEL_CONNECTING
  /\ exists s1, channel_pump s = (Return tt, s1) /\ ch_probes s' = ch_probes s1 ++ [ci_shared i].
Proof.
  intros Hi Hlen Hz. unfold get_connectivity_state. mred. rewrite Hz, Hi. simpl.
  destruct (channel_pump s) as [[[]|e|] s1] eqn:Hp; [|done..].
  destruct (shared_state (ci_shared i) s1 =? CHANNEL_IDLE) eqn:E; simpl; [|intros [= <- <-] Hr; by rewrite Hr in E].
  destruct (channel_get_runtime s1) as [[rt| |] s3] eqn:Hrt; [|done..]. intros Heq _. simplify_eq.
  pose proof Hrt as (_ & Hs3 & _ & _)%channel_get_runtime_only.
  apply channel_pump_only in Hp. split.
  - unfold shared_state. simpl. rewrite list_lookup_alter_eq, Hs3. rewrite <- (so_length _ _ Hp) in Hlen.
    destruct (lookup_lt_is_Some_2 _ _ Hlen) as [sh1 ->]. done.
  - exists s1. split; [done|]. simpl. unfold channel_get_runtime in Hrt.
    destruct (get_runtime _ _ _ _) as [[] ?]; by simplify_eq/=.
Qed.

Lemma watch_loop_spec id last dl cs s :
  (forall s', watch_loop id last dl cs s = (Return true, s') -> shared_state id s' <> last)
  /\ (forall s', watch_loop id last dl cs s = (Return false, s') ->
        shared_state id s' = last /\ Exists (fun c => dl <= now_usec c) cs)
  /\ (Exists (fun c => dl <= now_usec c) cs -> (watch_loop id last dl cs s).1 <> Blocked)
  /\ (forall e, (watch_loop id last dl cs s).1 <> Throw e).
Proof.
  revert s. induction cs as [|c cs IH]; intros s; simpl.
  - destruct (shared_state id s =? last) eqn:E; simpl; bool_prop; split_and!;
      try (intros; by simplify_eq). by intros ?%Exists_nil.
  - destruct (shared_state id s =? last) eqn:E; simpl; bool_prop.
    2: { split_and!; intros; by simplify_eq. }
    destruct (dl <=? now_usec c) eqn:Hd; bool_prop.
    + split_and!; intros; simplify_eq; try done. split; [done|by constructor].
    + specialize (IH (sleep_usec (wrap_u64 (Z.min (Z.max (saturating_sub dl (now_usec c)) 1) 10000)) s)).
      destruct IH as (A & B & C & D). split_and!; try done.
      * intros s' H. apply B in H as [? ?]. split; [done|]. by right.
      * intros [H|H]%Exists_cons; [lia|by apply C].
Qed.

(** C33: [watchConnectivityState] answers true only when the state differs from the
    one given, false only when it is still the same and the clock has reached
    the deadline, never throws from its loop, and always answers once the
    clock reaches the deadline. *)
Theorem watch_connectivity_spec c i last dl c0 cs s r s' :
  gc_inner c = Some i ->
  watch_connectivity_state c last dl c0 cs s = (r, s') ->
  let deadline := to_absolute_usec c0 dl in
  match r with
  | Return true => shared_state (ci_shared i) s' <> last
  | Return false => shared_state (ci_shared i) s' = last
                    /\ Exists (fun c => deadline <= now_usec c) cs
  | Throw e => exists io, e = exn_of_grpc_error io
  | Blocked => ~ Exists (fun c => deadline <= now_usec c) cs
  end.
Proof.
  intros Hi. unfold watch_connectivity_state. mred. rewrite Hi. simpl.
  destruct (channel_get_runtime s) as [[rt|e|] s1] eqn:Hrt.
  - destruct (watch_loop_spec (ci_shared i) last (to_absolute_usec c0 dl) cs s1) as (A & B & C & D).
    intros H. rewrite H in *. destruct r as [[]|e|]; simpl in *; [by apply A|by apply B| |].
    + by destruct (D e).
    + intros Hex. by apply C.
  - unfold channel_get_runtime in Hrt. destruct (get_runtime _ _ _ _) as [[] ?]; simplify_eq/=.
    intros; simplify_eq. eauto.
  - unfold channel_get_runtime in Hrt.
    pose proof (get_runtime_not_blocked env_var build_error tid (ch_rt s)).
    destruct (get_runtime _ _ _ _) as [[] ?]; by simplify_eq/=.
Qed.

(** After [close] every method of the channel object throws RuntimeException and
    changes nothing, the flag shared with its calls is set, and neither the
    registry nor the transport is affected. *)
Theorem closed_channel_rejects c s c' s' :
  (gc_closed_flag c < length (ch_flags s))%nat ->
  channel_close c s = (Return c', s') ->
  ch_flags s' !! get_closed_flag c = Some true
  /\ ch_registry s' = ch_registry s /\ ch_shared s' = ch_shared s
  /\ channel_get_target c' = Err (runtime_exception "getTarget error.Channel is already closed.")
  /\ (forall arg, (forall z, arg = Some z -> zv_bool z <> None) ->
       get_connectivity_state c' arg s'
       = (Throw (runtime_exception "getConnectivityState error.Channel is already closed."), s'))
  /\ (forall last dl c0 cs, watch_connectivity_state c' last dl c0 cs s'
       = (Throw (runtime_exception "watchConnectivityState errorChannel is already closed."), s'))
  /\ get_tonic_channel c' s' = None.
Proof.
  intros Hl H. unfold channel_close in H. simplify_eq/=. repeat split.
  - by apply list_lookup_insert_eq.
  - intros [z|] Hz; [|done]. unfold get_connectivity_state.
    rewrite bool_decide_false by (by apply Hz). done.
Qed.

(** C40: the isolation of credentials does depend on targets without a bar: a
    bar in the target makes the key ambiguous, and an insecure channel to the
    target [t|creds=N|y] shares the transport of the TLS channel that was built
    to [t] with the credentials [N] and the one argument [y|creds] of value
    [0|]. *)
Theorem persist_key_bar_collision sched t y a1 a2 id tls s1 c1 s1' s2 c2 s2' :
  rtc chan_step (chan_init sched) s1 ->
  parse_args a1 = Ok (MkParsed false [y +:+ "|creds" +:+ "=" +:+ "0|"]) ->
  parse_credentials a1 = Ok (MkPCreds (Some tls) None id) ->
  parse_args a2 = Ok (MkParsed false []) -> parse_credentials a2 = Ok (MkPCreds None None 0) ->
  channel_construct t a1 s1 = (Return c1, s1') -> rtc chan_step s1' s2 ->
  channel_construct (t +:+ "|creds=" +:+ pretty id +:+ "|" +:+ y) a2 s2 = (Return c2, s2') ->
  get_shared c1 = get_shared c2.
Proof.
  intros R1 P1 C1 P2 C2 H1 R2 H2.
  apply (proj2 (channel_sharing_key _ _ _ _ _ _ _ _ _ _ _ R1 H1 R2 H2)).
  unfold construct_key. rewrite P1, C1, P2, C2. unfold persist_key_of, persist_key. simpl.
  eexists. split; [done|]. f_equal. by rewrite !str_app_assoc.
Qed.

End channel.

(** * Witnesses *)
#[global] Instance EndpointModel : EndpointApi TonicModel TlsModel := {|
  Endpoint := list string;
  TonicChannel := list string;
  ep_from_shared u := Ok [u];
  ep_http2_keep_alive_interval e ms := e ++ ["interval"; pretty ms];
  ep_keep_alive_timeout e ms := e ++ ["timeout"; pretty ms];
  ep_max_frame_size e n := e ++ ["frame"; pretty n];
  ep_initial_stream_window_size e n := e ++ ["stream"; pretty n];
  ep_initial_connection_window_size e n := e ++ ["connection"; pretty n];
  ep_http2_adaptive_window e b := e ++ ["adaptive"];
  ep_user_agent e ua := Ok (e ++ ["agent"; ua]);
  ep_tls_config e tls := Ok (e ++ ["tls"] ++ tls);
  ep_connect_timeout e n := e ++ ["connect"; pretty n];
  ep_connect_lazy e := e;
|}.

(** A credentials object is known by its id. *)
Definition model_creds (z : @Zval ZendModel) : option (GrpcChannelCredentials (Zd := ZendModel) (Tls := TlsModel)) :=
  match z with
  | ZvCreds (S n) => Some (MkCreds (Zd := ZendModel) (Tls := TlsModel) (Ssl ["webpki"]) (Z.of_nat (S n)))
  | _ => None
  end.

Abbreviation wit_construct :=
  (channel_construct (Zd := ZendModel) (Tn := TonicModel) (Tls := TlsModel) (Ep := EndpointModel)
     model_creds None (fun _ => None) 0%nat).
Abbreviation wit_step :=
  (chan_step (Zd := ZendModel) (Tn := TonicModel) (Tls := TlsModel) (Ep := EndpointModel)
     model_creds None (fun _ => None) 0%nat).
Abbreviation wit_init := (chan_init (Tn := TonicModel) (Tls := TlsModel) (Ep := EndpointModel)).

Definition wit_tls_args : list (ArrayKey bytes * Zv) :=
  [(AK_Str "credentials", ZvCreds 5); (AK_Str "grpc.max_frame_size", ZvLong 3)].

Definition wit_chan (id flag : nat) (target : string) : GrpcChannel (Zd := ZendModel) :=
  MkChannel (Some (MkInner (Zd := ZendModel) id target None None None)) flag.

(** The states around two constructor calls with the given arguments. *)
Definition wit_s1 (t : string) a := (wit_construct t a (wit_init [])).2.
Definition wit_s2 (t1 : string) a1 (t2 : string) a2 := (wit_construct t2 a2 (wit_s1 t1 a1)).2.

Lemma channel_sharing_iff_key_witness :
  get_shared (wit_chan 0 0 "a:1") = get_shared (wit_chan 0 1 "a:1").
Proof.
  apply (proj2 (channel_sharing_iff_key (Zd := ZendModel) (Tls := TlsModel) (Ep := EndpointModel) model_creds None (fun _ => None) 0%nat []
    "a:1" wit_tls_args "a:1" (rev wit_tls_args) (wit_init []) _ (wit_s1 "a:1" wit_tls_args)
    (wit_s1 "a:1" wit_tls_args) _ (wit_s2 "a:1" wit_tls_args "a:1" (rev wit_tls_args))
    (rtc_refl _ _) eq_refl (rtc_refl _ _) eq_refl)).
  eexists. split; reflexivity.
Defined.

Lemma channel_credentials_isolated_witness :
  "a:1" = "a:1" /\ 5 = 5 /\ get_shared (wit_chan 0 0 "a:1") = get_shared (wit_chan 0 1 "a:1").
Proof.
  destruct (channel_credentials_isolated (Zd := ZendModel) (Tls := TlsModel) (Ep := EndpointModel) model_creds None (fun _ => None) 0%nat []
    "a:1" wit_tls_args "a:1" wit_tls_args (wit_init []) (wit_chan 0 0 "a:1") (wit_s1 "a:1" wit_tls_args)
    (wit_s1 "a:1" wit_tls_args) (wit_chan 0 1 "a:1") (wit_s2 "a:1" wit_tls_args "a:1" wit_tls_args)
    (MkPCreds (Zd := ZendModel) (Tls := TlsModel) (Some ["webpki"]) None 5)
    (MkPCreds (Zd := ZendModel) (Tls := TlsModel) (Some ["webpki"]) None 5)
    (rtc_refl _ _) eq_refl (rtc_refl _ _) eq_refl eq_refl eq_refl eq_refl eq_refl eq_refl) as [H1 H2].
  split; [exact H1|]. split; [exact H2|reflexivity].
Defined.

Lemma persist_key_order_insensitive_witness :
  construct_key (Zd := ZendModel) (Tls := TlsModel) model_creds "a:1" (rev wit_tls_args)
  = construct_key (Zd := ZendModel) (Tls := TlsModel) model_creds "a:1" wit_tls_args.
Proof.
  apply (persist_key_order_insensitive (Zd := ZendModel) (Tls := TlsModel) model_creds "a:1" wit_tls_args (rev wit_tls_args)
           (MkParsed false ["grpc.max_frame_size=3"])).
  - reflexivity.
  - apply Permutation_rev.
  - apply (bool_decide_eq_true_1 _). vm_compute. reflexivity.
  - reflexivity.
Defined.

Lemma model_creds_ids : creds_ids (Zd := ZendModel) (Tls := TlsModel) model_creds.
Proof.
  split.
  - intros z c. destruct z as [| | | | | | | |[|n]]; intros [= <-]; simpl; lia.
  - intros z z' c c'. destruct z as [| | | | | | | |[|n]], z' as [| | | | | | | |[|n']]; intros [= <-] [= <-]; reflexivity.
Qed.

(** The second channel with the same credentials takes the transport of the
    first one. *)
Lemma channel_no_plaintext_fallback_witness :
  exists args0 ch, get_tonic_channel (wit_chan 0 1 "a:1") (wit_s2 "a:1" wit_tls_args "a:1" (rev wit_tls_args)) = Some ch
    /\ tls_transport (Zd := ZendModel) (Ep := EndpointModel) "a:1" args0 ["webpki"] ch.
Proof.
  destruct (channel_no_plaintext_fallback (Zd := ZendModel) (Tls := TlsModel) (Ep := EndpointModel) model_creds None (fun _ => None) 0%nat []
    "a:1" (rev wit_tls_args) (wit_s1 "a:1" wit_tls_args) (Return (wit_chan 0 1 "a:1"))
    (wit_s2 "a:1" wit_tls_args "a:1" (rev wit_tls_args)) (ZvCreds 5) model_creds_ids
    (rtc_once _ _ (bf_construct (Zd := ZendModel) (Ep := EndpointModel) model_creds None (fun _ => None) 0%nat
       "a:1" wit_tls_args (wit_init []) (Return (wit_chan 0 0 "a:1")) (wit_s1 "a:1" wit_tls_args) eq_refl eq_refl))
    eq_refl eq_refl eq_refl eq_refl eq_refl eq_refl _ eq_refl) as (args0 & ch & H1 & H2 & _).
  exists args0, ch. split; [exact H1|exact H2].
Defined.

Lemma watch_connectivity_spec_witness :
  (watch_connectivity_state (Zd := ZendModel) (Ep := EndpointModel) None (fun _ => None) 0%nat
     (wit_chan 0 0 "a:1") 0 (MkTimeval 40 false) (Ok 0) [Ok 10; Ok 50] (wit_s1 "a:1" wit_tls_args)).1
  = Return false /\ Exists (fun c => 40 <= now_usec c) [Ok 10; Ok 50].
Proof.
  split; [reflexivity|].
  apply (proj2 (watch_connectivity_spec (Zd := ZendModel) (Ep := EndpointModel) None (fun _ => None) 0%nat
    (wit_chan 0 0 "a:1") (MkInner (Zd := ZendModel) 0 "a:1" None None None) 0 (MkTimeval 40 false)
    (Ok 0) [Ok 10; Ok 50] (wit_s1 "a:1" wit_tls_args) (Return false) _ eq_refl eq_refl)).
Defined.

Lemma closed_channel_rejects_witness :
  channel_get_target (Zd := ZendModel) (MkChannel None 0)
  = Err (runtime_exception "getTarget error.Channel is already closed.").
Proof.
  apply (closed_channel_rejects (Zd := ZendModel) (Ep := EndpointModel) None (fun _ => None) 0%nat
    (wit_chan 0 0 "a:1") (wit_s1 "a:1" wit_tls_args) _ _ ltac:(vm_compute; lia) eq_refl).
Defined.

Lemma persist_key_bar_collision_witness :
  get_shared (wit_chan 0 0 "x") = get_shared (wit_chan 0 1 "x|creds=5|y").
Proof.
  exact (persist_key_bar_collision (Zd := ZendModel) (Tls := TlsModel) (Ep := EndpointModel) model_creds None (fun _ => None) 0%nat [] "x" "y"
    [(AK_Str "credentials", ZvCreds 5); (AK_Str "y|creds", zv_str "0|")] [] 5 ["webpki"] (wit_init [])
    (wit_chan 0 0 "x") _ _ (wit_chan 0 1 "x|creds=5|y") _
    (rtc_refl _ _) eq_refl eq_refl eq_refl eq_refl eq_refl (rtc_refl _ _) eq_refl).
Defined.
