(* ===== verification/Deadline.v ===== *)
(** Deadlines and statuses in src/src/call.rs: when a call counts as expired,
    the tokio instant its awaits race against, the timeout put on the request,
    and the mapping of tonic statuses to what PHP sees.  Each function that
    reads the wall clock takes the reading as an argument; tokio instants are
    microseconds of the monotonic clock. *)

From S2P Require Import Prelude Zend Tonic Error Runtime Timeval Credentials Channel Metadata.
From Stdlib Require Import ZArith Lia String.
From stdpp Require Import base strings.

#[local] Open Scope Z_scope.

Section deadline.
Context {Tn : TonicApi}.

Record StreamTrailers : Type := MkTrailers {
  tr_code : Z;
  tr_message : string;
  tr_metadata : MetadataMap;
}.

(** 30 years of 365 days, in microseconds. *)
Definition far_future_usec : Z := 86400 * 365 * 30 * 1000000.

Definition deadline_instant (now : clock_reading) (instant_now deadline_usec : Z) : Z :=
  if (deadline_usec <=? 0) || (deadline_usec =? i64_max)
  then instant_now + far_future_usec
  else
    let remaining := Z.max (saturating_sub deadline_usec (now_usec now)) 0 in
    instant_now + wrap_u64 remaining.

Definition deadline_exceeded_trailers : StreamTrailers :=
  MkTrailers 4 "Deadline Exceeded" md_default.

Definition deadline_already_expired (now : clock_reading) (deadline_usec : Z) : bool :=
  (0 <? deadline_usec) && (deadline_usec <? i64_max) && (deadline_usec <=? now_usec now).

Definition status_to_php (now : clock_reading) (status : Status) (deadline_usec : Z) : Z * string :=
  let code := st_code status in
  let deadline_set := (0 <? deadline_usec) && (deadline_usec <? i64_max) in
  if (code =? Code_Cancelled) && deadline_set && (deadline_usec <=? now_usec now)
  then (4, "Deadline Exceeded"%string)
  else if (code =? Code_Unknown) && bool_decide (st_message status = "transport error"%string)
  then (14, "transport error"%string)
  else (code, st_message status).

(** The status as trailers, the way each error arm builds them. *)
Definition trailers_of_status (now : clock_reading) (status : Status) (deadline_usec : Z) : StreamTrailers :=
  let '(code, message) := status_to_php now status deadline_usec in
  MkTrailers code message (status_metadata_for_php status).

(** The timeout of [build_request]: [request.set_timeout(..)]. *)
Definition request_timeout (now : clock_reading) (deadline_usec : Z) : option Z :=
  if (deadline_usec <? i64_max) && (0 <? deadline_usec)
  then Some (wrap_u64 (Z.max (saturating_sub deadline_usec (now_usec now)) 1))
  else None.

(** * Properties *)

(** A deadline that bounds the call. *)
Definition real_deadline (deadline_usec : Z) : bool := (0 <? deadline_usec) && (deadline_usec <? i64_max).

Lemma now_usec_in c : in_i64 (now_usec c).
Proof. unfold now_usec. destruct c; [apply wrap_i64_in|i64_lia]. Qed.

Lemma remaining_u64 dl now lo :
  in_i64 dl -> in_i64 now -> 0 <= lo <= 1 ->
  wrap_u64 (Z.max (saturating_sub dl now) lo) = Z.max (saturating_sub dl now) lo.
Proof. intros. apply wrap_u64_id. unfold u64_max. i64_lia. Qed.

(** C29: a call made with a positive span as its deadline, on a clock that shows
    the epoch time in range: it is expired exactly when the span has elapsed on
    the wall clock since the call was constructed; before that the request
    carries the microseconds left as its timeout and the awaits race against
    the instant that many microseconds away. *)
Theorem span_deadline_elapses (t0 t1 span inst : Z) :
  0 <= t0 -> 0 < span -> 0 <= t1 -> t1 < i64_max -> t0 + span < i64_max ->
  let dl := to_absolute_usec (Ok t0) (MkTimeval span true) in
  real_deadline dl = true
  /\ (deadline_already_expired (Ok t1) dl = true <-> span <= t1 - t0)
  /\ (t1 - t0 < span ->
       request_timeout (Ok t1) dl = Some (span - (t1 - t0))
       /\ deadline_instant (Ok t1) inst dl = inst + (span - (t1 - t0)))
  /\ (span <= t1 - t0 -> deadline_instant (Ok t1) inst dl = inst).
Proof.
  intros H0 Hs H1 H2 H3. unfold to_absolute_usec, real_deadline. simpl.
  assert (N1 : now_usec (Ok t1) = t1) by (simpl; apply wrap_i64_id; i64_lia).
  rewrite !(proj2 (Z.eqb_neq _ _)) by i64_lia. simpl.
  rewrite i64_try_from_Some by i64_lia. simpl.
  replace (saturating_add t0 span) with (t0 + span) by i64_lia.
  unfold deadline_already_expired, request_timeout, deadline_instant. rewrite N1.
  rewrite (proj2 (Z.ltb_lt 0 (t0 + span))) by lia.
  rewrite (proj2 (Z.ltb_lt (t0 + span) i64_max)) by lia.
  rewrite (proj2 (Z.leb_gt (t0 + span) 0)) by lia.
  rewrite (proj2 (Z.eqb_neq (t0 + span) i64_max)) by lia. simpl.
  rewrite !remaining_u64 by i64_lia. rewrite Z.leb_le.
  split_and!; [done|lia| |]; intros; split_and?; try f_equal; i64_lia.
Qed.

(** C31: [Timeval::infFuture()], a zero or negative absolute time and [infPast()]
    all mean no deadline: such a call never counts as expired, its request
    carries no timeout, its awaits race against an instant thirty years away
    and a CANCELLED status is never turned into DEADLINE_EXCEEDED.  For
    [infPast] this is not the failed call a deadline in the past denotes. *)
Theorem infinite_deadlines_unbounded (now now' : clock_reading) (inst : Z) (tv : GrpcTimeval) (st : Status) :
  tv_is_span tv = false \/ tv_usec tv = i64_max \/ tv_usec tv = i64_min ->
  tv_usec tv = i64_max \/ tv_usec tv <= 0 ->
  let dl := to_absolute_usec now tv in
  deadline_already_expired now' dl = false
  /\ request_timeout now' dl = None
  /\ deadline_instant now' inst dl = inst + far_future_usec
  /\ (st_code st = Code_Cancelled -> status_to_php now' st dl = (Code_Cancelled, st_message st)).
Proof.
  intros Hi Hv.
  assert (Hd : to_absolute_usec now tv = tv_usec tv).
  { unfold to_absolute_usec. destruct (tv_is_span tv); [|done]. simpl.
    destruct Hi as [?|[-> | ->]]; done. }
  cbv zeta. rewrite Hd.
  assert (Hr : (0 <? tv_usec tv) && (tv_usec tv <? i64_max) = false).
  { destruct (0 <? tv_usec tv) eqn:E; [|done]. bool_prop. apply Z.ltb_ge. lia. }
  unfold deadline_already_expired, request_timeout, deadline_instant, status_to_php.
  rewrite (andb_comm (tv_usec tv <? i64_max)), Hr. simpl. split_and!; [done|done| |].
  - destruct (tv_usec tv <=? 0) eqn:E; [done|]. bool_prop.
    destruct Hv as [-> | ?]; [done|lia].
  - intros ->. rewrite andb_false_r. done.
Qed.

(** C30: of all the statuses tonic reports exactly two are rewritten: CANCELLED
    once a real deadline has passed becomes DEADLINE_EXCEEDED, and UNKNOWN with
    the message of an unclassified transport error becomes UNAVAILABLE; every
    other status reaches PHP with its own code and message, CANCELLED before
    the deadline and UNKNOWN with any other message included.  Codes stay
    within the gRPC range, and the trailers of a stream that ends with the
    status carry the same code and message. *)
Theorem status_code_mapping (now : clock_reading) (st : Status) (dl : Z) :
  0 <= st_code st <= 16 ->
  let timed_out := st_code st = Code_Cancelled /\ deadline_already_expired now dl = true in
  let broken := st_code st = Code_Unknown /\ st_message st = "transport error"%string in
  let '(code, msg) := status_to_php now st dl in
  0 <= code <= 16
  /\ (timed_out -> code = 4 /\ msg = "Deadline Exceeded"%string)
  /\ (broken -> code = Code_Unavailable /\ msg = "transport error"%string)
  /\ (~ timed_out -> ~ broken -> code = st_code st /\ msg = st_message st)
  /\ tr_code (trailers_of_status now st dl) = code /\ tr_message (trailers_of_status now st dl) = msg.
Proof.
  intros Hc. unfold trailers_of_status, status_to_php. fold (real_deadline dl).
  rewrite <- andb_assoc.
  change (real_deadline dl && (dl <=? now_usec now)) with (deadline_already_expired now dl).
  destruct (deadline_already_expired now dl);
    (destruct (Z.eqb_spec (st_code st) Code_Cancelled) as [E1|E1]; simpl;
     [|destruct (Z.eqb_spec (st_code st) Code_Unknown) as [E2|E2]; simpl; [case_bool_decide|]]);
    unfold Code_Cancelled, Code_Unknown, Code_Unavailable in *; rewrite ?E1; simpl; split_and!; try lia; naive_solver lia.
Qed.

End deadline.

(** * Witnesses *)
Lemma span_deadline_elapses_witness :
  deadline_already_expired (Ok 150) (to_absolute_usec (Ok 100) (MkTimeval 50 true)) = true
  /\ request_timeout (Ok 120) (to_absolute_usec (Ok 100) (MkTimeval 50 true)) = Some 30.
Proof.
  split.
  - apply (span_deadline_elapses 100 150 50 0); try lia; unfold i64_max; lia.
  - apply (span_deadline_elapses 100 120 50 0); try lia; unfold i64_max; lia.
Defined.

Lemma infinite_deadlines_unbounded_witness :
  deadline_already_expired (Ok 150) (to_absolute_usec (Ok 100) timeval_inf_past) = false.
Proof.
  apply (infinite_deadlines_unbounded (Tn := TonicModel) (Ok 100) (Ok 150) 0 timeval_inf_past
           (MkStatus 1 "" [] [])); [left; reflexivity|right; vm_compute; discriminate].
Defined.

Lemma status_code_mapping_witness :
  status_to_php (Tn := TonicModel) (Ok 50) (MkStatus 2 "transport error" [] []) 100 = (14, "transport error"%string).
Proof.
  assert (Hc : 0 <= st_code (MkStatus 2 "transport error" [] []) <= 16) by (simpl; lia).
  pose proof (status_code_mapping (Tn := TonicModel) (Ok 50) (MkStatus 2 "transport error" [] []) 100 Hc) as H.
  cbv zeta in H. destruct (status_to_php _ _ _) as [code msg].
  destruct H as (_ & _ & H & _). destruct H as [-> ->]; [split; reflexivity|reflexivity].
Defined.
