(* ===== verification/Driver.v ===== *)
(** The background task of a streaming call in src/src/call.rs (the async
    blocks spawned by [start_server_stream] and [start_bidi_stream], which are
    the same but for the tonic method they call), and the world it shares with
    the PHP thread.

    The task is a state machine: [Pc] is the await it is parked at, and an
    [Event] is what the network or the timer makes happen.  [driver_event]
    answers [None] for an event the task is not waiting for: it stays with the
    network, the way an unread message stays in the HTTP/2 buffers.  [block_on]
    runs a future of the PHP thread, and the task with it, against the events
    of the script.

    [Rpc] is the reference: what the events mean with no channels, no buffers
    and no tasks.  The simulation [sim] relates the two. *)

From S2P Require Import Prelude Utf8 Zend Tokio Tonic Error Runtime Timeval Credentials Channel Metadata Deadline.
From Stdlib Require Import ZArith Lia String.
From stdpp Require Import base list strings.

#[local] Open Scope string_scope.
#[local] Open Scope list_scope.
#[local] Open Scope Z_scope.

Definition STREAM_MSG_BUFFER : nat := 32.
Definition REQ_BUFFER : nat := 4.

Section driver.
Context {Zd : ZendApi} {Tn : TonicApi} {Tls : TlsApi} {Ep : EndpointApi Tn Tls} {Tk : TokioApi}.
(** The wall clock, by reading. *)
Context (clock : nat -> clock_reading).

(** * Data *)

Abbreviation Item := (result Status (option bytes)).

Inductive RpcKind : Type := KUnary | KServerStreaming | KStreaming.

(** What is handed to tonic: [tonic::Request] with the client that sends it. *)
Record Request : Type := MkRequest {
  rq_kind : RpcKind;
  rq_channel : TonicChannel;
  rq_path : string;
  rq_message : bytes;
  rq_metadata : MetadataMap;
  rq_timeout : option Z;
  rq_max_decoding : option Z;
  rq_max_encoding : option Z;
}.

Inductive Event : Type :=
| EvReady (r : result TransportError unit)        (* [grpc_client.ready()] *)
| EvResponse (r : result Status MetadataMap)      (* the response headers *)
| EvMessage (r : Item)                            (* [body_stream.message()] *)
| EvTrailers (r : result Status (option MetadataMap))  (* [body_stream.trailers()] *)
| EvUnary (r : result Status (MetadataMap * bytes))    (* a unary response *)
| EvTick (t : Z)                                  (* the timer reaches [t] *)
| EvCancelled                                     (* [cancel_token.cancelled()] *)
| EvPull                                          (* tonic polls the request stream *)
| EvReqDrop.                                      (* tonic drops the request stream *)

(** What the task does once a pending [msg_tx.send(..).await] completes. *)
Inductive Cont : Type :=
| KLoop                          (* back to the select, or return on error *)
| KReturn                        (* return *)
| KAwait                         (* await the trailers *)
| KTrailers (t : StreamTrailers). (* send the trailers and return *)

Inductive Pc : Type :=
| DStart
| DReady
| DResponse
| DBody
| DSend (item : Item) (k : Cont)
| DTrailers
| DDone.

(** What the task and the PHP thread share.  [wr_req] is the request stream of
    a bidi call: [None] for a server-streaming call, and once its receiver has
    been dropped. *)
Record Wire : Type := MkWire {
  wr_pc : Pc;
  wr_deadline : Z;
  wr_deadline_usec : Z;
  wr_shared : option nat;
  wr_request : Request;
  wr_msgs : mpsc Item;
  wr_meta : oneshot MetadataMap;
  wr_trailers : oneshot StreamTrailers;
  wr_req : option (mpsc bytes);
  wr_handed : bool;
  wr_pulled : list bytes;
  wr_req_ended : bool;
}.

Definition wire_pc r pc := MkWire pc (wr_deadline r) (wr_deadline_usec r) (wr_shared r) (wr_request r)
  (wr_msgs r) (wr_meta r) (wr_trailers r) (wr_req r) (wr_handed r) (wr_pulled r) (wr_req_ended r).
Definition wire_msgs r c := MkWire (wr_pc r) (wr_deadline r) (wr_deadline_usec r) (wr_shared r) (wr_request r)
  c (wr_meta r) (wr_trailers r) (wr_req r) (wr_handed r) (wr_pulled r) (wr_req_ended r).
Definition wire_meta r m := MkWire (wr_pc r) (wr_deadline r) (wr_deadline_usec r) (wr_shared r) (wr_request r)
  (wr_msgs r) m (wr_trailers r) (wr_req r) (wr_handed r) (wr_pulled r) (wr_req_ended r).
Definition wire_trailers r t := MkWire (wr_pc r) (wr_deadline r) (wr_deadline_usec r) (wr_shared r) (wr_request r)
  (wr_msgs r) (wr_meta r) t (wr_req r) (wr_handed r) (wr_pulled r) (wr_req_ended r).
Definition wire_start r d := MkWire DReady d (wr_deadline_usec r) (wr_shared r) (wr_request r)
  (wr_msgs r) (wr_meta r) (wr_trailers r) (wr_req r) (wr_handed r) (wr_pulled r) (wr_req_ended r).
Definition wire_req r c pulled ended := MkWire (wr_pc r) (wr_deadline r) (wr_deadline_usec r) (wr_shared r) (wr_request r)
  (wr_msgs r) (wr_meta r) (wr_trailers r) c (wr_handed r) pulled ended.
Definition wire_hand r := MkWire DResponse (wr_deadline r) (wr_deadline_usec r) (wr_shared r) (wr_request r)
  (wr_msgs r) (wr_meta r) (wr_trailers r) (wr_req r) true (wr_pulled r) (wr_req_ended r).

(** The world of one call: the thread's channels and runtime, the clocks, the
    cancellation token (shared by the call and its tasks), the wire of its
    stream, the script, the requests handed to tonic, and how many [select!]
    polls and plugin calls have been made.  [w_wake] is the scheduler: given
    how many events are left, whether the task gives up the thread after the
    event it has just taken although the next one is there already. *)
Record World : Type := MkWorld {
  w_chan : ChanState;
  w_ticks : nat;
  w_instant : Z;
  w_token : CancellationToken;
  w_wire : option Wire;
  w_script : list Event;
  w_log : list Request;
  w_polls : nat;
  w_plugin_calls : nat;
  w_wake : nat -> bool;
}.

Definition set_chan w c := MkWorld c (w_ticks w) (w_instant w) (w_token w) (w_wire w) (w_script w) (w_log w) (w_polls w) (w_plugin_calls w) (w_wake w).
Definition set_ticks w n := MkWorld (w_chan w) n (w_instant w) (w_token w) (w_wire w) (w_script w) (w_log w) (w_polls w) (w_plugin_calls w) (w_wake w).
Definition set_instant w t := MkWorld (w_chan w) (w_ticks w) t (w_token w) (w_wire w) (w_script w) (w_log w) (w_polls w) (w_plugin_calls w) (w_wake w).
Definition set_token w t := MkWorld (w_chan w) (w_ticks w) (w_instant w) t (w_wire w) (w_script w) (w_log w) (w_polls w) (w_plugin_calls w) (w_wake w).
Definition set_wire w r := MkWorld (w_chan w) (w_ticks w) (w_instant w) (w_token w) (Some r) (w_script w) (w_log w) (w_polls w) (w_plugin_calls w) (w_wake w).
Definition set_script w s := MkWorld (w_chan w) (w_ticks w) (w_instant w) (w_token w) (w_wire w) s (w_log w) (w_polls w) (w_plugin_calls w) (w_wake w).
Definition set_log w l := MkWorld (w_chan w) (w_ticks w) (w_instant w) (w_token w) (w_wire w) (w_script w) l (w_polls w) (w_plugin_calls w) (w_wake w).
Definition set_polls w n := MkWorld (w_chan w) (w_ticks w) (w_instant w) (w_token w) (w_wire w) (w_script w) (w_log w) n (w_plugin_calls w) (w_wake w).
Definition set_plugin_calls w n := MkWorld (w_chan w) (w_ticks w) (w_instant w) (w_token w) (w_wire w) (w_script w) (w_log w) (w_polls w) n (w_wake w).

(** The next reading of the wall clock. *)
Definition now (w : World) : clock_reading := clock (w_ticks w).
Definition tick (w : World) : World := set_ticks w (S (w_ticks w)).

(** [*shared.state.lock() = next]. *)
Definition store_connectivity (shared : option nat) (next : Z) (w : World) : World :=
  match shared with
  | Some id => set_chan w (set_shared_state id next (w_chan w))
  | None => w
  end.

(** * The task *)

(** The task returns: its ends of the channels are dropped, and with them the
    request stream if tonic was never given it. *)
Definition task_return (r : Wire) : Wire :=
  let r := wire_msgs (wire_pc r DDone) (mpsc_drop_tx (wr_msgs r)) in
  let r := wire_meta r (oneshot_drop_tx (wr_meta r)) in
  let r := wire_trailers r (oneshot_drop_tx (wr_trailers r)) in
  if wr_handed r then r else wire_req r None (wr_pulled r) (wr_req_ended r).

Definition task_cont (k : Cont) (sent : bool) (r : Wire) : Wire :=
  match k with
  | KLoop => if sent then wire_pc r DBody else task_return r
  | KReturn => task_return r
  | KAwait => wire_pc r DTrailers
  | KTrailers t => task_return (wire_trailers r (oneshot_send (wr_trailers r) t))
  end.

(** [msg_tx.send(item).await]. *)
Definition task_send (item : Item) (k : Cont) (r : Wire) : Wire :=
  match mpsc_send (wr_msgs r) item with
  | SendOk c => task_cont k true (wire_msgs r c)
  | SendPending => wire_pc r (DSend item k)
  | SendClosed => task_cont k false r
  end.

Definition send_meta (md : MetadataMap) (r : Wire) : Wire :=
  wire_meta r (oneshot_send (wr_meta r) md).

(** A poll with no new event: the first one computes the deadline, and a send
    that was waiting for room is tried again. *)
Definition task_poll (w : World) : World :=
  match w_wire w with
  | None => w
  | Some r =>
      match wr_pc r with
      | DStart =>
          tick (set_wire w (wire_start r
            (deadline_instant (now w) (w_instant w) (wr_deadline_usec r))))
      | DSend item k => set_wire w (task_send item k r)
      | _ => w
      end
  end.

Definition cancelled_trailers : StreamTrailers :=
  MkTrailers Code_Cancelled "Call cancelled" md_default.

(** The connectivity a response shows. *)
Definition response_state (r : result Status MetadataMap) : Z :=
  match r with
  | Err status => if st_code status =? Code_Unavailable
                  then CHANNEL_TRANSIENT_FAILURE else CHANNEL_READY
  | Ok _ => CHANNEL_READY
  end.

(** The arms of the task, each from the await that was resolved. *)
Definition on_ready (ready : result TransportError unit) (w : World) (r : Wire) : World :=
  match ready with
  | Ok _ => set_log (set_wire w (wire_hand r)) (w_log w ++ [wr_request r])
  | Err e => set_wire w (task_send (Err (status_from_error e)) KReturn (send_meta md_default r))
  end.

Definition on_elapsed (w : World) (r : Wire) : World :=
  set_wire w (task_send (Ok None) (KTrailers deadline_exceeded_trailers) (send_meta md_default r)).

Definition on_response (response : result Status MetadataMap) (w : World) (r : Wire) : World :=
  let w := store_connectivity (wr_shared r) (response_state response) w in
  match response with
  | Ok md => set_wire w (wire_pc (send_meta md r) DBody)
  | Err status =>
      tick (set_wire w (task_send (Ok None)
        (KTrailers (trailers_of_status (now w) status (wr_deadline_usec r)))
        (send_meta md_default r)))
  end.

Definition on_message (msg : Item) (w : World) (r : Wire) : World :=
  match msg with
  | Ok (Some b) => set_wire w (task_send (Ok (Some b)) KLoop r)
  | Ok None => set_wire w (task_send (Ok None) KAwait r)
  | Err status =>
      tick (set_wire w (task_send (Ok None)
        (KTrailers (trailers_of_status (now w) status (wr_deadline_usec r))) r))
  end.

Definition on_trailers (tr : result Status (option MetadataMap)) (w : World) (r : Wire) : World :=
  let md := default md_default (default None (result_ok tr)) in
  set_wire w (task_return (wire_trailers r (oneshot_send (wr_trailers r) (MkTrailers 0 "" md)))).

Definition on_tick (t : Z) (w : World) (r : Wire) : World :=
  let w := set_instant w (Z.max (w_instant w) t) in
  if wr_deadline r <=? w_instant w then
    match wr_pc r with
    | DReady | DResponse => on_elapsed w r
    | DBody => set_wire w (task_send (Ok None) (KTrailers deadline_exceeded_trailers) r)
    | _ => w
    end
  else w.

(** tonic pulls the next request message ([ReceiverStream]). *)
Definition on_pull (w : World) (r : Wire) : World :=
  if wr_handed r then
    match wr_req r with
    | Some c =>
        match mpsc_recv c with
        | RecvItem b c' => set_wire w (wire_req r (Some c') (wr_pulled r ++ [b]) (wr_req_ended r))
        | RecvEmpty => w
        | RecvClosed => set_wire w (wire_req r (Some c) (wr_pulled r) true)
        end
    | None => w
    end
  else w.

Definition on_req_drop (w : World) (r : Wire) : World :=
  if wr_handed r then set_wire w (wire_req r None (wr_pulled r) (wr_req_ended r)) else w.

Definition driver_event (ev : Event) (w : World) : option World :=
  match w_wire w with
  | None => match ev with
            | EvTick t => Some (set_instant w (Z.max (w_instant w) t))
            | _ => None
            end
  | Some r =>
      match ev, wr_pc r with
      | EvReady ready, DReady => Some (on_ready ready w r)
      | EvResponse response, DResponse => Some (on_response response w r)
      | EvMessage msg, DBody => Some (on_message msg w r)
      | EvTrailers tr, DTrailers => Some (on_trailers tr w r)
      | EvTick t, _ => Some (on_tick t w r)
      | EvCancelled, DBody =>
          if token_is_cancelled (w_token w)
          then Some (set_wire w (task_send (Ok None) (KTrailers cancelled_trailers) r))
          else None
      | EvPull, _ => Some (on_pull w r)
      | EvReqDrop, _ => Some (on_req_drop w r)
      | _, _ => None
      end
  end.

(** * [block_on]

    One turn polls the future, lets the task run and polls again.  Then the
    task takes events: one at least, and as many more as are there while the
    scheduler leaves it the thread, it is at an await that can take one and its
    buffer has room.  Then the future is polled again.  [poll] keeps its local
    state in [L]. *)

(** The task is at an await an event may resolve: not waiting for room in the
    buffer, and not over. *)
Definition task_takes (w : World) : bool :=
  match w_wire w with
  | Some r => match wr_pc r with DReady | DResponse | DBody | DTrailers => true | _ => false end
  | None => false
  end.

(** The task takes the next event before the waiting future is polled. *)
Definition task_goes_on (rest : list Event) (w : World) : bool :=
  match rest with
  | [] => false
  | ev :: _ => task_takes w && negb (w_wake w (length rest)) && bool_decide (is_Some (driver_event ev w))
  end.

Section block_on.
Context {E A L : Type} (poll : L -> World -> option A * L * World).

Definition block_on_turn (l : L) (w : World) : option A * L * World :=
  let '(o, l, w) := poll l w in
  match o with
  | Some a => (Some a, l, w)
  | None => poll l (task_poll w)
  end.

Fixpoint block_on_turns (woken : bool) (script : list Event) (l : L) (w : World) : outcome E A * World :=
  let '(o, l, w) := if woken then block_on_turn l w else (None, l, w) in
  match o with
  | Some a => (Return a, set_script w script)
  | None =>
      match script with
      | [] => (Blocked, set_script w [])
      | ev :: rest =>
          match driver_event ev w with
          | Some w => block_on_turns (negb (task_goes_on rest w)) rest l w
          | None => (Blocked, set_script w script)
          end
      end
  end.

Definition block_on (l : L) (w : World) : outcome E A * World :=
  block_on_turns true (w_script w) l w.

End block_on.

(** * The reference: what the events of a call mean *)

Inductive RpcPc : Type := RStart | RReady | RResponse | RBody | RTrailers | RDone.

Record Rpc : Type := MkRpc {
  rp_pc : RpcPc;
  rp_deadline : Z;
  rp_items : list Item;
  rp_meta : option MetadataMap;
  rp_trailers : option StreamTrailers;
  rp_ticks : nat;
  rp_instant : Z;
}.

Definition rpc_init (deadline : Z) (ticks : nat) (instant : Z) : Rpc :=
  MkRpc RStart deadline [] None None ticks instant.

(** The call ends with the item [it] and the trailers [t]. *)
Definition rpc_end (it : Item) (t : option StreamTrailers) (ticks : nat) (rp : Rpc) : Rpc :=
  MkRpc RDone (rp_deadline rp) (rp_items rp ++ [it]) (Some (default md_default (rp_meta rp))) t
    ticks (rp_instant rp).

Definition rpc_poll (dl : Z) (rp : Rpc) : Rpc :=
  match rp_pc rp with
  | RStart => MkRpc RReady (deadline_instant (clock (rp_ticks rp)) (rp_instant rp) dl)
                (rp_items rp) (rp_meta rp) (rp_trailers rp) (S (rp_ticks rp)) (rp_instant rp)
  | _ => rp
  end.

Definition rpc_event (dl : Z) (cancelled : bool) (ev : Event) (rp : Rpc) : option Rpc :=
  let fail st := rpc_end (Ok None) (Some (trailers_of_status (clock (rp_ticks rp)) st dl))
                   (S (rp_ticks rp)) rp in
  let step pc items meta :=
    MkRpc pc (rp_deadline rp) items meta (rp_trailers rp) (rp_ticks rp) (rp_instant rp) in
  match ev, rp_pc rp with
  | EvReady (Ok _), RReady => Some (step RResponse (rp_items rp) (rp_meta rp))
  | EvReady (Err e), RReady => Some (rpc_end (Err (status_from_error e)) None (rp_ticks rp) rp)
  | EvResponse (Ok md), RResponse => Some (step RBody (rp_items rp) (Some md))
  | EvResponse (Err st), RResponse => Some (fail st)
  | EvMessage (Ok (Some b)), RBody => Some (step RBody (rp_items rp ++ [Ok (Some b)]) (rp_meta rp))
  | EvMessage (Ok None), RBody => Some (step RTrailers (rp_items rp ++ [Ok None]) (rp_meta rp))
  | EvMessage (Err st), RBody => Some (fail st)
  | EvTrailers tr, RTrailers =>
      Some (MkRpc RDone (rp_deadline rp) (rp_items rp) (rp_meta rp)
              (Some (MkTrailers 0 "" (default md_default (default None (result_ok tr)))))
              (rp_ticks rp) (rp_instant rp))
  | EvTick t, pc =>
      let rp := MkRpc pc (rp_deadline rp) (rp_items rp) (rp_meta rp) (rp_trailers rp) (rp_ticks rp)
                  (Z.max (rp_instant rp) t) in
      match pc with
      | RReady | RResponse | RBody =>
          if rp_deadline rp <=? rp_instant rp
          then Some (rpc_end (Ok None) (Some deadline_exceeded_trailers) (rp_ticks rp) rp)
          else Some rp
      | _ => Some rp
      end
  | EvCancelled, RBody =>
      if cancelled then Some (rpc_end (Ok None) (Some cancelled_trailers) (rp_ticks rp) rp) else None
  | EvPull, _ | EvReqDrop, _ => Some rp
  | _, _ => None
  end.

(** Runs until [stop] holds, with the events left; [None]: the events end, or
    make no sense, first. *)
Fixpoint rpc_run (stop : Rpc -> bool) (dl : Z) (cancelled : bool) (evs : list Event) (rp : Rpc)
    : option (Rpc * list Event) :=
  if stop rp then Some (rp, evs)
  else
    match evs with
    | [] => None
    | ev :: rest => rp' ← rpc_event dl cancelled ev (rpc_poll dl rp); rpc_run stop dl cancelled rest rp'
    end.

(** The items of a call: messages, then one final item once it has ended. *)
Definition final_item (it : Item) : Prop := forall b, it <> Ok (Some b).

Definition rpc_wf (rp : Rpc) : Prop :=
  exists (bs : list bytes) (tail : list Item),
    rp_items rp = ((fun b => Ok (Some b)) <$> bs) ++ tail
    /\ match rp_pc rp with
       | RDone => exists it, tail = [it] /\ final_item it
                   /\ match it with
                      | Ok _ => is_Some (rp_trailers rp)
                      | Err _ => rp_trailers rp = None
                      end
       | RTrailers => tail = [Ok None]
       | RBody => tail = []
       | _ => bs = [] /\ tail = []
       end.

Lemma rpc_init_wf d n t : rpc_wf (rpc_init d n t).
Proof. by exists [], []. Qed.

Lemma rpc_poll_wf dl rp : rpc_wf rp -> rpc_wf (rpc_poll dl rp).
Proof.
  unfold rpc_poll. destruct (rp_pc rp) eqn:E; try done. intros (bs & tail & Hi & Ht). rewrite E in Ht.
  by exists bs, tail.
Qed.

Lemma rpc_end_wf it t n rp :
  rpc_wf rp -> final_item it /\ match it with Ok _ => is_Some t | Err _ => t = None end ->
  match rp_pc rp with RTrailers | RDone => False | _ => True end ->
  rpc_wf (rpc_end it t n rp).
Proof.
  intros (bs & tail & Hi & Ht) Hf Hpc. exists bs, [it]. simpl. split; [|eauto].
  rewrite Hi. destruct (rp_pc rp); destruct_and?; subst; try done; by rewrite app_nil_r.
Qed.

Lemma rpc_event_wf dl c ev rp rp' : rpc_wf rp -> rpc_event dl c ev rp = Some rp' -> rpc_wf rp'.
Proof.
  intros Hw. pose proof Hw as (bs & tail & Hi & Ht). unfold rpc_event.
  destruct ev as [[]|[]|[[b|]|]| | |t| | |]; destruct (rp_pc rp) eqn:E; try done;
    try case_match; intros [= <-]; try (apply rpc_end_wf; [|by split; eauto|simpl; by rewrite ?E]); try done.
  all: try (exists bs, tail; split; [done|simpl; rewrite ?E; tauto]).
  all: subst; rewrite ?app_nil_r in Hi.
  - exists (bs ++ [b]), []. simpl. rewrite Hi, fmap_app, app_nil_r. done.
  - exists bs, [Ok None]. simpl. by rewrite Hi.
  - exists bs, [Ok None]. simpl. split; [done|]. exists (Ok None). split_and!; [done|by intros b|eauto].
Qed.

(** * The simulation *)

Definition pending (pc : Pc) : list Item := match pc with DSend it _ => [it] | _ => [] end.

Definition cont_pc (k : Cont) : RpcPc :=
  match k with KLoop => RBody | KAwait => RTrailers | KReturn | KTrailers _ => RDone end.

Definition cont_trailers (k : Cont) : option StreamTrailers :=
  match k with KTrailers t => Some t | _ => None end.

Definition abs_pc (pc : Pc) : RpcPc :=
  match pc with
  | DStart => RStart | DReady => RReady | DResponse => RResponse | DBody => RBody
  | DSend _ k => cont_pc k | DTrailers => RTrailers | DDone => RDone
  end.

Definition is_done (pc : Pc) : bool := match pc with DDone => true | _ => false end.
Definition rpc_done (rp : Rpc) : bool := match rp_pc rp with RDone => true | _ => false end.

Abbreviation queue r := (mv_queue (mpsc_view (wr_msgs r))).

(** The task has not finished: it still holds its ends of the channels. *)
Record live (r : Wire) : Prop := {
  live_cap : mv_cap (mpsc_view (wr_msgs r)) = STREAM_MSG_BUFFER;
  live_rx : mv_rx (mpsc_view (wr_msgs r)) = true;
  live_tx : mv_tx (mpsc_view (wr_msgs r)) = true;
  live_bound : (length (queue r) <= STREAM_MSG_BUFFER)%nat;
  live_trailers : oneshot_poll (wr_trailers r) = OsPending;
}.

(** [rcv]: the items the PHP thread has received so far. *)
Record sim (dl : Z) (rcv : list Item) (w : World) (r : Wire) (rp : Rpc) : Prop := {
  sim_wire : w_wire w = Some r;
  sim_dl : wr_deadline_usec r = dl;
  sim_pc : rp_pc rp = abs_pc (wr_pc r);
  sim_deadline : rp_deadline rp = wr_deadline r;
  sim_ticks : rp_ticks rp = w_ticks w;
  sim_instant : rp_instant rp = w_instant w;
  sim_items : rp_items rp = rcv ++ queue r ++ pending (wr_pc r);
  sim_bound : (length (queue r) <= STREAM_MSG_BUFFER)%nat;
  sim_rx : mv_rx (mpsc_view (wr_msgs r)) = true;
  sim_cap : mv_cap (mpsc_view (wr_msgs r)) = STREAM_MSG_BUFFER;
  sim_tx : mv_tx (mpsc_view (wr_msgs r)) = negb (is_done (wr_pc r));
  sim_meta : oneshot_poll (wr_meta r)
             = match rp_meta rp with Some md => OsValue md | None => OsPending end;
  sim_early : rp_meta rp = None <-> rp_pc rp = RStart \/ rp_pc rp = RReady \/ rp_pc rp = RResponse;
  sim_oneshot : oneshot_poll (wr_trailers r)
                = if is_done (wr_pc r)
                  then match rp_trailers rp with Some t => OsValue t | None => OsClosed end
                  else OsPending;
  sim_trailers : match wr_pc r with
                 | DDone => True
                 | DSend _ k => rp_trailers rp = cont_trailers k
                 | _ => rp_trailers rp = None
                 end;
}.

Section simulation.
Context `{!TokioLaws Tk}.

Lemma sim_live dl rcv w r rp : sim dl rcv w r rp -> wr_pc r <> DDone -> live r.
Proof.
  intros [] Hd. assert (Hn : is_done (wr_pc r) = false) by (by destruct (wr_pc r)).
  rewrite Hn in *. by split.
Qed.

(** What a send does to the wire. *)
Lemma task_send_live it k r :
  live r ->
  (exists c, mpsc_view c = view_set_queue (mpsc_view (wr_msgs r)) (queue r ++ [it])
     /\ (length (queue r) < STREAM_MSG_BUFFER)%nat
     /\ task_send it k r = task_cont k true (wire_msgs r c))
  \/ (length (queue r) = STREAM_MSG_BUFFER /\ task_send it k r = wire_pc r (DSend it k)).
Proof.
  intros []. unfold task_send. pose proof (mpsc_send_law _ (wr_msgs r) it) as H.
  destruct (mpsc_send (wr_msgs r) it); simpl in H.
  - left. destruct H as (_ & Hl & Hv). eexists. split; [done|]. split; [lia|done].
  - right. split; [lia|done].
  - congruence.
Qed.

(** The simulation after a send, from what the reference says should follow. *)
Lemma sim_send dl rcv w r rp its it k md :
  live r -> its = rcv ++ queue r ->
  oneshot_poll (wr_meta r) = OsValue md ->
  rp_meta rp = Some md -> rp_items rp = its ++ [it] -> rp_pc rp = cont_pc k ->
  rp_trailers rp = cont_trailers k -> rp_deadline rp = wr_deadline r -> wr_deadline_usec r = dl ->
  rp_ticks rp = w_ticks w -> rp_instant rp = w_instant w ->
  sim dl rcv (set_wire w (task_send it k r)) (task_send it k r) rp.
Proof.
  intros Hlive -> Hmeta Hm Hi Hpc Ht Hd Hdl Hti Hin.
  assert (Hearly : rp_meta rp = None <-> rp_pc rp = RStart \/ rp_pc rp = RReady \/ rp_pc rp = RResponse).
  { rewrite Hm, Hpc. destruct k; simpl; intuition congruence. }
  destruct (task_send_live it k r Hlive) as [(c & Hc & Hl & ->)|[Hl ->]]; destruct Hlive.
  - assert (Hq : mv_queue (mpsc_view c) = queue r ++ [it]) by (by rewrite Hc).
    destruct k; simpl; unfold task_return; simpl; try destruct (wr_handed r);
      split; simpl; rewrite ?mpsc_drop_tx_view, ?Hc; simpl; try done;
      rewrite ?app_nil_r, ?Hi, ?length_app, ?Hm, ?Ht, ?oneshot_drop_poll, ?Hmeta, ?live_trailers0; simpl;
      rewrite <- ?app_assoc; try done; try lia;
      rewrite oneshot_send_poll by done; done.
  - split; simpl; try done; rewrite ?Hm, ?Hi, <- ?app_assoc; done.
Qed.

Definition parked (pc : Pc) : Prop := match pc with DStart | DSend _ _ => True | _ => False end.

Lemma sim_poll dl rcv w r rp :
  sim dl rcv w r rp ->
  exists r', sim dl rcv (task_poll w) r' (rpc_poll dl rp) /\ (queue r = [] -> ~ parked (wr_pc r')).
Proof.
  intros Hs. pose proof Hs as []. unfold task_poll, rpc_poll. rewrite sim_wire0.
  destruct (wr_pc r) as [| | | |it k| |] eqn:Hpc; simpl in *; rewrite sim_pc0;
    try (exists r; split; [done|rewrite Hpc; by intros _ []]).
  - eexists (wire_start r _). split; [|by intros _ []]. split; simpl; rewrite ?sim_ticks0, ?sim_instant0; try done.
    + unfold now. congruence.
    + rewrite sim_early0, sim_pc0. intuition congruence.
  - assert (Hp : match cont_pc k with RStart => False | _ => True end) by (by destruct k).
    assert (Hm : exists md, rp_meta rp = Some md).
    { destruct (rp_meta rp) as [md|] eqn:E; [eauto|]. rewrite sim_pc0 in sim_early0.
      destruct k; simpl in *; naive_solver. }
    destruct Hm as [md Hm]. rewrite Hm in sim_meta0.
    assert (Hl : live r) by (eapply sim_live; [done|by rewrite Hpc]).
    exists (task_send it k r). split.
    + replace (match cont_pc k with RStart => _ | _ => rp end) with rp by (by destruct k).
      eapply (sim_send dl rcv w r rp _ it k md); try done.
      by rewrite sim_items0, app_assoc.
    + intros Hq. destruct (task_send_live it k r Hl) as [(c & _ & _ & ->)|[Hlen _]].
      * destruct k; simpl; unfold task_return; simpl; try destruct (wr_handed r); simpl; auto.
      * rewrite Hq in Hlen. done.
Qed.

Lemma sim_early_meta dl rcv w r rp :
  sim dl rcv w r rp -> oneshot_poll (wr_meta r) = OsPending <->
  rp_pc rp = RStart \/ rp_pc rp = RReady \/ rp_pc rp = RResponse.
Proof. intros []. rewrite <- sim_early0, sim_meta0. by destruct (rp_meta rp). Qed.

(** Before the headers: the send that ends the call, with its metadata. *)
Lemma sim_end_early dl rcv w r rp it k ticks :
  sim dl rcv w r rp -> rp_pc rp = RReady \/ rp_pc rp = RResponse -> k <> KLoop -> k <> KAwait ->
  ticks = w_ticks w ->
  let r' := task_send it k (send_meta md_default r) in
  sim dl rcv (set_wire w r') r' (rpc_end it (cont_trailers k) ticks rp).
Proof.
  intros Hs Hpc Hk1 Hk2 Hti. pose proof Hs as [].
  assert (Hnd : wr_pc r <> DDone /\ pending (wr_pc r) = []).
  { rewrite sim_pc0 in Hpc. destruct (wr_pc r) as [| | | |? []| |]; simpl in *; naive_solver. }
  destruct Hnd as [Hnd Hp]. pose proof (sim_live _ _ _ _ _ Hs Hnd) as [].
  assert (Hm : rp_meta rp = None) by (apply sim_early0; tauto). rewrite Hm in sim_meta0.
  eapply (sim_send dl rcv w (send_meta md_default r) _ (rp_items rp) it k md_default); simpl; try done.
  - rewrite sim_items0, Hp. by rewrite app_nil_r.
  - by rewrite oneshot_send_poll.
  - by rewrite Hm.
  - by destruct k.
Qed.

(** In the body: the send that ends the call. *)
Lemma sim_end_body dl rcv w r rp it k ticks :
  sim dl rcv w r rp -> wr_pc r = DBody -> k <> KLoop -> k <> KAwait -> ticks = w_ticks w ->
  sim dl rcv (set_wire w (task_send it k r)) (task_send it k r) (rpc_end it (cont_trailers k) ticks rp).
Proof.
  intros Hs Hpc Hk1 Hk2 Hti. pose proof Hs as [].
  assert (Hnd : wr_pc r <> DDone) by (by rewrite Hpc).
  pose proof (sim_live _ _ _ _ _ Hs Hnd) as Hl. rewrite Hpc in *. simpl in *.
  destruct (rp_meta rp) as [md|] eqn:Hm; [|rewrite sim_pc0 in sim_early0; naive_solver].
  eapply (sim_send dl rcv w r _ (rp_items rp) it k md); simpl; try done; try congruence.
  - rewrite sim_items0. by rewrite app_nil_r.
  - by rewrite Hm.
  - by destruct k.
Qed.

Lemma sim_tick dl rcv w r rp :
  sim dl rcv w r rp ->
  sim dl rcv (tick w) r (MkRpc (rp_pc rp) (rp_deadline rp) (rp_items rp) (rp_meta rp) (rp_trailers rp)
                          (S (rp_ticks rp)) (rp_instant rp)).
Proof. intros []. split; simpl; auto. Qed.

Lemma sim_set_instant dl rcv w r rp t :
  sim dl rcv w r rp ->
  sim dl rcv (set_instant w (Z.max (w_instant w) t)) r
    (MkRpc (rp_pc rp) (rp_deadline rp) (rp_items rp) (rp_meta rp) (rp_trailers rp) (rp_ticks rp)
       (Z.max (rp_instant rp) t)).
Proof. intros []. split; simpl; auto. by rewrite sim_instant0. Qed.

Lemma sim_world dl rcv w r rp w' :
  sim dl rcv w r rp -> w_wire w' = w_wire w -> w_ticks w' = w_ticks w -> w_instant w' = w_instant w ->
  sim dl rcv w' r rp.
Proof. intros [] H1 H2 H3. split; try done; congruence. Qed.

Lemma sim_wire_req dl rcv w r rp c p e :
  sim dl rcv w r rp -> sim dl rcv (set_wire w (wire_req r c p e)) (wire_req r c p e) rp.
Proof. intros []. by split. Qed.

Lemma sim_on_tick dl rcv w r rp t c :
  sim dl rcv w r rp -> ~ parked (wr_pc r) ->
  exists rp' r', rpc_event dl c (EvTick t) rp = Some rp' /\ sim dl rcv (on_tick t w r) r' rp'.
Proof.
  intros Hs Hp. pose proof (sim_set_instant _ _ _ _ _ t Hs) as Hi.
  pose proof Hi as []. simpl in *. unfold on_tick, rpc_event. simpl.
  rewrite sim_deadline0, sim_instant0 in *.
  destruct (wr_pc r) as [| | | |? k| |] eqn:Hpc; simpl in *; rewrite sim_pc0 in *;
    try done; try (destruct (wr_deadline r <=? _)); eauto.
  - eexists _, _. split; [done|]. unfold on_elapsed.
    eapply (sim_end_early dl rcv _ r _ _ (KTrailers deadline_exceeded_trailers)); eauto.
  - eexists _, _. split; [done|]. unfold on_elapsed.
    eapply (sim_end_early dl rcv _ r _ _ (KTrailers deadline_exceeded_trailers)); eauto.
  - eexists _, _. split; [done|].
    eapply (sim_end_body dl rcv _ r _ _ (KTrailers deadline_exceeded_trailers)); eauto.
Qed.

Lemma sim_on_ready dl rcv w r rp c x :
  sim dl rcv w r rp -> wr_pc r = DReady ->
  exists rp' r', rpc_event dl c (EvReady x) rp = Some rp' /\ sim dl rcv (on_ready x w r) r' rp'.
Proof.
  intros Hs Hpc. pose proof Hs as []. rewrite Hpc in *. simpl in *. unfold rpc_event. rewrite sim_pc0.
  destruct x as [u|e]; eexists _, _; (split; [done|]); simpl.
  - split; simpl; try done. rewrite sim_early0, sim_pc0. naive_solver.
  - apply (sim_end_early dl rcv w r rp (Err (status_from_error e)) KReturn); auto.
Qed.

Lemma sim_on_response dl rcv w r rp c x :
  sim dl rcv w r rp -> wr_pc r = DResponse ->
  exists rp' r', rpc_event dl c (EvResponse x) rp = Some rp' /\ sim dl rcv (on_response x w r) r' rp'.
Proof.
  intros Hs Hpc.
  assert (Hs' : sim dl rcv (store_connectivity (wr_shared r) (response_state x) w) r rp).
  { eapply sim_world; [done|by destruct (wr_shared r)..]. }
  unfold on_response, rpc_event. revert Hs'. generalize (store_connectivity (wr_shared r) (response_state x) w).
  intros w' Hs'. pose proof Hs' as []. rewrite Hpc in *. simpl in *. rewrite sim_pc0.
  destruct x as [md|st]; eexists _, _; (split; [done|]).
  - rewrite sim_pc0 in sim_early0.
    assert (Hm : rp_meta rp = None) by (apply sim_early0; tauto). rewrite Hm in sim_meta0.
    split; simpl; try done; [|naive_solver].
    change (oneshot_poll (oneshot_send (wr_meta r) md) = OsValue md). by rewrite oneshot_send_poll.
  - unfold now. rewrite <- sim_ticks0.
    pose proof (sim_end_early dl rcv w' r rp (Ok None)
      (KTrailers (trailers_of_status (clock (rp_ticks rp)) st (wr_deadline_usec r))) (rp_ticks rp)
      Hs' ltac:(auto) ltac:(done) ltac:(done) sim_ticks0) as He.
    apply sim_tick in He. rewrite sim_dl0 in *. exact He.
Qed.

Lemma sim_on_message dl rcv w r rp c x :
  sim dl rcv w r rp -> wr_pc r = DBody ->
  exists rp' r', rpc_event dl c (EvMessage x) rp = Some rp' /\ sim dl rcv (on_message x w r) r' rp'.
Proof.
  intros Hs Hpc. pose proof Hs as [].
  assert (Hnd : wr_pc r <> DDone) by (by rewrite Hpc).
  pose proof (sim_live _ _ _ _ _ Hs Hnd) as Hl.
  rewrite Hpc in *. simpl in *. unfold rpc_event. rewrite sim_pc0.
  destruct (rp_meta rp) as [md|] eqn:Hm; [|rewrite sim_pc0 in sim_early0; naive_solver].
  destruct x as [[b|]|st]; eexists _, _; (split; [done|]); simpl.
  - eapply (sim_send dl rcv w r _ (rp_items rp) (Ok (Some b)) KLoop md); simpl; try done; try congruence.
    rewrite sim_items0. by rewrite app_nil_r.
  - eapply (sim_send dl rcv w r _ (rp_items rp) (Ok None) KAwait md); simpl; try done; try congruence.
    rewrite sim_items0. by rewrite app_nil_r.
  - unfold now. rewrite <- sim_ticks0.
    pose proof (sim_end_body dl rcv w r rp (Ok None)
      (KTrailers (trailers_of_status (clock (rp_ticks rp)) st (wr_deadline_usec r))) (rp_ticks rp)
      Hs Hpc ltac:(done) ltac:(done) sim_ticks0) as He.
    apply sim_tick in He. rewrite sim_dl0 in *. exact He.
Qed.

Lemma sim_on_trailers dl rcv w r rp c x :
  sim dl rcv w r rp -> wr_pc r = DTrailers ->
  exists rp' r', rpc_event dl c (EvTrailers x) rp = Some rp' /\ sim dl rcv (on_trailers x w r) r' rp'.
Proof.
  intros Hs Hpc. pose proof Hs as []. rewrite Hpc in *. simpl in *. unfold rpc_event. rewrite sim_pc0 in *.
  eexists _, (task_return (wire_trailers r (oneshot_send (wr_trailers r)
    (MkTrailers 0 "" (default md_default (default None (result_ok x))))))).
  split; [done|]. unfold on_trailers, task_return. simpl.
  assert (Hm : rp_meta rp <> None) by naive_solver.
  destruct (rp_meta rp) as [md|] eqn:E; [|done].
  assert (He : Some md = None <-> RDone = RStart \/ RDone = RReady \/ RDone = RResponse) by naive_solver.
  destruct (wr_handed r); split; simpl; rewrite ?mpsc_drop_tx_view, ?oneshot_drop_poll; simpl;
    rewrite ?sim_meta0, ?E; try (rewrite oneshot_send_poll by done); try done.
Qed.

(** One event: the task and the reference accept the same events, and stay
    related. *)
Lemma sim_event dl rcv w r rp ev :
  sim dl rcv w r rp -> ~ parked (wr_pc r) ->
  match driver_event ev w, rpc_event dl (token_is_cancelled (w_token w)) ev rp with
  | Some w', Some rp' => exists r', sim dl rcv w' r' rp'
  | None, None => True
  | _, _ => False
  end.
Proof.
  intros Hs Hp. unfold driver_event. rewrite (sim_wire _ _ _ _ _ Hs).
  set (c := token_is_cancelled (w_token w)).
  pose proof (sim_pc _ _ _ _ _ Hs) as Hpc.
  destruct ev as [x|x|x|x|x|t| | |].
  - destruct (wr_pc r) eqn:E; try done; simpl in Hpc; try (by destruct x; simpl; rewrite Hpc).
    destruct (sim_on_ready dl rcv w r rp c x Hs E) as (rp' & r' & -> & ?). eauto.
  - destruct (wr_pc r) eqn:E; try done; simpl in Hpc; try (by destruct x; simpl; rewrite Hpc).
    destruct (sim_on_response dl rcv w r rp c x Hs E) as (rp' & r' & -> & ?). eauto.
  - destruct (wr_pc r) eqn:E; try done; simpl in Hpc; try (by destruct x as [[]|]; simpl; rewrite Hpc).
    destruct (sim_on_message dl rcv w r rp c x Hs E) as (rp' & r' & -> & ?). eauto.
  - destruct (wr_pc r) eqn:E; try done; simpl in Hpc; try (by simpl; rewrite Hpc).
    destruct (sim_on_trailers dl rcv w r rp c x Hs E) as (rp' & r' & -> & ?). eauto.
  - destruct (wr_pc r) eqn:E; try done.
  - destruct (sim_on_tick dl rcv w r rp t c Hs Hp) as (rp' & r' & -> & ?). destruct (wr_pc r); eauto.
  - destruct (wr_pc r) eqn:E; try done; simpl in Hpc; simpl; rewrite Hpc; try done.
    destruct c; [|done]. eexists.
    apply (sim_end_body dl rcv w r rp (Ok None) (KTrailers cancelled_trailers)); try done.
    by rewrite (sim_ticks _ _ _ _ _ Hs).
  - assert (Hr : exists r', sim dl rcv (on_pull w r) r' rp).
    { unfold on_pull. destruct (wr_handed r); [|eauto]. destruct (wr_req r) as [c'|]; [|eauto].
      destruct (mpsc_recv c'); eauto using sim_wire_req. }
    destruct (wr_pc r); exact Hr.
  - assert (Hr : exists r', sim dl rcv (on_req_drop w r) r' rp).
    { unfold on_req_drop. destruct (wr_handed r); eauto using sim_wire_req. }
    destruct (wr_pc r); exact Hr.
Qed.

Lemma task_poll_token w : w_token (task_poll w) = w_token w.
Proof. unfold task_poll. destruct (w_wire w) as [r|]; [|done]. by destruct (wr_pc r). Qed.

Lemma driver_event_token ev w w' : driver_event ev w = Some w' -> w_token w' = w_token w.
Proof.
  unfold driver_event. destruct (w_wire w) as [r|]; [|destruct ev; by intros; simplify_eq].
  destruct ev as [[]|[]|[[]|]| | | | | |]; destruct (wr_pc r) eqn:E; try done; intros; simplify_eq; try done;
    unfold on_tick, on_elapsed, on_response, on_pull, on_req_drop in *;
    repeat (case_match; simplify_eq/=); try done; by destruct (wr_shared r).
Qed.

(** ** Events taken before the waiting future is polled *)

(** The reference takes the events [evs] one after the other, none of them
    after the call has ended. *)
Fixpoint rpc_walk (dl : Z) (cancelled : bool) (evs : list Event) (rp : Rpc) : option Rpc :=
  match evs with
  | [] => Some rp
  | ev :: rest =>
      if rpc_done rp then None
      else rp' ← rpc_event dl cancelled ev (rpc_poll dl rp); rpc_walk dl cancelled rest rp'
  end.

Lemma rpc_walk_snoc dl c evs ev rp rp1 rp2 :
  rpc_walk dl c evs rp = Some rp1 -> rpc_done rp1 = false ->
  rpc_event dl c ev (rpc_poll dl rp1) = Some rp2 -> rpc_walk dl c (evs ++ [ev]) rp = Some rp2.
Proof.
  revert rp. induction evs as [|e evs IH]; intros rp; simpl.
  - intros [= ->] -> Hev. by rewrite Hev.
  - destruct (rpc_done rp); [done|]. destruct (rpc_event dl c e (rpc_poll dl rp)) as [rp'|]; simpl; [|done].
    apply IH.
Qed.

(** The run to the end does not depend on how far it has been walked. *)
Lemma rpc_walk_run dl c evs rest rp rp' :
  rpc_walk dl c evs rp = Some rp' -> rpc_run rpc_done dl c (evs ++ rest) rp = rpc_run rpc_done dl c rest rp'.
Proof.
  revert rp. induction evs as [|e evs IH]; intros rp; simpl; [by intros [= ->]|].
  destruct (rpc_done rp); [done|]. destruct (rpc_event dl c e (rpc_poll dl rp)) as [rp1|]; simpl; [|done]. apply IH.
Qed.

Lemma rpc_walk_done dl c evs rp rp' :
  rpc_done rp = true -> rpc_walk dl c evs rp = Some rp' -> evs = [] /\ rp' = rp.
Proof. intros Hd. destruct evs; simpl; [by intros [= ->]|]. by rewrite Hd. Qed.

(** A task that takes events is in the midst of a call. *)
Lemma task_takes_sim dl rcv w r rp :
  sim dl rcv w r rp -> task_takes w = true ->
  ~ parked (wr_pc r) /\ rpc_done rp = false /\ rpc_poll dl rp = rp.
Proof.
  intros []. unfold task_takes, rpc_done, rpc_poll. rewrite sim_wire0, sim_pc0.
  destruct (wr_pc r); simpl; try done; auto.
Qed.

(** * [block_on] against the reference

    A future is ready when the reference call has reached [stop]; [P] is what
    its local state keeps about the items received, [Q] its answer. *)
Section block_on_sim.
Context {E A L : Type} (poll : L -> World -> option A * L * World).
Context (dl : Z) (stop : Rpc -> bool) (P : L -> list Item -> Rpc -> Prop) (Q : A -> list Item -> Rpc -> Prop).

Definition poll_refines : Prop := forall l rcv w r rp,
  sim dl rcv w r rp -> rpc_wf rp -> P l rcv rp ->
  let '(o, l', w') := poll l w in
  w_token w' = w_token w /\ exists rcv' r', sim dl rcv' w' r' rp /\ wr_pc r' = wr_pc r
  /\ match o with
     | Some a => stop rp = true /\ Q a rcv' rp
     | None => P l' rcv' rp /\ queue r' = [] /\ (~ parked (wr_pc r) -> stop rp = false)
     end.

Definition stop_stable : Prop := forall l rcv w r rp,
  sim dl rcv w r rp -> rpc_wf rp -> P l rcv rp ->
  stop (rpc_poll dl rp) = stop rp /\ (stop rp = true -> rpc_poll dl rp = rp)
  /\ P l rcv (rpc_poll dl rp)
  /\ forall ev rp', rpc_event dl (token_is_cancelled (w_token w)) ev rp = Some rp' ->
     P l rcv rp' /\ (stop rp = true -> stop rp' = true).

(** One turn: the future answers, or it is not ready and the task takes the
    next event. *)
Lemma block_on_turn_sim l rcv w r rp : poll_refines -> stop_stable ->
  sim dl rcv w r rp -> rpc_wf rp -> P l rcv rp ->
  let '(o, l', w') := block_on_turn poll l w in
  w_token w' = w_token w /\ exists rcv' r', sim dl rcv' w' r' (if stop rp then rp else rpc_poll dl rp)
  /\ match o with
     | Some a => stop rp = true /\ Q a rcv' rp
     | None => stop rp = false /\ P l' rcv' (rpc_poll dl rp) /\ ~ parked (wr_pc r')
     end.
Proof.
  intros Hpoll Hstop Hs Hw HP. unfold block_on_turn. pose proof (Hpoll l rcv w r rp Hs Hw HP) as H1.
  destruct (poll l w) as [[[a|] l1] w1]; destruct H1 as (Ht1 & rcv1 & r1 & Hs1 & Hpc1 & H1).
  { destruct H1 as [Hst HQ]. split; [done|]. rewrite Hst. by exists rcv1, r1. }
  destruct H1 as (HP1 & Hq1 & _). destruct (Hstop _ _ _ _ _ Hs1 Hw HP1) as (He & Hst & HP2 & _).
  destruct (sim_poll _ _ _ _ _ Hs1) as (r2 & Hs2 & Hpk). specialize (Hpk Hq1).
  pose proof (Hpoll l1 rcv1 _ r2 _ Hs2 (rpc_poll_wf dl rp Hw) HP2) as H3.
  destruct (poll l1 (task_poll w1)) as [[[a|] l3] w3]; destruct H3 as (Ht3 & rcv3 & r3 & Hs3 & Hpc3 & H3);
    rewrite task_poll_token, Ht1 in Ht3; (split; [done|]); exists rcv3, r3; rewrite He in H3.
  - destruct H3 as [Hs4 HQ]. rewrite Hs4. rewrite (Hst Hs4) in *. done.
  - destruct H3 as (HP3 & Hq3 & Hs4). rewrite (Hs4 Hpk). by rewrite Hpc3.
Qed.

(** The reference is on its way to [rp1] with the events [rest1] left, or it
    has gone on from there. *)
Definition heads (c : bool) (script : list Event) (rp rp1 : Rpc) (rest1 : list Event) : Prop :=
  if stop rp then exists mid, rest1 = mid ++ script /\ rpc_walk dl c mid rp1 = Some rp
  else rpc_run stop dl c script rp = Some (rp1, rest1).

Lemma heads_run c script rp rp1 rest1 :
  rpc_run stop dl c script rp = Some (rp1, rest1) -> heads c script rp rp1 rest1.
Proof.
  unfold heads. destruct script; simpl; destruct (stop rp); intros H; simplify_eq; try done; by exists [].
Qed.

Lemma heads_event c ev script rp rp1 rest1 :
  heads c (ev :: script) rp rp1 rest1 -> stop rp = false ->
  exists rp', rpc_event dl c ev (rpc_poll dl rp) = Some rp' /\ heads c script rp' rp1 rest1.
Proof.
  unfold heads at 1. intros H Hs. simpl in H. rewrite Hs in H.
  destruct (rpc_event dl c ev (rpc_poll dl rp)) as [rp'|]; simpl in H; [|done]. eauto using heads_run.
Qed.

Lemma heads_on c ev script rp rp1 rest1 rp' :
  heads c (ev :: script) rp rp1 rest1 -> rpc_event dl c ev rp = Some rp' -> rpc_done rp = false ->
  rpc_poll dl rp = rp -> (stop rp = true -> stop rp' = true) -> heads c script rp' rp1 rest1.
Proof.
  intros H Hev Hd Hp Hst. destruct (stop rp) eqn:Es.
  - unfold heads in *. rewrite Es in H. rewrite (Hst eq_refl). destruct H as (mid & -> & Hm).
    exists (mid ++ [ev]). rewrite <- app_assoc. split; [done|]. eapply rpc_walk_snoc; [done|done|by rewrite Hp].
  - destruct (heads_event _ _ _ _ _ _ H Es) as (rp2 & H2 & Hh). rewrite Hp in H2. by simplify_eq.
Qed.

(** Where the turns start: a future to be polled, or an event to be taken. *)
Definition may_go (woken : bool) (script : list Event) (w : World) : Prop :=
  woken = true \/ task_goes_on script w = true.

Lemma may_go_next script w : may_go (negb (task_goes_on script w)) script w.
Proof. unfold may_go. destruct (task_goes_on script w); auto. Qed.

Lemma block_on_turns_sim script : poll_refines -> stop_stable -> forall woken l rcv w r rp rp1 rest1,
  sim dl rcv w r rp -> rpc_wf rp -> P l rcv rp -> may_go woken script w ->
  heads (token_is_cancelled (w_token w)) script rp rp1 rest1 ->
  exists a w' rcv' r' rp' mid, block_on_turns (E := E) poll woken script l w = (Return a, w')
    /\ sim dl rcv' w' r' rp' /\ rpc_wf rp' /\ stop rp' = true /\ Q a rcv' rp' /\ w_token w' = w_token w
    /\ rest1 = mid ++ w_script w' /\ rpc_walk dl (token_is_cancelled (w_token w)) mid rp1 = Some rp'.
Proof.
  intros Hpoll Hstop.
  induction script as [|ev script IH]; intros woken l rcv w r rp rp1 rest1 Hs Hw HP Hgo Hh; destruct woken.
  1, 3: (pose proof (block_on_turn_sim l rcv w r rp Hpoll Hstop Hs Hw HP) as Ht; simpl;
    destruct (block_on_turn poll l w) as [[[a|] l1] w1]; destruct Ht as (Ht1 & rcv1 & r1 & Hs1 & Ht);
    [destruct Ht as [Hst HQ]; unfold heads in Hh; rewrite Hst in *; destruct Hh as (mid & Hm & Hwk);
     eexists a, _, rcv1, r1, rp, mid; split_and!; [reflexivity|by eapply sim_world|done..]
    |destruct Ht as (Hst & HP1 & Hpk)]).
  - unfold heads in Hh. simpl in Hh. by rewrite Hst in Hh.
  - rewrite Hst in Hs1. destruct (heads_event _ _ _ _ _ _ Hh Hst) as (rp2 & Hev & Hh2).
    pose proof (sim_event _ _ _ _ _ ev Hs1 Hpk) as Hd. rewrite Ht1, Hev in Hd.
    destruct (driver_event ev w1) as [w2|] eqn:E2; [|done]. destruct Hd as [r2 Hs2].
    destruct (Hstop _ _ _ _ _ Hs1 (rpc_poll_wf dl rp Hw) HP1) as (_ & _ & _ & Hnext).
    rewrite Ht1 in Hnext. destruct (Hnext _ _ Hev) as [HP2 _]. pose proof (driver_event_token _ _ _ E2) as Ht2.
    rewrite <- Ht1, <- Ht2 in Hh2 |- *. simpl.
    eapply IH; [exact Hs2|eapply rpc_event_wf; [|exact Hev]; by apply rpc_poll_wf|exact HP2|apply may_go_next|exact Hh2].
  - by destruct Hgo.
  - destruct Hgo as [|Hgo]; [done|]. simpl in Hgo. apply andb_true_iff in Hgo as [[Htk _]%andb_true_iff Hok].
    apply bool_decide_eq_true in Hok as [w2 E2].
    destruct (task_takes_sim _ _ _ _ _ Hs Htk) as (Hpk & Hdn & Hrp). pose proof (sim_event _ _ _ _ _ ev Hs Hpk) as Hd.
    rewrite E2 in Hd. destruct (rpc_event _ _ ev rp) as [rp2|] eqn:Hev; [|done]. destruct Hd as [r2 Hs2].
    destruct (Hstop _ _ _ _ _ Hs Hw HP) as (_ & _ & _ & Hnext). destruct (Hnext _ _ Hev) as [HP2 Hmono].
    pose proof (heads_on _ _ _ _ _ _ _ Hh Hev Hdn Hrp Hmono) as Hh2. pose proof (driver_event_token _ _ _ E2) as Ht2.
    rewrite <- Ht2 in Hh2 |- *. simpl. rewrite E2.
    eapply IH; [exact Hs2|by eapply rpc_event_wf|exact HP2|apply may_go_next|exact Hh2].
Qed.

(** The future is answered once the reference has reached [stop], at a state
    the reference reaches from there on with the events taken meanwhile. *)
Lemma block_on_sim l rcv w r rp rp1 rest1 : poll_refines -> stop_stable ->
  sim dl rcv w r rp -> rpc_wf rp -> P l rcv rp ->
  rpc_run stop dl (token_is_cancelled (w_token w)) (w_script w) rp = Some (rp1, rest1) ->
  exists a w' rcv' r' rp' mid, block_on (E := E) poll l w = (Return a, w')
    /\ sim dl rcv' w' r' rp' /\ rpc_wf rp' /\ stop rp' = true /\ Q a rcv' rp' /\ w_token w' = w_token w
    /\ rest1 = mid ++ w_script w' /\ rpc_walk dl (token_is_cancelled (w_token w)) mid rp1 = Some rp'.
Proof.
  intros Hpoll Hstop Hs Hw HP Hrun. unfold block_on.
  eapply block_on_turns_sim; eauto using heads_run. by left.
Qed.

End block_on_sim.

(** Stopping early and going on is the same as one run. *)
Lemma rpc_run_split stop1 stop2 dl c evs rp rp2 rest2 :
  (forall rp, stop2 rp = true -> stop1 rp = true) ->
  rpc_run stop2 dl c evs rp = Some (rp2, rest2) ->
  exists rp1 rest1, rpc_run stop1 dl c evs rp = Some (rp1, rest1)
    /\ rpc_run stop2 dl c rest1 rp1 = Some (rp2, rest2).
Proof.
  intros Hst. revert rp. induction evs as [|ev evs IH]; intros rp; simpl; intros H.
  - destruct (stop2 rp) eqn:E2; simplify_eq. rewrite (Hst _ E2).
    eexists _, _. split; [done|]. simpl. by rewrite E2.
  - destruct (stop1 rp) eqn:E1.
    + eexists _, _. split; [done|]. simpl. exact H.
    + destruct (stop2 rp) eqn:E2; [by rewrite (Hst _ E2) in E1|].
      destruct (rpc_event dl c ev (rpc_poll dl rp)) as [rp'|]; [|done]. by apply IH.
Qed.

Lemma rpc_run_stop stop dl c evs rp rp' rest :
  rpc_run stop dl c evs rp = Some (rp', rest) -> stop rp' = true.
Proof.
  revert rp. induction evs as [|ev evs IH]; intros rp; simpl; destruct (stop rp) eqn:E; intros; simplify_eq; try done.
  destruct (rpc_event dl c ev (rpc_poll dl rp)) as [rp1|]; [|done]. by eapply IH.
Qed.

(** Items are only ever added. *)
Lemma rpc_event_items dl c ev rp rp' :
  rpc_event dl c ev rp = Some rp' -> rp_items rp `prefix_of` rp_items rp'.
Proof.
  unfold rpc_event. destruct ev as [[]|[]|[[b|]|]| | |t| | |]; destruct (rp_pc rp); try done;
    try case_match; intros [= <-]; simpl; try done; by apply prefix_app_r.
Qed.

Lemma rpc_run_items stop dl c evs rp rp' rest :
  rpc_run stop dl c evs rp = Some (rp', rest) -> rp_items rp `prefix_of` rp_items rp'.
Proof.
  revert rp. induction evs as [|ev evs IH]; intros rp; simpl; destruct (stop rp) eqn:E; intros; simplify_eq; try done.
  destruct (rpc_event dl c ev (rpc_poll dl rp)) as [rp1|] eqn:Hev; [|done]. simplify_eq/=.
  etrans; [|by eapply IH]. apply rpc_event_items in Hev. unfold rpc_poll in Hev. by destruct (rp_pc rp).
Qed.

Lemma rpc_run_wf stop dl c evs rp rp' rest :
  rpc_wf rp -> rpc_run stop dl c evs rp = Some (rp', rest) -> rpc_wf rp'.
Proof.
  revert rp. induction evs as [|ev evs IH]; intros rp Hw; simpl; destruct (stop rp) eqn:E; intros; simplify_eq; try done.
  destruct (rpc_event dl c ev (rpc_poll dl rp)) as [rp1|] eqn:Hev; [|done]. simplify_eq/=.
  eapply IH; [|done]. eapply rpc_event_wf; [|done]. by apply rpc_poll_wf.
Qed.

End simulation.

End driver.
