(* ===== verification/Stream.v ===== *)
(** The PHP side of a streaming call in src/src/call.rs: the call object, the
    stream handles it keeps between batches, starting a stream, sending to it
    and building the result of a receive batch.

    [ActiveStream] records which channel ends the PHP side still holds; the
    channels themselves are in the [Wire] of Driver.v, shared with the task. *)

From Stdlib Require Import ZArith Lia String.
From stdpp Require Import base list strings.
From S2P Require Import Prelude Utf8 Zend Tokio Tonic Error Runtime Timeval Credentials Channel Metadata Deadline Driver.

#[local] Open Scope string_scope.
#[local] Open Scope list_scope.
#[local] Open Scope Z_scope.

Section stream.
Context {Zd : ZendApi} {Tn : TonicApi} {Tls : TlsApi} {Ep : EndpointApi Tn Tls} {Tk : TokioApi}.
Context (env_var : option string) (build_error : nat -> option string) (tid : nat).
(** The wall clock, and the order in which each poll of a [select!] looks at
    its branches ([true]: the first one first). *)
Context (clock : nat -> clock_reading) (select : nat -> bool).

Abbreviation Item := (result Status (option bytes)).

(** * Data *)

Record ActiveStream : Type := MkStream {
  as_msg_tx : bool;
  as_initial_metadata : option MetadataMap;
  as_meta_rx : bool;
  as_cached_trailers : option StreamTrailers;
  as_trailers_rx : bool;
}.

(** [Grpc\Call]; its cancellation token is in the world. *)
Record GrpcCall : Type := MkCall {
  cl_channel : TonicChannel;
  cl_method : string;
  cl_target : string;
  cl_deadline_usec : Z;
  cl_host_override : option string;
  cl_call_plugin : option (option Zval);
  cl_max_decoding : option Z;
  cl_max_encoding : option Z;
  cl_pending_metadata : list (string * string);
  cl_pending_message : option bytes;
  cl_send_closed : bool;
  cl_initial_metadata_sent : bool;
  cl_finished : bool;
  cl_channel_closed : nat;
  cl_channel_shared : option nat;
  cl_stream_state : option ActiveStream;
}.

Definition cl_set_stream c st := MkCall (cl_channel c) (cl_method c) (cl_target c) (cl_deadline_usec c)
  (cl_host_override c) (cl_call_plugin c) (cl_max_decoding c) (cl_max_encoding c) (cl_pending_metadata c)
  (cl_pending_message c) (cl_send_closed c) (cl_initial_metadata_sent c) (cl_finished c)
  (cl_channel_closed c) (cl_channel_shared c) st.
Definition cl_set_pending c md msg := MkCall (cl_channel c) (cl_method c) (cl_target c) (cl_deadline_usec c)
  (cl_host_override c) (cl_call_plugin c) (cl_max_decoding c) (cl_max_encoding c) md
  msg (cl_send_closed c) (cl_initial_metadata_sent c) (cl_finished c)
  (cl_channel_closed c) (cl_channel_shared c) (cl_stream_state c).
Definition cl_set_flags c closed sent finished := MkCall (cl_channel c) (cl_method c) (cl_target c)
  (cl_deadline_usec c) (cl_host_override c) (cl_call_plugin c) (cl_max_decoding c) (cl_max_encoding c)
  (cl_pending_metadata c) (cl_pending_message c) closed sent finished
  (cl_channel_closed c) (cl_channel_shared c) (cl_stream_state c).

Record BatchOps : Type := MkBatch {
  b_send_metadata : list (string * string);
  b_has_send_initial_metadata : bool;
  b_send_message : option bytes;
  b_send_close : bool;
  b_recv_initial_metadata : bool;
  b_recv_message : bool;
  b_recv_status : bool;
  b_has_send_ops : bool;
  b_has_recv_ops : bool;
}.

(** * The monad of the call's methods *)
Record CallSt : Type := MkCS {
  cs_call : GrpcCall;
  cs_w : World;
}.

Abbreviation KM := (M CallSt PhpException).

Definition on_call (f : GrpcCall -> GrpcCall) : KM unit := modify (fun s => MkCS (f (cs_call s)) (cs_w s)).
Definition on_world (f : World -> World) : KM unit := modify (fun s => MkCS (cs_call s) (f (cs_w s))).

(** A method of the channel module, run on the thread's channel state. *)
Definition in_chan {A} (m : M ChanState PhpException A) : KM A := fun s =>
  let '(r, c) := m (w_chan (cs_w s)) in (r, MkCS (cs_call s) (set_chan (cs_w s) c)).

Definition call_get_runtime : KM nat := in_chan (channel_get_runtime env_var build_error tid).
Definition call_pump : KM unit := in_chan (channel_pump env_var build_error tid).

(** One reading of the wall clock. *)
Definition read_clock : KM clock_reading := fun s =>
  (Return (now clock (cs_w s)), MkCS (cs_call s) (tick (cs_w s))).

Definition await {A L} (poll : L -> World -> option A * L * World) (l : L) : KM A := fun s =>
  let '(r, w) := block_on clock poll l (cs_w s) in (r, MkCS (cs_call s) w).

(** * Starting a stream *)

(** [build_request]. *)
Definition build_request (kind : RpcKind) (c : GrpcCall) (now : clock_reading)
    (send_metadata plugin_metadata : list (string * string)) (message : bytes) : Request :=
  MkRequest kind (cl_channel c) (cl_method c) message (apply_metadata send_metadata plugin_metadata)
    (request_timeout now (cl_deadline_usec c)) (cl_max_decoding c) (cl_max_encoding c).

Definition expired_stream_state : ActiveStream :=
  MkStream false None false (Some (MkTrailers 4 "Deadline Exceeded" md_default)) false.

Definition spawn_task (c : GrpcCall) (req : option (mpsc bytes)) (request : Request) : Wire :=
  MkWire DStart 0 (cl_deadline_usec c) (cl_channel_shared c) request
    (mpsc_channel STREAM_MSG_BUFFER) oneshot_channel oneshot_channel req false [] false.

Definition invalid_path (e : string) : PhpException :=
  exn_of_grpc_error (InvalidArg ("invalid method path: " +:+ e)).

Definition start_server_stream (send_metadata plugin_metadata : list (string * string))
    (send_message : option bytes) : KM unit :=
  _ ← call_get_runtime;
  call_pump ;;
  s ← get;
  let c := cs_call s in
  t ← read_clock;
  if deadline_already_expired t (cl_deadline_usec c) then
    on_call (fun c => cl_set_stream c (Some expired_stream_state))
  else
    _ ← lift (map_err invalid_path (path_try_from (cl_method c)));
    t ← read_clock;
    let request := build_request KServerStreaming c t send_metadata plugin_metadata
                     (default [] send_message) in
    on_world (fun w => set_wire w (spawn_task c None request)) ;;
    on_call (fun c => cl_set_stream c (Some (MkStream false None true None true))).

Definition start_bidi_stream (send_metadata plugin_metadata : list (string * string)) : KM unit :=
  _ ← call_get_runtime;
  call_pump ;;
  s ← get;
  let c := cs_call s in
  t ← read_clock;
  if deadline_already_expired t (cl_deadline_usec c) then
    on_call (fun c => cl_set_stream c (Some expired_stream_state))
  else
    _ ← lift (map_err invalid_path (path_try_from (cl_method c)));
    t ← read_clock;
    let request := build_request KStreaming c t send_metadata plugin_metadata [] in
    on_world (fun w => set_wire w (spawn_task c (Some (mpsc_channel REQ_BUFFER)) request)) ;;
    on_call (fun c => cl_set_stream c (Some (MkStream true None true None true))).

(** * Sending to a stream *)

(** One poll of [tx.send(message)]. *)
Definition send_poll (message : bytes) (_ : unit) (w : World) : option (result unit unit) * unit * World :=
  match w_wire w with
  | None => (Some (Err tt), tt, w)
  | Some r =>
      match wr_req r with
      | None => (Some (Err tt), tt, w)
      | Some c =>
          match mpsc_send c message with
          | SendOk c' => (Some (Ok tt), tt, set_wire w (wire_req r (Some c') (wr_pulled r) (wr_req_ended r)))
          | SendPending => (None, tt, w)
          | SendClosed => (Some (Err tt), tt, w)
          end
      end
  end.

Definition send_stream_message (message : bytes) : KM unit :=
  _ ← call_get_runtime;
  s ← get;
  match cl_stream_state (cs_call s) with
  | None => throw (exn_default "no active stream")
  | Some st =>
      if as_msg_tx st then
        r ← await (send_poll message) tt;
        match r with
        | Ok _ => mret tt
        | Err _ => throw (exn_default "stream send channel closed")
        end
      else throw (exn_default "stream does not support sending")
  end.

(** [state.msg_tx.take()]: the sender of the request stream is dropped. *)
Definition drop_sender (w : World) : World :=
  match w_wire w with
  | Some r => set_wire w (wire_req r (mpsc_drop_tx <$> wr_req r) (wr_pulled r) (wr_req_ended r))
  | None => w
  end.

(** Dropping the sender closes the request stream. *)
Definition close_stream_send : KM unit :=
  s ← get;
  match cl_stream_state (cs_call s) with
  | None => mret tt
  | Some st =>
      on_call (fun c => cl_set_stream c (Some (MkStream false (as_initial_metadata st) (as_meta_rx st)
                                                (as_cached_trailers st) (as_trailers_rx st)))) ;;
      if as_msg_tx st then on_world drop_sender else mret tt
  end.

(** * Receiving from a stream *)

(** One poll of [meta_rx]: [.ok()] of a dropped sender is [None]. *)
Definition meta_poll (_ : unit) (w : World) : option (option MetadataMap) * unit * World :=
  match w_wire w with
  | None => (Some None, tt, w)
  | Some r =>
      match oneshot_poll (wr_meta r) with
      | OsValue md => (Some (Some md), tt, w)
      | OsClosed => (Some None, tt, w)
      | OsPending => (None, tt, w)
      end
  end.

(** [msg_rx.try_recv()] and one poll of [msg_rx.recv()].  Without a task (an
    expired call) the sender is gone and the channel is at its end. *)
Definition recv_item (recv : mpsc Item -> RecvPoll Item (mpsc Item)) (w : World)
    : option (option Item) * World :=
  match w_wire w with
  | None => (Some None, w)
  | Some r =>
      match recv (wr_msgs r) with
      | RecvItem it c => (Some (Some it), set_wire w (wire_msgs r c))
      | RecvClosed => (Some None, w)
      | RecvEmpty => (None, w)
      end
  end.
Definition recv_poll (_ : unit) (w : World) : option (option Item) * unit * World :=
  let '(o, w) := recv_item mpsc_recv w in (o, tt, w).

(** The drain loop of RECV_STATUS: in the loop, or past the end of the
    messages and waiting for the trailers only. *)
Inductive Drain : Type := DrainLoop | DrainFinal.

Definition trailers_poll (w : World) : option (option StreamTrailers) :=
  match w_wire w with
  | None => Some None
  | Some r =>
      match oneshot_poll (wr_trailers r) with
      | OsValue t => Some (Some t)
      | OsClosed => Some None
      | OsPending => None
      end
  end.

(** One poll of the drain future.  The loop goes round once for each message
    in the buffer, so the number of messages bounds it. *)
Fixpoint drain_loop (fuel : nat) (d : Drain) (w : World)
    : option (option StreamTrailers) * Drain * World :=
  match d, fuel with
  | DrainFinal, _ => (trailers_poll w, DrainFinal, w)
  | DrainLoop, O => (None, DrainLoop, w)
  | DrainLoop, S fuel =>
      let first := select (w_polls w) in
      let w := set_polls w (S (w_polls w)) in
      let on_msg w k :=
        match recv_item mpsc_recv w with
        | (Some (Some (Ok (Some _))), w) => drain_loop fuel DrainLoop w
        | (Some _, w) => (trailers_poll w, DrainFinal, w)
        | (None, w) => k w
        end in
      let pending w := (None, DrainLoop, w) in
      if first then
        match trailers_poll w with
        | Some t => (Some t, DrainLoop, w)
        | None => on_msg w pending
        end
      else
        on_msg w (fun w => match trailers_poll w with
                           | Some t => (Some t, DrainLoop, w)
                           | None => pending w
                           end)
  end.

Definition drain_fuel (w : World) : nat :=
  match w_wire w with Some r => S (length (mv_queue (mpsc_view (wr_msgs r)))) | None => 1 end.
Definition drain_poll (d : Drain) (w : World) : option (option StreamTrailers) * Drain * World :=
  drain_loop (drain_fuel w) d w.

Definition stream_terminated : StreamTrailers :=
  MkTrailers Code_Unknown "stream task terminated unexpectedly" md_default.
Definition stream_consumed : StreamTrailers :=
  MkTrailers Code_Unknown "stream already consumed" md_default.

(** * Result objects *)

Definition set_prop (o : ZObject) (k : string) (v : Zval) (what : string) : result PhpException ZObject :=
  map_err (fun e => exn_default ("set " +:+ what +:+ ": " +:+ e)) (obj_set_property o k v).

Definition metadata_zval (md : option MetadataMap) : result PhpException Zval :=
  match md with
  | Some md => ht ← map_err exn_of_grpc_error (metadata_to_php md); Ok (zv_of_ht ht)
  | None => Ok (zv_of_ht ht_new)
  end.

(** The status object: metadata, code, details in this order. *)
Definition status_zval (md : option MetadataMap) (code : Z) (details : string) : result PhpException Zval :=
  v ← metadata_zval md;
  o ← set_prop obj_new "metadata" v "status metadata";
  o ← set_prop o "code" (zv_of_long code) "status code";
  o ← set_prop o "details" (zv_of_string details) "status details";
  Ok (zv_of_obj o).

Definition message_zval (m : option bytes) : Zval :=
  match m with Some b => bytes_to_php_string_zval b | None => zv_null end.

Definition get_stream : KM ActiveStream :=
  s ← get; lift (ok_or (cl_stream_state (cs_call s)) (exn_default "no active stream")).
Definition put_stream (st : ActiveStream) : KM unit := on_call (fun c => cl_set_stream c (Some st)).

(** RECV_INITIAL_METADATA: awaits the headers once, then takes them. *)
Definition recv_metadata (o : ZObject) : KM ZObject :=
  st ← get_stream;
  (if bool_decide (as_initial_metadata st = None) && as_meta_rx st then
     put_stream (MkStream (as_msg_tx st) None false (as_cached_trailers st) (as_trailers_rx st)) ;;
     md ← await meta_poll tt;
     put_stream (MkStream (as_msg_tx st) md false (as_cached_trailers st) (as_trailers_rx st))
   else mret tt) ;;
  st ← get_stream;
  put_stream (MkStream (as_msg_tx st) None (as_meta_rx st) (as_cached_trailers st) (as_trailers_rx st)) ;;
  v ← lift (metadata_zval (as_initial_metadata st));
  lift (set_prop o "metadata" v "metadata").

(** The next message: a buffered one without blocking, or the awaited one. *)
Definition next_item : KM (option Item) := fun s =>
  match recv_item mpsc_try_recv (cs_w s) with
  | (Some r, w) => (Return r, MkCS (cs_call s) w)
  | (None, w) => await recv_poll tt (MkCS (cs_call s) w)
  end.

Definition recv_message (o : ZObject) : KM ZObject :=
  st ← get_stream;
  match as_cached_trailers st with
  | Some _ => lift (set_prop o "message" zv_null "message")
  | None =>
      msg ← next_item;
      match msg with
      | Some (Ok (Some b)) => lift (set_prop o "message" (message_zval (Some b)) "message")
      | Some (Ok None) | None => lift (set_prop o "message" zv_null "message")
      | Some (Err status) =>
          s ← get;
          t ← read_clock;
          put_stream (MkStream (as_msg_tx st) (as_initial_metadata st) (as_meta_rx st)
            (Some (trailers_of_status t status (cl_deadline_usec (cs_call s)))) (as_trailers_rx st)) ;;
          lift (set_prop o "message" zv_null "message")
      end
  end.

(** RECV_STATUS_ON_CLIENT: the trailers to report. *)
Definition final_trailers : KM StreamTrailers :=
  st ← get_stream;
  match as_cached_trailers st with
  | Some cached =>
      put_stream (MkStream (as_msg_tx st) (as_initial_metadata st) (as_meta_rx st) None (as_trailers_rx st)) ;;
      mret cached
  | None =>
      if as_trailers_rx st then
        put_stream (MkStream (as_msg_tx st) (as_initial_metadata st) (as_meta_rx st) None false) ;;
        t ← await drain_poll DrainLoop;
        mret (default stream_terminated t)
      else mret stream_consumed
  end.

Definition recv_status (o : ZObject) : KM ZObject :=
  t ← final_trailers;
  v ← lift (status_zval (Some (tr_metadata t)) (tr_code t) (tr_message t));
  lift (set_prop o "status" v "status").

Definition build_stream_result (batch : BatchOps) : KM ZObject :=
  _ ← call_get_runtime;
  _ ← get_stream;
  o ← (if b_recv_initial_metadata batch then recv_metadata obj_new else mret obj_new);
  o ← (if b_recv_message batch then recv_message o else mret o);
  if b_recv_status batch then recv_status o else mret o.

(** * The receive futures against the reference *)
Section refinement.
Context `{!TokioLaws Tk}.

Abbreviation queue r := (mv_queue (mpsc_view (wr_msgs r))).

Lemma sim_recv dl rcv w r rp it q c :
  sim dl rcv w r rp -> queue r = it :: q -> mpsc_view c = view_set_queue (mpsc_view (wr_msgs r)) q ->
  sim dl (rcv ++ [it]) (set_wire w (wire_msgs r c)) (wire_msgs r c) rp.
Proof.
  intros [] Hq Hc. split; simpl; rewrite ?Hc; simpl; try done.
  - rewrite sim_items, Hq. by rewrite <- app_assoc.
  - rewrite Hq in sim_bound. simpl in *. lia.
Qed.

(** What one receive sees. *)
Lemma recv_item_sim recv dl rcv w r rp :
  (forall c, recv_law (mpsc_view c) (recv c)) -> sim dl rcv w r rp ->
  let '(o, w') := recv_item recv w in
  w_token w' = w_token w /\
  match o with
  | Some (Some it) => exists r' q, queue r = it :: q /\ queue r' = q /\ wr_pc r' = wr_pc r
                      /\ sim dl (rcv ++ [it]) w' r' rp
  | Some None => w' = w /\ queue r = [] /\ wr_pc r = DDone
  | None => w' = w /\ queue r = [] /\ wr_pc r <> DDone
  end.
Proof.
  intros Hrecv Hs. pose proof Hs as []. unfold recv_item. rewrite sim_wire.
  specialize (Hrecv (wr_msgs r)). destruct (recv (wr_msgs r)) as [it c| |]; simpl in Hrecv.
  - destruct Hrecv as (q & Hq & Hc). split; [done|]. exists (wire_msgs r c), q. split; [done|].
    split; [by simpl; rewrite Hc|]. split; [done|]. by eapply sim_recv.
  - destruct Hrecv as [Hq Ht]. rewrite sim_tx in Ht. split_and!; try done.
    intros Hd. by rewrite Hd in Ht.
  - destruct Hrecv as [Hq Ht]. rewrite sim_tx in Ht. split_and!; try done.
    by destruct (wr_pc r).
Qed.

(** ** The next message *)
Definition recv_stop (rcv0 : list Item) (rp : Rpc) : bool :=
  Nat.ltb (length rcv0) (length (rp_items rp)) || rpc_done rp.

Definition recv_answer (rcv0 : list Item) (a : option Item) (rcv : list Item) (rp : Rpc) : Prop :=
  match a with
  | Some it => rcv = rcv0 ++ [it] /\ rp_items rp !! length rcv0 = Some it
  | None => rcv = rcv0 /\ rp_items rp = rcv0 /\ rpc_done rp = true
  end.

Lemma recv_answer_sim recv dl rcv w r rp :
  (forall c, recv_law (mpsc_view c) (recv c)) -> sim dl rcv w r rp ->
  let '(o, w') := recv_item recv w in
  w_token w' = w_token w /\ exists rcv' r', sim dl rcv' w' r' rp /\ wr_pc r' = wr_pc r
  /\ match o with
     | Some a => recv_stop rcv rp = true /\ recv_answer rcv a rcv' rp
     | None => rcv' = rcv /\ queue r' = [] /\ (~ parked (wr_pc r) -> recv_stop rcv rp = false)
     end.
Proof.
  intros Hrecv Hs. pose proof (recv_item_sim recv dl rcv w r rp Hrecv Hs) as H.
  destruct (recv_item recv w) as [o w']. destruct H as [Ht H]. split; [done|].
  pose proof Hs as []. unfold recv_stop, rpc_done.
  destruct o as [[it|]|].
  - destruct H as (r' & q & Hq & Hq' & Hpc & Hs'). exists (rcv ++ [it]), r'. split_and!; try done.
    + rewrite sim_items, Hq, length_app. simpl. by rewrite (proj2 (Nat.ltb_lt _ _)) by lia.
    + split; [done|]. rewrite sim_items, Hq. simpl. by rewrite list_lookup_middle.
  - destruct H as (-> & Hq & Hpc). exists rcv, r. rewrite Hpc, Hq in *. simpl in *. rewrite sim_pc.
    rewrite app_nil_r in sim_items. unfold recv_answer, rpc_done. rewrite sim_pc.
    split_and!; try done. by rewrite orb_true_r.
  - destruct H as (-> & Hq & Hpc). exists rcv, r. split_and!; try done. intros Hp.
    rewrite sim_items, sim_pc, Hq.
    destruct (wr_pc r); try done; simpl; rewrite app_nil_r, Nat.ltb_irrefl; done.
Qed.

Lemma recv_poll_refines dl rcv0 :
  poll_refines recv_poll dl (recv_stop rcv0) (fun _ rcv _ => rcv = rcv0) (recv_answer rcv0).
Proof.
  intros [] rcv w r rp Hs _ ->. unfold recv_poll.
  pose proof (recv_answer_sim mpsc_recv dl rcv0 w r rp (mpsc_recv_law _) Hs) as H.
  destruct (recv_item mpsc_recv w) as [[a|] w']; exact H.
Qed.

Lemma rpc_poll_same dl rp : rp_pc rp <> RStart -> rpc_poll clock dl rp = rp.
Proof. unfold rpc_poll. by destruct (rp_pc rp). Qed.

Lemma rpc_poll_keeps dl rp :
  rp_items (rpc_poll clock dl rp) = rp_items rp /\ rp_meta (rpc_poll clock dl rp) = rp_meta rp
  /\ rpc_done (rpc_poll clock dl rp) = rpc_done rp.
Proof. unfold rpc_poll, rpc_done. destruct (rp_pc rp) eqn:E; simpl; by rewrite ?E. Qed.

Lemma rpc_event_done dl c ev rp rp' :
  rpc_event clock dl c ev rp = Some rp' -> rpc_done rp = true -> rpc_done rp' = true.
Proof.
  unfold rpc_event, rpc_done. destruct ev as [[]|[]|[[]|]| | |t| | |]; destruct (rp_pc rp) eqn:E; try done;
    intros; simplify_eq; simpl; by rewrite ?E.
Qed.

Lemma recv_stop_stable dl rcv0 :
  stop_stable (L := unit) clock dl (recv_stop rcv0) (fun _ rcv _ => rcv = rcv0).
Proof.
  intros [] rcv w r rp Hs (bs & tail & Hi & Hw) ->. unfold recv_stop.
  destruct (rpc_poll_keeps dl rp) as (-> & _ & ->). split_and!; try done.
  - intros Hst. apply rpc_poll_same. intros Hpc. rewrite Hpc in Hw. destruct Hw as [-> ->].
    unfold rpc_done in Hst. rewrite Hpc, Hi in Hst. done.
  - intros ev rp' Hev. split; [done|]. rewrite !orb_true_iff, !Nat.ltb_lt. intros [Hl|Hd].
    + left. pose proof (prefix_length _ _ (rpc_event_items _ _ _ _ _ _ Hev)). lia.
    + right. by eapply rpc_event_done.
Qed.

(** ** The initial metadata *)
Definition meta_stop (rp : Rpc) : bool := match rp_meta rp with Some _ => true | None => false end.

Lemma meta_poll_refines dl rcv0 :
  poll_refines meta_poll dl meta_stop (fun _ rcv rp => rcv = rcv0 /\ (rp_meta rp = None -> rp_items rp = rcv0))
    (fun a rcv rp => rcv = rcv0 /\ a = rp_meta rp).
Proof.
  intros [] rcv w r rp Hs (bs & tail & Hi & Hw) [-> Hm]. pose proof Hs as []. unfold meta_poll, meta_stop.
  rewrite sim_wire, sim_meta. destruct (rp_meta rp) as [md|] eqn:E.
  - split; [done|]. exists rcv0, r. split_and!; try done.
  - split; [done|]. exists rcv0, r. split_and!; try done.
    specialize (Hm eq_refl). rewrite Hm in sim_items.
    apply (f_equal length) in sim_items. rewrite !length_app in sim_items.
    destruct (queue r); [done|simpl in *; lia].
Qed.

Lemma meta_stop_stable dl rcv0 :
  stop_stable (L := unit) clock dl meta_stop
    (fun _ rcv rp => rcv = rcv0 /\ (rp_meta rp = None -> rp_items rp = rcv0)).
Proof.
  intros [] rcv w r rp Hs (bs & tail & Hi & Hw) [-> Hm]. pose proof Hs as []. unfold meta_stop.
  destruct (rpc_poll_keeps dl rp) as (-> & -> & _). split_and!; try done.
  - destruct (rp_meta rp) eqn:E; [|done]. intros _. apply rpc_poll_same. intros Hpc.
    assert (Some m = None) by (apply sim_early; auto). done.
  - intros ev rp' Hev. split.
    2: { assert (He : rp_meta rp <> None -> rp_meta rp' <> None); [|destruct (rp_meta rp), (rp_meta rp'); try done; intros _; by destruct He].
         intros Hne. unfold rpc_event in Hev. destruct ev as [[]|[]|[[]|]| | |t| | |];
           destruct (rp_pc rp); try done; try case_match; simplify_eq; done. }
    split; [done|]. intros Hn. assert (Hr : rp_meta rp = None /\ rp_items rp' = rp_items rp); [|destruct Hr as [Hr ->]; auto].
    unfold rpc_event in Hev.
    destruct (rp_meta rp) as [md|] eqn:Em;
      [|assert (Hpc : rp_pc rp = RStart \/ rp_pc rp = RReady \/ rp_pc rp = RResponse) by (by apply sim_early);
        destruct Hpc as [Hpc|[Hpc|Hpc]]; rewrite Hpc in Hev];
      destruct ev as [[]|[]|[[]|]| | |t| | |]; repeat (case_match; try done); simplify_eq/=; first [by split | congruence].
Qed.

(** ** Draining for the status *)
Definition drain_inv (d : Drain) (rcv : list Item) (rp : Rpc) : Prop :=
  match d with
  | DrainLoop => True
  | DrainFinal => rcv = rp_items rp /\ (rp_pc rp = RTrailers \/ rp_pc rp = RDone)
  end.

Lemma trailers_poll_sim dl rcv w r rp :
  sim dl rcv w r rp ->
  match trailers_poll w with
  | Some t => rpc_done rp = true /\ t = rp_trailers rp
  | None => ~ parked (wr_pc r) -> rpc_done rp = false
  end.
Proof.
  intros []. unfold trailers_poll, rpc_done. rewrite sim_wire, sim_oneshot, sim_pc.
  destruct (wr_pc r); simpl; try done. by destruct (rp_trailers rp).
Qed.

(** A final item is the last one. *)
Lemma final_item_last rp rcv it rest :
  rpc_wf rp -> rp_items rp = rcv ++ it :: rest -> final_item it ->
  rest = [] /\ (rp_pc rp = RTrailers \/ rp_pc rp = RDone).
Proof.
  intros (bs & tail & Hi & Ht) Heq Hf. rewrite Hi in Heq.
  assert (Hnm : forall l1 l2, (fun b => Ok (Some b)) <$> bs = l1 ++ it :: l2 -> False).
  { intros l1 l2 H. assert (it ∈ (fun b : bytes => Ok (Some b)) <$> bs) as (b & -> & _)%list_elem_of_fmap.
    { rewrite H. apply elem_of_app. right. by left. } by apply (Hf b). }
  destruct (rp_pc rp); try (destruct_and?; subst; rewrite app_nil_r in Heq; exfalso; by eapply Hnm).
  all: try destruct Ht as (it' & -> & _); subst; split; [|auto].
  all: destruct rest as [|y rest] using rev_ind; [done|]; exfalso.
  all: rewrite app_comm_cons, app_assoc in Heq; apply app_inj_tail in Heq as [Heq _]; by eapply Hnm.
Qed.

(** What one poll of the drain future leaves: still in simulation with the
    task where it was; when ready, with the trailers of a call that is over;
    when pending, with every buffered message taken. *)
Definition drain_post (dl : Z) (tok : CancellationToken) (pc : Pc) (rp : Rpc)
    (x : option (option StreamTrailers) * Drain * World) : Prop :=
  let '(o, d', w') := x in
  w_token w' = tok /\ exists rcv' r', sim dl rcv' w' r' rp /\ wr_pc r' = pc
  /\ match o with
     | Some a => rpc_done rp = true /\ a = rp_trailers rp
     | None => drain_inv d' rcv' rp /\ queue r' = [] /\ (~ parked pc -> rpc_done rp = false)
     end.

(** Past the end of the messages. *)
Lemma drain_final_sim dl rcv w r rp :
  sim dl rcv w r rp -> drain_inv DrainFinal rcv rp ->
  drain_post dl (w_token w) (wr_pc r) rp (trailers_poll w, DrainFinal, w).
Proof.
  intros Hs Hd. split; [done|]. exists rcv, r. split_and!; try done.
  pose proof (trailers_poll_sim _ _ _ _ _ Hs) as H. destruct (trailers_poll w); [done|].
  split_and!; try done. destruct Hd as [-> _]. pose proof (sim_items _ _ _ _ _ Hs) as Hi.
  apply (f_equal length) in Hi. rewrite !length_app in Hi. destruct (queue r); [done|simpl in *; lia].
Qed.

(** The message branch, given what the rest of the loop does. *)
Lemma drain_message_sim dl fuel rcv w r rp k :
  sim dl rcv w r rp -> rpc_wf rp ->
  (forall rcv' w' r', sim dl rcv' w' r' rp -> (length (queue r') < length (queue r))%nat ->
     drain_post dl (w_token w') (wr_pc r') rp (drain_loop fuel DrainLoop w')) ->
  (queue r = [] -> drain_post dl (w_token w) (wr_pc r) rp (k w)) ->
  drain_post dl (w_token w) (wr_pc r) rp
    match recv_item mpsc_recv w with
    | (Some (Some (Ok (Some _))), w) => drain_loop fuel DrainLoop w
    | (Some _, w) => (trailers_poll w, DrainFinal, w)
    | (None, w) => k w
    end.
Proof.
  intros Hs Hw IH Hk. pose proof (recv_item_sim mpsc_recv dl rcv w r rp (mpsc_recv_law _) Hs) as H.
  destruct (recv_item mpsc_recv w) as [[[it|]|] w2]; destruct H as [Htk H].
  - destruct H as (r2 & q & Hq & Hq2 & Hpc & Hs2). rewrite <- Htk, <- Hpc.
    assert (Hlast : final_item it -> drain_inv DrainFinal (rcv ++ [it]) rp).
    { intros Hfin. pose proof (sim_items _ _ _ _ _ Hs) as Hi. rewrite Hq in Hi.
      cbn [app] in Hi. destruct (final_item_last _ _ _ _ Hw Hi Hfin) as [Hr Hp].
      split; [|done]. by rewrite Hi, Hr. }
    destruct it as [[b|]|e]; [|by eapply drain_final_sim; [|apply Hlast]..].
    eapply IH; [done|]. rewrite Hq, Hq2. simpl. lia.
  - destruct H as (-> & Hq & Hpc). eapply drain_final_sim; [done|].
    destruct Hs. rewrite Hpc, Hq in *. simpl in *. rewrite app_nil_r in sim_items. split; auto.
  - destruct H as (-> & Hq & Hpc). by apply Hk.
Qed.

Lemma drain_loop_sim dl fuel : forall d rcv w r rp,
  sim dl rcv w r rp -> rpc_wf rp -> drain_inv d rcv rp -> (length (queue r) < fuel)%nat ->
  drain_post dl (w_token w) (wr_pc r) rp (drain_loop fuel d w).
Proof.
  induction fuel as [|fuel IH]; intros d rcv w r rp Hs Hw Hd Hf; [lia|].
  destruct d; [|by eapply drain_final_sim]. cbn [drain_loop].
  set (w1 := set_polls w (S (w_polls w))). change (w_token w) with (w_token w1).
  assert (Hs1 : sim dl rcv w1 r rp) by (eapply sim_world; [exact Hs|done..]).
  pose proof (trailers_poll_sim _ _ _ _ _ Hs1) as Ht.
  assert (Hready : forall t, trailers_poll w1 = Some t ->
    drain_post dl (w_token w1) (wr_pc r) rp (Some t, DrainLoop, w1)).
  { intros t Et. rewrite Et in Ht. split; [done|]. by exists rcv, r. }
  assert (Hpend : trailers_poll w1 = None -> queue r = [] ->
    drain_post dl (w_token w1) (wr_pc r) rp (None, DrainLoop, w1)).
  { intros Et Hq. rewrite Et in Ht. split; [done|]. by exists rcv, r. }
  assert (Hrest : forall rcv' w' r', sim dl rcv' w' r' rp -> (length (queue r') < length (queue r))%nat ->
    drain_post dl (w_token w') (wr_pc r') rp (drain_loop fuel DrainLoop w')).
  { intros rcv' w' r' Hs' Hl. eapply IH; try done. lia. }
  destruct (select (w_polls w)).
  - destruct (trailers_poll w1) as [t|]; [by apply Hready|].
    eapply drain_message_sim; try done. by apply Hpend.
  - eapply drain_message_sim; try done. intros Hq.
    destruct (trailers_poll w1) as [t|]; [by apply Hready|by apply Hpend].
Qed.

Lemma drain_poll_refines dl :
  poll_refines drain_poll dl rpc_done drain_inv (fun a _ rp => a = rp_trailers rp).
Proof.
  intros d rcv w r rp Hs Hw Hd. unfold drain_poll.
  apply (drain_loop_sim dl _ d rcv w r rp Hs Hw Hd).
  unfold drain_fuel. rewrite (sim_wire _ _ _ _ _ Hs). lia.
Qed.

Lemma drain_stop_stable dl : stop_stable clock dl rpc_done drain_inv.
Proof.
  intros d rcv w r rp Hs Hw Hd. destruct (rpc_poll_keeps dl rp) as (Hi & _ & Hdn). split_and!; try done.
  - unfold rpc_done. intros Hst. apply rpc_poll_same. by destruct (rp_pc rp).
  - destruct d; [done|]. destruct Hd as [-> Hp]. rewrite rpc_poll_same by (destruct Hp; congruence). by split.
  - intros ev rp' Hev. split; [|by eapply rpc_event_done].
    destruct d; [done|]. destruct Hd as [-> Hp]. unfold rpc_event in Hev.
    destruct ev as [[]|[]|[[]|]| | |t| | |]; destruct Hp as [Hp|Hp]; rewrite ?Hp in Hev; simplify_eq; split; simpl; auto.
Qed.

End refinement.

End stream.
