(* ===== verification/Delivery.v ===== *)
(** What a PHP program receives from a streaming call of src/src/call.rs, end
    to end: from [start_server_stream] through any number of RECV_MESSAGE
    batches to the status, against the reference call [Rpc] of Driver.v.  The
    bounded buffer, the background task and the order in which [select!] looks
    at its branches do not show. *)

From Stdlib Require Import ZArith Lia String Strings.Byte.
From stdpp Require Import base gmap list strings.
From S2P Require Import Prelude Utf8 Zend Tokio Tonic Error Runtime Timeval Credentials Channel Metadata Deadline Driver Stream.

#[local] Open Scope string_scope.
#[local] Open Scope list_scope.
#[local] Open Scope Z_scope.

Section delivery.
Context {Zd : ZendApi} {Tn : TonicApi} {Tls : TlsApi} {Ep : EndpointApi Tn Tls} {Tk : TokioApi}.
Context `{!ZendLaws Zd} `{!TokioLaws Tk}.
Context (env_var : option string) (build_error : nat -> option string) (tid : nat).
Context (clock : nat -> clock_reading) (select : nat -> bool).

Abbreviation Item := (result Status (option bytes)).
Abbreviation KM := (M CallSt PhpException).
Abbreviation build_result := (build_stream_result env_var build_error tid clock select).
Abbreviation start_stream := (start_server_stream env_var build_error tid clock).

(** * Frame *)

(** The runtime the thread has obtained; asking for it again changes nothing. *)
Definition rt_of (w : World) : RtState := ch_rt (w_chan w).
Definition runtime_ready (w : World) : Prop :=
  exists rt, get_runtime env_var build_error tid (rt_of w) = (Return rt, rt_of w).

Lemma call_get_runtime_ready s :
  runtime_ready (cs_w s) -> exists rt, call_get_runtime env_var build_error tid s = (Return rt, s).
Proof.
  intros [rt H]. exists rt. unfold call_get_runtime, in_chan, channel_get_runtime.
  unfold rt_of in H. rewrite H. destruct s as [c []]. unfold set_chan. simpl in *. by destruct w_chan.
Qed.

Lemma task_poll_rt w : rt_of (task_poll clock w) = rt_of w.
Proof. unfold task_poll, rt_of. destruct (w_wire w) as [r|]; [|done]. by destruct (wr_pc r). Qed.

Lemma driver_event_rt ev w w' : driver_event clock ev w = Some w' -> rt_of w' = rt_of w.
Proof.
  unfold driver_event, rt_of. destruct (w_wire w) as [r|]; [|destruct ev; by intros; simplify_eq].
  destruct ev as [[]|[]|[[]|]| | | | | |]; destruct (wr_pc r) eqn:E; try done; intros; simplify_eq; try done;
    unfold on_tick, on_elapsed, on_response, on_pull, on_req_drop, store_connectivity in *;
    repeat (case_match; simplify_eq/=); done.
Qed.

(** What polls and driver steps keep, [block_on] keeps. *)
Lemma block_on_frame {E A L B} (f : World -> B) (poll : L -> World -> option A * L * World) l w :
  (forall w, f (task_poll clock w) = f w) ->
  (forall ev w w', driver_event clock ev w = Some w' -> f w' = f w) ->
  (forall w s, f (set_script w s) = f w) ->
  (forall l w, f (poll l w).2 = f w) ->
  f (block_on (E := E) clock poll l w).2 = f w.
Proof.
  intros Ht Hd Hs Hp. unfold block_on. generalize true, (w_script w). intros woken script. revert woken l w.
  assert (Hturn : forall l w, f (block_on_turn clock poll l w).2 = f w).
  { intros l w. unfold block_on_turn. specialize (Hp l w) as H1. destruct (poll l w) as [[[a|] l1] w1]; [done|].
    by rewrite Hp, Ht. }
  induction script as [|ev script IH]; intros [] l w; simpl.
  all: try (specialize (Hturn l w); destruct (block_on_turn clock poll l w) as [[[a|] l1] w1]; simpl in Hturn).
  all: try (by simpl; rewrite Hs).
  all: destruct (driver_event clock ev _) as [w2|] eqn:E2; [|by simpl; rewrite Hs].
  all: by rewrite IH, (Hd _ _ _ E2).
Qed.

Lemma recv_item_rt recv w : rt_of (recv_item recv w).2 = rt_of w.
Proof. unfold recv_item. destruct (w_wire w) as [r|]; [|done]. by destruct (recv (wr_msgs r)). Qed.

Lemma drain_loop_rt fuel d w : rt_of (drain_loop select fuel d w).2 = rt_of w.
Proof.
  revert d w. induction fuel as [|fuel IH]; intros [] w; try done. cbn [drain_loop].
  pose proof (recv_item_rt mpsc_recv (set_polls w (S (w_polls w)))) as Hr.
  destruct (recv_item mpsc_recv _) as [[[[[b|]|e]|]|] w']; simpl in *;
    destruct (select (w_polls w)); repeat (case_match; simpl); rewrite ?IH; done.
Qed.

Lemma await_frame {A L} (poll : L -> World -> option A * L * World) l s :
  (forall l w, rt_of (poll l w).2 = rt_of w) ->
  cs_call (await clock poll l s).2 = cs_call s /\ rt_of (cs_w (await clock poll l s).2) = rt_of (cs_w s).
Proof.
  intros Hp. unfold await.
  pose proof (block_on_frame (E := PhpException) rt_of poll l (cs_w s)
    task_poll_rt driver_event_rt ltac:(done) Hp) as H.
  destruct (block_on _ _ _ _) as [r w]. done.
Qed.

(** * One read *)

(** The next item, as the reference run up to it says; the task may have taken
    more events before the read is answered. *)
Lemma next_item_spec dl rcv s r rp rp1 rest :
  sim dl rcv (cs_w s) r rp -> rpc_wf rp ->
  rpc_run clock (recv_stop rcv) dl (token_is_cancelled (w_token (cs_w s))) (w_script (cs_w s)) rp
    = Some (rp1, rest) ->
  exists a s' rcv' r' rp' mid, next_item clock s = (Return a, s') /\ sim dl rcv' (cs_w s') r' rp' /\ rpc_wf rp'
    /\ recv_answer rcv a rcv' rp' /\ w_token (cs_w s') = w_token (cs_w s)
    /\ rest = mid ++ w_script (cs_w s')
    /\ rpc_walk clock dl (token_is_cancelled (w_token (cs_w s))) mid rp1 = Some rp'
    /\ cs_call s' = cs_call s /\ rt_of (cs_w s') = rt_of (cs_w s).
Proof.
  intros Hs Hw Hrun. unfold next_item.
  pose proof (recv_answer_sim mpsc_try_recv dl rcv (cs_w s) r rp (mpsc_try_recv_law _) Hs) as H.
  pose proof (recv_item_rt mpsc_try_recv (cs_w s)) as Hrt.
  assert (Hscr : w_script (recv_item mpsc_try_recv (cs_w s)).2 = w_script (cs_w s)).
  { unfold recv_item. destruct (w_wire (cs_w s)) as [r0|]; [|done]. by destruct (mpsc_try_recv _). }
  destruct (recv_item mpsc_try_recv (cs_w s)) as [[a|] w1]; simpl in *;
    destruct H as (Ht & rcv1 & r1 & Hs1 & Hpc & H).
  - destruct H as [Hst Ha].
    assert (rp1 = rp /\ rest = w_script (cs_w s)) as [-> ->].
    { destruct (w_script (cs_w s)); simpl in Hrun; rewrite Hst in Hrun; by simplify_eq. }
    by exists a, (MkCS (cs_call s) w1), rcv1, r1, rp, [].
  - destruct H as (-> & _ & _). rewrite <- Ht, <- Hscr in Hrun.
    destruct (block_on_sim (E := PhpException) clock recv_poll dl (recv_stop rcv) _ (recv_answer rcv)
      tt rcv w1 r1 rp rp1 rest (recv_poll_refines dl rcv) (recv_stop_stable clock dl rcv) Hs1 Hw eq_refl Hrun)
      as (a & w' & rcv' & r' & rp' & mid & Hb & Hs' & Hw' & _ & Ha & Ht' & Hsc & Hwk).
    pose proof (await_frame recv_poll tt (MkCS (cs_call s) w1)) as [Hc Hr].
    { intros l w. unfold recv_poll. pose proof (recv_item_rt mpsc_recv w). by destruct (recv_item _ _). }
    unfold await in *. simpl in *. rewrite Hb in *.
    exists a, (MkCS (cs_call s) w'), rcv', r', rp', mid. simpl in *. split_and!; try done; congruence.
Qed.

Definition is_err (it : Item) : Prop := match it with Err _ => True | Ok _ => False end.

(** A reader of a call that ends as [rpE], after [k] reads.  Either the stream
    is still read from the buffer, or a connection error was read from it and
    its status kept. *)
Record reader (dl : Z) (rpE : Rpc) (k : nat) (s : CallSt) : Prop := {
  rd_rt : runtime_ready (cs_w s);
  rd_dl : cl_deadline_usec (cs_call s) = dl;
  rd_done : rpc_done rpE = true;
  rd_wf : rpc_wf rpE;
  rd_state : exists st, cl_stream_state (cs_call s) = Some st /\ as_trailers_rx st = true
    /\ match as_cached_trailers st with
       | None => exists rcv r rp rest, sim dl rcv (cs_w s) r rp /\ rpc_wf rp
                 /\ rcv `prefix_of` rp_items rpE /\ Forall (fun it => ~ is_err it) rcv
                 /\ length rcv = Nat.min k (length (rp_items rpE))
                 /\ rpc_run clock rpc_done dl (token_is_cancelled (w_token (cs_w s)))
                      (w_script (cs_w s)) rp = Some (rpE, rest)
       | Some t => (0 < k)%nat /\ (length (rp_items rpE) <= k)%nat
                   /\ (exists m, rp_meta rpE = Some m /\ meta_poll tt (cs_w s) = (Some (Some m), tt, cs_w s))
                   /\ exists status n, last (rp_items rpE) = Some (Err status)
                      /\ t = trailers_of_status (clock n) status dl
       end;
}.

Definition item_zval (it : option Item) : Zval :=
  match it with Some (Ok (Some b)) => zv_of_bytes b | _ => zv_null end.

Definition recv_message_batch : BatchOps := MkBatch [] false None false false true false false true.
Definition recv_status_batch : BatchOps := MkBatch [] false None false false false true false true.
Definition recv_metadata_batch : BatchOps := MkBatch [] false None false true false false false true.

Lemma set_prop_fresh o k v what :
  k ∉ (obj_props o).*1 -> exists o', set_prop o k v what = Ok o' /\ obj_props o' = obj_props o ++ [(k, v)].
Proof. intros H. unfold set_prop. destruct (obj_set_property_ok o k v H) as (o' & -> & Ho). eauto. Qed.

Lemma rpc_done_run dl c evs rp rpE rest :
  rpc_done rp = true -> rpc_run clock rpc_done dl c evs rp = Some (rpE, rest) -> rpE = rp.
Proof. intros Hd. destruct evs; simpl; rewrite Hd; by intros; simplify_eq. Qed.

Lemma set_prop_new k v what :
  exists o, set_prop obj_new k v what = Ok o /\ obj_props o = [(k, v)].
Proof.
  destruct (set_prop_fresh obj_new k v what) as (o & Ho & Hp).
  { rewrite obj_props_new. by intros ?%not_elem_of_nil. }
  exists o. split; [done|]. by rewrite Hp, obj_props_new.
Qed.

Lemma get_stream_some s st :
  cl_stream_state (cs_call s) = Some st -> get_stream s = (Return st, s).
Proof. intros H. unfold get_stream. mred. by rewrite H. Qed.

Lemma build_result_message s st :
  runtime_ready (cs_w s) -> cl_stream_state (cs_call s) = Some st ->
  build_result recv_message_batch s = recv_message clock obj_new s.
Proof.
  intros Hr Hst. destruct (call_get_runtime_ready s Hr) as [rt Hrt]. unfold build_stream_result.
  rewrite (M_bind_return _ _ _ _ _ Hrt), (M_bind_return _ _ _ _ _ (get_stream_some s st Hst)). simpl.
  mred. destruct (recv_message clock obj_new s) as [[]]; done.
Qed.

Lemma recv_message_uncached o0 s st a s1 :
  "message" ∉ (obj_props o0).*1 -> cl_stream_state (cs_call s) = Some st -> as_cached_trailers st = None ->
  next_item clock s = (Return a, s1) -> cs_call s1 = cs_call s ->
  exists o, obj_props o = obj_props o0 ++ [("message", item_zval a)]
    /\ recv_message clock o0 s
       = (Return o, match a with
                    | Some (Err status) =>
                        MkCS (cl_set_stream (cs_call s) (Some (MkStream (as_msg_tx st) (as_initial_metadata st)
                               (as_meta_rx st)
                               (Some (trailers_of_status (now clock (cs_w s1)) status (cl_deadline_usec (cs_call s))))
                               (as_trailers_rx st))))
                             (tick (cs_w s1))
                    | _ => s1
                    end).
Proof.
  intros Hnew Hst Hc Hn Hcall. unfold recv_message.
  rewrite (M_bind_return _ _ _ _ _ (get_stream_some s st Hst)), Hc, (M_bind_return _ _ _ _ _ Hn).
  destruct (set_prop_fresh o0 "message" (item_zval a) "message" Hnew) as (o & Ho & Hp). exists o. split; [done|].
  unfold message_zval, bytes_to_php_string_zval.
  destruct a as [[[b|]|e]|]; simpl in *; mred; rewrite ?Ho; try done.
  unfold put_stream, on_call. mred. by rewrite Hcall.
Qed.

(** A connection error is the last item of a call that has ended. *)
Lemma err_item_done rp k e : rpc_wf rp -> rp_items rp !! k = Some (Err e) -> rpc_done rp = true.
Proof.
  intros Hw Hk. pose proof (take_drop_middle _ _ _ Hk) as Hm. symmetry in Hm.
  edestruct final_item_last as [Hr Hpc]; [exact Hw|exact Hm|done|]. rewrite Hr in Hm.
  destruct Hpc as [Hpc|Hpc]; unfold rpc_done; [|by rewrite Hpc].
  destruct Hw as (bs & tail & Hi & Ht). rewrite Hpc in Ht. subst tail. rewrite Hi in Hm.
  by apply app_inj_tail in Hm as [_ ?].
Qed.

Lemma meta_poll_done dl rcv w r rp :
  sim dl rcv w r rp -> rpc_done rp = true -> exists m, rp_meta rp = Some m /\ meta_poll tt w = (Some (Some m), tt, w).
Proof.
  clear env_var build_error tid clock select.
  intros [] Hd. unfold meta_poll. rewrite sim_wire, sim_meta. destruct (rp_meta rp) eqn:Em; [by eexists|].
  exfalso. unfold rpc_done in Hd. destruct (rp_pc rp); try done; naive_solver.
Qed.

Lemma meta_poll_wire w w' o :
  w_wire w' = w_wire w -> meta_poll tt w = (o, tt, w) -> meta_poll tt w' = (o, tt, w').
Proof. unfold meta_poll. intros ->. by repeat case_match; intros; simplify_eq. Qed.

(** RECV_MESSAGE answers the next item of the reference. *)
Lemma reader_recv o0 dl rpE k s :
  "message" ∉ (obj_props o0).*1 -> reader dl rpE k s ->
  exists o s', recv_message clock o0 s = (Return o, s')
    /\ obj_props o = obj_props o0 ++ [("message", item_zval (rp_items rpE !! k))] /\ reader dl rpE (S k) s'.
Proof.
  intros Hnew [Hrt Hdl Hdone HwE (st & Hst & Htr & Hstate)].
  destruct (as_cached_trailers st) as [t|] eqn:Hc.
  - destruct Hstate as (Hk0 & Hk & Hmeta & Herr).
    destruct (set_prop_fresh o0 "message" zv_null "message" Hnew) as (o & Ho & Hp).
    exists o, s. split; [|split].
    + unfold recv_message. rewrite (M_bind_return _ _ _ _ _ (get_stream_some s st Hst)), Hc. mred. by rewrite Ho.
    + by rewrite Hp, lookup_ge_None_2 by lia.
    + split; try done. exists st. rewrite Hc. split_and!; try done; lia.
  - destruct Hstate as (rcv & r & rp & rest & Hs & Hw & Hpre & Hne & Hlen & Hrun).
    destruct (rpc_run_split clock (recv_stop rcv) rpc_done _ _ _ _ _ _
      ltac:(intros rp0 H0; unfold recv_stop; rewrite H0; apply orb_true_r) Hrun) as (rp1 & rest1 & Hrun1 & Hrun2).
    destruct (next_item_spec _ _ _ _ _ _ _ Hs Hw Hrun1)
      as (a & s1 & rcv1 & r1 & rp2 & mid & Hn & Hs1 & Hw1 & Ha & Ht & Hsc & Hwk & Hcall & Hrt1).
    rewrite Hsc, (rpc_walk_run _ _ _ _ _ _ _ Hwk) in Hrun2. clear rp1 Hrun1 Hwk. rename rp2 into rp1.
    destruct (recv_message_uncached o0 s st a s1 Hnew Hst Hc Hn Hcall) as (o & Hp & Hrm).
    eexists o, _. split; [exact Hrm|].
    assert (Hit : rp_items rpE !! k = a /\ rcv1 `prefix_of` rp_items rpE
                  /\ length rcv1 = Nat.min (S k) (length (rp_items rpE))
                  /\ (default True ((fun it => ~ is_err it) <$> a) -> Forall (fun it => ~ is_err it) rcv1)).
    { pose proof (rpc_run_items _ _ _ _ _ _ _ _ Hrun2) as Hpre2. destruct a as [it|]; simpl in Ha.
      - destruct Ha as [-> Ha]. pose proof (prefix_lookup_Some _ _ _ _ Ha Hpre2) as HaE.
        pose proof (lookup_lt_Some _ _ _ HaE). assert (k = length rcv) as -> by lia.
        split; [done|]. rewrite length_app. cbn [length]. split; [|split; [lia|simpl; intros; apply Forall_app; split; [done|by apply Forall_singleton]]].
        destruct Hpre as [tl Htl]. rewrite Htl in HaE |- *. rewrite lookup_app_r, Nat.sub_diag in HaE by lia.
        destruct tl as [|x tl]; simplify_eq/=. exists tl. by rewrite <- app_assoc.
      - destruct Ha as (-> & Hi & Hd). assert (rpE = rp1) as -> by (by eapply rpc_done_run).
        rewrite Hi in *. split; [|split; [done|split; [lia|done]]]. apply lookup_ge_None_2. lia. }
    destruct Hit as (Hit & Hpre1 & Hlen1 & Hne1). split; [by rewrite Hit|].
    destruct a as [[m|status]|]; simpl.
    1, 3: split; simpl; rewrite ?Hcall; try done; [by unfold runtime_ready; rewrite Hrt1|];
          exists st; rewrite Hc; split_and!; try done; exists rcv1, r1, rp1, rest;
          rewrite Ht; split_and!; try done; apply Hne1; simpl; auto.
    assert (Hlast : rp_items rpE = take k (rp_items rpE) ++ [Err status]).
    { pose proof (take_drop_middle _ _ _ Hit) as Hm. symmetry in Hm.
      edestruct final_item_last as [Hr _]; [exact HwE|exact Hm|done|]. by rewrite Hr in Hm. }
    split; simpl; try done; [by unfold runtime_ready; change (rt_of (tick (cs_w s1))) with (rt_of (cs_w s1)); rewrite Hrt1|].
    eexists. split_and!; [done|done|]. simpl. split; [lia|]. split; [|split].
    + rewrite Hlast, length_app, length_take. simpl. lia.
    + assert (rpE = rp1) as -> by (eapply rpc_done_run; [|exact Hrun2]; eapply err_item_done; [exact Hw1|apply Ha]).
      destruct (meta_poll_done _ _ _ _ _ Hs1 Hdone) as (m & Hm & Hmp). exists m. split; [done|].
      by eapply (meta_poll_wire (cs_w s1)).
    + exists status, (w_ticks (cs_w s1)). rewrite Hlast, last_snoc. split; [done|]. unfold now. by rewrite Hdl.
Qed.

(** One RECV_MESSAGE batch. *)
Lemma reader_read dl rpE k s :
  reader dl rpE k s ->
  exists o s', build_result recv_message_batch s = (Return o, s')
    /\ obj_props o = [("message", item_zval (rp_items rpE !! k))] /\ reader dl rpE (S k) s'.
Proof.
  intros Hr. destruct (reader_recv obj_new dl rpE k s) as (o & s' & Ho & Hp & Hr'); [|done|].
  { rewrite obj_props_new. by intros ?%not_elem_of_nil. }
  destruct Hr as [Hrt _ _ _ (st & Hst & _)]. exists o, s'. rewrite (build_result_message s st Hrt Hst).
  rewrite obj_props_new in Hp. done.
Qed.

(** The connection error is final: there are no trailers then. *)
Lemma reader_err rpE status :
  rpc_wf rpE -> rpc_done rpE = true -> last (rp_items rpE) = Some (Err status) -> rp_trailers rpE = None.
Proof.
  intros (bs & tail & Hi & Ht) Hd Hl. unfold rpc_done in Hd. destruct (rp_pc rpE); try done.
  destruct Ht as (it & -> & _ & Hit). rewrite Hi, last_snoc in Hl. by simplify_eq.
Qed.

(** The status after any number of reads. *)
Lemma reader_status dl rpE k s :
  reader dl rpE k s ->
  exists t s', final_trailers clock select s = (Return t, s')
    /\ match rp_trailers rpE with
       | Some t' => t = t'
       | None => exists status, last (rp_items rpE) = Some (Err status)
                 /\ if decide (length (rp_items rpE) <= k)%nat
                    then exists n, t = trailers_of_status (clock n) status dl else t = stream_terminated
       end.
Proof.
  intros [Hrt Hdl Hdone HwE (st & Hst & Htr & Hstate)]. unfold final_trailers.
  rewrite (M_bind_return _ _ _ _ _ (get_stream_some s st Hst)).
  destruct (as_cached_trailers st) as [t|] eqn:Hc.
  - destruct Hstate as (Hk0 & Hk & _ & status & n & Hl & ->).
    eexists _, _. split; [unfold put_stream, on_call; mred; reflexivity|].
    rewrite (reader_err _ _ HwE Hdone Hl). exists status. split; [done|]. rewrite decide_True by done. eauto.
  - destruct Hstate as (rcv & r & rp & rest & Hs & Hw & Hpre & Hne & Hlen & Hrun). rewrite Htr.
    set (s1 := MkCS (cl_set_stream (cs_call s) (Some (MkStream (as_msg_tx st) (as_initial_metadata st)
                       (as_meta_rx st) None false))) (cs_w s)).
    destruct (block_on_sim (E := PhpException) clock (drain_poll select) dl rpc_done drain_inv _
      DrainLoop rcv (cs_w s) r rp rpE rest (drain_poll_refines select dl) (drain_stop_stable clock dl) Hs Hw I Hrun)
      as (a & w' & rcv' & r' & rp' & mid & Hb & _ & _ & _ & -> & _ & _ & Hwk).
    destruct (rpc_walk_done _ _ _ _ _ _ Hdone Hwk) as [-> ->].
    exists (default stream_terminated (rp_trailers rpE)), (MkCS (cs_call s1) w'). split.
    + unfold put_stream, on_call. mred. unfold await. simpl. by rewrite Hb.
    + destruct (rp_trailers rpE) as [t|] eqn:Et; simpl; [done|].
      destruct HwE as (bs & tail & Hi & Htl). unfold rpc_done in Hdone. destruct (rp_pc rpE); try done.
      destruct Htl as (it & -> & _ & Hit). rewrite Et in Hit. destruct it as [m|status].
      * by destruct Hit.
      * exists status. rewrite Hi, last_snoc. split; [done|]. rewrite decide_False; [done|]. rewrite <- Hi. intros Hge.
        assert (rcv = rp_items rpE) as -> by (destruct Hpre as [[|x tl] Htl]; [by rewrite app_nil_r in Htl|];
          rewrite Htl, length_app in Hlen, Hge; simpl in *; lia).
        rewrite Hi in Hne. apply Forall_app in Hne as [_ Hne]. rewrite Forall_singleton in Hne. by apply Hne.
Qed.

(** * From the start of the call *)

Lemma channel_pump_rt c c' :
  channel_pump env_var build_error tid c = (Return tt, c') ->
  exists rt, get_runtime env_var build_error tid (ch_rt c') = (Return rt, ch_rt c').
Proof.
  unfold channel_pump, pump. simpl.
  destruct (get_runtime env_var build_error tid (ch_rt c)) as [[rt|e|] rt'] eqn:E; simpl; intros; simplify_eq/=.
  exists rt. by eapply get_runtime_idem.
Qed.

Lemma spawn_task_sim c req rq w :
  w_wire w = Some (spawn_task c req rq) ->
  sim (cl_deadline_usec c) [] w (spawn_task c req rq) (rpc_init 0 (w_ticks w) (w_instant w)).
Proof.
  clear env_var build_error tid clock select. intros Hw. unfold spawn_task in *.
  split; simpl; rewrite ?mpsc_channel_view, ?oneshot_channel_poll; simpl; try done; [lia|naive_solver].
Qed.

(** Both ways to open a stream are this one. *)
Definition start_with (kind : RpcKind) (req : option (mpsc bytes)) (st : ActiveStream)
    (md pm : list (string * string)) (msg : bytes) : KM unit :=
  _ ← call_get_runtime env_var build_error tid;
  call_pump env_var build_error tid ;;
  s ← get;
  let c := cs_call s in
  t ← read_clock clock;
  if deadline_already_expired t (cl_deadline_usec c) then
    on_call (fun c => cl_set_stream c (Some expired_stream_state))
  else
    _ ← lift (map_err invalid_path (path_try_from (cl_method c)));
    t ← read_clock clock;
    on_world (fun w => set_wire w (spawn_task c req (build_request kind c t md pm msg))) ;;
    on_call (fun c => cl_set_stream c (Some st)).

Lemma start_server_with md pm msg :
  start_stream md pm msg = start_with KServerStreaming None (MkStream false None true None true) md pm (default [] msg).
Proof. done. Qed.

Lemma start_bidi_with md pm :
  start_bidi_stream env_var build_error tid clock md pm
  = start_with KStreaming (Some (mpsc_channel REQ_BUFFER)) (MkStream true None true None true) md pm [].
Proof. done. Qed.

(** A stream was opened by either of the two operations that open one. *)
Inductive opens (s0 : CallSt) : CallSt -> Prop :=
| opens_server md pm msg s : start_stream md pm msg s0 = (Return tt, s) -> opens s0 s
| opens_bidi md pm s : start_bidi_stream env_var build_error tid clock md pm s0 = (Return tt, s) -> opens s0 s.

(** What starting a stream leaves, when the deadline has not passed. *)
Lemma start_with_spawns kind req st0 md pm msg s0 s st :
  start_with kind req st0 md pm msg s0 = (Return tt, s) ->
  cl_stream_state (cs_call s) = Some st -> as_trailers_rx st = true ->
  st = st0 /\ cs_call s = cl_set_stream (cs_call s0) (Some st0) /\ runtime_ready (cs_w s)
  /\ exists rq, w_wire (cs_w s) = Some (spawn_task (cs_call s0) req rq).
Proof.
  unfold start_with, call_get_runtime, call_pump, in_chan, read_clock, on_call, on_world. mred.
  destruct (channel_get_runtime _ _ _ _) as [[rt|e|] c1]; [|done..]. simpl.
  destruct (channel_pump _ _ _ _) as [[[]|e|] c2] eqn:Hp; [|done..]. simpl.
  destruct (deadline_already_expired _ _); simpl; [intros; simplify_eq/=|].
  destruct (path_try_from _) as [[]|e]; simpl; [|done]. intros; simplify_eq/=. split_and!; eauto.
  unfold runtime_ready, rt_of. simpl. by eapply channel_pump_rt.
Qed.

Lemma opens_spawns s0 s st :
  opens s0 s -> cl_stream_state (cs_call s) = Some st -> as_trailers_rx st = true ->
  st = MkStream (as_msg_tx st) None true None true /\ cs_call s = cl_set_stream (cs_call s0) (Some st)
  /\ runtime_ready (cs_w s)
  /\ exists rq, w_wire (cs_w s)
       = Some (spawn_task (cs_call s0) (if as_msg_tx st then Some (mpsc_channel REQ_BUFFER) else None) rq).
Proof.
  destruct 1 as [md pm msg s H|md pm s H]; intros Hst Htr; [rewrite start_server_with in H|rewrite start_bidi_with in H];
    by destruct (start_with_spawns _ _ _ _ _ _ _ _ _ H Hst Htr) as (-> & -> & ? & ?).
Qed.

Lemma start_stream_sim md pm msg s0 s st :
  start_stream md pm msg s0 = (Return tt, s) ->
  cl_stream_state (cs_call s) = Some st -> as_trailers_rx st = true ->
  st = MkStream false None true None true
  /\ cl_deadline_usec (cs_call s) = cl_deadline_usec (cs_call s0)
  /\ runtime_ready (cs_w s)
  /\ exists r, sim (cl_deadline_usec (cs_call s0)) [] (cs_w s) r (rpc_init 0 (w_ticks (cs_w s)) (w_instant (cs_w s))).
Proof.
  rewrite start_server_with. intros H Hst Htr.
  destruct (start_with_spawns _ _ _ _ _ _ _ _ _ H Hst Htr) as (-> & -> & Hrt & rq & Hw).
  split_and!; try done. eexists. exact (spawn_task_sim _ _ _ _ Hw).
Qed.

Lemma opens_reader s0 s st rpE rest :
  opens s0 s -> cl_stream_state (cs_call s) = Some st -> as_trailers_rx st = true ->
  rpc_run clock rpc_done (cl_deadline_usec (cs_call s0)) (token_is_cancelled (w_token (cs_w s)))
    (w_script (cs_w s)) (rpc_init 0 (w_ticks (cs_w s)) (w_instant (cs_w s))) = Some (rpE, rest) ->
  reader (cl_deadline_usec (cs_call s0)) rpE 0 s.
Proof.
  intros Hop Hst Htr Hrun. destruct (opens_spawns _ _ _ Hop Hst Htr) as (Hst0 & Hc & Hrt & rq & Hw).
  split; [done|by rewrite Hc|by eapply rpc_run_stop|eapply rpc_run_wf; [apply rpc_init_wf|exact Hrun]|].
  exists st. split_and!; [done|done|]. rewrite Hst0. simpl.
  eexists [], _, (rpc_init 0 (w_ticks (cs_w s)) (w_instant (cs_w s))), rest.
  split_and!; try done; [exact (spawn_task_sim _ _ _ _ Hw)|apply rpc_init_wf|by exists (rp_items rpE)].
Qed.

Lemma reader_start md pm msg s0 s st rpE rest :
  start_stream md pm msg s0 = (Return tt, s) ->
  cl_stream_state (cs_call s) = Some st -> as_trailers_rx st = true ->
  rpc_run clock rpc_done (cl_deadline_usec (cs_call s0)) (token_is_cancelled (w_token (cs_w s)))
    (w_script (cs_w s)) (rpc_init 0 (w_ticks (cs_w s)) (w_instant (cs_w s))) = Some (rpE, rest) ->
  reader (cl_deadline_usec (cs_call s0)) rpE 0 s.
Proof. intros H. apply opens_reader. by eapply opens_server. Qed.

(** The messages among the events of the network. *)
Definition message_of (ev : Event) : option bytes :=
  match ev with EvMessage (Ok (Some b)) => Some b | _ => None end.

Definition item_message (it : Item) : option bytes :=
  match it with Ok (Some b) => Some b | _ => None end.

Lemma rpc_event_messages dl c ev rp rp' :
  rpc_event clock dl c ev rp = Some rp' ->
  omap item_message (rp_items rp') = omap item_message (rp_items rp) ++ option_list (message_of ev).
Proof.
  unfold rpc_event. destruct ev as [[]|[]|[[b|]|]| | |t| | |]; destruct (rp_pc rp); try done;
    try case_match; intros [= <-]; simpl; rewrite ?omap_app; simpl; by rewrite ?app_nil_r.
Qed.

Lemma rpc_run_messages stop dl c evs rp rpE rest :
  rpc_run clock stop dl c evs rp = Some (rpE, rest) ->
  exists used, evs = used ++ rest
    /\ omap item_message (rp_items rpE) = omap item_message (rp_items rp) ++ omap message_of used.
Proof.
  revert rp. induction evs as [|ev evs IH]; intros rp; simpl; destruct (stop rp); intros Hrun; simplify_eq.
  - exists []. split; [done|]. by rewrite app_nil_r.
  - exists []. split; [done|]. by rewrite app_nil_r.
  - destruct (rpc_event clock dl c ev (rpc_poll clock dl rp)) as [rp1|] eqn:Hev; [|done].
    destruct (IH rp1 Hrun) as (used & -> & Hm). exists (ev :: used). split; [done|].
    rewrite Hm, (rpc_event_messages _ _ _ _ _ Hev), <- app_assoc. f_equal.
    + unfold rpc_poll. by destruct (rp_pc rp).
    + csimpl. by destruct (message_of ev).
Qed.

Lemma omap_messages (bs : list bytes) : omap item_message ((fun b => Ok (Some b)) <$> bs) = bs.
Proof. induction bs as [|b bs IH]; csimpl; [done|]. by rewrite IH. Qed.

(** A call's items: its messages, and nothing but final items after them. *)
Lemma rpc_items_messages rp :
  rpc_wf rp ->
  exists tail, Forall final_item tail
    /\ rp_items rp = ((fun b => Ok (Some b)) <$> omap item_message (rp_items rp)) ++ tail.
Proof.
  intros (bs & tail & Hi & Ht). assert (Hf : Forall final_item tail).
  { destruct (rp_pc rp); destruct_and?; subst; try done; [by constructor|]. destruct Ht as (it & -> & Hf & _). by constructor. }
  exists tail. split; [done|]. rewrite Hi at 2. rewrite omap_app, omap_messages, Hi.
  assert (omap item_message tail = []) as ->; [|by rewrite app_nil_r].
  clear Hi Ht. induction Hf as [|it tail Hit _ IH]; [done|]. csimpl.
  destruct it as [[b|]|]; [by destruct (Hit b)|done|done].
Qed.

(** [n] batches of one RECV_MESSAGE each. *)
Fixpoint read_messages (n : nat) : KM (list ZObject) :=
  match n with
  | O => mret []
  | S n => o ← build_result recv_message_batch; os ← read_messages n; mret (o :: os)
  end.

Lemma reader_reads dl rpE n k s :
  reader dl rpE k s ->
  exists os s', read_messages n s = (Return os, s') /\ reader dl rpE (k + n) s'
    /\ obj_props <$> os = (fun i => [("message", item_zval (rp_items rpE !! i))]) <$> seq k n.
Proof.
  revert k s. induction n as [|n IH]; intros k s Hr.
  - exists [], s. split_and!; try done. by rewrite Nat.add_0_r.
  - destruct (reader_read _ _ _ _ Hr) as (o & s1 & H1 & Hp & Hr1).
    destruct (IH (S k) s1 Hr1) as (os & s2 & H2 & Hr2 & Hps).
    exists (o :: os), s2. split_and!.
    + cbn [read_messages]. rewrite (M_bind_return _ _ _ _ _ H1), (M_bind_return _ _ _ _ _ H2). done.
    + by rewrite <- Nat.add_succ_comm.
    + csimpl. by rewrite Hp, Hps.
Qed.

(** The values of the first [n] reads: the messages, then null. *)
Lemma item_zvals rp n :
  rpc_wf rp ->
  (fun i => item_zval (rp_items rp !! i)) <$> seq 0 n
  = take n ((zv_of_bytes <$> omap item_message (rp_items rp)) ++ replicate n zv_null).
Proof.
  intros Hw. destruct (rpc_items_messages rp Hw) as (tail & Hf & Hi).
  set (bs := omap item_message (rp_items rp)) in *.
  apply list_eq. intros i. rewrite list_lookup_fmap.
  destruct (decide (i < n)%nat) as [Hlt|Hge].
  - rewrite lookup_seq_lt, lookup_take_lt by done. simpl. rewrite Hi.
    destruct (decide (i < length bs)%nat) as [Hb|Hb].
    + rewrite !lookup_app_l by (by rewrite length_fmap). rewrite !list_lookup_fmap.
      destruct (lookup_lt_is_Some_2 bs i Hb) as [b ->]. done.
    + rewrite (lookup_app_r (zv_of_bytes <$> bs)) by (rewrite length_fmap; lia).
      rewrite lookup_replicate_2 by (rewrite length_fmap; lia).
      rewrite lookup_app_r by (rewrite length_fmap; lia).
      destruct (tail !! _) as [it|] eqn:Eit; [|done]. pose proof (Forall_lookup_1 _ _ _ _ Hf Eit) as Hit.
      destruct it as [[b|]|]; [by destruct (Hit b)|done|done].
  - rewrite lookup_seq_ge, lookup_take_ge by lia. done.
Qed.

Lemma status_zval_ok md code details :
  exists v ht o, metadata_to_php md = Ok ht /\ status_zval (Some md) code details = Ok v /\ v = zv_of_obj o
    /\ obj_props o = [("metadata", zv_of_ht ht); ("code", zv_of_long code); ("details", zv_of_string details)].
Proof.
  destruct (metadata_to_php_total md) as (ht & Hht & _). unfold status_zval, metadata_zval. rewrite Hht. mred.
  destruct (set_prop_fresh obj_new "metadata" (zv_of_ht ht) "status metadata") as (o1 & -> & H1).
  { rewrite obj_props_new. by intros ?%not_elem_of_nil. }
  rewrite obj_props_new in H1. simpl in *.
  destruct (set_prop_fresh o1 "code" (zv_of_long code) "status code") as (o2 & -> & H2).
  { rewrite H1. simpl. by intros ?%list_elem_of_singleton. }
  rewrite H1 in H2. simpl in *.
  destruct (set_prop_fresh o2 "details" (zv_of_string details) "status details") as (o3 & -> & H3).
  { rewrite H2. simpl. intros [?|?%list_elem_of_singleton]%elem_of_cons; done. }
  rewrite H2 in H3. simpl in *. eexists _, ht, o3. split_and!; done.
Qed.

(** RECV_STATUS shows the trailers in a status object. *)
Lemma recv_status_shows o0 s t s' :
  "status" ∉ (obj_props o0).*1 -> final_trailers clock select s = (Return t, s') ->
  exists o ht so, recv_status clock select o0 s = (Return o, s')
    /\ obj_props o = obj_props o0 ++ [("status", zv_of_obj so)] /\ metadata_to_php (tr_metadata t) = Ok ht
    /\ obj_props so = [("metadata", zv_of_ht ht); ("code", zv_of_long (tr_code t));
                       ("details", zv_of_string (tr_message t))].
Proof.
  intros Hnew Hf.
  destruct (status_zval_ok (tr_metadata t) (tr_code t) (tr_message t)) as (v & ht & so & Hht & Hv & -> & Hso).
  destruct (set_prop_fresh o0 "status" (zv_of_obj so) "status" Hnew) as (o & Ho & Hp).
  exists o, ht, so. split_and!; try done. unfold recv_status. mred. rewrite Hf. mred. by rewrite Hv, Ho.
Qed.

(** A RECV_STATUS batch shows the trailers in a status object. *)
Lemma build_result_status s st t s' :
  runtime_ready (cs_w s) -> cl_stream_state (cs_call s) = Some st ->
  final_trailers clock select s = (Return t, s') ->
  exists o v ht so, build_result recv_status_batch s = (Return o, s') /\ obj_props o = [("status", v)]
    /\ v = zv_of_obj so /\ metadata_to_php (tr_metadata t) = Ok ht
    /\ obj_props so = [("metadata", zv_of_ht ht); ("code", zv_of_long (tr_code t));
                       ("details", zv_of_string (tr_message t))].
Proof.
  intros Hr Hst Hf. destruct (call_get_runtime_ready s Hr) as [rt Hrt].
  destruct (recv_status_shows obj_new s t s') as (o & ht & so & Ho & Hp & Hht & Hso); [|done|].
  { rewrite obj_props_new. by intros ?%not_elem_of_nil. }
  rewrite obj_props_new in Hp. exists o, (zv_of_obj so), ht, so. split_and!; try done. unfold build_stream_result.
  by rewrite (M_bind_return _ _ _ _ _ Hrt), (M_bind_return _ _ _ _ _ (get_stream_some s st Hst)).
Qed.

(** ** Metadata, message and status in one batch *)

(** Before the response there is no metadata, after it there is. *)
Definition meta_early (rp : Rpc) : Prop :=
  rp_meta rp = None <-> rp_pc rp = RStart \/ rp_pc rp = RReady \/ rp_pc rp = RResponse.

Lemma rpc_event_meta dl c ev rp rp' :
  meta_early rp -> rpc_event clock dl c ev (rpc_poll clock dl rp) = Some rp' ->
  meta_early rp' /\ forall m, rp_meta rp = Some m -> rp_meta rp' = Some m.
Proof.
  clear env_var build_error tid select.
  unfold meta_early, rpc_poll, rpc_event. intros Hm.
  destruct (rp_pc rp) eqn:E, ev as [[]|[]|[[]|]| | |t| | |]; simpl; rewrite ?E; try done;
    try case_match; intros [= <-]; simpl; rewrite ?E; (split; [naive_solver|intros m Hr; rewrite ?Hr in *; naive_solver]).
Qed.

Lemma rpc_run_meta_kept dl c evs rp rpE rest m :
  meta_early rp -> rp_meta rp = Some m ->
  rpc_run clock rpc_done dl c evs rp = Some (rpE, rest) -> rp_meta rpE = Some m.
Proof.
  clear env_var build_error tid select.
  revert rp. induction evs as [|ev evs IH]; intros rp He Hm; simpl; destruct (rpc_done rp); intros; simplify_eq; try done.
  destruct (rpc_event clock dl c ev (rpc_poll clock dl rp)) as [rp1|] eqn:Hev; [|done].
  destruct (rpc_event_meta _ _ _ _ _ He Hev) as [He1 Hm1]. eapply IH; [exact He1|by apply Hm1|done].
Qed.

(** A call that ends has had its metadata on the way. *)
Lemma rpc_run_meta dl c evs rp rpE rest :
  meta_early rp -> rpc_run clock rpc_done dl c evs rp = Some (rpE, rest) ->
  exists rp1 rest1, rpc_run clock meta_stop dl c evs rp = Some (rp1, rest1)
    /\ rpc_run clock rpc_done dl c rest1 rp1 = Some (rpE, rest) /\ rp_meta rpE = rp_meta rp1.
Proof.
  clear env_var build_error tid select.
  assert (Hstop : forall evs rp, meta_early rp -> meta_stop rp = true ->
    rpc_run clock rpc_done dl c evs rp = Some (rpE, rest) -> rp_meta rpE = rp_meta rp).
  { intros evs' rp' He Hst Hrun. unfold meta_stop in Hst. destruct (rp_meta rp') as [m|] eqn:Em; [|done].
    by eapply rpc_run_meta_kept. }
  revert rp. induction evs as [|ev evs IH]; intros rp He Hrun.
  all: destruct (meta_stop rp) eqn:Est; [exists rp; eexists; cbn [rpc_run]; rewrite Est; split_and!; eauto|].
  all: simpl in *; rewrite Est; destruct (rpc_done rp) eqn:Ed;
    [exfalso; unfold rpc_done in Ed; unfold meta_stop in Est; destruct (rp_pc rp) eqn:Epc; try done;
     destruct (rp_meta rp) eqn:Em; [done|]; apply He in Em; rewrite Epc in Em; naive_solver|].
  - done.
  - destruct (rpc_event clock dl c ev (rpc_poll clock dl rp)) as [rp1|] eqn:Hev; [|done].
    destruct (rpc_event_meta _ _ _ _ _ He Hev) as [He1 _]. by apply IH.
Qed.

(** Whether the headers were taken already. *)
Definition meta_read (mr : bool) (s : CallSt) : Prop :=
  exists st, cl_stream_state (cs_call s) = Some st /\ as_initial_metadata st = None /\ as_meta_rx st = negb mr.

(** Waiting for the headers. *)
Lemma reader_await_meta dl rpE k s :
  reader dl rpE k s ->
  exists m w', await clock meta_poll tt s = (Return (Some m), MkCS (cs_call s) w') /\ rp_meta rpE = Some m
    /\ reader dl rpE k (MkCS (cs_call s) w').
Proof.
  intros [Hrt Hdl Hdone HwE (st & Hst & Htr & Hstate)].
  pose proof (await_frame meta_poll tt s ltac:(intros l w; unfold meta_poll; by repeat case_match)) as [_ Hf].
  unfold await in *. destruct (as_cached_trailers st) as [t|] eqn:Hc.
  - destruct Hstate as (Hk0 & Hk & (m & Em & Hmeta) & status & n & Hl & Ht). exists m, (set_script (cs_w s) (w_script (cs_w s))). split; [|split; [done|]].
    + unfold block_on, block_on_turns, block_on_turn. destruct (w_script (cs_w s)); by rewrite Hmeta.
    + split; try done. exists st. rewrite Hc. split_and!; try done; [|by eauto].
      exists m. split; [done|]. by eapply (meta_poll_wire (cs_w s)).
  - destruct Hstate as (rcv & r & rp & rest & Hs & Hw & Hpre & Hne & Hlen & Hrun). pose proof (sim_early _ _ _ _ _ Hs) as He.
    destruct (rpc_run_meta _ _ _ _ _ _ He Hrun) as (rp1 & rest1 & Hrun1 & Hrun2 & Hmeta).
    destruct (block_on_sim (E := PhpException) clock meta_poll dl meta_stop _ _ tt rcv (cs_w s) r rp rp1 rest1
      (meta_poll_refines _ rcv) (meta_stop_stable clock _ rcv) Hs Hw)
      as (a & w' & rcv' & r' & rp' & mid & Hb & Hs' & Hw' & Hst' & [-> ->] & Htk & Hsc & Hwk); [|done|].
    { split; [done|]. intros Hm%He. pose proof (sim_items _ _ _ _ _ Hs) as Hi. destruct Hw as (bs & tail & Hi' & Htl).
      destruct Hm as [Hm|[Hm|Hm]]; rewrite Hm in Htl; destruct Htl as [-> ->]; rewrite Hi' in *; by destruct rcv. }
    rewrite Hsc, (rpc_walk_run _ _ _ _ _ _ _ Hwk) in Hrun2. unfold meta_stop in Hst'.
    destruct (rp_meta rp') as [m|] eqn:Em; [|done]. exists m, w'. rewrite Hb in *. simpl in Hf.
    split; [done|]. split; [by eapply rpc_run_meta_kept; [exact (sim_early _ _ _ _ _ Hs')|..]|].
    split; simpl; try done; [unfold runtime_ready; by rewrite Hf|].
    exists st. rewrite Hc. split_and!; [done|done|]. exists rcv, r', rp', rest. by rewrite Htk.
Qed.

Lemma reader_put dl rpE k s st st' :
  reader dl rpE k s -> cl_stream_state (cs_call s) = Some st ->
  as_cached_trailers st' = as_cached_trailers st -> as_trailers_rx st' = as_trailers_rx st ->
  reader dl rpE k (MkCS (cl_set_stream (cs_call s) (Some st')) (cs_w s)).
Proof.
  intros [Hrt Hdl Hdone HwE (st0 & Hst & Htr & Hstate)] Hst0 Hc Ht. rewrite Hst in Hst0. simplify_eq.
  split; try done. exists st'. split; [done|]. by rewrite Hc, Ht.
Qed.

(** RECV_INITIAL_METADATA answers the metadata the call has when it ends the
    first time and the empty array from then on, and the reader goes on. *)
Lemma reader_metadata o0 dl rpE k mr s :
  "metadata" ∉ (obj_props o0).*1 -> reader dl rpE k s -> meta_read mr s ->
  exists ht o s', recv_metadata clock o0 s = (Return o, s')
    /\ obj_props o = obj_props o0 ++ [("metadata", zv_of_ht ht)]
    /\ (if mr then ht = ht_new else exists m, rp_meta rpE = Some m /\ metadata_to_php m = Ok ht)
    /\ reader dl rpE k s' /\ meta_read true s'.
Proof.
  intros Hnew Hr (st & Hst & Him & Hrx). unfold recv_metadata.
  rewrite (M_bind_return _ _ _ _ _ (get_stream_some s st Hst)), Him, bool_decide_true, Hrx by done. destruct mr; simpl.
  - destruct (set_prop_fresh o0 "metadata" (zv_of_ht ht_new) "metadata" Hnew) as (o & Ho & Hp).
    exists ht_new, o, (MkCS (cl_set_stream (cs_call s) (Some (MkStream (as_msg_tx st) None (as_meta_rx st)
      (as_cached_trailers st) (as_trailers_rx st)))) (cs_w s)). split_and!; [|done|done|by eapply reader_put|by eexists].
    unfold get_stream, put_stream, on_call. mred. rewrite Hst. mred. rewrite Him. mred. by rewrite Ho.
  - set (s1 := MkCS (cl_set_stream (cs_call s) (Some (MkStream (as_msg_tx st) None false
      (as_cached_trailers st) (as_trailers_rx st)))) (cs_w s)).
    assert (Hr1 : reader dl rpE k s1) by (by eapply reader_put).
    destruct (reader_await_meta _ _ _ _ Hr1) as (m & w' & Ha & Hm & Hr2).
    destruct (metadata_to_php_total m) as (ht & Hht & _).
    destruct (set_prop_fresh o0 "metadata" (zv_of_ht ht) "metadata" Hnew) as (o & Ho & Hp).
    exists ht, o, (MkCS (cs_call s1) w'). split_and!; [|done|by exists m|done|by eexists].
    unfold get_stream, put_stream, on_call. mred. fold s1. rewrite Ha. mred. rewrite Hht. mred. by rewrite Ho.
Qed.

Definition recv_all_batch : BatchOps := MkBatch [] false None false true true true false true.

(** Everything at once, on a stream just started. *)
Lemma reader_all dl rpE s tx t :
  reader dl rpE 0 s -> cl_stream_state (cs_call s) = Some (MkStream tx None true None true) ->
  rp_trailers rpE = Some t ->
  exists o s' m ht so ht', build_result recv_all_batch s = (Return o, s')
    /\ obj_props o = [("metadata", zv_of_ht ht); ("message", item_zval (rp_items rpE !! 0%nat));
                      ("status", zv_of_obj so)]
    /\ rp_meta rpE = Some m /\ metadata_to_php m = Ok ht /\ metadata_to_php (tr_metadata t) = Ok ht'
    /\ obj_props so = [("metadata", zv_of_ht ht'); ("code", zv_of_long (tr_code t));
                       ("details", zv_of_string (tr_message t))].
Proof.
  intros Hr Hst Ht. destruct (call_get_runtime_ready s (rd_rt _ _ _ _ Hr)) as [rt Hrt].
  destruct (reader_metadata obj_new dl rpE 0 false s) as (ht & o1 & s1 & H1 & Hp1 & (m & Hm & Hht) & Hr1 & _); [|done|by eexists|].
  { rewrite obj_props_new. by intros ?%not_elem_of_nil. }
  rewrite obj_props_new in Hp1. simpl in Hp1.
  destruct (reader_recv o1 dl rpE 0 s1) as (o2 & s2 & H2 & Hp2 & Hr2); [|done|].
  { rewrite Hp1. simpl. by intros ?%list_elem_of_singleton. }
  rewrite Hp1 in Hp2. simpl in Hp2.
  destruct (reader_status _ _ _ _ Hr2) as (t' & s3 & Hf & Heq). rewrite Ht in Heq. subst t'.
  destruct (recv_status_shows o2 s2 t s3) as (o3 & ht' & so & H3 & Hp3 & Hht' & Hso); [|done|].
  { rewrite Hp2. simpl. intros [?|?%list_elem_of_singleton]%elem_of_cons; done. }
  exists o3, s3, m, ht, so, ht'. rewrite Hp3, Hp2. split_and!; try done. unfold build_stream_result.
  rewrite (M_bind_return _ _ _ _ _ Hrt), (M_bind_return _ _ _ _ _ (get_stream_some s _ Hst)). simpl.
  by rewrite (M_bind_return _ _ _ _ _ H1), (M_bind_return _ _ _ _ _ H2).
Qed.

(** * Properties *)

(** C1: a reader that starts a server-streaming (or eagerly dispatched unary) call
    and makes any number n of RECV_MESSAGE batches receives exactly the
    messages the network delivered before the call ended, byte for byte and in
    order, and null from then on; every batch answers, however many messages
    the task takes in a row while a batch waits (until the buffer is full, and
    the task waits for room), whatever the size of the stream compared to the
    buffer and whatever the way the call ends. *)
Theorem stream_delivers_messages md pm msg s0 s st rpE rest n :
  start_stream md pm msg s0 = (Return tt, s) ->
  cl_stream_state (cs_call s) = Some st -> as_trailers_rx st = true ->
  rpc_run clock rpc_done (cl_deadline_usec (cs_call s0)) (token_is_cancelled (w_token (cs_w s)))
    (w_script (cs_w s)) (rpc_init 0 (w_ticks (cs_w s)) (w_instant (cs_w s))) = Some (rpE, rest) ->
  exists used os s', w_script (cs_w s) = used ++ rest
    /\ read_messages n s = (Return os, s')
    /\ obj_props <$> os = (fun v => [("message", v)])
         <$> take n ((zv_of_bytes <$> omap message_of used) ++ replicate n zv_null).
Proof.
  intros Hstart Hst Htr Hrun.
  pose proof (reader_start _ _ _ _ _ _ _ _ Hstart Hst Htr Hrun) as Hr.
  destruct (reader_reads _ _ n _ _ Hr) as (os & s' & Hos & _ & Hp).
  destruct (rpc_run_messages _ _ _ _ _ _ _ Hrun) as (used & Hu & Hm). simpl in Hm.
  exists used, os, s'. split_and!; [done|done|].
  rewrite Hp, <- Hm, <- (item_zvals rpE n (rd_wf _ _ _ _ Hr)).
  by rewrite <- list_fmap_compose.
Qed.

(** C5: asking for the status after any number n of reads, none included, never
    deadlocks: undelivered messages are drained and the status object shows
    the code, message and metadata the call really ended with, independently
    of n, of what is left in the buffer and of the order in which select! polls
    its branches. *)
Theorem stream_status_final md pm msg s0 s st rpE rest n t :
  start_stream md pm msg s0 = (Return tt, s) ->
  cl_stream_state (cs_call s) = Some st -> as_trailers_rx st = true ->
  rpc_run clock rpc_done (cl_deadline_usec (cs_call s0)) (token_is_cancelled (w_token (cs_w s)))
    (w_script (cs_w s)) (rpc_init 0 (w_ticks (cs_w s)) (w_instant (cs_w s))) = Some (rpE, rest) ->
  rp_trailers rpE = Some t ->
  exists os s1 o so ht s2, read_messages n s = (Return os, s1)
    /\ build_result recv_status_batch s1 = (Return o, s2)
    /\ obj_props o = [("status", zv_of_obj so)] /\ metadata_to_php (tr_metadata t) = Ok ht
    /\ obj_props so = [("metadata", zv_of_ht ht); ("code", zv_of_long (tr_code t));
                       ("details", zv_of_string (tr_message t))].
Proof.
  intros Hstart Hst Htr Hrun Ht.
  pose proof (reader_start _ _ _ _ _ _ _ _ Hstart Hst Htr Hrun) as Hr.
  destruct (reader_reads _ _ n _ _ Hr) as (os & s1 & Hos & Hr1 & _).
  destruct (reader_status _ _ _ _ Hr1) as (t' & s2 & Hf & Heq). rewrite Ht in Heq. subst t'.
  destruct Hr1 as [Hrt _ _ _ (st1 & Hst1 & _)].
  destruct (build_result_status s1 st1 t s2 Hrt Hst1 Hf) as (o & v & ht & so & Hb & Ho & -> & Hht & Hso).
  exists os, s1, o, so, ht, s2. done.
Qed.

(** C38: when the connection cannot be established the task sends the error as an
    item but no trailers, so a program that asks for the status without reading
    first is told UNKNOWN with the details [stream task terminated
    unexpectedly] instead of the status of the connection error. *)
Theorem connection_failure_status_lost md pm msg s0 s st rpE rest :
  start_stream md pm msg s0 = (Return tt, s) ->
  cl_stream_state (cs_call s) = Some st -> as_trailers_rx st = true ->
  rpc_run clock rpc_done (cl_deadline_usec (cs_call s0)) (token_is_cancelled (w_token (cs_w s)))
    (w_script (cs_w s)) (rpc_init 0 (w_ticks (cs_w s)) (w_instant (cs_w s))) = Some (rpE, rest) ->
  rp_trailers rpE = None ->
  exists status o so ht s1, last (rp_items rpE) = Some (Err status)
    /\ build_result recv_status_batch s = (Return o, s1)
    /\ obj_props o = [("status", zv_of_obj so)]
    /\ obj_props so = [("metadata", zv_of_ht ht); ("code", zv_of_long Code_Unknown);
                       ("details", zv_of_string "stream task terminated unexpectedly")].
Proof.
  intros Hstart Hst Htr Hrun Ht.
  pose proof (reader_start _ _ _ _ _ _ _ _ Hstart Hst Htr Hrun) as Hr.
  destruct (reader_status _ _ _ _ Hr) as (t & s2 & Hf & Heq). rewrite Ht in Heq.
  destruct Heq as (status & Hl & Hk). rewrite decide_False in Hk.
  2: { rewrite Nat.le_0_r. intros Hn%length_zero_iff_nil. by rewrite Hn in Hl. }
  subst t.
  destruct Hr as [Hrt _ _ _ (st1 & Hst1 & _)].
  destruct (build_result_status s st1 _ s2 Hrt Hst1 Hf) as (o & v & ht & so & Hb & Ho & -> & Hht & Hso).
  exists status, o, so, ht, s2. done.
Qed.

(** C19: a stream started after its deadline has passed sends nothing: no task is
    spawned, no request reaches tonic, reads answer null and the status is
    DEADLINE_EXCEEDED, without ever waiting. *)
Theorem expired_call_sends_nothing md pm msg s0 s :
  w_wire (cs_w s0) = None ->
  deadline_already_expired (now clock (cs_w s0)) (cl_deadline_usec (cs_call s0)) = true ->
  start_stream md pm msg s0 = (Return tt, s) ->
  w_wire (cs_w s) = None /\ w_log (cs_w s) = w_log (cs_w s0)
  /\ (exists o, build_result recv_message_batch s = (Return o, s) /\ obj_props o = [("message", zv_null)])
  /\ exists o so ht s1, build_result recv_status_batch s = (Return o, s1)
     /\ obj_props o = [("status", zv_of_obj so)]
     /\ obj_props so = [("metadata", zv_of_ht ht); ("code", zv_of_long 4);
                        ("details", zv_of_string "Deadline Exceeded")].
Proof.
  intros Hw0 Hexp. unfold start_server_stream, call_get_runtime, call_pump, in_chan, read_clock, on_call, on_world. mred.
  destruct (channel_get_runtime _ _ _ _) as [[rt|e|] c1]; [|done..]. simpl.
  destruct (channel_pump _ _ _ _) as [[[]|e|] c2] eqn:Hp; [|done..]. simpl.
  change (now clock (set_chan (set_chan (cs_w s0) c1) c2)) with (now clock (cs_w s0)). rewrite Hexp.
  intros [= <-]. set (s := MkCS _ _).
  assert (Hrt : runtime_ready (cs_w s)) by (unfold runtime_ready, rt_of; simpl; by eapply channel_pump_rt).
  split; [done|]. split; [done|]. split.
  - destruct (set_prop_new "message" zv_null "message") as (o & Ho & Hpr). exists o. split; [|done].
    rewrite (build_result_message s _ Hrt eq_refl). unfold recv_message.
    rewrite (M_bind_return _ _ _ _ _ (get_stream_some s _ eq_refl)). simpl. mred. by rewrite Ho.
  - destruct (build_result_status s expired_stream_state (MkTrailers 4 "Deadline Exceeded" md_default)
      (MkCS (cl_set_stream (cs_call s) (Some (MkStream false None false None false))) (cs_w s)) Hrt eq_refl)
      as (o & v & ht & so & Hb & Ho & -> & Hht & Hso); [done|].
    eexists o, so, ht, _. done.
Qed.

End delivery.

(** * Witnesses *)
Definition wit_call (deadline : Z) (plugin : option (option Zv)) : GrpcCall (Zd := ZendModel) (Ep := EndpointModel) :=
  MkCall (Zd := ZendModel) (Ep := EndpointModel) ["http://a:1"] "/s/m" "a:1" deadline None plugin None None
    [] None false false false 0%nat (Some 0%nat) None.

Definition wit_world (script : list (Event (Tn := TonicModel)))
    : World (Tls := TlsModel) (Ep := EndpointModel) (Tk := TokioModel) :=
  MkWorld (Ep := EndpointModel) (Tk := TokioModel)
    (MkChanState (Ep := EndpointModel) ∅ [MkShared (Ep := EndpointModel) ["http://a:1"] 0] [false] [] rt_init [] [])
    0%nat 0 false None script [] 0%nat 0%nat (fun _ => false).

Definition wit_state (deadline : Z) (script : list (Event (Tn := TonicModel)))
    : CallSt (Zd := ZendModel) (Ep := EndpointModel) (Tk := TokioModel) :=
  MkCS (wit_call deadline None) (wit_world script).

Definition wit_clock : nat -> clock_reading := fun n => Ok (Z.of_nat n).

(** Two messages, then the trailers. *)
Definition wit_script : list (Event (Tn := TonicModel)) :=
  [EvReady (Tn := TonicModel) (Ok tt); EvResponse (Tn := TonicModel) (Ok [KV_Ascii "k" "v"]);
   EvMessage (Tn := TonicModel) (Ok (Some [x01])); EvMessage (Tn := TonicModel) (Ok (Some [x02; x03]));
   EvMessage (Tn := TonicModel) (Ok None); EvTrailers (Tn := TonicModel) (Ok None)].
Definition wit_refused : list (Event (Tn := TonicModel)) := [EvReady (Tn := TonicModel) (Err "refused")].

Abbreviation wit_start :=
  (start_server_stream (Zd := ZendModel) (Tn := TonicModel) (Tls := TlsModel) (Ep := EndpointModel) (Tk := TokioModel)
     None (fun _ => None) 0%nat wit_clock).
Definition wit_started script := (wit_start [] [] None (wit_state i64_max script)).2.

(** More messages than the buffer holds, all there before the program reads:
    the task takes them until the buffer is full. *)
Definition wit_long : list (Event (Tn := TonicModel)) :=
  [EvReady (Tn := TonicModel) (Ok tt); EvResponse (Tn := TonicModel) (Ok [])]
  ++ replicate 40 (EvMessage (Tn := TonicModel) (Ok (Some [x01])))
  ++ [EvMessage (Tn := TonicModel) (Ok (Some [x02])); EvMessage (Tn := TonicModel) (Ok None);
      EvTrailers (Tn := TonicModel) (Ok None)].

Lemma stream_delivers_messages_witness :
  exists os s', read_messages (Zd := ZendModel) (Tk := TokioModel) None (fun _ => None) 0%nat wit_clock (fun _ => false) 42
                  (wit_started wit_long) = (Return os, s')
    /\ os = replicate 40 [("message", ZvStr [x01])] ++ [[("message", ZvStr [x02])]; [("message", ZvNull)]].
Proof.
  assert (H1 : wit_start [] [] None (wit_state i64_max wit_long) = (Return tt, wit_started wit_long))
    by (apply run_fst; vm_compute; reflexivity).
  set (run := rpc_run (Tn := TonicModel) wit_clock rpc_done i64_max false wit_long
    (rpc_init 0 (w_ticks (cs_w (wit_started wit_long))) (w_instant (cs_w (wit_started wit_long))))).
  assert (Hrest : snd <$> run = Some []) by (vm_compute; reflexivity).
  destruct run as [[rpE rest]|] eqn:Erun; [|discriminate Hrest]. injection Hrest as ->.
  destruct (stream_delivers_messages (Zd := ZendModel) (Tk := TokioModel) None (fun _ => None) 0%nat wit_clock (fun _ => false)
    [] [] None (wit_state i64_max wit_long) (wit_started wit_long) (MkStream false None true None true) rpE [] 42
    H1 ltac:(vm_compute; reflexivity) eq_refl Erun) as (used & os & s' & Hu & Hr & Hp).
  exists os, s'. split; [exact Hr|].
  change (wit_long = used ++ []) in Hu. rewrite app_nil_r in Hu. rewrite <- Hu in Hp.
  change (obj_props <$> os) with ((fun o : list (string * Zv) => o) <$> os) in Hp.
  rewrite list_fmap_id in Hp. rewrite Hp. vm_compute. reflexivity.
Defined.

Lemma stream_status_final_witness :
  exists os s1 o so ht s2,
    read_messages (Zd := ZendModel) (Tk := TokioModel) None (fun _ => None) 0%nat wit_clock (fun _ => true) 1
      (wit_started wit_script) = (Return os, s1)
    /\ build_stream_result (Zd := ZendModel) (Tk := TokioModel) None (fun _ => None) 0%nat wit_clock (fun _ => true)
         recv_status_batch s1 = (Return o, s2)
    /\ obj_props o = [("status", ZvObj so)]
    /\ metadata_to_php (Zd := ZendModel) (Tn := TonicModel) [] = Ok ht
    /\ obj_props so = [("metadata", zv_of_ht ht); ("code", ZvLong 0); ("details", zv_str "")].
Proof.
  exact (stream_status_final (Zd := ZendModel) (Tk := TokioModel) None (fun _ => None) 0%nat wit_clock (fun _ => true)
    [] [] None (wit_state i64_max wit_script) (wit_started wit_script) _ _ _ 1 (MkTrailers 0 "" [])
    eq_refl eq_refl eq_refl eq_refl eq_refl).
Defined.

Lemma connection_failure_status_lost_witness :
  exists status o so ht s1, last [Err (MkStatus 14 "refused" [] [])] = Some (Err (A := option bytes) status)
    /\ build_stream_result (Zd := ZendModel) (Tk := TokioModel) None (fun _ => None) 0%nat wit_clock (fun _ => true)
         recv_status_batch (wit_started wit_refused) = (Return o, s1)
    /\ obj_props o = [("status", ZvObj so)]
    /\ obj_props so = [("metadata", zv_of_ht ht); ("code", ZvLong 2);
                       ("details", zv_str "stream task terminated unexpectedly")].
Proof.
  exact (connection_failure_status_lost (Zd := ZendModel) (Tk := TokioModel) None (fun _ => None) 0%nat wit_clock (fun _ => true)
    [] [] None (wit_state i64_max wit_refused) (wit_started wit_refused) _ _ _
    eq_refl eq_refl eq_refl eq_refl eq_refl).
Defined.

Lemma expired_call_sends_nothing_witness :
  w_wire (cs_w (start_server_stream (Zd := ZendModel) (Tn := TonicModel) (Tls := TlsModel) (Ep := EndpointModel)
     (Tk := TokioModel) None (fun _ => None) 0%nat (fun _ => Ok 8) [] [] None (wit_state 7 wit_script)).2) = None.
Proof.
  apply (expired_call_sends_nothing (Zd := ZendModel) (Tk := TokioModel) None (fun _ => None) 0%nat
    (fun _ => Ok 8) (fun _ => true) [] [] None (wit_state 7 wit_script) _ eq_refl eq_refl eq_refl).
Defined.
