(* ===== verification/Expiry.v ===== *)
(** The deadline of a streaming call in src/src/call.rs: the [timeout_at] and
    [sleep_until] of the background task end the stream, so that a reader never
    waits longer than its deadline for a server that has gone silent. *)

From Stdlib Require Import ZArith Lia String Strings.Byte.
From stdpp Require Import base gmap list strings.
From S2P Require Import Prelude Utf8 Zend Tokio Tonic Error Runtime Timeval Credentials Channel Metadata Deadline Driver Stream Delivery.

#[local] Open Scope string_scope.
#[local] Open Scope list_scope.
#[local] Open Scope Z_scope.

Section expiry.
Context {Zd : ZendApi} {Tn : TonicApi} {Tls : TlsApi} {Ep : EndpointApi Tn Tls} {Tk : TokioApi}.
Context `{!ZendLaws Zd} `{!TokioLaws Tk}.
Context (env_var : option string) (build_error : nat -> option string) (tid : nat).
Context (clock : nat -> clock_reading) (select : nat -> bool).

Section reference.
Context (dl : Z) (cancelled : bool).

(** The reference call after the given events. *)
Fixpoint rpc_feed (evs : list Event) (rp : Rpc) : option Rpc :=
  match evs with
  | [] => Some (rpc_poll clock dl rp)
  | ev :: evs =>
      match rpc_event clock dl cancelled ev (rpc_poll clock dl rp) with
      | Some rp' => rpc_feed evs rp'
      | None => None
      end
  end.

(** The awaits the task races against the deadline. *)
Definition raced (rp : Rpc) : bool :=
  match rp_pc rp with RReady | RResponse | RBody => true | _ => false end.

Lemma rpc_poll_done rp : rpc_done (rpc_poll clock dl rp) = rpc_done rp.
Proof. unfold rpc_poll, rpc_done. by destruct (rp_pc rp) eqn:E; simpl; rewrite ?E. Qed.

(** A call that has ended stays ended. *)
Lemma rpc_feed_done evs rp rp' : rpc_feed evs rp = Some rp' -> rpc_done rp = true -> rpc_done rp' = true.
Proof.
  revert rp. induction evs as [|ev evs IH]; intros rp; simpl.
  - intros [= <-]. by rewrite rpc_poll_done.
  - destruct (rpc_event _ _ _ _ _) as [rp1|] eqn:E; [|done]. intros Hf Hd. eapply IH; [exact Hf|].
    rewrite <- (rpc_poll_done rp) in Hd. unfold rpc_done in Hd. unfold rpc_event in E.
    destruct (rp_pc (rpc_poll clock dl rp)) eqn:Epc; try done.
    destruct ev as [[]|[]|[[]|]| | |t| | |]; try done; injection E as <-; unfold rpc_done; simpl; by rewrite ?Epc.
Qed.

(** As long as it has not ended, running it is feeding it. *)
Lemma rpc_feed_run evs rest rp rp' :
  rpc_feed evs rp = Some rp' -> rpc_done rp' = false ->
  rpc_run clock rpc_done dl cancelled (evs ++ rest) rp = rpc_run clock rpc_done dl cancelled rest rp'.
Proof.
  assert (Hpoll : forall rp, rpc_run clock rpc_done dl cancelled rest (rpc_poll clock dl rp)
                             = rpc_run clock rpc_done dl cancelled rest rp \/ rpc_done rp = false /\ rest = []).
  { intros rp0. destruct rest as [|ev rest']; simpl; rewrite rpc_poll_done; destruct (rpc_done rp0) eqn:E; auto; left.
    - f_equal. unfold rpc_poll. unfold rpc_done in E. by destruct (rp_pc rp0).
    - f_equal. unfold rpc_poll. unfold rpc_done in E. by destruct (rp_pc rp0).
    - assert (Hi : rpc_poll clock dl (rpc_poll clock dl rp0) = rpc_poll clock dl rp0).
      { unfold rpc_poll. by destruct (rp_pc rp0) eqn:E0; simpl; rewrite ?E0. }
      by rewrite Hi. }
  revert rp. induction evs as [|ev evs IH]; intros rp; simpl.
  - intros [= <-] Hd. destruct (Hpoll rp) as [->|[Hn ->]]; [done|]. simpl. by rewrite rpc_poll_done, Hn.
  - destruct (rpc_event _ _ _ _ _) as [rp1|] eqn:E; [|done]. intros Hf Hd.
    assert (rpc_done rp = false) as ->.
    { destruct (rpc_done rp) eqn:Ed; [|done].
      assert (H : rpc_feed (ev :: evs) rp = Some rp') by (simpl; by rewrite E).
      by rewrite (rpc_feed_done _ _ _ H Ed) in Hd. }
    by apply IH.
Qed.

(** The deadline is computed once, at the first poll. *)
Lemma rpc_feed_deadline evs rp rp' :
  rpc_feed evs rp = Some rp' ->
  rp_pc rp' <> RStart
  /\ rp_deadline rp' = match rp_pc rp with
                       | RStart => deadline_instant (clock (rp_ticks rp)) (rp_instant rp) dl
                       | _ => rp_deadline rp
                       end.
Proof.
  assert (Hpoll : forall rp, rp_pc (rpc_poll clock dl rp) <> RStart /\ rp_deadline (rpc_poll clock dl rp)
    = match rp_pc rp with RStart => deadline_instant (clock (rp_ticks rp)) (rp_instant rp) dl | _ => rp_deadline rp end).
  { intros rp0. unfold rpc_poll. by destruct (rp_pc rp0) eqn:E; simpl; rewrite ?E. }
  revert rp. induction evs as [|ev evs IH]; intros rp; simpl; [by intros [= <-]|].
  destruct (rpc_event _ _ _ _ _) as [rp1|] eqn:E; [|done]. intros Hf. destruct (IH _ Hf) as [H1 H2]. split; [done|].
  destruct (Hpoll rp) as [Hpc <-]. rewrite H2. unfold rpc_event in E.
  destruct (rp_pc (rpc_poll clock dl rp)) eqn:Epc; try done;
    destruct ev as [[]|[]|[[]|]| | |t| | |]; try done;
    repeat case_match; simplify_eq/=; try done; congruence.
Qed.

(** The tick that reaches the deadline ends the call. *)
Lemma rpc_feed_expires evs t rest rp rp' :
  rpc_feed evs rp = Some rp' -> raced rp' = true -> rp_deadline rp' <= t ->
  exists rpE, rpc_run clock rpc_done dl cancelled (evs ++ EvTick t :: rest) rp = Some (rpE, rest)
    /\ rp_trailers rpE = Some deadline_exceeded_trailers
    /\ rp_items rpE = rp_items rp' ++ [Ok None].
Proof.
  intros Hf Hr Ht. assert (Hd : rpc_done rp' = false) by (unfold rpc_done, raced in *; by destruct (rp_pc rp')).
  rewrite (rpc_feed_run _ _ _ _ Hf Hd). simpl. rewrite Hd.
  assert (rpc_poll clock dl rp' = rp') as -> by (unfold rpc_poll, raced in *; by destruct (rp_pc rp')).
  eexists. unfold rpc_event. unfold raced in Hr.
  destruct (rp_pc rp') eqn:Epc; try done; simpl; rewrite (proj2 (Z.leb_le _ _)) by lia; simpl; by destruct rest.
Qed.

Lemma rpc_feed_messages evs rp rp' :
  rpc_feed evs rp = Some rp' ->
  omap item_message (rp_items rp') = omap item_message (rp_items rp) ++ omap message_of evs.
Proof.
  assert (Hpoll : forall rp, rp_items (rpc_poll clock dl rp) = rp_items rp).
  { intros rp0. unfold rpc_poll. by destruct (rp_pc rp0). }
  revert rp. induction evs as [|ev evs IH]; intros rp; simpl.
  - intros [= <-]. by rewrite Hpoll, app_nil_r.
  - destruct (rpc_event _ _ _ _ _) as [rp1|] eqn:E; [|done]. intros Hf. rewrite (IH _ Hf).
    rewrite (rpc_event_messages _ _ _ _ _ _ E), Hpoll, <- app_assoc. csimpl. by destruct (message_of ev).
Qed.

End reference.

(** * Property *)

(** C10: every stream with a deadline ends: whatever the server did before,
    when the timer reaches the deadline while the task is connecting, waiting
    for the headers or waiting for a message, then any number of reads all
    answer, with the messages delivered so far and null from then on, and the
    status is DEADLINE_EXCEEDED, though the server sends nothing more. *)
Theorem deadline_ends_stream s0 s st pre rp t rest n :
  opens env_var build_error tid clock s0 s -> cl_stream_state (cs_call s) = Some st -> as_trailers_rx st = true ->
  let dl := cl_deadline_usec (cs_call s0) in
  w_script (cs_w s) = pre ++ EvTick t :: rest ->
  rpc_feed dl (token_is_cancelled (w_token (cs_w s))) pre (rpc_init 0 (w_ticks (cs_w s)) (w_instant (cs_w s))) = Some rp ->
  raced rp = true ->
  deadline_instant (clock (w_ticks (cs_w s))) (w_instant (cs_w s)) dl <= t ->
  exists os s1 o so ht s2,
    read_messages env_var build_error tid clock select n s = (Return os, s1)
    /\ obj_props <$> os = (fun v => [("message", v)])
         <$> take n ((zv_of_bytes <$> omap message_of pre) ++ replicate n zv_null)
    /\ build_stream_result env_var build_error tid clock select recv_status_batch s1 = (Return o, s2)
    /\ obj_props o = [("status", zv_of_obj so)]
    /\ obj_props so = [("metadata", zv_of_ht ht); ("code", zv_of_long 4);
                       ("details", zv_of_string "Deadline Exceeded")].
Proof.
  intros Hop Hst Htr dl Hsc Hf Hraced Ht.
  destruct (rpc_feed_deadline _ _ _ _ _ Hf) as [_ Hd]. simpl in Hd.
  destruct (rpc_feed_expires _ _ pre t rest _ rp Hf Hraced ltac:(by rewrite Hd)) as (rpE & Hrun & HtE & Hi).
  rewrite <- Hsc in Hrun. pose proof (opens_reader _ _ _ _ _ _ _ _ _ Hop Hst Htr Hrun) as Hr.
  destruct (reader_reads _ _ _ _ select _ _ n _ _ Hr) as (os & s1 & Hos & Hr1 & Hp).
  destruct (reader_status _ _ _ _ select _ _ _ _ Hr1) as (t' & s2 & Hfin & Heq). rewrite HtE in Heq. subst t'.
  destruct Hr1 as [Hrt _ _ _ (st1 & Hst1 & _)].
  destruct (build_result_status _ _ _ _ select s1 st1 _ s2 Hrt Hst1 Hfin) as (o & v & ht & so & Hb & Ho & -> & _ & Hso).
  exists os, s1, o, so, ht, s2. split_and!; try done. rewrite Hp.
  assert (Hm : omap item_message (rp_items rpE) = omap message_of pre).
  { rewrite Hi, omap_app, (rpc_feed_messages _ _ _ _ _ Hf). simpl. by rewrite app_nil_r. }
  rewrite <- Hm, <- (item_zvals rpE n (rd_wf _ _ _ _ _ _ _ _ Hr)).
  by rewrite <- list_fmap_compose.
Qed.

End expiry.

(** * Witness

    The server answers one message and goes silent. *)
Definition wit_silent : list (Event (Tn := TonicModel)) :=
  [EvReady (Tn := TonicModel) (Ok tt); EvResponse (Tn := TonicModel) (Ok []);
   EvMessage (Tn := TonicModel) (Ok (Some [x01])); EvTick (Tn := TonicModel) 5].
Definition wit_silent_start :=
  (wit_start [] [] None (wit_state 50 (wit_silent ++ [EvTick (Tn := TonicModel) 60]))).2.

Lemma deadline_ends_stream_witness :
  exists os s1 o so ht s2,
    read_messages (Zd := ZendModel) (Tk := TokioModel) None (fun _ => None) 0%nat wit_clock (fun _ => true) 2 wit_silent_start
      = (Return os, s1)
    /\ obj_props <$> os = [[("message", ZvStr [x01])]; [("message", ZvNull)]]
    /\ build_stream_result (Zd := ZendModel) (Tk := TokioModel) None (fun _ => None) 0%nat wit_clock (fun _ => true)
         recv_status_batch s1 = (Return o, s2)
    /\ obj_props o = [("status", ZvObj so)]
    /\ obj_props so = [("metadata", zv_of_ht ht); ("code", ZvLong 4); ("details", zv_str "Deadline Exceeded")].
Proof.
  apply (deadline_ends_stream (Zd := ZendModel) (Tk := TokioModel) None (fun _ => None) 0%nat wit_clock (fun _ => true)
    (wit_state 50 (wit_silent ++ [EvTick (Tn := TonicModel) 60])) wit_silent_start (MkStream false None true None true)
    wit_silent (MkRpc (Tn := TonicModel) RBody 48 [Ok (Some [x01])] (Some []) None 3 5) 60 [] 2);
    try reflexivity; [|vm_compute; discriminate].
  apply (opens_server (Zd := ZendModel) (Tk := TokioModel) None (fun _ => None) 0%nat wit_clock _ [] [] None). reflexivity.
Defined.
