(* ===== verification/Bidi.v ===== *)
(** The request direction of a bidi or client-streaming call of
    src/src/call.rs: the messages PHP sends go through a channel of four places
    to tonic.  Whatever the methods called and however the background task is
    interleaved with them, they reach the wire in order. *)

From Stdlib Require Import ZArith Lia String Strings.Byte.
From stdpp Require Import base gmap list strings.
From S2P Require Import Prelude Utf8 Zend Tokio Tonic Error Runtime Timeval Credentials Channel Metadata Deadline Driver Stream Delivery.

#[local] Open Scope string_scope.
#[local] Open Scope list_scope.
#[local] Open Scope Z_scope.

Section bidi.
Context {Zd : ZendApi} {Tn : TonicApi} {Tls : TlsApi} {Ep : EndpointApi Tn Tls} {Tk : TokioApi}.
Context `{!TokioLaws Tk}.
Context (env_var : option string) (build_error : nat -> option string) (tid : nat).
Context (clock : nat -> clock_reading) (select : nat -> bool).

Abbreviation KM := (M CallSt PhpException).

(** [acc]: the messages accepted from PHP so far. *)
Record req_ok (acc : list bytes) (r : Wire) : Prop := {
  rq_prefix : wr_pulled r `prefix_of` acc;
  rq_queue : forall c, wr_req r = Some c ->
    acc = wr_pulled r ++ mv_queue (mpsc_view c) /\ mv_rx (mpsc_view c) = true
    /\ mv_cap (mpsc_view c) = REQ_BUFFER /\ (length (mv_queue (mpsc_view c)) <= REQ_BUFFER)%nat;
  rq_ended : wr_req_ended r = true ->
    wr_pulled r = acc /\ forall c, wr_req r = Some c -> mv_tx (mpsc_view c) = false;
}.

(** The sender PHP holds is the one of the channel. *)
Definition req_inv (acc : list bytes) (tx : bool) (w : World) : Prop :=
  forall r, w_wire w = Some r ->
    req_ok acc r /\ forall c, wr_req r = Some c -> mv_tx (mpsc_view c) = tx.

(** A step of the task: the request stream stays as it is or is dropped. *)
Record req_le (r r' : Wire) : Prop := {
  le_pulled : wr_pulled r' = wr_pulled r;
  le_ended : wr_req_ended r' = wr_req_ended r;
  le_req : wr_req r' = wr_req r \/ wr_req r' = None;
}.

#[local] Instance req_le_preorder : PreOrder req_le.
Proof.
  split; [split; auto|]. intros r1 r2 r3 [? ? [H1|H1]] [? ? [H2|H2]]; split; try congruence; rewrite ?H2; auto.
Qed.

Lemma req_le_ok acc r r' : req_le r r' -> req_ok acc r -> req_ok acc r'.
Proof.
  intros [Hp He Hr] [H1 H2 H3]. split; rewrite ?Hp, ?He; [done| |].
  - intros c Hc. destruct Hr as [Hr|Hr]; [|congruence]. apply H2. congruence.
  - intros Hn. destruct (H3 Hn) as [? Hc]. split; [done|]. intros c Hc'.
    destruct Hr as [Hr|Hr]; [|congruence]. apply Hc. congruence.
Qed.

Lemma req_inv_le acc tx w w' r r' :
  w_wire w = Some r -> w_wire w' = Some r' -> req_le r r' -> req_inv acc tx w -> req_inv acc tx w'.
Proof.
  intros Hw Hw' Hle Hi r0 Hr0. simplify_eq. destruct (Hi _ Hw) as [Hok Htx].
  split; [by eapply req_le_ok|]. intros c Hc. apply Htx.
  destruct (le_req _ _ Hle) as [H|H]; congruence.
Qed.

Lemma task_cont_le k b r : req_le r (task_cont k b r).
Proof.
  destruct k, b; simpl; unfold task_return; simpl; try destruct (wr_handed r); split; simpl; auto.
Qed.

Lemma task_send_le it k r : req_le r (task_send it k r).
Proof.
  unfold task_send. destruct (mpsc_send (wr_msgs r) it); try apply task_cont_le; [|by split; auto].
  etrans; [|apply task_cont_le]. by split; auto.
Qed.

Lemma send_meta_le md r : req_le r (send_meta md r).
Proof. by split; auto. Qed.

Lemma task_poll_req acc tx w : req_inv acc tx w -> req_inv acc tx (task_poll clock w).
Proof.
  intros Hi. unfold task_poll. destruct (w_wire w) as [r|] eqn:Hw; [|done].
  destruct (wr_pc r); try done; (eapply req_inv_le; [exact Hw|reflexivity| |exact Hi]).
  - by split; auto.
  - apply task_send_le.
Qed.

(** tonic pulls the oldest message. *)
Lemma on_pull_req acc tx w r : w_wire w = Some r -> req_inv acc tx w -> req_inv acc tx (on_pull w r).
Proof.
  intros Hw Hi. unfold on_pull. destruct (wr_handed r); [|done].
  destruct (wr_req r) as [c|] eqn:Hc; [|done].
  destruct (Hi _ Hw) as [[H1 H2 H3] Htx]. destruct (H2 c Hc) as (Hq & Hrx & Hcap & Hlen).
  pose proof (mpsc_recv_law _ c) as Hr. destruct (mpsc_recv c) as [b c'| |]; simpl in Hr; [|done|].
  - destruct Hr as (q & Hqc & Hv). intros r0 [= <-]. split.
    + split; simpl.
      * rewrite Hq, Hqc. exists q. by rewrite <- app_assoc.
      * intros c0 [= <-]. rewrite Hv. simpl. rewrite Hq, Hqc, <- app_assoc.
        rewrite Hqc in Hlen. simpl in *. split_and!; try done; lia.
      * intros He. destruct (H3 He) as [Hp _]. rewrite Hp, Hqc in Hq.
        apply (f_equal length) in Hq. rewrite length_app in Hq. simpl in Hq. lia.
    + intros c0 [= <-]. rewrite Hv. simpl. by apply Htx.
  - destruct Hr as [Hqc Ht]. intros r0 [= <-]. split.
    + split; simpl; [done|intros c0 [= <-]; done|]. intros _. rewrite Hq, Hqc, app_nil_r.
      split; [done|]. by intros c0 [= <-].
    + intros c0 [= <-]. by apply Htx.
Qed.

Lemma driver_event_req acc tx ev w w' :
  driver_event clock ev w = Some w' -> req_inv acc tx w -> req_inv acc tx w'.
Proof.
  unfold driver_event. destruct (w_wire w) as [r|] eqn:Hw.
  2: { destruct ev; intros; simplify_eq. intros r Hr. simpl in Hr. congruence. }
  intros Hev Hi.
  assert (Hle : forall w0 r', w_wire w0 = Some r' -> req_le r r' -> req_inv acc tx w0).
  { intros w0 r' H0 Hl. by eapply (req_inv_le acc tx w). }
  assert (Hsame : forall w0, w_wire w0 = w_wire w -> req_inv acc tx w0).
  { intros w0 H0 r0 Hr0. apply Hi. congruence. }
  assert (Hms : forall it k md, req_le r (task_send it k (send_meta md r))).
  { intros. etrans; [apply (send_meta_le md)|apply task_send_le]. }
  destruct ev as [[]|[]|[[]|]| | | | | |]; destruct (wr_pc r) eqn:E; try done; simplify_eq; simpl;
    try (eapply Hle; [reflexivity|]; first [apply Hms | apply task_send_le | by split; auto]);
    try (by apply on_pull_req).
  all: try (unfold on_response; simpl; eapply Hle; [by destruct (wr_shared r)|first [apply Hms | by split; auto]]).
  all: try (unfold on_tick, on_elapsed; rewrite E; case_match; [|by apply Hsame];
            first [by apply Hsame | eapply Hle; [reflexivity|]; first [apply Hms|apply task_send_le]]).
  all: try (unfold on_req_drop; destruct (wr_handed r); [|done]; eapply Hle; [reflexivity|by split; auto]).
  all: try (unfold on_trailers, task_return; simpl; eapply Hle; [reflexivity|];
            destruct (wr_handed r); split; simpl; auto).
  destruct (token_is_cancelled (w_token w)); simplify_eq. eapply Hle; [reflexivity|apply task_send_le].
Qed.

(** [block_on] keeps what its parts keep. *)
Lemma block_on_post {E A L} (I : World -> Prop) (Q : A -> World -> Prop)
    (poll : L -> World -> option A * L * World) l w :
  (forall w, I w -> I (task_poll clock w)) ->
  (forall ev w w', driver_event clock ev w = Some w' -> I w -> I w') ->
  (forall w s, I w -> I (set_script w s)) -> (forall a w s, Q a w -> Q a (set_script w s)) ->
  (forall l w, I w -> match poll l w with (Some a, _, w') => Q a w' | (None, _, w') => I w' end) ->
  I w ->
  match block_on (E := E) clock poll l w with
  | (Return a, w') => Q a w'
  | (_, w') => I w'
  end.
Proof.
  intros Ht Hd Hs Hq Hp. unfold block_on. generalize true, (w_script w). intros woken script. revert woken l w.
  assert (Hturn : forall l w, I w -> match block_on_turn clock poll l w with (Some a, _, w') => Q a w' | (None, _, w') => I w' end).
  { intros l w Hi. unfold block_on_turn. specialize (Hp l w Hi) as H1. destruct (poll l w) as [[[a|] l1] w1]; [done|].
    by apply Hp, Ht. }
  induction script as [|ev script IH]; intros [] l w Hi; simpl; auto.
  1, 2: specialize (Hturn l w Hi); destruct (block_on_turn clock poll l w) as [[[a|] l1] w1]; auto.
  all: destruct (driver_event clock ev _) as [w2|] eqn:E2; [|by apply Hs]; apply IH; by eapply Hd.
Qed.

Lemma recv_item_req acc tx recv w : req_inv acc tx w -> req_inv acc tx (recv_item recv w).2.
Proof.
  intros Hi. unfold recv_item. destruct (w_wire w) as [r|] eqn:Hw; [|done].
  destruct (recv (wr_msgs r)); try done. simpl.
  eapply req_inv_le; [exact Hw|reflexivity|by split; auto|done].
Qed.

Lemma drain_loop_req acc tx fuel d w : req_inv acc tx w -> req_inv acc tx (drain_loop select fuel d w).2.
Proof.
  revert d w. induction fuel as [|fuel IH]; intros [] w Hi; try done. cbn [drain_loop].
  assert (Hi1 : req_inv acc tx (set_polls w (S (w_polls w)))) by exact Hi.
  pose proof (recv_item_req acc tx mpsc_recv _ Hi1) as Hr.
  destruct (recv_item mpsc_recv _) as [[[[[b|]|e]|]|] w']; simpl in *;
    destruct (select (w_polls w)); repeat (case_match; simpl); auto.
Qed.

Lemma await_req {A L} acc tx (poll : L -> World -> option A * L * World) l s :
  (forall l w, req_inv acc tx w -> req_inv acc tx (poll l w).2) ->
  req_inv acc tx (cs_w s) ->
  cs_call (await clock poll l s).2 = cs_call s /\ req_inv acc tx (cs_w (await clock poll l s).2).
Proof.
  intros Hp Hi. unfold await.
  pose proof (block_on_post (E := PhpException) (req_inv acc tx) (fun _ w => req_inv acc tx w) poll
    l (cs_w s) (task_poll_req acc tx) (driver_event_req acc tx) ltac:(done) ltac:(done)) as H.
  destruct (block_on _ _ _ _) as [[] w]; (split; [done|]); apply H; try done;
    intros l0 w0 H0; specialize (Hp l0 w0 H0); by destruct (poll l0 w0) as [[[] ?] ?].
Qed.

(** * The methods *)

(** The stream of the call, with the sender held or not. *)
Definition call_req (acc : list bytes) (tx : bool) (s : CallSt) : Prop :=
  (exists st, cl_stream_state (cs_call s) = Some st /\ as_msg_tx st = tx) /\ req_inv acc tx (cs_w s).

(** A method keeps [J], and its value satisfies [Q]. *)
Definition keeps {A} (J : CallSt -> Prop) (m : KM A) (Q : A -> Prop) : Prop :=
  forall s, J s -> J (m s).2 /\ match (m s).1 with Return a => Q a | _ => True end.

Lemma keeps_bind {A B} J (m : KM A) (f : A -> KM B) Q R :
  keeps J m Q -> (forall a, Q a -> keeps J (f a) R) -> keeps J (m ≫= f) R.
Proof.
  intros Hm Hf s Hs. unfold mbind, M_bind. specialize (Hm s Hs).
  destruct (m s) as [[a|e|] s1]; simpl in *; [|by destruct Hm..]. destruct Hm as [H1 H2]. by apply Hf.
Qed.

Lemma keeps_ret {A} J (a : A) (Q : A -> Prop) : Q a -> keeps J (mret a) Q.
Proof. by intros ? s Hs. Qed.

Lemma keeps_lift {A} J (r : result PhpException A) : keeps J (lift r) (fun _ => True).
Proof. intros s Hs. unfold lift. by destruct r. Qed.

Lemma keeps_get_stream acc tx : keeps (call_req acc tx) get_stream (fun st => as_msg_tx st = tx).
Proof. intros s Hs. destruct Hs as [(st & Hst & Htx) Hi]. rewrite (get_stream_some s st Hst). by split; [split; eauto|]. Qed.

Lemma keeps_put_stream acc tx st : as_msg_tx st = tx -> keeps (call_req acc tx) (put_stream st) (fun _ => True).
Proof. intros Hst s [_ Hi]. split; [|done]. split; [by exists st|done]. Qed.

Lemma keeps_runtime acc tx : keeps (call_req acc tx) (call_get_runtime env_var build_error tid) (fun _ => True).
Proof. intros s Hs. unfold call_get_runtime, in_chan. by destruct (channel_get_runtime _ _ _ _) as [[] ?]. Qed.

Lemma keeps_await {A L} acc tx (poll : L -> World -> option A * L * World) l :
  (forall l w, req_inv acc tx w -> req_inv acc tx (poll l w).2) ->
  keeps (call_req acc tx) (await clock poll l) (fun _ => True).
Proof.
  intros Hp s [Hst Hi]. destruct (await_req acc tx poll l s Hp Hi) as [Hc Hi']. split; [|by destruct (await _ _ _ _).1].
  split; [by rewrite Hc|done].
Qed.

Lemma keeps_recv_metadata acc tx o : keeps (call_req acc tx) (recv_metadata clock o) (fun _ => True).
Proof.
  unfold recv_metadata. eapply keeps_bind; [apply keeps_get_stream|]. intros st Hst.
  apply (keeps_bind _ _ _ (fun _ => True)).
  - destruct (bool_decide _ && _); [|by apply keeps_ret].
    eapply keeps_bind; [by apply keeps_put_stream|]. intros _ _.
    eapply keeps_bind; [apply keeps_await|intros md _; by apply keeps_put_stream].
    intros l w Hi. unfold meta_poll. by repeat case_match.
  - intros _ _. eapply keeps_bind; [apply keeps_get_stream|]. intros st' Hst'.
    eapply keeps_bind; [by apply keeps_put_stream|]. intros _ _.
    eapply keeps_bind; [apply keeps_lift|]. intros v _. apply keeps_lift.
Qed.

Lemma keeps_next_item acc tx : keeps (call_req acc tx) (next_item clock) (fun _ => True).
Proof.
  intros s [Hst Hi]. unfold next_item. pose proof (recv_item_req acc tx mpsc_try_recv _ Hi) as Hr.
  destruct (recv_item mpsc_try_recv (cs_w s)) as [[a|] w]; simpl in *; [by split|].
  apply (keeps_await acc tx recv_poll tt); [|by split].
  intros l w0 Hi0. unfold recv_poll. pose proof (recv_item_req acc tx mpsc_recv _ Hi0). by destruct (recv_item _ _).
Qed.

Lemma keeps_recv_message acc tx o : keeps (call_req acc tx) (recv_message clock o) (fun _ => True).
Proof.
  unfold recv_message. eapply keeps_bind; [apply keeps_get_stream|]. intros st Hst.
  destruct (as_cached_trailers st); [apply keeps_lift|].
  eapply keeps_bind; [apply keeps_next_item|]. intros [[[b|]|e]|] _; try apply keeps_lift.
  apply (keeps_bind _ _ _ (fun _ => True)); [by intros s Hs|]. intros s _.
  apply (keeps_bind _ _ _ (fun _ => True)); [by intros s0 Hs|]. intros t _.
  eapply keeps_bind; [by apply keeps_put_stream|]. intros _ _. apply keeps_lift.
Qed.

Lemma keeps_recv_status acc tx o : keeps (call_req acc tx) (recv_status clock select o) (fun _ => True).
Proof.
  unfold recv_status. apply (keeps_bind _ _ _ (fun _ => True)).
  - unfold final_trailers. eapply keeps_bind; [apply keeps_get_stream|]. intros st Hst.
    destruct (as_cached_trailers st).
    + eapply keeps_bind; [by apply keeps_put_stream|]. intros _ _. by apply keeps_ret.
    + destruct (as_trailers_rx st); [|by apply keeps_ret].
      eapply keeps_bind; [by apply keeps_put_stream|]. intros _ _.
      eapply keeps_bind; [apply keeps_await|intros t _; by apply keeps_ret].
      intros l w Hi. by apply drain_loop_req.
  - intros t _. eapply keeps_bind; [apply keeps_lift|]. intros v _. apply keeps_lift.
Qed.

Lemma keeps_build_result acc tx batch :
  keeps (call_req acc tx) (build_stream_result env_var build_error tid clock select batch) (fun _ => True).
Proof.
  unfold build_stream_result. eapply keeps_bind; [apply keeps_runtime|]. intros _ _.
  eapply keeps_bind; [apply keeps_get_stream|]. intros _ _.
  apply (keeps_bind _ _ _ (fun _ => True)).
  { destruct (b_recv_initial_metadata batch); [apply keeps_recv_metadata|by apply keeps_ret]. }
  intros o _. apply (keeps_bind _ _ _ (fun _ => True)).
  { destruct (b_recv_message batch); [apply keeps_recv_message|by apply keeps_ret]. }
  intros o' _. destruct (b_recv_status batch); [apply keeps_recv_status|by apply keeps_ret].
Qed.

(** One message: accepted at the end of the queue, or not at all. *)
Lemma send_poll_req acc tx m w :
  req_inv acc tx w -> (tx = true) ->
  match send_poll m tt w with
  | (Some (Ok _), _, w') => req_inv (acc ++ [m]) tx w'
  | (Some (Err _), _, w') => w' = w
  | (None, _, w') => w' = w
  end.
Proof.
  intros Hi Htx. unfold send_poll. destruct (w_wire w) as [r|] eqn:Hw; [|done].
  destruct (wr_req r) as [c|] eqn:Hc; [|done].
  pose proof (mpsc_send_law _ c m) as Hs. destruct (mpsc_send c m) as [c'| |]; simpl in Hs; [|done|done].
  destruct Hs as (Hrx & Hlen & Hv). destruct (Hi _ Hw) as [[H1 H2 H3] Ht].
  destruct (H2 c Hc) as (Hq & _ & Hcap & _). intros r0 [= <-]. split.
  - split; simpl.
    + by apply prefix_app_r.
    + intros c0 [= <-]. rewrite Hv. simpl. rewrite Hq, length_app, <- app_assoc. simpl.
      split_and!; try done; lia.
    + intros He. destruct (H3 He) as [_ Hcl]. specialize (Hcl c Hc). specialize (Ht c Hc). congruence.
  - intros c0 [= <-]. rewrite Hv. simpl. by apply Ht.
Qed.

Lemma send_message_req acc tx m s r s' :
  call_req acc tx s -> send_stream_message env_var build_error tid clock m s = (r, s') ->
  call_req (match r with Return _ => acc ++ [m] | _ => acc end) tx s'.
Proof.
  intros Hs. unfold send_stream_message. intros Hm.
  pose proof (keeps_runtime acc tx s Hs) as [Hs1 _]. unfold mbind, M_bind in Hm.
  destruct (call_get_runtime env_var build_error tid s) as [[rt|e|] s1]; simpl in *; simplify_eq; try done.
  destruct Hs1 as [(st & Hst & Htx) Hi]. rewrite Hst in Hm.
  destruct (as_msg_tx st) eqn:Etx; [|unfold throw in Hm; simplify_eq; split; [by exists st|done]].
  unfold await, mret, M_ret, throw in Hm.
  pose proof (block_on_post (E := PhpException) (req_inv acc true)
    (fun a w => req_inv (match a with Ok _ => acc ++ [m] | Err _ => acc end) true w) (send_poll m)
    tt (cs_w s1) (task_poll_req acc true) (driver_event_req acc true)
    ltac:(done) ltac:(done)) as Hb.
  simplify_eq.
  destruct (block_on _ _ _ _) as [[[[]|[]]|e|] w]; simplify_eq/=;
    (split; [by exists st|]); simpl; apply Hb; try done;
    intros [] w0 H0; pose proof (send_poll_req acc true m w0 H0 eq_refl) as Hp;
    destruct (send_poll m tt w0) as [[[[]|] ?] ?]; by subst.
Qed.

Lemma drop_sender_req acc tx w : req_inv acc tx w -> req_inv acc false (drop_sender w).
Proof.
  intros Hi. unfold drop_sender. destruct (w_wire w) as [r|] eqn:Hw; [|intros r0 Hr0; congruence].
  destruct (Hi _ Hw) as [[H1 H2 H3] Ht]. intros r0 [= <-]. simpl. split.
  - split; simpl; [done| |].
    + intros c0 Hc0. destruct (wr_req r) as [c|]; simplify_eq/=. rewrite mpsc_drop_tx_view. by apply H2.
    + intros He. destruct (H3 He) as [Hp _]. split; [done|]. intros c0 Hc0.
      destruct (wr_req r) as [c|]; simplify_eq/=. by rewrite mpsc_drop_tx_view.
  - intros c0 Hc0. destruct (wr_req r) as [c|]; simplify_eq/=. by rewrite mpsc_drop_tx_view.
Qed.

Lemma close_send_req acc tx s r s' :
  call_req acc tx s -> close_stream_send s = (r, s') -> call_req acc false s'.
Proof.
  intros [(st & Hst & Htx) Hi]. unfold close_stream_send, on_call, on_world. mred. rewrite Hst. mred.
  destruct (as_msg_tx st) eqn:Et; mred; intros; simplify_eq/=; (split; [by eexists|]); [|done].
  by eapply drop_sender_req.
Qed.

(** * Every use of the call *)

(** One method call with any outcome, or a step of the background task on its
    own (multi-thread mode); the messages PHP's sends were accepted for. *)
Inductive bidi_step : list bytes * CallSt -> list bytes * CallSt -> Prop :=
| bs_send acc s m s' :
    send_stream_message env_var build_error tid clock m s = (Return tt, s') ->
    bidi_step (acc, s) (acc ++ [m], s')
| bs_send_fail acc s m e s' :
    send_stream_message env_var build_error tid clock m s = (Throw e, s') -> bidi_step (acc, s) (acc, s')
| bs_close acc s r s' : close_stream_send s = (r, s') -> bidi_step (acc, s) (acc, s')
| bs_recv acc s batch r s' :
    build_stream_result env_var build_error tid clock select batch s = (r, s') -> bidi_step (acc, s) (acc, s')
| bs_poll acc c w : bidi_step (acc, MkCS c w) (acc, MkCS c (task_poll clock w))
| bs_event acc c w ev w' : driver_event clock ev w = Some w' -> bidi_step (acc, MkCS c w) (acc, MkCS c w').

Lemma bidi_steps_req p p' :
  rtc bidi_step p p' -> (exists tx, call_req p.1 tx p.2) -> exists tx, call_req p'.1 tx p'.2.
Proof.
  induction 1 as [|p1 p2 p3 Hs _ IH]; [done|]. intros [tx Hr]. apply IH. clear IH.
  destruct Hs as [acc s m s' H|acc s m e s' H|acc s r s' H|acc s batch r s' H|acc c w|acc c w ev w' H]; simpl in *.
  - exists tx. by apply (send_message_req _ _ _ _ _ _ Hr H).
  - exists tx. by apply (send_message_req _ _ _ _ _ _ Hr H).
  - exists false. by eapply close_send_req.
  - exists tx. pose proof (keeps_build_result acc tx batch s Hr) as [Hk _]. by rewrite H in Hk.
  - exists tx. destruct Hr as [Hst Hi]. split; [done|]. by apply task_poll_req.
  - exists tx. destruct Hr as [Hst Hi]. split; [done|]. by eapply driver_event_req.
Qed.

(** C14: the messages PHP sends on a bidi or client-streaming call reach tonic in
    the order they were sent, with none lost or duplicated while the request
    stream is open: what tonic has pulled is a prefix of what was accepted, at
    most four accepted messages wait, and the end of the request stream is
    seen only after the sender was closed and every message pulled.  For every
    sequence of method calls and every interleaving with the background task. *)
Theorem bidi_requests_fifo md pm s0 s acc s' r :
  w_wire (cs_w s0) = None ->
  start_bidi_stream env_var build_error tid clock md pm s0 = (Return tt, s) ->
  rtc bidi_step ([], s) (acc, s') -> w_wire (cs_w s') = Some r ->
  wr_pulled r `prefix_of` acc
  /\ (forall c, wr_req r = Some c ->
       acc = wr_pulled r ++ mv_queue (mpsc_view c) /\ (length (mv_queue (mpsc_view c)) <= 4)%nat)
  /\ (wr_req_ended r = true -> wr_pulled r = acc
       /\ forall c, wr_req r = Some c -> mv_tx (mpsc_view c) = false).
Proof.
  intros Hw0 Hstart Hsteps Hr.
  assert (Hinit : exists tx, call_req [] tx s).
  { revert Hstart. unfold start_bidi_stream, call_get_runtime, call_pump, in_chan, read_clock, on_call, on_world. mred.
    destruct (channel_get_runtime _ _ _ _) as [[rt|e|] c1]; [|done..]. simpl.
    destruct (channel_pump _ _ _ _) as [[[]|e|] c2]; [|done..]. simpl.
    destruct (deadline_already_expired _ _); simpl.
    - intros [= <-]. exists false. split; [by eexists|]. intros r0 Hr0. simpl in Hr0. congruence.
    - destruct (path_try_from _) as [[]|e]; simpl; [|done]. intros [= <-]. exists true.
      split; [by eexists|]. intros r0 [= <-]. split.
      + split; simpl; [done| |done]. intros c [= <-]. rewrite mpsc_channel_view. simpl. split_and!; try done. lia.
      + intros c [= <-]. by rewrite mpsc_channel_view. }
  destruct (bidi_steps_req _ _ Hsteps Hinit) as (tx & _ & Hi). destruct (Hi _ Hr) as [[H1 H2 H3] _].
  split_and!; [done| |done]. intros c Hc. destruct (H2 c Hc) as (? & _ & _ & ?). done.
Qed.

End bidi.

(** * Witness *)
Definition wit_bidi_start : CallSt (Zd := ZendModel) (Ep := EndpointModel) (Tk := TokioModel) :=
  (start_bidi_stream (Zd := ZendModel) (Tn := TonicModel) (Tls := TlsModel) (Ep := EndpointModel) (Tk := TokioModel)
     None (fun _ => None) 0%nat wit_clock [] [] (wit_state i64_max [])).2.
Definition wit_bidi_sent : CallSt (Zd := ZendModel) (Ep := EndpointModel) (Tk := TokioModel) :=
  (send_stream_message (Zd := ZendModel) (Tk := TokioModel) None (fun _ => None) 0%nat wit_clock [x07] wit_bidi_start).2.
Definition wit_bidi_event ev (s : CallSt (Zd := ZendModel) (Ep := EndpointModel) (Tk := TokioModel)) :=
  MkCS (cs_call s) (default (cs_w s) (driver_event (Tk := TokioModel) wit_clock ev (cs_w s))).
Abbreviation wit_bidi_rel :=
  (bidi_step (Zd := ZendModel) (Tk := TokioModel) None (fun _ => None) 0%nat wit_clock (fun _ => true)).
Lemma wit_bidi_step acc ev s :
  bool_decide (is_Some (driver_event (Tk := TokioModel) wit_clock ev (cs_w s))) = true ->
  wit_bidi_rel (acc, s) (acc, wit_bidi_event ev s).
Proof. intros H. destruct s as [c w]. apply (bs_event _ _ _ _ _ acc c w ev). by apply run_default. Qed.
Lemma wit_bidi_poll acc s : wit_bidi_rel (acc, s) (acc, MkCS (cs_call s) (task_poll wit_clock (cs_w s))).
Proof. destruct s as [c w]. apply bs_poll. Qed.
Definition wit_bidi_polled := MkCS (cs_call wit_bidi_sent) (task_poll wit_clock (cs_w wit_bidi_sent)).
Definition wit_bidi_ready := wit_bidi_event (EvReady (Tn := TonicModel) (Ok tt)) wit_bidi_polled.
Definition wit_bidi_pulled := wit_bidi_event EvPull wit_bidi_ready.

Lemma bidi_requests_fifo_witness :
  match w_wire (cs_w wit_bidi_pulled) with
  | Some r => wr_pulled r = [[x07]] /\ wr_pulled r `prefix_of` [[x07]]
  | None => False
  end.
Proof.
  assert (Hsteps : rtc wit_bidi_rel ([], wit_bidi_start) ([[x07]], wit_bidi_pulled)).
  { eapply rtc_l; [refine (bs_send _ _ _ _ _ [] wit_bidi_start [x07] wit_bidi_sent
      (run_fst (send_stream_message (Zd := ZendModel) (Tk := TokioModel) None (fun _ => None) 0%nat wit_clock [x07]
                  wit_bidi_start) _ _)); vm_compute; reflexivity|].
    eapply rtc_l; [refine (wit_bidi_poll _ wit_bidi_sent)|].
    eapply rtc_l; [refine (wit_bidi_step _ (EvReady (Tn := TonicModel) (Ok tt)) wit_bidi_polled _); vm_compute; reflexivity|].
    eapply rtc_l; [refine (wit_bidi_step _ EvPull wit_bidi_ready _); vm_compute; reflexivity|].
    apply rtc_refl. }
  assert (Hstart : start_bidi_stream (Zd := ZendModel) (Tk := TokioModel) None (fun _ => None) 0%nat wit_clock [] []
                     (wit_state i64_max []) = (Return tt, wit_bidi_start)) by (apply run_fst; vm_compute; reflexivity).
  assert (Hp : (wr_pulled <$> w_wire (cs_w wit_bidi_pulled)) = Some [[x07]]) by (vm_compute; reflexivity).
  destruct (w_wire (cs_w wit_bidi_pulled)) as [r|] eqn:Hr; [|discriminate Hp].
  injection Hp as Hp. split; [exact Hp|].
  exact (proj1 (bidi_requests_fifo (Zd := ZendModel) (Tk := TokioModel) None (fun _ => None) 0%nat wit_clock (fun _ => true)
    [] [] (wit_state i64_max []) wit_bidi_start [[x07]] wit_bidi_pulled r eq_refl Hstart Hsteps Hr)).
Defined.
