(* ===== verification/Interleave.v ===== *)
(** A streaming call of src/src/call.rs under arbitrary interleaving.

    Delivery.v follows the default mode, in which the background task runs only
    inside the [block_on] of its own call.  With the multi-thread runtime the
    task runs at any time, and with several calls in flight on one thread it
    also runs while PHP waits for another call.  Here every access of the PHP
    thread to the channels of the stream is one atomic step, in any order, and
    any number of steps of the task, of the network and of the timer come
    between any two of them. *)

From Stdlib Require Import ZArith Lia String Strings.Byte.
From stdpp Require Import base gmap list strings.
From S2P Require Import Prelude Utf8 Zend Tokio Tonic Error Runtime Timeval Credentials Channel Metadata Deadline Driver Stream Delivery Bidi.

#[local] Open Scope string_scope.
#[local] Open Scope list_scope.
#[local] Open Scope Z_scope.

Section interleave.
Context {Zd : ZendApi} {Tn : TonicApi} {Tls : TlsApi} {Ep : EndpointApi Tn Tls} {Tk : TokioApi}.
Context `{!TokioLaws Tk}.
Context (env_var : option string) (build_error : nat -> option string) (tid : nat).
Context (clock : nat -> clock_reading).

Abbreviation Item := (result Status (option bytes)).

(** * The interleaved system *)

(** What has happened so far: the events of the network and the timer the task
    took, the items PHP received, the messages PHP's sends were accepted for,
    and whether PHP still holds the sender. *)
Record Trace : Type := MkTrace {
  il_events : list Event;
  il_items : list Item;
  il_sent : list bytes;
  il_open : bool;
}.

Inductive il_step : Trace * World -> Trace * World -> Prop :=
| il_task h w : il_step (h, w) (h, task_poll clock w)
| il_event evs its sent tx w ev w' :
    driver_event clock ev w = Some w' ->
    il_step (MkTrace evs its sent tx, w) (MkTrace (evs ++ [ev]) its sent tx, w')
| il_recv evs its sent tx w it w' :
    recv_item mpsc_recv w = (Some (Some it), w') ->
    il_step (MkTrace evs its sent tx, w) (MkTrace evs (its ++ [it]) sent tx, w')
| il_try_recv evs its sent tx w it w' :
    recv_item mpsc_try_recv w = (Some (Some it), w') ->
    il_step (MkTrace evs its sent tx, w) (MkTrace evs (its ++ [it]) sent tx, w')
| il_send evs its sent w m w' :
    send_poll m tt w = (Some (Ok tt), tt, w') ->
    il_step (MkTrace evs its sent true, w) (MkTrace evs its (sent ++ [m]) true, w')
| il_close evs its sent w :
    il_step (MkTrace evs its sent true, w) (MkTrace evs its sent false, drop_sender w)
| il_cancel h w : il_step (h, w) (h, set_token w (token_cancel (w_token w)))
| il_clock h w : il_step (h, w) (h, tick w).

(** * The reference, at its own pace *)

(** A step of the reference call.  [ref_late]: time passes while the task waits
    for room in the buffer and does not look at its deadline.  [ref_clock]: the
    clock is read by someone else. *)
Inductive ref_step (dl : Z) : option Event -> Rpc -> Rpc -> Prop :=
| ref_poll rp : ref_step dl None rp (rpc_poll clock dl rp)
| ref_event c ev rp rp' : rpc_event clock dl c ev rp = Some rp' -> ref_step dl (Some ev) rp rp'
| ref_late t rp :
    ref_step dl (Some (EvTick t)) rp
      (MkRpc (rp_pc rp) (rp_deadline rp) (rp_items rp) (rp_meta rp) (rp_trailers rp) (rp_ticks rp)
         (Z.max (rp_instant rp) t))
| ref_clock rp :
    ref_step dl None rp
      (MkRpc (rp_pc rp) (rp_deadline rp) (rp_items rp) (rp_meta rp) (rp_trailers rp) (S (rp_ticks rp)) (rp_instant rp)).

Inductive ref_run (dl : Z) (rp0 : Rpc) : list Event -> Rpc -> Prop :=
| ref_nil : ref_run dl rp0 [] rp0
| ref_snoc evs rp o rp' :
    ref_run dl rp0 evs rp -> ref_step dl o rp rp' -> ref_run dl rp0 (evs ++ option_list o) rp'.

Lemma ref_step_wf dl o rp rp' : ref_step dl o rp rp' -> rpc_wf rp -> rpc_wf rp'.
Proof.
  destruct 1 as [rp|c ev rp rp' H|t rp|rp]; intros Hw.
  - by apply rpc_poll_wf.
  - by eapply rpc_event_wf.
  - exact Hw.
  - exact Hw.
Qed.

Lemma ref_step_messages dl o rp rp' :
  ref_step dl o rp rp' ->
  omap item_message (rp_items rp')
  = omap item_message (rp_items rp) ++ omap message_of (option_list o).
Proof.
  destruct 1 as [rp|c ev rp rp' H|t rp|rp]; simpl.
  - rewrite app_nil_r. unfold rpc_poll. by destruct (rp_pc rp).
  - rewrite (rpc_event_messages _ _ _ _ _ _ H). by destruct (message_of ev).
  - by rewrite app_nil_r.
  - by rewrite app_nil_r.
Qed.

Lemma ref_run_wf dl rp0 evs rp : ref_run dl rp0 evs rp -> rpc_wf rp0 -> rpc_wf rp.
Proof. induction 1; eauto using ref_step_wf. Qed.

Lemma ref_run_messages dl rp0 evs rp :
  ref_run dl rp0 evs rp ->
  omap item_message (rp_items rp) = omap item_message (rp_items rp0) ++ omap message_of evs.
Proof.
  induction 1 as [|evs rp o rp' _ IH Hs]; simpl; [by rewrite app_nil_r|].
  by rewrite (ref_step_messages _ _ _ _ Hs), IH, omap_app, <- app_assoc.
Qed.

(** The reference going on, and what it keeps. *)
Definition grows (dl : Z) : Rpc -> Rpc -> Prop := rtc (fun rp rp' => exists o, ref_step dl o rp rp').

Record later (rp rp' : Rpc) : Prop := {
  lt_early : meta_early rp';
  lt_items : rp_items rp `prefix_of` rp_items rp';
  lt_meta m : rp_meta rp = Some m -> rp_meta rp' = Some m;
  lt_done : rpc_done rp = true ->
    rpc_done rp' = true /\ rp_items rp' = rp_items rp /\ rp_trailers rp' = rp_trailers rp;
}.

Lemma ref_step_later dl o rp rp' : ref_step dl o rp rp' -> meta_early rp -> later rp rp'.
Proof.
  clear env_var build_error tid. unfold meta_early. intros Hs Hm. destruct Hs as [rp|c ev rp rp' H|t rp|rp].
  - unfold rpc_poll. destruct (rp_pc rp) eqn:E; split; unfold meta_early, rpc_done in *; simpl; rewrite ?E; naive_solver.
  - pose proof (rpc_event_items _ _ _ _ _ _ H) as Hi. unfold rpc_event in H.
    destruct ev as [[]|[]|[[b|]|]| | |t| | |]; destruct (rp_pc rp) eqn:E; try done; try case_match; simplify_eq/=;
      split; unfold meta_early, rpc_done in *; simpl in *; rewrite ?E; try done;
      try naive_solver; intros m' Hm'; rewrite ?Hm' in *; naive_solver.
  - by split.
  - by split.
Qed.

Lemma grows_later dl rp rp' : grows dl rp rp' -> meta_early rp -> later rp rp'.
Proof.
  induction 1 as [|rp1 rp2 rp3 [o H1] _ IH]; intros He; [by split|].
  destruct (ref_step_later _ _ _ _ H1 He) as [K0 K1 K2 K3], (IH K0) as [I0 I1 I2 I3]. split; [done|by etrans|auto|].
  intros Hd. destruct (K3 Hd) as (Hd2 & <- & <-). by apply I3.
Qed.

(** * The simulation, step by step *)

(** An event while the task waits for room, or before its first poll, moves the
    time or the request stream only. *)
Lemma sim_event_parked dl rcv w r rp ev w' :
  sim dl rcv w r rp -> parked (wr_pc r) -> driver_event clock ev w = Some w' ->
  exists r' rp', sim dl rcv w' r' rp' /\ ref_step dl (Some ev) rp rp'.
Proof.
  intros Hs Hp. unfold driver_event. rewrite (sim_wire _ _ _ _ _ Hs).
  destruct ev as [x|x|x|x|x|t| | |]; destruct (wr_pc r) eqn:E; simpl in *; try done; intros [= <-].
  1, 2: unfold on_tick; rewrite E; pose proof (sim_set_instant _ _ _ _ _ t Hs) as Hi;
    destruct (wr_deadline r <=? _); exists r; eexists; (split; [exact Hi|apply ref_late]).
  1, 2: exists (match w_wire (on_pull w r) with Some r' => r' | None => r end), rp;
    (split; [|by apply (ref_event dl false)]);
    unfold on_pull; destruct (wr_handed r); [|by rewrite (sim_wire _ _ _ _ _ Hs)];
    destruct (wr_req r) as [c|]; [|by rewrite (sim_wire _ _ _ _ _ Hs)];
    destruct (mpsc_recv c); simpl; rewrite ?(sim_wire _ _ _ _ _ Hs); auto using sim_wire_req.
  1, 2: exists (match w_wire (on_req_drop w r) with Some r' => r' | None => r end), rp;
    (split; [|by apply (ref_event dl false)]);
    unfold on_req_drop; destruct (wr_handed r); simpl; rewrite ?(sim_wire _ _ _ _ _ Hs); auto using sim_wire_req.
Qed.

Lemma sim_event_any dl rcv w r rp ev w' :
  sim dl rcv w r rp -> driver_event clock ev w = Some w' ->
  exists r' rp', sim dl rcv w' r' rp' /\ ref_step dl (Some ev) rp rp'.
Proof.
  intros Hs Hev. assert (Hd : parked (wr_pc r) \/ ~ parked (wr_pc r)) by (destruct (wr_pc r); simpl; auto).
  destruct Hd as [Hp|Hp]; [by eapply sim_event_parked|].
  pose proof (sim_event clock dl rcv w r rp ev Hs Hp) as H. rewrite Hev in H.
  destruct (rpc_event clock dl _ ev rp) as [rp'|] eqn:E; [|done].
  destruct H as [r' Hs']. exists r', rp'. split; [done|]. by eapply ref_event.
Qed.

(** What every reachable state satisfies. *)
Record il_inv (dl : Z) (rp0 : Rpc) (h : Trace) (w : World) (rp : Rpc) : Prop := {
  ili_sim : exists r, sim dl (il_items h) w r rp;
  ili_ref : ref_run dl rp0 (il_events h) rp;
  ili_req : req_inv (il_sent h) (il_open h) w;
}.

Lemma il_recv_inv recv dl rp0 evs its sent tx w it w' rp :
  (forall c, recv_law (mpsc_view c) (recv c)) -> recv_item recv w = (Some (Some it), w') ->
  il_inv dl rp0 (MkTrace evs its sent tx) w rp -> il_inv dl rp0 (MkTrace evs (its ++ [it]) sent tx) w' rp.
Proof.
  intros Hl Hr [[r Hs] Href Hq]. simpl in *.
  pose proof (recv_item_sim recv dl its w r rp Hl Hs) as H. pose proof (recv_item_req sent tx recv w Hq) as Hq'.
  rewrite Hr in H, Hq'. destruct H as (_ & r' & q & _ & _ & _ & Hs'). split; simpl; eauto.
Qed.

Lemma il_step_inv dl rp0 h w h' w' rp :
  il_step (h, w) (h', w') -> il_inv dl rp0 h w rp -> exists rp', il_inv dl rp0 h' w' rp' /\ grows dl rp rp'.
Proof.
  remember (h, w) as p eqn:Hp. remember (h', w') as p' eqn:Hp'. intros Hst.
  destruct Hst as [h0 w0|evs its sent tx w0 ev w1 H|evs its sent tx w0 it w1 H|evs its sent tx w0 it w1 H
    |evs its sent w0 m w1 H|evs its sent w0|h0 w0|h0 w0]; simplify_eq; intros Hi; pose proof Hi as [[r Hs] Href Hq]; simpl in *.
  - destruct (sim_poll clock _ _ _ _ _ Hs) as (r' & Hs' & _). exists (rpc_poll clock dl rp).
    split; [|apply rtc_once; exists None; apply ref_poll]. split; [eauto| |by apply task_poll_req].
    rewrite <- (app_nil_r (il_events h)). eapply (ref_snoc dl rp0 _ rp None); [done|apply ref_poll].
  - destruct (sim_event_any _ _ _ _ _ _ _ Hs H) as (r' & rp' & Hs' & Hst). exists rp'.
    split; [|apply rtc_once; by exists (Some ev)].
    split; simpl; [eauto| |by eapply driver_event_req]. by eapply (ref_snoc dl rp0 _ rp (Some ev)).
  - exists rp. split; [|done]. eapply il_recv_inv; [apply (mpsc_recv_law _)|done|done].
  - exists rp. split; [|done]. eapply il_recv_inv; [apply (mpsc_try_recv_law _)|done|done].
  - exists rp. split; [|done]. split; simpl; [|done|].
    + unfold send_poll in H. rewrite (sim_wire _ _ _ _ _ Hs) in H. repeat (case_match; simplify_eq).
      eauto using sim_wire_req.
    + pose proof (send_poll_req sent true m w Hq eq_refl) as Hp. by rewrite H in Hp.
  - exists rp. split; [|done]. split; simpl; [|done|by eapply drop_sender_req].
    unfold drop_sender. rewrite (sim_wire _ _ _ _ _ Hs). eauto using sim_wire_req.
  - exists rp. split; [|done]. split; [|done|done]. exists r. eapply sim_world; [exact Hs|done..].
  - eexists. split; [|apply rtc_once; exists None; apply ref_clock]. split; [exists r; by apply sim_tick| |done].
    rewrite <- (app_nil_r (il_events h)). eapply (ref_snoc dl rp0 _ rp None); [done|apply ref_clock].
Qed.

Lemma il_steps_inv dl rp0 p p' rp :
  rtc il_step p p' -> il_inv dl rp0 p.1 p.2 rp -> exists rp', il_inv dl rp0 p'.1 p'.2 rp'.
Proof.
  intros H. revert rp. induction H as [|[h1 w1] [h2 w2] p3 Hs _ IH]; [eauto|]. intros rp Hi.
  destruct (il_step_inv _ _ _ _ _ _ _ Hs Hi) as (rp' & Hi' & _). by eapply IH.
Qed.

(** The wire a stream starts with. *)
Lemma spawn_task_inv c req rq w :
  w_wire w = Some (spawn_task c req rq) -> req = None \/ req = Some (mpsc_channel REQ_BUFFER) ->
  il_inv (cl_deadline_usec c) (rpc_init 0 (w_ticks w) (w_instant w))
    (MkTrace [] [] [] (match req with Some _ => true | None => false end)) w (rpc_init 0 (w_ticks w) (w_instant w)).
Proof.
  intros Hw Hreq. split; simpl; [exists (spawn_task c req rq); exact (spawn_task_sim c req rq w Hw)|apply ref_nil|].
  intros r0 Hr0. rewrite Hw in Hr0. simplify_eq. destruct Hreq as [->| ->]; (split; [split|]); simpl; try done.
  - intros c' [= <-]. rewrite mpsc_channel_view. simpl. split_and!; try done. lia.
  - intros c' [= <-]. by rewrite mpsc_channel_view.
Qed.

Lemma opens_inv s0 s st :
  opens env_var build_error tid clock s0 s -> cl_stream_state (cs_call s) = Some st -> as_trailers_rx st = true ->
  let rp0 := rpc_init 0 (w_ticks (cs_w s)) (w_instant (cs_w s)) in
  il_inv (cl_deadline_usec (cs_call s0)) rp0 (MkTrace [] [] [] (as_msg_tx st)) (cs_w s) rp0.
Proof.
  intros Hop Hst Htr. destruct (opens_spawns _ _ _ _ _ _ _ Hop Hst Htr) as (_ & _ & _ & rq & Hw).
  pose proof (spawn_task_inv _ _ _ _ Hw) as H. destruct (as_msg_tx st); apply H; auto.
Qed.

(** * Properties *)

(** Under every interleaving of the PHP thread, the background task, the
    network and the timer, on a server-streaming or bidi call, what PHP sees is
    one run of the reference call.  The items received are the first ones of
    the reference, so the messages are those the network delivered, in order,
    none lost, duplicated or invented; the end of the messages is seen only
    after the call has ended and all were received; the headers and the
    trailers seen are those of the reference; no more than the buffer holds
    is ever queued; and the requests pulled are the first ones sent. *)
Theorem interleaved_stream_consistent s0 s st h w :
  opens env_var build_error tid clock s0 s -> cl_stream_state (cs_call s) = Some st -> as_trailers_rx st = true ->
  rtc il_step (MkTrace [] [] [] (as_msg_tx st), cs_w s) (h, w) ->
  exists r rp, w_wire w = Some r
    /\ ref_run (cl_deadline_usec (cs_call s0)) (rpc_init 0 (w_ticks (cs_w s)) (w_instant (cs_w s))) (il_events h) rp
    /\ il_items h `prefix_of` rp_items rp
    /\ omap item_message (rp_items rp) = omap message_of (il_events h)
    /\ (recv_item mpsc_recv w = (Some None, w) -> rpc_done rp = true /\ il_items h = rp_items rp)
    /\ (forall m, meta_poll tt w = (Some m, tt, w) -> m = rp_meta rp)
    /\ (forall t, trailers_poll w = Some t -> rpc_done rp = true /\ t = rp_trailers rp)
    /\ (length (mv_queue (mpsc_view (wr_msgs r))) <= STREAM_MSG_BUFFER)%nat
    /\ wr_pulled r `prefix_of` il_sent h.
Proof.
  intros Hop Hst Htr Hsteps.
  destruct (il_steps_inv _ _ _ _ _ Hsteps (opens_inv _ _ _ Hop Hst Htr)) as [rp [[r Hs] Href Hq]]. simpl in *.
  pose proof Hs as []. exists r, rp. split_and!; try done.
  - rewrite sim_items. by apply prefix_app_r.
  - by rewrite (ref_run_messages _ _ _ _ Href).
  - intros Hr. pose proof (recv_item_sim mpsc_recv _ _ _ _ _ (mpsc_recv_law _) Hs) as H. rewrite Hr in H.
    destruct H as (_ & _ & Hqe & Hpc). rewrite sim_items, Hqe. unfold rpc_done. rewrite sim_pc, Hpc.
    by rewrite app_nil_r.
  - intros m Hm. unfold meta_poll in Hm. rewrite sim_wire, sim_meta in Hm. by destruct (rp_meta rp); simplify_eq.
  - intros t Ht. pose proof (trailers_poll_sim _ _ _ _ _ Hs) as H. by rewrite Ht in H.
  - by destruct (Hq _ sim_wire) as [[H _ _] _].
Qed.

End interleave.

(** * Witness

    A bidi call that sends one message, is answered by one, and receives it. *)
Abbreviation wit_il_world := (World (Tn := TonicModel) (Tls := TlsModel) (Ep := EndpointModel) (Tk := TokioModel)).

Definition wit_il_event (ev : Event (Tn := TonicModel)) (w : wit_il_world) : wit_il_world :=
  default w (driver_event (Tk := TokioModel) wit_clock ev w).
Lemma wit_il_event_ok ev w :
  bool_decide (is_Some (driver_event (Tk := TokioModel) wit_clock ev w)) = true ->
  driver_event (Tk := TokioModel) wit_clock ev w = Some (wit_il_event ev w).
Proof. apply run_default. Qed.
Definition wit_il_trace (evs : list (Event (Tn := TonicModel))) its sent : Trace (Tn := TonicModel) :=
  MkTrace (Tn := TonicModel) evs its sent true.

Definition wit_il_w1 : wit_il_world := (send_poll (Tk := TokioModel) [x07] tt (cs_w wit_bidi_start)).2.
Definition wit_il_w2 : wit_il_world := task_poll wit_clock wit_il_w1.
Definition wit_il_e1 := EvReady (Tn := TonicModel) (Ok tt).
Definition wit_il_w3 : wit_il_world := wit_il_event wit_il_e1 wit_il_w2.
Definition wit_il_w4 : wit_il_world := wit_il_event EvPull wit_il_w3.
Definition wit_il_e3 := EvResponse (Tn := TonicModel) (Ok [KV_Ascii "k" "v"]).
Definition wit_il_w5 : wit_il_world := wit_il_event wit_il_e3 wit_il_w4.
Definition wit_il_e4 := EvMessage (Tn := TonicModel) (Ok (Some [x01])).
Definition wit_il_w6 : wit_il_world := wit_il_event wit_il_e4 wit_il_w5.
Definition wit_il_w7 : wit_il_world := (recv_item (Tk := TokioModel) mpsc_recv wit_il_w6).2.
Definition wit_il_evs := [wit_il_e1; EvPull; wit_il_e3; wit_il_e4].

Lemma wit_il_steps :
  rtc (il_step (Tn := TonicModel) (Tk := TokioModel) wit_clock)
    (wit_il_trace [] [] [], cs_w wit_bidi_start) (wit_il_trace wit_il_evs [Ok (Some [x01])] [[x07]], wit_il_w7).
Proof.
  eapply rtc_l; [refine (il_send _ [] [] [] _ [x07] wit_il_w1 (run_fst (send_poll (Tk := TokioModel) [x07] tt _) (Some (Ok tt), tt) _)); vm_compute; reflexivity|].
  eapply rtc_l; [apply il_task|]. change (task_poll wit_clock wit_il_w1) with wit_il_w2.
  eapply rtc_l; [refine (il_event (Tk := TokioModel) _ [] [] [[x07]] true wit_il_w2 wit_il_e1 wit_il_w3 (wit_il_event_ok wit_il_e1 wit_il_w2 _)); vm_compute; reflexivity|].
  eapply rtc_l; [refine (il_event _ [wit_il_e1] [] [[x07]] true wit_il_w3 EvPull wit_il_w4 (wit_il_event_ok EvPull wit_il_w3 _)); vm_compute; reflexivity|].
  eapply rtc_l; [refine (il_event _ [wit_il_e1; EvPull] [] [[x07]] true wit_il_w4 wit_il_e3 wit_il_w5 (wit_il_event_ok wit_il_e3 wit_il_w4 _)); vm_compute; reflexivity|].
  eapply rtc_l; [refine (il_event _ [wit_il_e1; EvPull; wit_il_e3] [] [[x07]] true wit_il_w5 wit_il_e4 wit_il_w6 (wit_il_event_ok wit_il_e4 wit_il_w5 _)); vm_compute; reflexivity|].
  eapply rtc_l; [refine (il_recv _ wit_il_evs [] [[x07]] true wit_il_w6 (Ok (Some [x01])) wit_il_w7 (run_fst (recv_item (Tk := TokioModel) mpsc_recv wit_il_w6) _ _)); vm_compute; reflexivity|].
  apply rtc_refl.
Qed.

Lemma interleaved_stream_consistent_witness :
  exists r rp, w_wire wit_il_w7 = Some r
    /\ [Ok (Some [x01])] `prefix_of` rp_items rp
    /\ omap item_message (rp_items rp) = [[x01]]
    /\ wr_pulled r = [[x07]] /\ wr_pulled r `prefix_of` [[x07]].
Proof.
  assert (Hop : opens (Zd := ZendModel) (Tk := TokioModel) None (fun _ => None) 0%nat wit_clock
                  (wit_state i64_max []) wit_bidi_start).
  { apply (opens_bidi _ _ _ _ _ [] []). apply run_fst. vm_compute. reflexivity. }
  destruct (interleaved_stream_consistent (Zd := ZendModel) (Tk := TokioModel) None (fun _ => None) 0%nat wit_clock
    (wit_state i64_max []) wit_bidi_start _ _ _ Hop eq_refl eq_refl wit_il_steps)
    as (r & rp & Hr & _ & Hpre & Hm & _ & _ & _ & _ & Hp).
  exists r, rp. split; [exact Hr|]. split; [exact Hpre|]. split; [exact Hm|]. split; [|exact Hp].
  assert (Hw : (wr_pulled <$> w_wire wit_il_w7) = Some [[x07]]) by (vm_compute; reflexivity).
  rewrite Hr in Hw. injection Hw as Hw. exact Hw.
Defined.
