(* ===== verification/Release.v ===== *)
(** Destroying a call in the middle of a stream.

    When PHP destroys a [Grpc\Call] object the Rust struct of src/src/call.rs is
    dropped and with it the [ActiveStream]: the receivers of the messages, of
    the headers and of the trailers, and the sender of the request stream.
    Nothing cancels the background task; it must notice by itself, the next
    time it sends.  There is no line of code for the drop: [drop_stream] is the
    order in which Rust drops the fields. *)

From Stdlib Require Import ZArith Lia String Strings.Byte.
From stdpp Require Import base gmap list strings.
From S2P Require Import Prelude Utf8 Zend Tokio Tonic Error Runtime Timeval Credentials Channel Metadata Deadline Driver Stream Delivery Bidi Interleave.

#[local] Open Scope string_scope.
#[local] Open Scope list_scope.
#[local] Open Scope Z_scope.

Section release.
Context {Zd : ZendApi} {Tn : TonicApi} {Tls : TlsApi} {Ep : EndpointApi Tn Tls} {Tk : TokioApi}.
Context `{!TokioLaws Tk}.
Context (clock : nat -> clock_reading).

(** Dropping the handles of a stream.  What is sent to a oneshot receiver that
    was dropped is ignored by the task, so these need no step. *)
Definition drop_stream (st : ActiveStream) (w : World) : World :=
  let w := if as_msg_tx st then drop_sender w else w in
  match w_wire w with
  | Some r => set_wire w (wire_msgs r (mpsc_drop_rx (wr_msgs r)))
  | None => w
  end.

(** The task on its own: polls, and the events it takes. *)
Inductive task_run : list Event -> World -> World -> Prop :=
| tr_nil w : task_run [] w w
| tr_poll evs w w' : task_run evs (task_poll clock w) w' -> task_run evs w w'
| tr_event ev evs w w1 w' :
    driver_event clock ev w = Some w1 -> task_run evs w1 w' -> task_run (ev :: evs) w w'.

(** What the network does to the call, as opposed to the timer and to the
    request stream. *)
Definition network_event (ev : Event) : bool :=
  match ev with EvTick _ | EvPull | EvReqDrop => false | _ => true end.

(** How many network events a task whose reader is gone can still wait for. *)
Definition task_rank (pc : Pc) : nat :=
  match pc with
  | DStart | DReady => 4
  | DResponse => 3
  | DBody => 2
  | DSend _ KAwait | DTrailers => 1
  | DSend _ _ | DDone => 0
  end.

(** The receiver of the messages is gone. *)
Definition abandoned (r : Wire) : Prop :=
  mv_rx (mpsc_view (wr_msgs r)) = false /\ mv_queue (mpsc_view (wr_msgs r)) = [].

Lemma task_cont_rank k b r :
  abandoned r -> abandoned (task_cont k b r)
  /\ (task_rank (wr_pc (task_cont k b r))
      <= match k with KLoop => if b then 2 else 0 | KAwait => 1 | _ => 0 end)%nat.
Proof.
  intros [Hrx Hq]. destruct k, b; simpl; unfold task_return, abandoned; simpl; try destruct (wr_handed r); simpl;
    rewrite ?mpsc_drop_tx_view; simpl; repeat split; auto with lia.
Qed.

(** A send fails at once, so the task never waits for room again. *)
Lemma task_send_rank it k r :
  abandoned r -> abandoned (task_send it k r)
  /\ (task_rank (wr_pc (task_send it k r)) <= match k with KAwait => 1 | _ => 0 end)%nat.
Proof.
  intros Ha. pose proof Ha as [Hrx Hq]. unfold task_send. pose proof (mpsc_send_law _ (wr_msgs r) it) as H.
  destruct (mpsc_send (wr_msgs r) it); simpl in H; [by destruct H; congruence..|].
  destruct (task_cont_rank k false r Ha) as [? Hr]. split; [done|]. by destruct k.
Qed.

(** One step keeps the reader gone and the rank from rising; an event of the
    network lowers it. *)
Definition ranked (w w' : World) (strict : bool) : Prop :=
  forall r, w_wire w = Some r -> abandoned r ->
  exists r', w_wire w' = Some r' /\ abandoned r'
    /\ (task_rank (wr_pc r') + (if strict then 1 else 0) <= task_rank (wr_pc r))%nat.

Lemma task_poll_ranked w : ranked w (task_poll clock w) false.
Proof.
  intros r Hw Ha. unfold task_poll. rewrite Hw. destruct (wr_pc r) eqn:E; simpl; rewrite ?Nat.add_0_r.
  all: try (exists r; rewrite E; split_and!; auto; lia).
  - eexists. split; [done|]. split; [exact Ha|]. simpl. lia.
  - destruct (task_send_rank item k r Ha) as [H1 H2]. eexists. split; [done|]. split; [done|]. destruct k; simpl in *; lia.
Qed.

(** A state the task reaches by a send. *)
Local Ltac send_ranked Ha :=
  match goal with |- abandoned (task_send ?it ?k ?r') /\ _ =>
    destruct (task_send_rank it k r' Ha); split; [done|simpl in *; lia] end.

Lemma driver_event_ranked ev w w' :
  driver_event clock ev w = Some w' -> ranked w w' (network_event ev).
Proof.
  intros Hev r Hw Ha. unfold driver_event in Hev. rewrite Hw in Hev.
  assert (Hsame : forall w0 r', w_wire w0 = Some r' -> wr_pc r' = wr_pc r -> wr_msgs r' = wr_msgs r ->
    exists r', w_wire w0 = Some r' /\ abandoned r' /\ (task_rank (wr_pc r') + 0 <= task_rank (wr_pc r))%nat).
  { intros w0 r' H0 Hpc Hm. exists r'. split; [done|]. split; [by unfold abandoned; rewrite Hm|]. rewrite Hpc. lia. }
  destruct ev as [x|x|x|x|x|t| | |]; simpl in *.
  - destruct (wr_pc r) eqn:E; simplify_eq. destruct x as [u|e]; simpl; (eexists; split; [reflexivity|]).
    + split; [exact Ha|simpl; lia].
    + send_ranked Ha.
  - destruct (wr_pc r) eqn:E; simplify_eq. unfold on_response.
    destruct x as [md|st]; simpl; (eexists; split; [reflexivity|]).
    + split; [exact Ha|simpl; lia].
    + send_ranked Ha.
  - destruct (wr_pc r) eqn:E; simplify_eq. destruct x as [[b|]|st]; simpl; (eexists; split; [reflexivity|]); send_ranked Ha.
  - destruct (wr_pc r) eqn:E; simplify_eq. unfold on_trailers. eexists. split; [reflexivity|].
    destruct (task_cont_rank KReturn true (wire_trailers r (oneshot_send (wr_trailers r)
      (MkTrailers 0 "" (default md_default (default None (result_ok x)))))) Ha) as [H1 H2].
    split; [exact H1|]. simpl in *. lia.
  - done.
  - simplify_eq. unfold on_tick, on_elapsed. case_match; [|by eapply Hsame].
    destruct (wr_pc r) eqn:E; try (by eapply Hsame); (eexists; split; [reflexivity|]);
      send_ranked Ha.
  - destruct (wr_pc r) eqn:E; simplify_eq. destruct (token_is_cancelled (w_token w)); simplify_eq.
    eexists. split; [reflexivity|]. send_ranked Ha.
  - simplify_eq. unfold on_pull. repeat case_match; by eapply Hsame.
  - simplify_eq. unfold on_req_drop. case_match; by eapply Hsame.
Qed.

Lemma task_run_ranked evs w w' r :
  task_run evs w w' -> w_wire w = Some r -> abandoned r ->
  exists r', w_wire w' = Some r' /\ abandoned r'
    /\ (task_rank (wr_pc r') + length (filter network_event evs) <= task_rank (wr_pc r))%nat.
Proof.
  intros H. revert r. induction H as [w|evs w w' _ IH|ev evs w w1 w' Hev _ IH]; intros r Hw Ha.
  - exists r. simpl. split_and!; auto. lia.
  - destruct (task_poll_ranked w r Hw Ha) as (r1 & Hw1 & Ha1 & Hr1).
    destruct (IH r1 Hw1 Ha1) as (r' & ? & ? & ?). exists r'. split_and!; try done. lia.
  - destruct (driver_event_ranked _ _ _ Hev r Hw Ha) as (r1 & Hw1 & Ha1 & Hr1).
    destruct (IH r1 Hw1 Ha1) as (r' & ? & ? & ?). exists r'. split_and!; try done.
    rewrite filter_cons. destruct (network_event ev); simpl in *; lia.
Qed.

Lemma drop_stream_abandoned st w r :
  w_wire w = Some r ->
  exists r', w_wire (drop_stream st w) = Some r' /\ abandoned r' /\ wr_pc r' = wr_pc r.
Proof.
  intros Hw. unfold drop_stream, drop_sender, abandoned.
  destruct (as_msg_tx st); rewrite Hw; simpl; rewrite ?Hw; eexists; (split; [done|]); simpl; rewrite mpsc_drop_rx_view; done.
Qed.

(** A send to the dropped receiver fails, and the task goes on from there. *)
Lemma task_send_abandoned it k r : abandoned r -> task_send it k r = task_cont k false r.
Proof.
  intros [Hrx _]. unfold task_send. pose proof (mpsc_send_law _ (wr_msgs r) it) as H.
  destruct (mpsc_send (wr_msgs r) it); simpl in H; [by destruct H; congruence..|done].
Qed.

Lemma task_return_done r : wr_pc (task_return r) = DDone.
Proof. unfold task_return. simpl. by destruct (wr_handed r). Qed.

(** * Property *)

(** C16: what the task of a call destroyed in the middle of a stream can still
    do.  From then on nothing is ever buffered for it and the task takes at
    most four more events from the network, whatever the server keeps sending;
    the next message ends it; before the end of the body so does its deadline;
    and a task that was waiting for room in the buffer no longer waits after
    its next poll.  This bounds what the task takes, not how long it stays:
    nothing cancels it, so it remains until the network says something when
    there is no deadline, and until the trailers come after the last message. *)
Theorem dropped_call_released st w r evs w' :
  w_wire w = Some r -> task_run evs (drop_stream st w) w' ->
  exists r', w_wire w' = Some r'
    /\ mv_queue (mpsc_view (wr_msgs r')) = []
    /\ (length (filter network_event evs) <= 4)%nat
    /\ (forall b w2, driver_event clock (EvMessage (Ok (Some b))) w' = Some w2 -> wr_pc <$> w_wire w2 = Some DDone)
    /\ (forall t w2, wr_pc r' = DReady \/ wr_pc r' = DResponse \/ wr_pc r' = DBody -> wr_deadline r' <= t ->
          driver_event clock (EvTick t) w' = Some w2 -> wr_pc <$> w_wire w2 = Some DDone)
    /\ (forall it k, wr_pc r' = DSend it k ->
          exists pc, wr_pc <$> w_wire (task_poll clock w') = Some pc /\ (pc = DDone \/ pc = DTrailers)).
Proof.
  intros Hw Hrun. destruct (drop_stream_abandoned st w r Hw) as (r0 & Hw0 & Ha0 & Hpc0).
  destruct (task_run_ranked _ _ _ _ Hrun Hw0 Ha0) as (r' & Hw' & Ha & Hr). exists r'. split_and!; [done|by destruct Ha|..].
  - assert (task_rank (wr_pc r0) <= 4)%nat by (destruct (wr_pc r0) as [| | | |? []| |]; simpl; lia). lia.
  - intros b w2. unfold driver_event. rewrite Hw'. destruct (wr_pc r') eqn:E; try done. intros [= <-]. simpl.
    rewrite task_send_abandoned by done. simpl. by rewrite task_return_done.
  - intros t w2 Hpc Ht. unfold driver_event. rewrite Hw'.
    intros [= <-]. unfold on_tick, on_elapsed. destruct Hpc as [E|[E|E]]; rewrite E; simpl;
      rewrite (proj2 (Z.leb_le _ _)) by lia; simpl; rewrite task_send_abandoned by done; simpl; by rewrite task_return_done.
  - intros it k E. unfold task_poll. rewrite Hw', E. simpl. eexists. split; [done|].
    rewrite task_send_abandoned by done. destruct k; simpl; rewrite ?task_return_done; auto.
Qed.

End release.

(** * Witness

    The call is destroyed after the headers; the next message ends the task. *)
Definition wit_dropped : wit_il_world :=
  drop_stream (Tk := TokioModel) (MkStream true None true None true) wit_il_w5.
Definition wit_released : wit_il_world := wit_il_event wit_il_e4 wit_dropped.

Lemma dropped_call_released_witness :
  exists r', w_wire wit_released = Some r'
    /\ mv_queue (mpsc_view (wr_msgs r')) = []
    /\ wr_pc r' = DDone
    /\ (length (filter network_event [wit_il_e4]) <= 4)%nat.
Proof.
  assert (Hrun : task_run (Tk := TokioModel) wit_clock [wit_il_e4] wit_dropped wit_released).
  { eapply tr_event; [refine (wit_il_event_ok wit_il_e4 wit_dropped _); vm_compute; reflexivity|apply tr_nil]. }
  assert (Hw : bool_decide (is_Some (w_wire wit_il_w5)) = true) by (vm_compute; reflexivity).
  assert (Hd : wr_pc <$> w_wire wit_released = Some DDone) by (vm_compute; reflexivity).
  destruct (w_wire wit_il_w5) as [r|] eqn:Hr0; [|discriminate Hw].
  destruct (dropped_call_released (Tk := TokioModel) wit_clock (MkStream true None true None true) wit_il_w5 r
    [wit_il_e4] wit_released Hr0 Hrun) as (r' & Hr & Hq & Hn & _).
  exists r'. split; [exact Hr|]. split; [exact Hq|]. split; [|exact Hn].
  rewrite Hr in Hd. injection Hd as Hd. exact Hd.
Defined.
