(* ===== verification/Unary.v ===== *)
(** Unary calls in src/src/call.rs: [execute_call], which runs the whole call
    in one [block_on], and [build_unary_result]. *)

From Stdlib Require Import ZArith Lia String Strings.Byte.
From stdpp Require Import base gmap list strings.
From S2P Require Import Prelude Utf8 Zend Tokio Tonic Error Runtime Timeval Credentials Channel Metadata Deadline Driver Stream Delivery.

#[local] Open Scope string_scope.
#[local] Open Scope list_scope.
#[local] Open Scope Z_scope.

Section unary.
Context {Zd : ZendApi} {Tn : TonicApi} {Tls : TlsApi} {Ep : EndpointApi Tn Tls} {Tk : TokioApi}.
Context (env_var : option string) (build_error : nat -> option string) (tid : nat).
Context (clock : nat -> clock_reading).

Abbreviation KM := (M CallSt PhpException).

Record CallResult : Type := MkResult {
  cr_initial_metadata : option MetadataMap;
  cr_body : option bytes;
  cr_trailing_metadata : option MetadataMap;
  cr_code : Z;
  cr_message : string;
}.

Definition unary_deadline_exceeded : CallResult :=
  MkResult None None (Some md_default) 4 "Deadline Exceeded".

Definition unary_ok (md : MetadataMap) (body : bytes) : CallResult :=
  MkResult (Some md) (Some body) None 0 "".

Definition unary_status (now : clock_reading) (status : Status) (deadline_usec : Z) : CallResult :=
  let '(code, msg) := status_to_php now status deadline_usec in
  MkResult None None (Some (status_metadata_for_php status)) code msg.

(** The awaits of the future: connecting, then the select over the deadline,
    the response and the cancellation. *)
Inductive UnaryPhase : Type := UReady | UCall.

Fixpoint unary_run (deadline deadline_usec : Z) (request : Request) (phase : UnaryPhase)
    (script : list Event) (w : World) : outcome GrpcError CallResult * World :=
  match script with
  | [] => (Blocked, set_script w [])
  | ev :: rest =>
      match phase, ev with
      | _, EvTick t =>
          let w := set_instant w (Z.max (w_instant w) t) in
          if deadline <=? w_instant w then (Return unary_deadline_exceeded, set_script w rest)
          else unary_run deadline deadline_usec request phase rest w
      | UReady, EvReady (Ok _) =>
          unary_run deadline deadline_usec request UCall rest (set_log w (w_log w ++ [request]))
      | UReady, EvReady (Err e) => (Throw (Transport e), set_script w rest)
      | UCall, EvUnary (Ok (md, body)) => (Return (unary_ok md body), set_script w rest)
      | UCall, EvUnary (Err status) =>
          (Return (unary_status (now clock w) status deadline_usec), set_script (tick w) rest)
      | UCall, EvCancelled =>
          if token_is_cancelled (w_token w)
          then (Throw (StatusError Code_Cancelled "Call cancelled"), set_script w rest)
          else (Blocked, set_script w script)
      | _, _ => (Blocked, set_script w script)
      end
  end.

(** The async block given to [block_on]. *)
Definition unary_future (send_metadata plugin_metadata : list (string * string)) (send_message : option bytes)
    (c : GrpcCall) (w : World) : outcome GrpcError CallResult * World :=
  match path_try_from (cl_method c) with
  | Err e => (Throw (InvalidArg ("invalid method path: " +:+ e)), w)
  | Ok _ =>
      let request := build_request KUnary c (now clock w) send_metadata plugin_metadata
                       (default [] send_message) in
      let w := tick w in
      let deadline := deadline_instant (now clock w) (w_instant w) (cl_deadline_usec c) in
      let w := tick w in
      unary_run deadline (cl_deadline_usec c) request UReady (w_script w) w
  end.

(** The connectivity a finished call shows. *)
Definition unary_state (r : outcome GrpcError CallResult) : Z :=
  match r with
  | Return res => if cr_code res =? 14 then CHANNEL_TRANSIENT_FAILURE else CHANNEL_READY
  | _ => CHANNEL_TRANSIENT_FAILURE
  end.

Definition run_unary (send_metadata plugin_metadata : list (string * string)) (send_message : option bytes)
    : KM CallResult := fun s =>
  let c := cs_call s in
  match unary_future send_metadata plugin_metadata send_message c (cs_w s) with
  | (Blocked, w) => (Blocked, MkCS c w)
  | (r, w) =>
      let w := store_connectivity (cl_channel_shared c) (unary_state r) w in
      (match r with
       | Return res => Return res
       | Throw e => Throw (exn_of_grpc_error e)
       | Blocked => Blocked
       end, MkCS c w)
  end.

Definition execute_call (send_metadata plugin_metadata : list (string * string)) (send_message : option bytes)
    : KM CallResult :=
  _ ← call_get_runtime env_var build_error tid;
  call_pump env_var build_error tid ;;
  s ← get;
  t ← read_clock clock;
  if deadline_already_expired t (cl_deadline_usec (cs_call s)) then mret unary_deadline_exceeded
  else run_unary send_metadata plugin_metadata send_message.

Definition build_unary_result (recv_initial_metadata recv_message recv_status : bool) (result : CallResult)
    : Prelude.result PhpException ZObject :=
  o ← (if recv_initial_metadata
       then v ← metadata_zval (cr_initial_metadata result); set_prop obj_new "metadata" v "metadata"
       else Ok obj_new);
  o ← (if recv_message then set_prop o "message" (message_zval (cr_body result)) "message" else Ok o);
  if recv_status
  then v ← status_zval (cr_trailing_metadata result) (cr_code result) (cr_message result);
       set_prop o "status" v "status"
  else Ok o.

(** * Properties *)

(** A PHP array showing a metadata map, or the empty one. *)
Definition shows_metadata (v : Zval) (md : option MetadataMap) : Prop :=
  match md with
  | Some m => exists ht, metadata_to_php m = Ok ht /\ v = zv_of_ht ht
  | None => v = zv_of_ht ht_new
  end.

Section laws.
Context `{!ZendLaws Zd}.

Lemma metadata_zval_ok md : exists v, metadata_zval md = Ok v /\ shows_metadata v md.
Proof.
  destruct md as [m|]; simpl; [|eauto]. destruct (metadata_to_php_total m) as (ht & -> & _). simpl. eauto.
Qed.

Lemma status_object_ok md code details :
  exists vm so, status_zval md code details = Ok (zv_of_obj so) /\ shows_metadata vm md
    /\ obj_props so = [("metadata", vm); ("code", zv_of_long code); ("details", zv_of_string details)].
Proof.
  destruct md as [m|].
  - destruct (status_zval_ok m code details) as (v & ht & so & Hht & Hv & -> & Hso). simpl.
    exists (zv_of_ht ht), so. eauto.
  - destruct (status_zval_ok md_default code details) as (v & ht & so & Hht & Hv & -> & Hso).
    unfold status_zval. simpl. mred.
    destruct (set_prop_fresh obj_new "metadata" (zv_of_ht ht_new) "status metadata") as (o1 & -> & H1).
    { rewrite obj_props_new. by intros ?%not_elem_of_nil. }
    rewrite obj_props_new in H1. simpl in *.
    destruct (set_prop_fresh o1 "code" (zv_of_long code) "status code") as (o2 & -> & H2).
    { rewrite H1. simpl. by intros ?%list_elem_of_singleton. }
    rewrite H1 in H2. simpl in *.
    destruct (set_prop_fresh o2 "details" (zv_of_string details) "status details") as (o3 & -> & H3).
    { rewrite H2. simpl. intros [?|?%list_elem_of_singleton]%elem_of_cons; done. }
    rewrite H2 in H3. simpl in *. exists (zv_of_ht ht_new), o3. done.
Qed.

Lemma build_unary_result_ok (m b st : bool) (res : CallResult) :
  exists o vm vs so, build_unary_result m b st res = Ok o
    /\ obj_props o = (if m then [("metadata", vm)] else [])
                     ++ (if b then [("message", match cr_body res with
                                                | Some body => zv_of_bytes body
                                                | None => zv_null
                                                end)] else [])
                     ++ (if st then [("status", zv_of_obj so)] else [])
    /\ shows_metadata vm (cr_initial_metadata res)
    /\ shows_metadata vs (cr_trailing_metadata res)
    /\ obj_props so = [("metadata", vs); ("code", zv_of_long (cr_code res));
                       ("details", zv_of_string (cr_message res))].
Proof.
  destruct (metadata_zval_ok (cr_initial_metadata res)) as (vm & Hvm & Hsm).
  destruct (status_object_ok (cr_trailing_metadata res) (cr_code res) (cr_message res)) as (vs & so & Hso & Hsv & Hps).
  assert (Hfresh : forall o k v what, k ∉ (obj_props o).*1 ->
    exists o', set_prop o k v what = Ok o' /\ obj_props o' = obj_props o ++ [(k, v)]) by apply set_prop_fresh.
  assert (H1 : exists o, (if m then v ← metadata_zval (cr_initial_metadata res); set_prop obj_new "metadata" v "metadata"
                          else Ok obj_new) = Ok o /\ obj_props o = if m then [("metadata", vm)] else []).
  { destruct m; [|exists obj_new; by rewrite obj_props_new]. rewrite Hvm. mred.
    destruct (Hfresh obj_new "metadata" vm "metadata") as (o & -> & Ho);
      rewrite ?obj_props_new in *; [by intros ?%not_elem_of_nil|eauto]. }
  destruct H1 as (o1 & H1 & Hp1).
  set (vb := match cr_body res with Some body => zv_of_bytes body | None => zv_null end).
  assert (H2 : exists o, (if b then set_prop o1 "message" (message_zval (cr_body res)) "message" else Ok o1) = Ok o
            /\ obj_props o = (if m then [("metadata", vm)] else []) ++ (if b then [("message", vb)] else [])).
  { destruct b; [|exists o1; by rewrite app_nil_r].
    destruct (Hfresh o1 "message" (message_zval (cr_body res)) "message") as (o & -> & Ho).
    { rewrite Hp1. destruct m; simpl; [by intros ?%list_elem_of_singleton|by intros ?%not_elem_of_nil]. }
    exists o. rewrite Ho, Hp1. subst vb. by destruct (cr_body res). }
  destruct H2 as (o2 & H2 & Hp2).
  unfold build_unary_result. rewrite H1. mred. rewrite H2. mred.
  destruct st; [|exists o2, vm, vs, so; rewrite app_nil_r; done].
  rewrite Hso. mred. destruct (Hfresh o2 "status" (zv_of_obj so) "status") as (o3 & -> & Ho).
  { rewrite Hp2. destruct m, b; simpl; intros Hin;
      repeat (apply elem_of_cons in Hin as [?|Hin]; [done|]); by apply not_elem_of_nil in Hin. }
  exists o3, vm, vs, so. rewrite Ho, Hp2, <- app_assoc. done.
Qed.

(** The result object of a unary call always builds, has exactly the
    properties asked for in the order metadata, message, status, and shows the
    call's outcome: a body as its bytes (the empty body as the empty string,
    not null), no body as null, and in the status the metadata, the code and
    the details, in this order. *)
Theorem unary_result_object (m b st : bool) (res : CallResult) :
  exists o vm vs so, build_unary_result m b st res = Ok o
    /\ obj_props o = (if m then [("metadata", vm)] else [])
                     ++ (if b then [("message", match cr_body res with
                                                | Some body => zv_of_bytes body
                                                | None => zv_null
                                                end)] else [])
                     ++ (if st then [("status", zv_of_obj so)] else [])
    /\ shows_metadata vm (cr_initial_metadata res)
    /\ shows_metadata vs (cr_trailing_metadata res)
    /\ obj_props so = [("metadata", vs); ("code", zv_of_long (cr_code res));
                       ("details", zv_of_string (cr_message res))].
Proof. apply build_unary_result_ok. Qed.

End laws.

(** Time passing before the deadline changes nothing else. *)
Lemma unary_ticks deadline dl rq ph ts rest w :
  Forall (fun t => t < deadline) ts -> w_instant w < deadline ->
  exists w', unary_run deadline dl rq ph ((EvTick <$> ts) ++ rest) w = unary_run deadline dl rq ph rest w'
    /\ w_instant w' < deadline /\ w_log w' = w_log w /\ w_chan w' = w_chan w /\ w_token w' = w_token w
    /\ w_ticks w' = w_ticks w.
Proof.
  intros Hf. revert w. induction Hf as [|t ts Ht Hf IH]; intros w Hw; [by exists w|].
  csimpl. rewrite (proj2 (Z.leb_gt _ _)) by lia. simpl.
  destruct (IH (set_instant w (Z.max (w_instant w) t))) as (w' & Hw' & H); [simpl; lia|].
  exists w'. split; [|exact H]. by destruct ph.
Qed.

(** C18: the deadline bounds the whole call, connection establishment included:
    when no connection comes up, time passing up to the deadline makes the
    call answer DEADLINE_EXCEEDED, with nothing handed to tonic; and the same
    while a request is in flight, handed to tonic exactly once. *)
Theorem unary_deadline_bounds_connect md pm msg c w dls ts t1 rest :
  path_try_from (cl_method c) = Ok tt ->
  deadline_instant (clock (S (w_ticks w))) (w_instant w) (cl_deadline_usec c) = dls ->
  w_instant w < dls -> Forall (fun t => t < dls) ts -> dls <= t1 ->
  (w_script w = (EvTick <$> ts) ++ EvTick t1 :: rest ->
     exists w', unary_future md pm msg c w = (Return unary_deadline_exceeded, w')
       /\ w_log w' = w_log w /\ w_script w' = rest)
  /\ (w_script w = EvReady (Ok tt) :: (EvTick <$> ts) ++ EvTick t1 :: rest ->
     exists w' rq, unary_future md pm msg c w = (Return unary_deadline_exceeded, w')
       /\ w_log w' = w_log w ++ [rq] /\ rq_message rq = default [] msg
       /\ rq_metadata rq = apply_metadata md pm /\ w_script w' = rest).
Proof.
  intros Hp Hd Hi Hf Ht. unfold unary_future. rewrite Hp. cbv zeta. unfold now.
  change (clock (w_ticks (tick w))) with (clock (S (w_ticks w))). change (w_instant (tick w)) with (w_instant w).
  rewrite Hd.
  set (rq := build_request _ _ _ _ _ _). set (w1 := tick (tick w)). split; intros Hs.
  - change (w_script w1) with (w_script w). rewrite Hs.
    destruct (unary_ticks dls (cl_deadline_usec c) rq UReady ts (EvTick t1 :: rest) w1 Hf Hi)
      as (w' & -> & Hi' & Hl & _). simpl. rewrite (proj2 (Z.leb_le _ _)) by lia. eexists. done.
  - change (w_script w1) with (w_script w). rewrite Hs. simpl.
    destruct (unary_ticks dls (cl_deadline_usec c) rq UCall ts (EvTick t1 :: rest)
      (set_log w1 (w_log w ++ [rq])) Hf Hi) as (w' & -> & Hi' & Hl & _).
    simpl. rewrite (proj2 (Z.leb_le _ _)) by lia. eexists _, rq. simpl. split_and!; try done.
Qed.

(** The future leaves the channels alone and hands over at most one request. *)
Lemma unary_run_frame deadline dl rq ph script w :
  w_chan (unary_run deadline dl rq ph script w).2 = w_chan w
  /\ (w_log (unary_run deadline dl rq ph script w).2 = w_log w
      \/ ph = UReady /\ w_log (unary_run deadline dl rq ph script w).2 = w_log w ++ [rq]).
Proof.
  revert ph w. induction script as [|ev script IH]; intros ph w; [by simpl; auto|].
  cbn [unary_run]. destruct ph, ev as [[]|[]|[[]|]| |[[]|]|t| | |]; simpl; auto; try (case_match; simpl; auto).
  - destruct (IH UCall (set_log w (w_log w ++ [rq]))) as [-> [-> | [? _]]]; [|done]. simpl. auto.
  - destruct (IH UReady (set_instant w (Z.max (w_instant w) t))) as [-> [-> | [_ ->]]]; simpl; auto.
  - destruct (IH UCall (set_instant w (Z.max (w_instant w) t))) as [-> [-> | [? _]]]; simpl; auto; done.
Qed.

Lemma unary_future_frame md pm msg c w :
  w_chan (unary_future md pm msg c w).2 = w_chan w
  /\ (w_log (unary_future md pm msg c w).2 = w_log w
      \/ exists rq, w_log (unary_future md pm msg c w).2 = w_log w ++ [rq]).
Proof.
  unfold unary_future. destruct (path_try_from (cl_method c)); [|by simpl; auto].
  match goal with |- context [unary_run ?d ?dl ?rq ?ph ?sc ?w0] =>
    destruct (unary_run_frame d dl rq ph sc w0) as [H1 [H2|[_ H2]]] end; rewrite H1, H2; simpl; eauto.
Qed.

Lemma store_connectivity_state id next w id' :
  shared_state id' (w_chan (store_connectivity (Some id) next w))
  = if bool_decide (id' = id /\ (id < length (ch_shared (w_chan w)))%nat) then next
    else shared_state id' (w_chan w).
Proof.
  clear env_var build_error tid clock. unfold store_connectivity, shared_state. simpl. case_bool_decide as H.
  - destruct H as [-> Hl]. rewrite list_lookup_alter_eq.
    destruct (lookup_lt_is_Some_2 _ _ Hl) as [sh ->]. done.
  - destruct (decide (id' = id)) as [->|Hne]; [|by rewrite list_lookup_alter_ne].
    rewrite list_lookup_alter_eq. destruct (ch_shared (w_chan w) !! id) eqn:E; [|done].
    apply lookup_lt_Some in E. tauto.
Qed.

Lemma run_unary_update md pm msg s r s' id id' :
  run_unary md pm msg s = (r, s') -> r <> Blocked -> cl_channel_shared (cs_call s) = Some id ->
  (id < length (ch_shared (w_chan (cs_w s))))%nat ->
  cs_call s' = cs_call s
  /\ shared_state id' (w_chan (cs_w s'))
     = (if bool_decide (id' = id)
        then match r with
             | Return res => if cr_code res =? 14 then CHANNEL_TRANSIENT_FAILURE else CHANNEL_READY
             | _ => CHANNEL_TRANSIENT_FAILURE
             end
        else shared_state id' (w_chan (cs_w s)))
  /\ (w_log (cs_w s') = w_log (cs_w s) \/ exists rq, w_log (cs_w s') = w_log (cs_w s) ++ [rq]).
Proof.
  clear env_var build_error tid. unfold run_unary. intros Hrun Hb Hsh Hlen.
  destruct (unary_future_frame md pm msg (cs_call s) (cs_w s)) as [Hc Hl].
  destruct (unary_future md pm msg (cs_call s) (cs_w s)) as [[res|e|] w]; simplify_eq/=; try done;
    rewrite Hsh; (split; [done|]); (split; [|exact Hl]);
    rewrite ?store_connectivity_state, ?Hc.
  - unfold unary_state. repeat case_bool_decide; try tauto; done.
  - repeat case_bool_decide; try tauto; done.
Qed.

(** C20: what a unary call that comes back leaves of the connectivity the pump
    before it left ([c2]).  A call whose deadline has already passed comes back
    with DEADLINE_EXCEEDED, hands nothing to tonic and stores nothing.  Every
    other call hands over at most one request and updates the state of its own
    transport and of no other: TRANSIENT_FAILURE when it throws or reports
    UNAVAILABLE, READY in every other case.  The call object is untouched. *)
Theorem unary_connectivity_update md pm msg s r s' id id' rt c1 c2 :
  channel_get_runtime env_var build_error tid (w_chan (cs_w s)) = (Return rt, c1) ->
  channel_pump env_var build_error tid c1 = (Return tt, c2) ->
  execute_call md pm msg s = (r, s') -> r <> Blocked -> cl_channel_shared (cs_call s) = Some id ->
  (id < length (ch_shared c2))%nat ->
  cs_call s' = cs_call s
  /\ if deadline_already_expired (clock (w_ticks (cs_w s))) (cl_deadline_usec (cs_call s))
     then r = Return unary_deadline_exceeded /\ w_chan (cs_w s') = c2 /\ w_log (cs_w s') = w_log (cs_w s)
     else shared_state id' (w_chan (cs_w s'))
          = (if bool_decide (id' = id)
             then match r with
                  | Return res => if cr_code res =? 14 then CHANNEL_TRANSIENT_FAILURE else CHANNEL_READY
                  | _ => CHANNEL_TRANSIENT_FAILURE
                  end
             else shared_state id' c2)
          /\ (w_log (cs_w s') = w_log (cs_w s) \/ exists rq, w_log (cs_w s') = w_log (cs_w s) ++ [rq]).
Proof.
  intros Hrt Hpump Hex Hb Hsh Hlen. revert Hex.
  unfold execute_call, call_get_runtime, call_pump, in_chan, read_clock. mred. rewrite Hrt. simpl. rewrite Hpump. simpl.
  unfold now. simpl. destruct (deadline_already_expired _ _); simpl; [by intros [= <- <-]|]. intros Hrun.
  destruct (run_unary_update _ _ _ _ _ _ id id' Hrun Hb Hsh Hlen) as (Hc & Hst & Hl). by split.
Qed.

(** A unary call whose deadline passes before any connection was made still
    marks its transport READY, although nothing was ever sent over it. *)
Theorem connect_timeout_marks_ready md pm msg s dls ts t1 rest id :
  path_try_from (cl_method (cs_call s)) = Ok tt ->
  deadline_instant (clock (S (w_ticks (cs_w s)))) (w_instant (cs_w s)) (cl_deadline_usec (cs_call s)) = dls ->
  w_instant (cs_w s) < dls -> Forall (fun t => t < dls) ts -> dls <= t1 ->
  w_script (cs_w s) = (EvTick <$> ts) ++ EvTick t1 :: rest ->
  cl_channel_shared (cs_call s) = Some id -> (id < length (ch_shared (w_chan (cs_w s))))%nat ->
  exists s', run_unary md pm msg s = (Return unary_deadline_exceeded, s')
    /\ w_log (cs_w s') = w_log (cs_w s)
    /\ shared_state id (w_chan (cs_w s')) = CHANNEL_READY.
Proof.
  intros Hp Hd Hi Hf Ht Hs Hsh Hlen. unfold run_unary, unary_future. rewrite Hp. cbv zeta. unfold now.
  change (clock (w_ticks (tick (cs_w s)))) with (clock (S (w_ticks (cs_w s)))).
  change (w_instant (tick (cs_w s))) with (w_instant (cs_w s)). rewrite Hd.
  change (w_script (tick (tick (cs_w s)))) with (w_script (cs_w s)). rewrite Hs.
  match goal with |- context [unary_run ?d ?dl ?rq ?ph _ ?w0] =>
    destruct (unary_ticks d dl rq ph ts (EvTick t1 :: rest) w0 Hf Hi) as (w' & -> & Hi' & Hl & Hc & _) end.
  simpl. rewrite (proj2 (Z.leb_le _ _)) by lia. eexists. split; [reflexivity|]. rewrite Hsh. split; [done|].
  etrans; [exact (store_connectivity_state id CHANNEL_READY
    (set_script (set_instant w' (Z.max (w_instant w') t1)) rest) id)|].
  simpl. rewrite Hc. by rewrite bool_decide_true.
Qed.

End unary.

(** * Witnesses *)
Lemma unary_deadline_bounds_connect_witness :
  exists w', unary_future (Zd := ZendModel) (Tk := TokioModel) wit_clock [] [] None (wit_call 500 None)
               (wit_world [EvTick 10; EvTick 700; EvPull]) = (Return unary_deadline_exceeded, w')
    /\ w_log w' = [] /\ w_script w' = [EvPull].
Proof.
  apply (unary_deadline_bounds_connect (Zd := ZendModel) (Tk := TokioModel) wit_clock [] [] None (wit_call 500 None)
    (wit_world [EvTick 10; EvTick 700; EvPull]) 499 [10] 700 [EvPull] eq_refl eq_refl);
    [simpl; lia|repeat constructor; lia|lia|reflexivity].
Defined.

Definition wit_unary_call := wit_state 500 [EvTick 10; EvTick 700].
Definition wit_unary_rt :=
  channel_get_runtime (Ep := EndpointModel) None (fun _ => None) 0%nat (w_chan (cs_w wit_unary_call)).
Definition wit_unary_pump :=
  channel_pump (Ep := EndpointModel) None (fun _ => None) 0%nat wit_unary_rt.2.
Definition wit_unary_done :=
  execute_call (Zd := ZendModel) (Tk := TokioModel) None (fun _ => None) 0%nat wit_clock [] [] None wit_unary_call.

Lemma unary_connectivity_update_witness :
  shared_state 0 (w_chan (cs_w wit_unary_done.2)) = CHANNEL_READY.
Proof.
  assert (H1 : wit_unary_rt = (Return 0%nat, wit_unary_rt.2)) by (apply run_fst; vm_compute; reflexivity).
  assert (H2 : wit_unary_pump = (Return tt, wit_unary_pump.2)) by (apply run_fst; vm_compute; reflexivity).
  assert (H3 : wit_unary_done = (Return unary_deadline_exceeded, wit_unary_done.2)) by (apply run_fst; vm_compute; reflexivity).
  pose proof (unary_connectivity_update (Zd := ZendModel) (Tk := TokioModel) None (fun _ => None) 0%nat wit_clock [] [] None
    wit_unary_call (Return unary_deadline_exceeded) wit_unary_done.2 0 0 _ _ _ H1 H2 H3 ltac:(discriminate) eq_refl
    ltac:(vm_compute; lia)) as [_ H].
  assert (He : deadline_already_expired (wit_clock (w_ticks (cs_w wit_unary_call))) (cl_deadline_usec (cs_call wit_unary_call)) = false)
    by (vm_compute; reflexivity).
  rewrite He in H. exact (proj1 H).
Defined.

Lemma connect_timeout_marks_ready_witness :
  exists s', run_unary (Zd := ZendModel) (Tk := TokioModel) wit_clock [] [] None
               (wit_state 500 [EvTick 10; EvTick 700]) = (Return unary_deadline_exceeded, s')
    /\ w_log (cs_w s') = [] /\ shared_state 0 (w_chan (cs_w s')) = CHANNEL_READY.
Proof.
  apply (connect_timeout_marks_ready (Zd := ZendModel) (Tk := TokioModel) wit_clock [] [] None
    (wit_state 500 [EvTick 10; EvTick 700]) 499 [10] 700 [] 0 eq_refl eq_refl);
    [simpl; lia|repeat constructor; lia|lia|reflexivity|reflexivity|simpl; lia].
Defined.
