(* ===== verification/Frame.v ===== *)
(** What the methods of a call never touch.

    Whatever the stream task, the network and the PHP side of a call do, the
    cancellation token is changed by [cancel] only, the flags of closed
    channels and the registry of transports by the methods of [Grpc\Channel]
    only, and a connectivity state is only ever replaced by another one of the
    registered constants. *)

From Stdlib Require Import ZArith Lia String Strings.Byte.
From stdpp Require Import base gmap list strings.
From S2P Require Import Prelude Utf8 Zend Tokio Tonic Error Runtime Timeval Credentials Channel Metadata Deadline Driver Stream Delivery Bidi Unary.

#[local] Open Scope string_scope.
#[local] Open Scope list_scope.
#[local] Open Scope Z_scope.

Section frame.
Context {Zd : ZendApi} {Tn : TonicApi} {Tls : TlsApi} {Ep : EndpointApi Tn Tls} {Tk : TokioApi}.
Context (env_var : option string) (build_error : nat -> option string) (tid : nat).
Context (clock : nat -> clock_reading) (select : nat -> bool).

Abbreviation KM := (M CallSt PhpException).

(** * Worlds *)

(** What a task was spawned with. *)
Definition wire_call (r : Wire) : option nat * Z * Request := (wr_shared r, wr_deadline_usec r, wr_request r).

(** Two worlds with the same token and the same task, and the same channels up
    to their connectivity. *)
Record world_keep (w w' : World) : Prop := {
  wk_token : w_token w' = w_token w;
  wk_chan : state_only (w_chan w) (w_chan w');
  wk_wire : wire_call <$> w_wire w' = wire_call <$> w_wire w;
}.

#[global] Instance world_keep_preorder : PreOrder world_keep.
Proof. split; [by split|]. intros w1 w2 w3 [] []. split; [congruence|by etrans|congruence]. Qed.

Lemma world_keep_same w w' :
  w_token w' = w_token w -> w_chan w' = w_chan w -> w_wire w' = w_wire w -> world_keep w w'.
Proof. intros Ht Hc Hw. split; [done|by rewrite Hc|by rewrite Hw]. Qed.

Lemma world_keep_wire w w' r r' :
  w_wire w = Some r -> wire_call r' = wire_call r -> world_keep w w' -> world_keep w (set_wire w' r').
Proof. intros Hw Hr []. split; [done|done|]. rewrite Hw. simpl. by rewrite Hr. Qed.

Lemma task_return_call r : wire_call (task_return r) = wire_call r.
Proof. unfold task_return. by destruct (wr_handed _). Qed.

Lemma task_send_call it k r : wire_call (task_send it k r) = wire_call r.
Proof.
  unfold task_send. destruct (mpsc_send (wr_msgs r) it); [|done|]; destruct k; simpl; rewrite ?task_return_call; done.
Qed.

Lemma world_keep_tick w w' : world_keep w w' -> world_keep w (tick w').
Proof. intros H. etrans; [exact H|]. by apply world_keep_same. Qed.

Lemma world_keep_log w w' l : world_keep w w' -> world_keep w (set_log w' l).
Proof. intros H. etrans; [exact H|]. by apply world_keep_same. Qed.

Create HintDb frame.
#[local] Hint Resolve world_keep_tick world_keep_log : frame.
#[local] Hint Extern 2 (world_keep _ _) => by apply world_keep_same : frame.
#[local] Hint Extern 3 (world_keep _ (set_wire _ _)) => eapply world_keep_wire; [eassumption| |] : frame.
#[local] Hint Extern 1 (wire_call _ = wire_call _) => first [done | rewrite ?task_send_call, ?task_return_call; done] : frame.

Lemma task_poll_keep w : world_keep w (task_poll clock w).
Proof. unfold task_poll. destruct (w_wire w) as [r|] eqn:Hw; [|done]. destruct (wr_pc r); auto with frame. Qed.

Lemma response_state_range r : 1 <= response_state r <= 3.
Proof. unfold response_state, CHANNEL_READY, CHANNEL_TRANSIENT_FAILURE. destruct r; [lia|case_match; lia]. Qed.

Lemma unary_state_range r : 1 <= unary_state r <= 3.
Proof. unfold unary_state, CHANNEL_READY, CHANNEL_TRANSIENT_FAILURE. destruct r; [case_match; lia|lia|lia]. Qed.

Lemma store_connectivity_keep sh n w : 1 <= n <= 3 -> world_keep w (store_connectivity sh n w).
Proof. intros Hn. destruct sh as [id|]; [|done]. split; [done|by apply set_shared_state_only|done]. Qed.

Lemma driver_event_keep ev w w' : driver_event clock ev w = Some w' -> world_keep w w'.
Proof.
  unfold driver_event. destruct (w_wire w) as [r|] eqn:Hw; [|destruct ev; intros; simplify_eq; auto with frame].
  destruct ev as [x|x|x|x|x|t| | |]; destruct (wr_pc r) eqn:E; try done; intros; simplify_eq/=;
    unfold on_ready, on_message, on_tick, on_elapsed, on_trailers, on_pull, on_req_drop in *;
    repeat (case_match; simplify_eq/=); auto with frame.
  unfold on_response. pose proof (store_connectivity_keep (wr_shared r) _ w (response_state_range x)).
  destruct x; auto with frame.
Qed.

Lemma recv_item_keep recv w : world_keep w (recv_item recv w).2.
Proof. unfold recv_item. destruct (w_wire w) as [r|] eqn:Hw; [|done]. destruct (recv (wr_msgs r)); simpl; auto with frame. Qed.

Lemma send_poll_keep m l w : world_keep w (send_poll m l w).2.
Proof. unfold send_poll. repeat (case_match; simpl); auto with frame. Qed.

Lemma meta_poll_keep l w : world_keep w (meta_poll l w).2.
Proof. unfold meta_poll. by repeat case_match. Qed.

Lemma drain_loop_keep fuel d w : world_keep w (drain_loop select fuel d w).2.
Proof.
  revert d w. induction fuel as [|fuel IH]; intros [] w; try done. cbn [drain_loop].
  assert (H0 : world_keep w (set_polls w (S (w_polls w)))) by auto with frame.
  pose proof (recv_item_keep mpsc_recv (set_polls w (S (w_polls w)))) as Hr.
  destruct (recv_item mpsc_recv _) as [[[[[b|]|e]|]|] w']; simpl in *;
    destruct (select (w_polls w)); repeat (case_match; simpl); try exact H0;
    (etrans; [exact H0|]); (etrans; [exact Hr|]); first [apply IH|done].
Qed.

Lemma unary_run_keep deadline dl rq ph script w : world_keep w (unary_run clock deadline dl rq ph script w).2.
Proof.
  revert ph w. induction script as [|ev script IH]; intros ph w; [simpl; auto with frame|].
  cbn [unary_run]. destruct ph, ev as [[]|[]|[[]|]| |[[]|]|t| | |]; simpl; auto with frame;
    try (case_match; simpl; auto with frame); (etrans; [|apply IH]); auto with frame.
Qed.

Lemma unary_future_keep md pm m c w : world_keep w (unary_future clock md pm m c w).2.
Proof.
  unfold unary_future. destruct (path_try_from (cl_method c)); [|done].
  etrans; [|apply unary_run_keep]. auto with frame.
Qed.

Lemma block_on_keep {E A L} (poll : L -> World -> option A * L * World) l w :
  (forall l w, world_keep w (poll l w).2) -> world_keep w (block_on (E := E) clock poll l w).2.
Proof.
  intros Hp.
  assert (Hs : forall w0 evs, world_keep w w0 -> world_keep w (set_script w0 evs)).
  { intros w0 evs H0. etrans; [exact H0|]. auto with frame. }
  pose proof (block_on_post clock (E := E) (world_keep w) (fun _ => world_keep w) poll l w) as H.
  destruct (block_on _ _ _ _) as [[] w']; simpl; apply H; auto; clear H;
    first [done | intros w0 H0; etrans; [exact H0|apply task_poll_keep]
          | intros ev w0 w1 He H0; etrans; [exact H0|by eapply driver_event_keep]
          | intros l0 w0 H0; specialize (Hp l0 w0); destruct (poll l0 w0) as [[[] ?] ?]; by etrans].
Qed.

(** * Methods *)

(** Facts that depend on the call's flags, the token and the channels only. *)
Record stable (J : CallSt -> Prop) : Prop := {
  st_world : forall c w w', J (MkCS c w) -> world_keep w w' -> J (MkCS c w');
  st_stream : forall c w st, J (MkCS c w) -> J (MkCS (cl_set_stream c st) w);
  st_spawn : forall c w req kind t md pm m, J (MkCS c w) ->
    J (MkCS c (set_wire w (spawn_task c req (build_request kind c t md pm m))));
  st_pending : forall c w md m, J (MkCS c w) -> J (MkCS (cl_set_pending c md m) w);
}.

Definition flags_are (closed sent finished : bool) (tok : CancellationToken) (s : CallSt) : Prop :=
  cl_send_closed (cs_call s) = closed /\ cl_initial_metadata_sent (cs_call s) = sent
  /\ cl_finished (cs_call s) = finished /\ w_token (cs_w s) = tok.

Lemma flags_stable a b c t : stable (flags_are a b c t).
Proof. split; unfold flags_are; simpl; try done. by intros c0 w w' (?&?&?&<-) [-> _ _]. Qed.

Section methods.
Context (J : CallSt -> Prop) (HJ : stable J).

Abbreviation T := (fun _ => True).

Lemma keeps_weaken {A} (m : KM A) (Q : A -> Prop) : keeps J m Q -> keeps J m T.
Proof. intros H s Hs. destruct (H s Hs). split; [done|]. by destruct (m s).1. Qed.

Lemma keeps_T {A} (m : KM A) : (forall s, J s -> J (m s).2) -> keeps J m T.
Proof. intros H s Hs. split; [by apply H|]. by destruct (m s).1. Qed.

Lemma keeps_seq {A B} (m : KM A) (f : A -> KM B) :
  keeps J m T -> (forall a, keeps J (f a) T) -> keeps J (m ≫= f) T.
Proof. intros H1 H2. eapply keeps_bind; eauto. Qed.

Lemma keeps_get : keeps J get T.
Proof. by apply keeps_T. Qed.

Lemma keeps_throw {A} (e : PhpException) : keeps J (throw (A := A) e) T.
Proof. by apply keeps_T. Qed.

Lemma keeps_on_world f : (forall w, world_keep w (f w)) -> keeps J (on_world f) T.
Proof. intros Hf. apply keeps_T. intros [c w] Hs. simpl. by eapply (st_world _ HJ). Qed.

Lemma keeps_set_stream st : keeps J (on_call (fun c => cl_set_stream c st)) T.
Proof. apply keeps_T. intros [c w] Hs. by apply (st_stream _ HJ). Qed.

Lemma keeps_in_chan {A} (m : M ChanState PhpException A) :
  (forall c, state_only c (m c).2) -> keeps J (in_chan m) T.
Proof.
  intros Hm. apply keeps_T. intros [c w] Hs. unfold in_chan. simpl. specialize (Hm (w_chan w)).
  destruct (m (w_chan w)). simpl in *. by eapply (st_world _ HJ).
Qed.

Lemma keeps_runtime_J : keeps J (call_get_runtime env_var build_error tid) T.
Proof.
  apply keeps_in_chan. intros c. destruct (channel_get_runtime _ _ _ c) as [r c'] eqn:E.
  by apply channel_get_runtime_only in E as (_ & _ & _ & H).
Qed.

Lemma keeps_pump_J : keeps J (call_pump env_var build_error tid) T.
Proof.
  apply keeps_in_chan. intros c. destruct (channel_pump _ _ _ c) as [r c'] eqn:E. by eapply channel_pump_only.
Qed.

Lemma keeps_clock : keeps J (read_clock clock) T.
Proof. apply keeps_T. intros [c w] Hs. eapply (st_world _ HJ); [done|]. auto with frame. Qed.

Lemma keeps_await_J {A L} (poll : L -> World -> option A * L * World) l :
  (forall l w, world_keep w (poll l w).2) -> keeps J (await clock poll l) T.
Proof.
  intros Hp. apply keeps_T. intros [c w] Hs. unfold await. simpl.
  pose proof (block_on_keep (E := PhpException) poll l w Hp) as H.
  destruct (block_on _ _ _ _) as [r w']. simpl in *. by eapply (st_world _ HJ).
Qed.

Lemma recv_poll_keep l w : world_keep w (recv_poll l w).2.
Proof. unfold recv_poll. pose proof (recv_item_keep mpsc_recv w). by destruct (recv_item _ _). Qed.

Lemma keeps_get_stream_J : keeps J get_stream T.
Proof. apply keeps_T. intros s Hs. unfold get_stream. mred. by destruct (cl_stream_state (cs_call s)). Qed.

#[local] Hint Resolve keeps_get keeps_throw keeps_set_stream keeps_runtime_J keeps_pump_J keeps_clock keeps_get_stream_J
  keeps_lift : core.
#[local] Hint Extern 1 (keeps J (mret _) T) => by apply keeps_ret : core.

Lemma keeps_send_message m : keeps J (send_stream_message env_var build_error tid clock m) T.
Proof.
  unfold send_stream_message. apply keeps_seq; [auto|intros _].
  apply keeps_seq; [auto|intros s]. destruct (cl_stream_state (cs_call s)) as [st|]; [|auto].
  destruct (as_msg_tx st); [|auto]. apply keeps_seq.
  - apply keeps_await_J, send_poll_keep.
  - intros [[]|[]]; auto.
Qed.

Lemma keeps_close : keeps J close_stream_send T.
Proof.
  unfold close_stream_send. apply keeps_seq; [auto|intros s].
  destruct (cl_stream_state (cs_call s)) as [st|]; [|auto]. apply keeps_seq; [auto|intros _].
  destruct (as_msg_tx st); [|auto]. apply keeps_on_world. intros w. unfold drop_sender. destruct (w_wire w) eqn:Hw; auto with frame.
Qed.

Lemma keeps_build_J batch : keeps J (build_stream_result env_var build_error tid clock select batch) T.
Proof.
  unfold build_stream_result. apply keeps_seq; [auto|intros _].
  apply keeps_seq; [auto|intros _]. apply keeps_seq; [|intros o; apply keeps_seq; [|intros o']].
  - destruct (b_recv_initial_metadata batch); [|auto]. unfold recv_metadata, put_stream.
    apply keeps_seq; [auto|intros st]. apply keeps_seq; [|intros _].
    + destruct (bool_decide _ && _); [|auto]. apply keeps_seq; [auto|intros _].
      apply keeps_seq; [|auto]. apply keeps_await_J, meta_poll_keep.
    + apply keeps_seq; [auto|intros st']. apply keeps_seq; [auto|intros _]. apply keeps_seq; auto.
  - destruct (b_recv_message batch); [|auto]. unfold recv_message, put_stream.
    apply keeps_seq; [auto|intros st]. destruct (as_cached_trailers st); [auto|].
    apply keeps_seq.
    + apply keeps_T. intros [c w] Hs. unfold next_item. simpl.
      pose proof (recv_item_keep mpsc_try_recv w) as Ht.
      destruct (recv_item mpsc_try_recv w) as [[a|] w']; simpl in *; [by eapply (st_world _ HJ)|].
      apply (keeps_await_J recv_poll tt); [exact recv_poll_keep|by eapply (st_world _ HJ)].
    + intros [[[b|]|e]|]; auto. apply keeps_seq; [auto|intros s]. apply keeps_seq; [auto|intros t].
      apply keeps_seq; auto.
  - destruct (b_recv_status batch); [|auto]. unfold recv_status. apply keeps_seq.
    + unfold final_trailers, put_stream. apply keeps_seq; [auto|intros st].
      destruct (as_cached_trailers st); [apply keeps_seq; auto|].
      destruct (as_trailers_rx st); [|auto]. apply keeps_seq; [auto|intros _].
      apply keeps_seq; [|auto]. apply keeps_await_J. intros d w. apply drain_loop_keep.
    + intros t. apply keeps_seq; auto.
Qed.

Lemma keeps_start_with kind req st md pm msg : keeps J (start_with env_var build_error tid clock kind req st md pm msg) T.
Proof.
  unfold start_with. do 2 (apply keeps_seq; [auto|intros _]). apply keeps_T. intros [c w] Hs.
  assert (Ht : forall w', J (MkCS c w') -> J (MkCS c (tick w'))).
  { intros w' H. eapply (st_world _ HJ); [exact H|]. auto with frame. }
  unfold read_clock, on_call, on_world. mred. destruct (deadline_already_expired _ _); mred.
  - by apply (st_stream _ HJ), Ht.
  - destruct (path_try_from (cl_method c)); mred; [|by apply Ht].
    by apply (st_stream _ HJ), (st_spawn _ HJ), Ht, Ht.
Qed.

Lemma keeps_start_server md pm m : keeps J (start_server_stream env_var build_error tid clock md pm m) T.
Proof. rewrite start_server_with. apply keeps_start_with. Qed.

Lemma keeps_start_bidi md pm : keeps J (start_bidi_stream env_var build_error tid clock md pm) T.
Proof. rewrite start_bidi_with. apply keeps_start_with. Qed.

Lemma keeps_execute md pm m : keeps J (execute_call env_var build_error tid clock md pm m) T.
Proof.
  unfold execute_call. do 2 (apply keeps_seq; [auto|intros _]).
  apply keeps_seq; [auto|intros s]. apply keeps_seq; [auto|intros t].
  destruct (deadline_already_expired _ _); [auto|]. apply keeps_T. intros [c w] Hs. unfold run_unary. simpl.
  pose proof (unary_future_keep md pm m c w) as Ht.
  destruct (unary_future clock md pm m c w) as [r w']. pose proof (unary_state_range r) as Hr.
  destruct r; simpl in *; (eapply (st_world _ HJ); [exact Hs|]); try done;
    (etrans; [exact Ht|]); by apply store_connectivity_keep.
Qed.

End methods.

End frame.
