(* ===== verification/Call.v ===== *)
(** src/src/call.rs: [Grpc\Call], its constructor and methods, the batch
    parser and the routing of a batch to the unary and streaming machinery.

    The credentials plugin is PHP code: [php_call] gives the outcome of the
    n-th call of a callable.  Host names are resolved by [lookup_host]. *)

From Stdlib Require Import ZArith Lia String Strings.Byte.
From stdpp Require Import base gmap list strings.
From S2P Require Import Prelude Utf8 Zend Tokio Tonic Error Runtime Timeval Credentials Channel Metadata Deadline Driver Stream Delivery Bidi Unary Frame.

#[local] Open Scope string_scope.
#[local] Open Scope list_scope.
#[local] Open Scope Z_scope.

Definition OP_SEND_INITIAL_METADATA : Z := 0.
Definition OP_SEND_MESSAGE : Z := 1.
Definition OP_SEND_CLOSE_FROM_CLIENT : Z := 2.
Definition OP_RECV_INITIAL_METADATA : Z := 4.
Definition OP_RECV_MESSAGE : Z := 5.
Definition OP_RECV_STATUS_ON_CLIENT : Z := 6.

(** [std::net::SocketAddr], with its printed form. *)
Inductive SocketAddr : Type := AddrV4 (display : string) | AddrV6 (display : string).

Section call.
Context {Zd : ZendApi} {Tn : TonicApi} {Tls : TlsApi} {Ep : EndpointApi Tn Tls} {Tk : TokioApi}.
Context (env_var : option string) (build_error : nat -> option string) (tid : nat).
Context (clock : nat -> clock_reading) (select : nat -> bool).

(** The outcome of calling a PHP callable: a value, a thrown exception (its
    class name and what [getMessage] answers), or another engine error. *)
Inductive PluginOutcome : Type :=
| PoValue (v : Zval)
| PoException (class : option string) (message : option string)
| PoError (display : string).

Context (php_call : nat -> Zval -> string -> PluginOutcome) (lookup_host : string -> option SocketAddr).

Abbreviation KM := (M CallSt PhpException).

(** * Construction *)

Definition call_construct (channel : GrpcChannel) (method : string) (deadline : GrpcTimeval)
    (host_override : option string) (now : clock_reading) (s : ChanState) : result PhpException GrpcCall :=
  tonic_channel ← ok_or (get_tonic_channel channel s)
                    (invalid_argument "Call cannot be constructed from a closed Channel");
  let target := default "" (get_target_uri channel) in
  Ok (MkCall tonic_channel method target (to_absolute_usec now deadline) host_override
        (get_call_plugin channel) (get_max_decoding_message_size channel)
        (get_max_encoding_message_size channel) [] None false false false
        (get_closed_flag channel) (get_shared channel) None).

(** The world of a new call: a fresh token and no stream. *)
Definition call_world (s : ChanState) (instant : Z) (script : list Event) (wake : nat -> bool) : World :=
  MkWorld s 0%nat instant token_new None script [] 0%nat 0%nat wake.

(** * Batches *)

Definition empty_batch : BatchOps := MkBatch [] false None false false false false false false.

(** The value of OP_SEND_MESSAGE. *)
Definition parse_send_message (val : Zval) : result PhpException bytes :=
  ht ← ok_or (zv_array val) (invalid_argument "Expected an array for send message");
  if match ht_get ht "flags" with Some flags => bool_decide (zv_long flags = None) | None => false end
  then Err (invalid_argument "Expected an int for message flags")
  else
    zs ← ok_or (z ← ht_get ht "message"; zv_zend_str z)
           (invalid_argument "Expected a string for send message");
    Ok (zs_as_bytes zs).

Definition parse_op (batch : BatchOps) (kv : ArrayKey ZStr * Zval) : result PhpException BatchOps :=
  op_code ← map_err exn_of_grpc_error (array_key_to_long kv.1);
  let '(MkBatch md hmd msg close rmd rmsg rst hs hr) := batch in
  if op_code =? OP_SEND_INITIAL_METADATA then
    ht ← ok_or (zv_array kv.2) bad_metadata;
    md ← parse_send_metadata ht;
    Ok (MkBatch md true msg close rmd rmsg rst true hr)
  else if op_code =? OP_SEND_MESSAGE then
    m ← parse_send_message kv.2;
    Ok (MkBatch md hmd (Some m) close rmd rmsg rst true hr)
  else if op_code =? OP_SEND_CLOSE_FROM_CLIENT then
    Ok (MkBatch md hmd msg true rmd rmsg rst true hr)
  else if op_code =? OP_RECV_INITIAL_METADATA then
    Ok (MkBatch md hmd msg close true rmsg rst hs true)
  else if op_code =? OP_RECV_MESSAGE then
    Ok (MkBatch md hmd msg close rmd true rst hs true)
  else if op_code =? OP_RECV_STATUS_ON_CLIENT then
    Ok (MkBatch md hmd msg close rmd rmsg true hs true)
  else Err (invalid_argument "Unrecognized key in batch").

Definition parse_ops (ops : HashTable) : result PhpException BatchOps :=
  try_fold parse_op empty_batch (ht_iter ops).

(** * The credentials plugin *)

Definition callback_failed (m : string) : PhpException := exn_of_grpc_error (CallbackFailed m).

Definition invoke_call_plugin (plugin : option Zval) (service_url : string) : KM (list (string * string)) :=
  zval ← lift (ok_or plugin (callback_failed "plugin callable is not set"));
  if negb (zv_is_callable zval) then throw (callback_failed "stored value is not callable")
  else
    s ← get;
    on_world (fun w => set_plugin_calls w (S (w_plugin_calls w))) ;;
    match php_call (w_plugin_calls (cs_w s)) zval service_url with
    | PoException class message =>
        throw (callback_failed ("plugin threw " +:+ default "Exception" class +:+ ": " +:+ default "" message))
    | PoError display => throw (callback_failed display)
    | PoValue v =>
        match zv_array v with
        | Some ht => mret (parse_metadata ht)
        | None => mret []
        end
    end.

(** [if let Some(ref plugin) = self.call_plugin { .. }]. *)
Definition plugin_pairs : KM (list (string * string)) :=
  s ← get;
  match cl_call_plugin (cs_call s) with
  | Some plugin => invoke_call_plugin plugin (cl_method (cs_call s))
  | None => mret []
  end.

(** * Routing *)

(** [std::mem::take(&mut self.pending_metadata)] and [pending_message.take()]. *)
Definition take_pending_metadata : KM (list (string * string)) := fun s =>
  (Return (cl_pending_metadata (cs_call s)),
   MkCS (cl_set_pending (cs_call s) [] (cl_pending_message (cs_call s))) (cs_w s)).
Definition take_pending_message : KM (option bytes) := fun s =>
  (Return (cl_pending_message (cs_call s)),
   MkCS (cl_set_pending (cs_call s) (cl_pending_metadata (cs_call s)) None) (cs_w s)).

Definition send_opt (msg : option bytes) : KM unit :=
  match msg with
  | Some m => send_stream_message env_var build_error tid clock m
  | None => mret tt
  end.

(** A batch of send operations only. *)
Definition dispatch_send (batch : BatchOps) : KM ZObject :=
  s ← get;
  match cl_stream_state (cs_call s) with
  | Some _ =>
      send_opt (b_send_message batch) ;;
      (if b_send_close batch then close_stream_send else mret tt) ;;
      mret obj_new
  | None =>
      if negb (b_send_close batch) && match b_send_message batch with Some _ => true | None => false end then
        send_metadata ← take_pending_metadata;
        plugin_metadata ← plugin_pairs;
        start_bidi_stream env_var build_error tid clock send_metadata plugin_metadata ;;
        send_opt (b_send_message batch) ;;
        mret obj_new
      else
        on_call (fun c => cl_set_pending c (b_send_metadata batch) (b_send_message batch)) ;;
        plugin_md ← plugin_pairs;
        on_call (fun c => cl_set_pending c (cl_pending_metadata c ++ plugin_md) (cl_pending_message c)) ;;
        (if b_send_close batch then
           send_metadata ← take_pending_metadata;
           send_message ← take_pending_message;
           start_server_stream env_var build_error tid clock send_metadata [] send_message
         else mret tt) ;;
        mret obj_new
  end.

(** A batch with receive operations on an active stream. *)
Definition dispatch_stream (batch : BatchOps) : KM ZObject :=
  (if b_has_send_ops batch then send_opt (b_send_message batch) else mret tt) ;;
  (if b_has_send_ops batch && b_send_close batch then close_stream_send else mret tt) ;;
  build_stream_result env_var build_error tid clock select batch.

(** A batch with receive operations and no stream: unary or server streaming. *)
Definition dispatch_recv (batch : BatchOps) : KM ZObject :=
  send_metadata ← (if b_has_send_ops batch then mret (b_send_metadata batch) else take_pending_metadata);
  send_message ← (if b_has_send_ops batch then mret (b_send_message batch) else take_pending_message);
  plugin_metadata ← (if b_has_send_ops batch then plugin_pairs else mret []);
  let unary :=
    result ← execute_call env_var build_error tid clock send_metadata plugin_metadata send_message;
    lift (build_unary_result (b_recv_initial_metadata batch) (b_recv_message batch) (b_recv_status batch) result) in
  s ← get;
  if b_recv_message batch && b_recv_status batch then unary
  else if cl_send_closed (cs_call s) then
    start_server_stream env_var build_error tid clock send_metadata plugin_metadata send_message ;;
    build_stream_result env_var build_error tid clock select
      (MkBatch [] false None false (b_recv_initial_metadata batch) (b_recv_message batch) (b_recv_status batch) false true)
  else unary.

Definition dispatch_batch (batch : BatchOps) : KM ZObject :=
  if b_has_send_ops batch && negb (b_has_recv_ops batch) then dispatch_send batch
  else
    s ← get;
    match cl_stream_state (cs_call s) with
    | Some _ => dispatch_stream batch
    | None => dispatch_recv batch
    end.

(** * Methods *)

Definition too_many_operations : PhpException :=
  logic_exception "start_batch was called incorrectly" 8.
Definition call_cancelled : PhpException :=
  exn_of_grpc_error (StatusError 1 "Call has been cancelled").
Definition channel_is_closed : PhpException :=
  runtime_exception "startBatch Error. Channel is closed".

Definition closed_flag (s : CallSt) : bool :=
  default false (ch_flags (w_chan (cs_w s)) !! cl_channel_closed (cs_call s)).

(** The acks of completed send operations. *)
Definition send_acks (o : ZObject) (batch : BatchOps) : result PhpException ZObject :=
  try_fold (fun o '(done, prop) =>
      if (done : bool) then set_prop o prop (zv_of_bool true) prop else Ok o) o
    [(b_has_send_initial_metadata batch, "send_metadata");
     (match b_send_message batch with Some _ => true | None => false end, "send_message");
     (b_send_close batch, "send_close")].

Definition start_batch (ops : HashTable) : KM ZObject :=
  s ← get;
  if closed_flag s then throw channel_is_closed
  else if token_is_cancelled (w_token (cs_w s)) then throw call_cancelled
  else
    batch ← lift (parse_ops ops);
    if negb (b_has_send_ops batch) && negb (b_has_recv_ops batch) then mret obj_new
    else if cl_finished (cs_call s) then throw too_many_operations
    else if b_has_send_initial_metadata batch && cl_initial_metadata_sent (cs_call s)
    then throw too_many_operations
    else
      on_call (fun c => cl_set_flags c (cl_send_closed c || b_send_close batch)
                          (cl_initial_metadata_sent c || b_has_send_initial_metadata batch) (cl_finished c)) ;;
      result_obj ← dispatch_batch batch;
      on_call (fun c => cl_set_flags c (cl_send_closed c) (cl_initial_metadata_sent c)
                          (cl_finished c || b_recv_status batch)) ;;
      lift (send_acks result_obj batch).

(** The [block_on] also drives the tasks of the thread while the name is
    resolved.  These are steps of their own in Session, Thread and Lifecycle,
    before or after this one: the answer depends on none of them. *)
Definition get_peer : KM string := fun s =>
  let target := cl_target (cs_call s) in
  let '(r, s') := call_get_runtime env_var build_error tid s in
  match r with
  | Return _ =>
      (Return match lookup_host target with
              | Some (AddrV4 a) => "ipv4:" +:+ a
              | Some (AddrV6 a) => "ipv6:" +:+ a
              | None => target
              end, s')
  | _ => (Return target, s')
  end.

Definition call_cancel : KM unit := on_world (fun w => set_token w (token_cancel (w_token w))).

Definition set_credentials (creds : GrpcCallCredentials) : KM Z :=
  on_call (fun c => MkCall (cl_channel c) (cl_method c) (cl_target c) (cl_deadline_usec c)
    (cl_host_override c) (Some (call_creds_plugin creds)) (cl_max_decoding c) (cl_max_encoding c)
    (cl_pending_metadata c) (cl_pending_message c) (cl_send_closed c) (cl_initial_metadata_sent c)
    (cl_finished c) (cl_channel_closed c) (cl_channel_shared c) (cl_stream_state c)) ;;
  mret 0.

(** * Frame: what routing a batch never touches *)

Section frame.
Context (J : CallSt -> Prop) (HJ : stable J).

Abbreviation T := (fun _ => True).

#[local] Hint Resolve keeps_get keeps_throw keeps_set_stream keeps_clock keeps_get_stream_J
  keeps_send_message keeps_close keeps_build_J keeps_start_server keeps_start_bidi keeps_execute keeps_lift : core.
#[local] Hint Extern 1 (keeps J (mret _) T) => by apply keeps_ret : core.

Lemma keeps_send_opt m : keeps J (send_opt m) T.
Proof. destruct m; simpl; auto. Qed.

Lemma keeps_plugin_pairs : keeps J plugin_pairs T.
Proof.
  unfold plugin_pairs. apply keeps_seq; [auto|intros s]. destruct (cl_call_plugin _) as [plugin|]; [|auto].
  unfold invoke_call_plugin. apply keeps_seq; [auto|intros z]. destruct (negb _); [auto|].
  apply keeps_seq; [auto|intros s']. apply keeps_seq; [apply keeps_on_world; [done|intros w; by apply world_keep_same]|intros _].
  destruct (php_call _ _ _); auto. by destruct (zv_array v); auto.
Qed.

Lemma keeps_take_metadata : keeps J take_pending_metadata T.
Proof. apply keeps_T. intros [c w] Hs. by apply (st_pending _ HJ). Qed.
Lemma keeps_take_message : keeps J take_pending_message T.
Proof. apply keeps_T. intros [c w] Hs. by apply (st_pending _ HJ). Qed.
Lemma keeps_set_pending f g : keeps J (on_call (fun c => cl_set_pending c (f c) (g c))) T.
Proof. apply keeps_T. intros [c w] Hs. by apply (st_pending _ HJ). Qed.

#[local] Hint Resolve keeps_send_opt
  keeps_plugin_pairs keeps_take_metadata keeps_take_message : core.

Lemma keeps_dispatch batch : keeps J (dispatch_batch batch) T.
Proof.
  unfold dispatch_batch. destruct (_ && _).
  - unfold dispatch_send. apply keeps_seq; [auto|intros s]. destruct (cl_stream_state (cs_call s)).
    + apply keeps_seq; [auto|intros _]. apply keeps_seq; [by destruct (b_send_close batch); auto|auto].
    + destruct (negb _ && _).
      * repeat (apply keeps_seq; [by auto|intros ?]). auto.
      * apply keeps_seq; [apply (keeps_set_pending (fun _ => b_send_metadata batch) (fun _ => b_send_message batch))|intros _].
        apply keeps_seq; [auto|intros pm].
        apply keeps_seq; [apply (keeps_set_pending (fun c => cl_pending_metadata c ++ pm) cl_pending_message)|intros _].
        apply keeps_seq; [|auto]. destruct (b_send_close batch); [|auto].
        repeat (apply keeps_seq; [by auto|intros ?]). auto.
  - apply keeps_seq; [auto|intros s]. destruct (cl_stream_state (cs_call s)).
    + unfold dispatch_stream. apply keeps_seq; [by destruct (b_has_send_ops batch); auto|intros _].
      apply keeps_seq; [by destruct (_ && _); auto|auto].
    + unfold dispatch_recv. do 3 (apply keeps_seq; [by destruct (b_has_send_ops batch); auto|intros ?]).
      apply keeps_seq; [auto|intros s'].
      destruct (_ && _); [by apply keeps_seq; auto|]. destruct (cl_send_closed (cs_call s')); by apply keeps_seq; auto.
Qed.

End frame.

(** * The life of a call *)

(** One method call by the PHP program, with any outcome. *)
Inductive call_step : CallSt -> CallSt -> Prop :=
| cst_batch ops s r s' : start_batch ops s = (r, s') -> call_step s s'
| cst_cancel s r s' : call_cancel s = (r, s') -> call_step s s'
| cst_creds creds s r s' : set_credentials creds s = (r, s') -> call_step s s'
| cst_peer s r s' : get_peer s = (r, s') -> call_step s s'.

(** Flags only ever go up. *)
Record flags_le (s s' : CallSt) : Prop := {
  fl_closed : cl_send_closed (cs_call s) = true -> cl_send_closed (cs_call s') = true;
  fl_sent : cl_initial_metadata_sent (cs_call s) = true -> cl_initial_metadata_sent (cs_call s') = true;
  fl_finished : cl_finished (cs_call s) = true -> cl_finished (cs_call s') = true;
  fl_cancelled : token_is_cancelled (w_token (cs_w s)) = true -> token_is_cancelled (w_token (cs_w s')) = true;
}.

#[global] Instance flags_le_preorder : PreOrder flags_le.
Proof. split; [by split|]. intros s1 s2 s3 [] []. split; auto. Qed.

(** How a batch comes to be dispatched. *)
Lemma start_batch_cases ops s :
  (exists r, start_batch ops s = (r, s)
     /\ (r = Throw channel_is_closed /\ closed_flag s = true
         \/ r = Throw call_cancelled /\ token_is_cancelled (w_token (cs_w s)) = true
         \/ (exists e, r = Throw e /\ parse_ops ops = Err e)
         \/ (r = Return obj_new /\ exists b, parse_ops ops = Ok b /\ b_has_send_ops b = false /\ b_has_recv_ops b = false)
         \/ r = Throw too_many_operations /\ cl_finished (cs_call s) = true
         \/ r = Throw too_many_operations /\ cl_initial_metadata_sent (cs_call s) = true
            /\ exists b, parse_ops ops = Ok b /\ b_has_send_initial_metadata b = true))
  \/ exists b, parse_ops ops = Ok b /\ closed_flag s = false /\ token_is_cancelled (w_token (cs_w s)) = false
     /\ cl_finished (cs_call s) = false
     /\ (b_has_send_initial_metadata b = true -> cl_initial_metadata_sent (cs_call s) = false)
     /\ let s1 := MkCS (cl_set_flags (cs_call s) (cl_send_closed (cs_call s) || b_send_close b)
                          (cl_initial_metadata_sent (cs_call s) || b_has_send_initial_metadata b) false) (cs_w s) in
        start_batch ops s =
        match dispatch_batch b s1 with
        | (Return o, s2) =>
            lift (send_acks o b)
              (MkCS (cl_set_flags (cs_call s2) (cl_send_closed (cs_call s2)) (cl_initial_metadata_sent (cs_call s2))
                       (cl_finished (cs_call s2) || b_recv_status b)) (cs_w s2))
        | (Throw e, s2) => (Throw e, s2)
        | (Blocked, s2) => (Blocked, s2)
        end.
Proof.
  unfold start_batch. mred.
  destruct (closed_flag s) eqn:E1; [by left; eexists; split; [done|]; auto|].
  destruct (token_is_cancelled (w_token (cs_w s))) eqn:E2; [by left; eexists; split; [done|]; auto|].
  destruct (parse_ops ops) as [b|e] eqn:Hp; [|left; eexists; split; [done|]; eauto 10].
  destruct (b_has_send_ops b) eqn:E3, (b_has_recv_ops b) eqn:E4; simpl;
    try (by left; eexists; split; [done|]; eauto 10).
  all: destruct (cl_finished (cs_call s)) eqn:E5; [left; eexists; split; [done|]; eauto 10|].
  all: destruct (b_has_send_initial_metadata b && cl_initial_metadata_sent (cs_call s)) eqn:E6;
       [bool_prop; left; eexists; split; [done|]; eauto 12|].
  all: right; exists b; split_and!; try done;
       [intros Hm; rewrite Hm in E6; by destruct (cl_initial_metadata_sent (cs_call s))|].
  all: unfold on_call; mred; rewrite E5; by destruct (dispatch_batch b _) as [[] ?].
Qed.

(** A batch keeps what does not depend on the flags of the call. *)
Lemma start_batch_keeps J ops s r s' :
  stable J -> (forall c w closed sent finished, J (MkCS c w) -> J (MkCS (cl_set_flags c closed sent finished) w)) ->
  start_batch ops s = (r, s') -> J s -> J s'.
Proof.
  intros HJ Hfl H Hs. destruct (start_batch_cases ops s) as [(r0 & Hr0 & _)|(b & _ & _ & _ & _ & _ & Hd)]; [congruence|].
  simpl in Hd. rewrite H in Hd. destruct s as [c w].
  pose proof (keeps_dispatch _ HJ b _ (Hfl c w (cl_send_closed c || b_send_close b)
    (cl_initial_metadata_sent c || b_has_send_initial_metadata b) false Hs)) as [K _].
  simpl in Hd. destruct (dispatch_batch b _) as [[o|e|] [c2 w2]]; simplify_eq/=; [|done..].
  unfold lift in Hd. destruct (send_acks o b); simplify_eq; by apply Hfl.
Qed.

Lemma closed_stable b : stable (fun s => closed_flag s = b).
Proof. split; unfold closed_flag; simpl; try done. intros c w w' <- [_ Hc _]. by rewrite (so_flags _ _ Hc). Qed.

Lemma start_batch_closed_flag ops s r s' : start_batch ops s = (r, s') -> closed_flag s' = closed_flag s.
Proof. intros H. by eapply (start_batch_keeps _ _ _ _ _ (closed_stable (closed_flag s))). Qed.

(** Routing keeps the flags; the batch then raises its own. *)
Lemma start_batch_flags ops s r s' :
  start_batch ops s = (r, s') ->
  flags_le s s'
  /\ forall o b, r = Return o -> parse_ops ops = Ok b -> b_has_send_ops b || b_has_recv_ops b = true ->
       (b_recv_status b = true -> cl_finished (cs_call s') = true)
       /\ (b_has_send_initial_metadata b = true ->
            cl_initial_metadata_sent (cs_call s) = false /\ cl_initial_metadata_sent (cs_call s') = true).
Proof.
  intros H. destruct (start_batch_cases ops s) as [(r0 & Hr0 & Hc)|(b & Hb & _ & Ht & Hf & Hs & Hd)].
  - rewrite Hr0 in H. simplify_eq. split; [done|]. intros o b -> Hb Hne.
    destruct Hc as [[? _]|[[? _]|[(e & ? & _)|[(_ & b' & Hb' & H1 & H2)|[[? _]|[? _]]]]]]; try done.
    rewrite Hb in Hb'. simplify_eq. by rewrite H1, H2 in Hne.
  - simpl in Hd. rewrite H in Hd.
    set (s1 := MkCS _ _) in Hd.
    pose proof (keeps_dispatch _ (flags_stable _ _ _ _) b s1 ltac:(by split_and!)) as [(K1 & K2 & K3 & K4) _].
    destruct (dispatch_batch b s1) as [[o|e|] s2]; simpl in K1, K2, K3, K4.
    + assert (Hs' : s' = MkCS (cl_set_flags (cs_call s2) (cl_send_closed (cs_call s2)) (cl_initial_metadata_sent (cs_call s2))
                       (cl_finished (cs_call s2) || b_recv_status b)) (cs_w s2)).
      { unfold lift in Hd. by destruct (send_acks o b); simplify_eq. }
      subst s'. split.
      * split; simpl; rewrite ?K1, ?K2, ?K3, ?K4, ?Hf; simpl; try done; intros ->; done.
      * intros o' b' _ Hb' _. rewrite Hb in Hb'. simplify_eq. simpl. rewrite K2, K3. split.
        -- intros ->. apply orb_true_r.
        -- intros Hm. rewrite Hm. split; [by apply Hs|by rewrite orb_true_r].
    + simplify_eq. split; [|done]. split; simpl; rewrite ?K1, ?K2, ?K3, ?K4, ?Hf; try done; by intros ->.
    + simplify_eq. split; [|done]. split; simpl; rewrite ?K1, ?K2, ?K3, ?K4, ?Hf; try done; by intros ->.
Qed.

Lemma call_step_flags `{!TokioLaws Tk} s s' : call_step s s' -> flags_le s s'.
Proof.
  destruct 1 as [ops s r s' H|s r s' H|creds s r s' H|s r s' H].
  - by apply start_batch_flags in H as [? _].
  - unfold call_cancel, on_world in H. mred. unfold modify in H. simplify_eq.
    split; simpl; try done. intros _. apply token_cancel_done.
  - unfold set_credentials, on_call, modify, mbind, M_bind, mret, M_ret in H. simplify_eq. by split.
  - unfold get_peer, call_get_runtime, in_chan in H.
    destruct (channel_get_runtime _ _ _ _) as [[] ?]; simplify_eq; by split.
Qed.

Lemma call_steps_flags `{!TokioLaws Tk} s s' : rtc call_step s s' -> flags_le s s'.
Proof. induction 1; [done|]. etrans; [by apply call_step_flags|done]. Qed.

(** A finished call: batches change nothing. *)
Lemma finished_batch ops s r s' :
  cl_finished (cs_call s) = true -> start_batch ops s = (r, s') ->
  s' = s /\ ((exists b, r = Return obj_new /\ parse_ops ops = Ok b /\ b_has_send_ops b = false /\ b_has_recv_ops b = false)
             \/ (exists e, r = Throw e /\ parse_ops ops = Err e)
             \/ r = Throw channel_is_closed \/ r = Throw call_cancelled \/ r = Throw too_many_operations).
Proof.
  intros Hf H. destruct (start_batch_cases ops s) as [(r0 & Hr0 & Hc)|(b & Hb & _ & _ & Hf' & _)]; [|congruence].
  rewrite Hr0 in H. simplify_eq. split; [done|].
  destruct Hc as [[? _]|[[? _]|[(e & ? & ?)|[(? & b' & ? & ? & ?)|[[? _]|[? _]]]]]]; eauto 10.
Qed.

(** What a program can observe of a call's effects on the outside. *)
Definition effects (s : CallSt) : list Request * nat * option Wire :=
  (w_log (cs_w s), w_plugin_calls (cs_w s), w_wire (cs_w s)).

Lemma finished_steps `{!TokioLaws Tk} s s' :
  rtc call_step s s' -> cl_finished (cs_call s) = true ->
  cl_finished (cs_call s') = true /\ effects s' = effects s.
Proof.
  induction 1 as [|s1 s2 s3 Hs _ IH]; [done|]. intros Hf.
  pose proof (call_step_flags _ _ Hs) as [_ _ Hf2 _]. destruct (IH (Hf2 Hf)) as [-> ->]. split; [done|].
  destruct Hs as [ops s r s' H|s r s' H|creds s r s' H|s r s' H].
  - by apply (finished_batch _ _ _ _ Hf) in H as [-> _].
  - unfold call_cancel, on_world, modify in H. by simplify_eq.
  - unfold set_credentials, on_call, modify, mbind, M_bind, mret, M_ret in H. by simplify_eq.
  - unfold get_peer, call_get_runtime, in_chan in H.
    destruct (channel_get_runtime _ _ _ _) as [[] ?]; by simplify_eq.
Qed.

(** * Properties *)

(** C13: once a batch has delivered the status, the call is over: whatever methods
    are called from then on, no request is handed to tonic, no plugin runs and
    the stream is not touched, and every further batch changes nothing and
    either is empty or malformed or throws: LogicException with code 8
    (TOO_MANY_OPERATIONS), unless the channel was closed or the call cancelled. *)
Theorem finished_call_is_over `{!TokioLaws Tk} ops b s0 o s s' :
  start_batch ops s0 = (Return o, s) -> parse_ops ops = Ok b -> b_recv_status b = true ->
  b_has_recv_ops b = true -> rtc call_step s s' ->
  effects s' = effects s
  /\ forall ops' r s2, start_batch ops' s' = (r, s2) ->
       s2 = s' /\ ((exists b', r = Return obj_new /\ parse_ops ops' = Ok b'
                               /\ b_has_send_ops b' = false /\ b_has_recv_ops b' = false)
                   \/ (exists e, r = Throw e /\ parse_ops ops' = Err e)
                   \/ r = Throw channel_is_closed \/ r = Throw call_cancelled
                   \/ r = Throw too_many_operations).
Proof.
  intros H Hb Hst Hr Hsteps. apply start_batch_flags in H as [_ H].
  destruct (H o b eq_refl Hb) as [Hf _]; [by rewrite Hr, orb_true_r|].
  destruct (finished_steps _ _ Hsteps (Hf Hst)) as [Hf' He]. split; [done|].
  intros ops' r s2. by apply finished_batch.
Qed.

(** After [cancel] every batch throws, with the state untouched, whatever
    methods are called in between: the stream task's own CANCELLED status can
    no longer be read by the program. *)
Theorem cancelled_call_rejects `{!TokioLaws Tk} s r s1 s2 ops :
  call_cancel s = (r, s1) -> rtc call_step s1 s2 ->
  start_batch ops s2 = (Throw (if closed_flag s2 then channel_is_closed else call_cancelled), s2).
Proof.
  unfold call_cancel, on_world, modify. intros Hc Hsteps. simplify_eq.
  pose proof (fl_cancelled _ _ (call_steps_flags _ _ Hsteps)) as Ht. simpl in Ht.
  unfold start_batch. mred. destruct (closed_flag s2); [done|].
  by rewrite Ht by apply token_cancel_done.
Qed.

(** SEND_INITIAL_METADATA is accepted at most once in the life of a call:
    after a batch with it returned, no later batch with it returns. *)
Theorem initial_metadata_once `{!TokioLaws Tk} ops1 b1 s o1 s1 s2 ops2 b2 o2 s3 :
  start_batch ops1 s = (Return o1, s1) -> parse_ops ops1 = Ok b1 -> b_has_send_ops b1 = true ->
  b_has_send_initial_metadata b1 = true -> rtc call_step s1 s2 ->
  start_batch ops2 s2 = (Return o2, s3) -> parse_ops ops2 = Ok b2 -> b_has_send_ops b2 = true ->
  b_has_send_initial_metadata b2 = false.
Proof.
  intros H1 Hb1 Hs1 Hm1 Hsteps H2 Hb2 Hs2.
  apply start_batch_flags in H1 as [_ H1]. destruct (H1 _ _ eq_refl Hb1) as [_ M1]; [by rewrite Hs1|].
  destruct (M1 Hm1) as [_ Hsent]. apply (fl_sent _ _ (call_steps_flags _ _ Hsteps)) in Hsent.
  apply start_batch_flags in H2 as [_ H2]. destruct (H2 _ _ eq_refl Hb2) as [_ M2]; [by rewrite Hs2|].
  destruct (b_has_send_initial_metadata b2); [|done]. destruct (M2 eq_refl). congruence.
Qed.

(** ** The batch parser *)

(** The operation code of an entry. *)
Definition has_op (op : Z) (l : list (ArrayKey ZStr * Zval)) : bool :=
  existsb (fun kv => match array_key_to_long kv.1 with Ok n => n =? op | Err _ => false end) l.

Lemma has_op_snoc op l kv :
  has_op op (l ++ [kv]) = has_op op l || match array_key_to_long kv.1 with Ok n => n =? op | Err _ => false end.
Proof. unfold has_op. rewrite existsb_app. simpl. by rewrite orb_false_r. Qed.

(** What the batch says of the entries read. *)
Record batch_of (l : list (ArrayKey ZStr * Zval)) (b : BatchOps) : Prop := {
  bo_md : b_has_send_initial_metadata b = has_op OP_SEND_INITIAL_METADATA l;
  bo_msg : match b_send_message b with Some _ => true | None => false end = has_op OP_SEND_MESSAGE l;
  bo_close : b_send_close b = has_op OP_SEND_CLOSE_FROM_CLIENT l;
  bo_rmd : b_recv_initial_metadata b = has_op OP_RECV_INITIAL_METADATA l;
  bo_rmsg : b_recv_message b = has_op OP_RECV_MESSAGE l;
  bo_rst : b_recv_status b = has_op OP_RECV_STATUS_ON_CLIENT l;
  bo_send : b_has_send_ops b = has_op OP_SEND_INITIAL_METADATA l || has_op OP_SEND_MESSAGE l
                               || has_op OP_SEND_CLOSE_FROM_CLIENT l;
  bo_recv : b_has_recv_ops b = has_op OP_RECV_INITIAL_METADATA l || has_op OP_RECV_MESSAGE l
                               || has_op OP_RECV_STATUS_ON_CLIENT l;
  bo_codes : Forall (fun kv => exists op, array_key_to_long kv.1 = Ok op /\ op ∈ [0; 1; 2; 4; 5; 6]) l;
  bo_nomd : has_op OP_SEND_INITIAL_METADATA l = false -> b_send_metadata b = [];
}.

Lemma parse_op_batch_of l b kv b' : batch_of l b -> parse_op b kv = Ok b' -> batch_of (l ++ [kv]) b'.
Proof.
  intros [] H. destruct b as [md hmd msg close rmd rmsg rst hs hr]; simpl in *. unfold parse_op in H.
  destruct (array_key_to_long kv.1) as [op|e] eqn:Hk; simpl in H; [|done].
  assert (Hcode : forall n : Z, op = n -> n ∈ [0; 1; 2; 4; 5; 6] ->
    Forall (fun kv => exists op, array_key_to_long kv.1 = Ok op /\ op ∈ [0; 1; 2; 4; 5; 6]) (l ++ [kv])).
  { intros n -> Hn. apply Forall_app. split; [done|]. constructor; [|constructor]. by exists n. }
  assert (Hop : forall n, has_op n (l ++ [kv]) = has_op n l || (op =? n)) by (intros n; by rewrite has_op_snoc, Hk).
  repeat match type of H with
  | (if op =? ?n then _ else _) = _ =>
      let E := fresh "E" in destruct (op =? n) eqn:E;
      [apply Z.eqb_eq in E; subst op; clear Hk;
       repeat match type of H with context [mbind _ ?m] => destruct m; simpl in H; [|done] end;
       injection H as <-; split; simpl; rewrite ?Hop; simpl; rewrite ?orb_false_r, ?orb_true_r; try done;
       try (eapply Hcode; [done|]; repeat constructor; fail); try (by rewrite ?orb_true_r); auto
      |apply Z.eqb_neq in E]
  end.
  done.
Qed.

Lemma parse_ops_batch_of (ops : HashTable) (b : BatchOps) : parse_ops ops = Ok b -> batch_of (ht_iter ops) b.
Proof.
  unfold parse_ops. intros H.
  assert (Hg : forall l pre b0 b1, batch_of pre b0 -> try_fold parse_op b0 l = Ok b1 -> batch_of (pre ++ l) b1).
  { induction l as [|kv l IH]; simpl; intros pre b0 b1 Hb0 Hl.
    - simplify_eq. by rewrite app_nil_r.
    - destruct (parse_op b0 kv) as [b2|] eqn:E; [|done].
      rewrite (cons_middle kv), app_assoc. eapply IH; [|done]. by eapply parse_op_batch_of. }
  apply (Hg _ [] empty_batch); [|done]. by split; try done.
Qed.

(** A batch that sends nothing has nothing of the send operations. *)
Lemma parse_ops_recv_only ops b :
  parse_ops ops = Ok b -> b_has_send_ops b = false ->
  b_has_send_initial_metadata b = false /\ b_send_message b = None /\ b_send_close b = false.
Proof.
  intros Hb H. destruct (parse_ops_batch_of _ _ Hb). rewrite bo_send0 in H. apply orb_false_iff in H as [[H1 H2]%orb_false_iff H3].
  rewrite bo_md0, bo_close0, H1, H3. split_and!; try done. rewrite H2 in bo_msg0. by destruct (b_send_message b).
Qed.

(** C21: a batch is accepted only if every key is one of the six operation codes
    (as an integer or a decimal string), and then each flag is set exactly
    when its operation occurs: in particular a batch counts as sending or
    receiving exactly when it has a send or a receive operation, and carries
    no metadata to send unless SEND_INITIAL_METADATA occurs. *)
Theorem parse_ops_spec (ops : HashTable) (b : BatchOps) :
  parse_ops ops = Ok b -> batch_of (ht_iter ops) b.
Proof. apply parse_ops_batch_of. Qed.

(** ** The unary pattern *)

(** The batch of a unary call: everything at once. *)
Definition unary_batch (md : list (string * string)) (m : bytes) : BatchOps :=
  MkBatch md true (Some m) true true true true true true.

(** A call on which nothing was started yet. *)
Record fresh_call (s : CallSt) : Prop := {
  fc_open : closed_flag s = false;
  fc_live : token_is_cancelled (w_token (cs_w s)) = false;
  fc_finished : cl_finished (cs_call s) = false;
  fc_sent : cl_initial_metadata_sent (cs_call s) = false;
  fc_stream : cl_stream_state (cs_call s) = None;
  fc_pending : cl_pending_metadata (cs_call s) = [];
  fc_wire : w_wire (cs_w s) = None;
}.

(** The flags a batch raises before it is routed. *)
Definition with_flags (b : BatchOps) (s : CallSt) : CallSt :=
  MkCS (cl_set_flags (cs_call s) (cl_send_closed (cs_call s) || b_send_close b)
          (cl_initial_metadata_sent (cs_call s) || b_has_send_initial_metadata b) false) (cs_w s).

Lemma start_batch_fresh ops s b :
  fresh_call s -> parse_ops ops = Ok b -> b_has_send_ops b || b_has_recv_ops b = true ->
  start_batch ops s =
  match dispatch_batch b (with_flags b s) with
  | (Return o, s2) =>
      lift (send_acks o b)
        (MkCS (cl_set_flags (cs_call s2) (cl_send_closed (cs_call s2)) (cl_initial_metadata_sent (cs_call s2))
                 (cl_finished (cs_call s2) || b_recv_status b)) (cs_w s2))
  | (Throw e, s2) => (Throw e, s2)
  | (Blocked, s2) => (Blocked, s2)
  end.
Proof.
  intros [F1 F2 F3 F4 _ _ _] Hb Hne. destruct (start_batch_cases ops s) as [(r & _ & Hc)|(b' & Hb' & _ & _ & _ & _ & Hd)].
  - exfalso. destruct Hc as [[_ H]|[[_ H]|[(e & _ & H)|[(_ & b' & H & H1 & H2)|[[_ H]|(_ & H & _)]]]]]; try congruence.
    rewrite Hb in H. simplify_eq. by rewrite H1, H2 in Hne.
  - rewrite Hb in Hb'. simplify_eq. exact Hd.
Qed.

(** The acknowledgements of the send operations. *)
Definition acks (b : BatchOps) : list (string * Zval) :=
  (if b_has_send_initial_metadata b then [("send_metadata", zv_of_bool true)] else [])
  ++ (if b_send_message b then [("send_message", zv_of_bool true)] else [])
  ++ (if b_send_close b then [("send_close", zv_of_bool true)] else []).

Lemma send_acks_shows `{!ZendLaws Zd} o b :
  (forall x, x ∈ (obj_props o).*1 -> x ∈ ["metadata"; "message"; "status"]) ->
  exists o', send_acks o b = Ok o' /\ obj_props o' = obj_props o ++ acks b.
Proof.
  clear env_var build_error tid clock select php_call lookup_host.
  intros Hk. unfold send_acks, acks.
  assert (Hstep : forall (d : bool) x o0 ks, (forall y, y ∈ (obj_props o0).*1 -> y ∈ ks) -> x ∉ ks ->
    exists o1, (if d then set_prop o0 x (zv_of_bool true) x else Ok o0) = Ok o1
      /\ obj_props o1 = obj_props o0 ++ (if d then [(x, zv_of_bool true)] else [])
      /\ forall y, y ∈ (obj_props o1).*1 -> y ∈ x :: ks).
  { clear - ZendLaws0. intros d x o0 ks Hy Hx. destruct d.
    - destruct (set_prop_fresh o0 x (zv_of_bool true) x) as (o1 & -> & Hp); [by intros ?%Hy|]. exists o1.
      rewrite Hp. split_and!; [done..|]. intros y. rewrite fmap_app. intros [H|H]%elem_of_app; [right; by apply Hy|].
      simpl in H. apply list_elem_of_singleton in H as ->. by left.
    - exists o0. rewrite app_nil_r. split_and!; [done..|]. intros y H. right. by apply Hy. }
  destruct (Hstep (b_has_send_initial_metadata b) "send_metadata" o _ Hk ltac:(set_solver)) as (o1 & E1 & P1 & K1).
  destruct (Hstep (if b_send_message b then true else false) "send_message" o1 _ K1 ltac:(set_solver)) as (o2 & E2 & P2 & K2).
  destruct (Hstep (b_send_close b) "send_close" o2 _ K2 ltac:(set_solver)) as (o3 & E3 & P3 & _).
  exists o3. cbn [try_fold]. rewrite E1. cbn [try_fold].
  replace (match b_send_message b with Some _ => true | None => false end) with (if b_send_message b then true else false)
    by by destruct (b_send_message b).
  rewrite E2, E3. split; [done|]. rewrite P3, P2, P1, <- !app_assoc. by destruct (b_send_message b).
Qed.

(** The answer of a unary call made in one batch. *)
Lemma unary_batch_answers `{!ZendLaws Zd} ops md m s res s1 :
  fresh_call s -> cl_call_plugin (cs_call s) = None -> parse_ops ops = Ok (unary_batch md m) ->
  execute_call env_var build_error tid clock md [] (Some m) (with_flags (unary_batch md m) s) = (Return res, s1) ->
  exists o vm vs so s', start_batch ops s = (Return o, s') /\ cl_finished (cs_call s') = true
    /\ obj_props o = [("metadata", vm);
                      ("message", match cr_body res with Some body => zv_of_bytes body | None => zv_null end);
                      ("status", zv_of_obj so); ("send_metadata", zv_of_bool true);
                      ("send_message", zv_of_bool true); ("send_close", zv_of_bool true)]
    /\ shows_metadata vm (cr_initial_metadata res) /\ shows_metadata vs (cr_trailing_metadata res)
    /\ obj_props so = [("metadata", vs); ("code", zv_of_long (cr_code res)); ("details", zv_of_string (cr_message res))].
Proof.
  intros Hf Hpl Hb Hex. rewrite (start_batch_fresh _ _ _ Hf Hb eq_refl).
  destruct (build_unary_result_ok true true true res) as (o & vm & vs & so & Ho & Hp & Hvm & Hvs & Hso).
  assert (Hd : dispatch_batch (unary_batch md m) (with_flags (unary_batch md m) s) = (Return o, s1)).
  { unfold dispatch_batch. mred. rewrite (fc_stream s Hf). unfold dispatch_recv, plugin_pairs. mred.
    rewrite Hpl. mred. rewrite Hex. by rewrite Ho. }
  rewrite Hd. simpl in Hp.
  destruct (send_acks_shows o (unary_batch md m)) as (o3 & Hack & Hp3); [by rewrite Hp|]. rewrite Hack. unfold lift.
  eexists o3, vm, vs, so, _. split; [reflexivity|]. simpl. rewrite orb_true_r, Hp3, Hp. done.
Qed.

(** C6: a unary call made in one batch (no credentials plugin) runs the call once
    with the batch's metadata and message and answers one object: the initial
    metadata, the message, the status, then the three acks, in this order;
    the call is then finished. *)
Theorem unary_batch_end_to_end `{!ZendLaws Zd} ops md m s res s1 :
  fresh_call s -> cl_call_plugin (cs_call s) = None -> parse_ops ops = Ok (unary_batch md m) ->
  execute_call env_var build_error tid clock md [] (Some m) (with_flags (unary_batch md m) s) = (Return res, s1) ->
  exists o vm vs so s', start_batch ops s = (Return o, s') /\ cl_finished (cs_call s') = true
    /\ obj_props o = [("metadata", vm);
                      ("message", match cr_body res with Some body => zv_of_bytes body | None => zv_null end);
                      ("status", zv_of_obj so); ("send_metadata", zv_of_bool true);
                      ("send_message", zv_of_bool true); ("send_close", zv_of_bool true)]
    /\ shows_metadata vm (cr_initial_metadata res) /\ shows_metadata vs (cr_trailing_metadata res)
    /\ obj_props so = [("metadata", vs); ("code", zv_of_long (cr_code res)); ("details", zv_of_string (cr_message res))].
Proof. apply unary_batch_answers. Qed.

(** ** The credentials plugin *)

(** C22: a credentials plugin that throws makes the unary batch throw with the
    exception's class and message; it was called once, with the method as its
    argument, nothing was handed to tonic and no stream was started. *)
Theorem plugin_failure_sends_nothing ops md m s z class message :
  fresh_call s -> cl_call_plugin (cs_call s) = Some (Some z) -> zv_is_callable z = true ->
  parse_ops ops = Ok (unary_batch md m) ->
  php_call (w_plugin_calls (cs_w s)) z (cl_method (cs_call s)) = PoException class message ->
  exists s', start_batch ops s
    = (Throw (callback_failed ("plugin threw " +:+ default "Exception" class +:+ ": " +:+ default "" message)), s')
    /\ w_plugin_calls (cs_w s') = S (w_plugin_calls (cs_w s))
    /\ w_log (cs_w s') = w_log (cs_w s) /\ w_wire (cs_w s') = None /\ cl_finished (cs_call s') = false.
Proof.
  intros Hf Hpl Hz Hb Hcall. rewrite (start_batch_fresh _ _ _ Hf Hb eq_refl).
  unfold dispatch_batch. mred. rewrite (fc_stream s Hf). unfold dispatch_recv, plugin_pairs, invoke_call_plugin, on_world.
  mred. rewrite Hpl. mred. rewrite Hz. mred. rewrite Hcall. eexists. split; [reflexivity|]. simpl.
  by rewrite (fc_wire s Hf).
Qed.

(** What awaiting leaves of the plugin count and of the request in flight. *)
Definition inert (w : World) : nat * option Request := (w_plugin_calls w, wr_request <$> w_wire w).

Lemma task_send_request it k r : wr_request (task_send it k r) = wr_request r.
Proof.
  unfold task_send. destruct (mpsc_send (wr_msgs r) it); [|done|]; destruct k; simpl; unfold task_return; simpl;
    by destruct (wr_handed r).
Qed.

Lemma task_poll_inert w : inert (task_poll clock w) = inert w.
Proof.
  unfold task_poll, inert. destruct (w_wire w) as [r|] eqn:Hw; [|by rewrite Hw].
  destruct (wr_pc r); simpl; rewrite ?Hw, ?task_send_request; done.
Qed.

Lemma driver_event_inert ev w w' : driver_event clock ev w = Some w' -> inert w' = inert w.
Proof.
  unfold driver_event, inert. destruct (w_wire w) as [r|] eqn:Hw.
  2: { destruct ev; intros; simplify_eq/=. by rewrite Hw. }
  destruct ev as [[]|[]|[[]|]| | |t| | |]; destruct (wr_pc r) eqn:E; try done; intros; simplify_eq/=;
    unfold on_tick, on_elapsed, on_response, on_trailers, task_return, on_pull, on_req_drop, store_connectivity in *;
    rewrite ?E; repeat (case_match; simplify_eq/=); rewrite ?task_send_request, ?Hw; done.
Qed.

Lemma send_message_inert m s r s' :
  send_stream_message env_var build_error tid clock m s = (r, s') -> inert (cs_w s') = inert (cs_w s).
Proof.
  unfold send_stream_message, call_get_runtime, in_chan, await. mred.
  destruct (channel_get_runtime _ _ _ _) as [[rt|e|] c]; [simpl|by intros; simplify_eq..].
  destruct (cl_stream_state (cs_call s)) as [st|]; [|by intros; simplify_eq].
  destruct (as_msg_tx st); [|by intros; simplify_eq].
  pose proof (block_on_frame clock (E := PhpException) inert (send_poll m) tt (set_chan (cs_w s) c)
    task_poll_inert driver_event_inert ltac:(done)) as H.
  destruct (block_on _ _ _ _) as [[[[]|[]]|e|] w]; simpl in *; intros; simplify_eq/=;
    (etrans; [apply H|done]);
    intros [] w0; unfold send_poll, inert; destruct (w_wire w0) as [r0|] eqn:Hw0;
    simpl; repeat (case_match; simpl); rewrite ?Hw0; done.
Qed.

Definition send_md_batch (md : list (string * string)) : BatchOps := MkBatch md true None false false false false true false.
Definition send_both_batch (md : list (string * string)) (m : bytes) : BatchOps :=
  MkBatch md true (Some m) false false false false true false.

(** Opening a stream and sending its first message: when both return, a task
    is running with the metadata given (an expired call cannot send). *)
Lemma open_and_send md pm m s s1 s2 :
  start_bidi_stream env_var build_error tid clock md pm s = (Return tt, s1) ->
  send_stream_message env_var build_error tid clock m s1 = (Return tt, s2) ->
  w_plugin_calls (cs_w s2) = w_plugin_calls (cs_w s)
  /\ exists r, w_wire (cs_w s2) = Some r /\ rq_metadata (wr_request r) = apply_metadata md pm.
Proof.
  unfold start_bidi_stream, call_get_runtime, call_pump, in_chan, read_clock, on_call, on_world. mred.
  destruct (channel_get_runtime _ _ _ _) as [[rt|e|] c1]; [|done..]. simpl.
  destruct (channel_pump _ _ _ _) as [[[]|e|] c2]; [|done..]. simpl.
  destruct (deadline_already_expired _ _); simpl.
  - intros [= <-]. unfold send_stream_message, call_get_runtime, in_chan. mred.
    by destruct (channel_get_runtime _ _ _ _) as [[?|e|] ?].
  - destruct (path_try_from _) as [[]|e]; simpl; [|done]. intros [= <-] H.
    apply send_message_inert in H. unfold inert in H. simpl in H. simplify_eq/=. split; [congruence|].
    destruct (w_wire (cs_w s2)) as [r|]; simplify_eq/=. exists r. split; [done|]. by match goal with E : wr_request _ = _ |- _ => rewrite E end.
Qed.

(** C39: metadata and the first message of a client stream sent in one batch: the
    batch answers that both were sent, but the stream it opens carries none of
    the batch's metadata. *)
Theorem first_message_drops_metadata ops md m s o s' :
  fresh_call s -> cl_call_plugin (cs_call s) = None -> parse_ops ops = Ok (send_both_batch md m) ->
  start_batch ops s = (Return o, s') ->
  send_acks obj_new (send_both_batch md m) = Ok o
  /\ exists r, w_wire (cs_w s') = Some r /\ rq_metadata (wr_request r) = md_default.
Proof.
  intros Hf Hpl Hb. rewrite (start_batch_fresh _ _ _ Hf Hb eq_refl).
  unfold dispatch_batch, dispatch_send, take_pending_metadata, plugin_pairs. mred.
  rewrite (fc_stream s Hf). mred. rewrite Hpl, (fc_pending s Hf). mred.
  destruct (start_bidi_stream _ _ _ _ _ _ _) as [[[]|e|] s1] eqn:E1; [|done..].
  destruct (send_stream_message _ _ _ _ _ _) as [[[]|e|] s2] eqn:E2; [|done..].
  destruct (open_and_send _ _ _ _ _ _ E1 E2) as [_ Hr].
  destruct (send_acks obj_new (send_both_batch md m)) as [o'|e]; [|done]. by intros [= <- <-].
Qed.

(** A batch that returned was routed. *)
Lemma start_batch_return ops s b o s' :
  start_batch ops s = (Return o, s') -> parse_ops ops = Ok b -> b_has_send_ops b || b_has_recv_ops b = true ->
  exists o' s2, dispatch_batch b (with_flags b s) = (Return o', s2)
    /\ s' = MkCS (cl_set_flags (cs_call s2) (cl_send_closed (cs_call s2)) (cl_initial_metadata_sent (cs_call s2))
                   (cl_finished (cs_call s2) || b_recv_status b)) (cs_w s2).
Proof.
  intros H Hb Hne. destruct (start_batch_cases ops s) as [(r & Hr & Hc)|(b' & Hb' & _ & _ & _ & _ & Hd)].
  - exfalso. rewrite Hr in H. simplify_eq.
    destruct Hc as [[? _]|[[? _]|[(e & ? & _)|[(_ & b' & Hb' & H1 & H2)|[[? _]|(? & _)]]]]]; try done.
    rewrite Hb in Hb'. simplify_eq. by rewrite H1, H2 in Hne.
  - rewrite Hb in Hb'. simplify_eq. simpl in Hd. rewrite H in Hd. fold (with_flags b' s) in Hd.
    destruct (dispatch_batch b' (with_flags b' s)) as [[o'|e|] s2]; [|done..]. exists o', s2. split; [done|].
    unfold lift in Hd. by destruct (send_acks o' b'); simplify_eq.
Qed.

Lemma plugin_pairs_some s z pm s' :
  cl_call_plugin (cs_call s) = Some z -> plugin_pairs s = (Return pm, s') ->
  s' = MkCS (cs_call s) (set_plugin_calls (cs_w s) (S (w_plugin_calls (cs_w s)))).
Proof.
  intros Hz. unfold plugin_pairs, invoke_call_plugin, on_world. mred. rewrite Hz. mred.
  destruct z as [z|]; simpl; [|done]. destruct (zv_is_callable z); simpl; [|done].
  destruct (php_call _ _ _); simpl; try done. by destruct (zv_array v); intros [= _ <-].
Qed.

Definition send_msg_batch (m : bytes) : BatchOps := MkBatch [] false (Some m) false false false false true false.

(** A client stream opened the usual way, metadata in one batch and the first
    message in the next, calls the credentials plugin twice for the one call,
    and the request carries what both calls returned, the second one's values
    replacing the first one's. *)
Theorem plugin_called_per_send_batch ops1 ops2 md m s z o1 s1 o2 s2 :
  fresh_call s -> cl_call_plugin (cs_call s) = Some z ->
  parse_ops ops1 = Ok (send_md_batch md) -> parse_ops ops2 = Ok (send_msg_batch m) ->
  start_batch ops1 s = (Return o1, s1) -> start_batch ops2 s1 = (Return o2, s2) ->
  w_plugin_calls (cs_w s2) = (2 + w_plugin_calls (cs_w s))%nat
  /\ exists pm1 pm2, cl_pending_metadata (cs_call s1) = md ++ pm1
     /\ exists r, w_wire (cs_w s2) = Some r /\ rq_metadata (wr_request r) = apply_metadata (md ++ pm1) pm2.
Proof.
  intros Hf Hz Hb1 Hb2 H1 H2.
  destruct (start_batch_return _ _ _ _ _ H1 Hb1 eq_refl) as (o1' & t1 & D1 & ->).
  destruct (start_batch_return _ _ _ _ _ H2 Hb2 eq_refl) as (o2' & t2 & D2 & ->). clear H1 H2.
  revert D1. unfold dispatch_batch, dispatch_send, on_call. mred. rewrite (fc_stream s Hf). mred.
  destruct (plugin_pairs _) as [[pm1|e|] u1] eqn:P1; [|done..]. mred. intros [= <- <-].
  apply plugin_pairs_some with (z := z) in P1; [|done]. subst u1. simpl in *.
  revert D2. unfold dispatch_batch, dispatch_send, take_pending_metadata, on_call. mred. rewrite (fc_stream s Hf). mred.
  destruct (plugin_pairs _) as [[pm2|e|] u2] eqn:P2; [|done..]. mred.
  apply plugin_pairs_some with (z := z) in P2; [|done]. subst u2. simpl.
  destruct (start_bidi_stream _ _ _ _ _ _ _) as [[[]|e|] v1] eqn:E1; [|done..].
  destruct (send_stream_message _ _ _ _ _ _) as [[[]|e|] v2] eqn:E2; [|done..].
  destruct (open_and_send _ _ _ _ _ _ E1 E2) as [Hp Hr]. intros [= <- <-]. simpl in *.
  split; [congruence|]. by exists pm1, pm2.
Qed.

Definition start_half_closed_batch (md : list (string * string)) (m : bytes) : BatchOps :=
  MkBatch md true (Some m) true false false false true false.

(** The first batch starts the stream with what it was given. *)
Lemma split_start_stream ops md m s o s1 :
  fresh_call s -> cl_call_plugin (cs_call s) = None -> parse_ops ops = Ok (start_half_closed_batch md m) ->
  start_batch ops s = (Return o, s1) ->
  exists t0 t1, start_server_stream env_var build_error tid clock md [] (Some m) t0 = (Return tt, t1)
    /\ cs_w t0 = cs_w s /\ cl_deadline_usec (cs_call t0) = cl_deadline_usec (cs_call s)
    /\ s1 = MkCS (cl_set_flags (cs_call t1) (cl_send_closed (cs_call t1)) (cl_initial_metadata_sent (cs_call t1))
                   (cl_finished (cs_call t1) || false)) (cs_w t1)
    /\ w_token (cs_w t1) = w_token (cs_w s) /\ w_script (cs_w t1) = w_script (cs_w s)
    /\ cl_finished (cs_call t1) = false.
Proof.
  intros Hf Hpl Hb H. destruct (start_batch_return _ _ _ _ _ H Hb eq_refl) as (o' & t & D & ->). clear H.
  revert D. unfold dispatch_batch, dispatch_send, on_call, plugin_pairs, take_pending_metadata, take_pending_message.
  mred. rewrite (fc_stream s Hf). mred. rewrite Hpl. mred. rewrite app_nil_r.
  set (t0 := MkCS _ (cs_w s)). destruct (start_server_stream _ _ _ _ _ _ _ t0) as [[[]|e|] t1] eqn:E; [|done..].
  intros [= <- <-]. exists t0, t1. split_and!; try done.
  all: revert E; unfold start_server_stream, call_get_runtime, call_pump, in_chan, read_clock, on_call, on_world; mred.
  all: destruct (channel_get_runtime _ _ _ _) as [[rt|e|] c1]; [|done..]; simpl.
  all: destruct (channel_pump _ _ _ _) as [[[]|e|] c2]; [|done..]; simpl.
  all: destruct (deadline_already_expired _ _); simpl; [by intros [= <-]|].
  all: destruct (path_try_from _) as [[]|e]; simpl; [|done]; by intros [= <-].
Qed.

(** The flags a batch raises once it was answered. *)
Definition with_finished (b : BatchOps) (s : CallSt) : CallSt :=
  MkCS (cl_set_flags (cs_call s) (cl_send_closed (cs_call s)) (cl_initial_metadata_sent (cs_call s))
          (cl_finished (cs_call s) || b_recv_status b)) (cs_w s).

(** A receive batch on an active stream. *)
Lemma start_batch_recv ops b s st o s2 :
  parse_ops ops = Ok b -> b_has_send_ops b = false -> b_has_recv_ops b = true ->
  closed_flag s = false -> token_is_cancelled (w_token (cs_w s)) = false ->
  cl_finished (cs_call s) = false -> cl_stream_state (cs_call s) = Some st ->
  build_stream_result env_var build_error tid clock select b (with_flags b s) = (Return o, s2) ->
  start_batch ops s = (Return o, with_finished b s2).
Proof.
  intros Hb Hns Hrc Hc Ht Hf Hst Hd. destruct (parse_ops_recv_only _ _ Hb Hns) as (Hmd & Hmsg & Hcl).
  destruct (start_batch_cases ops s) as [(r & _ & Hcs)|(b' & Hb' & _ & _ & _ & _ & Hs)].
  - exfalso. destruct Hcs as [[_ H]|[[_ H]|[(e & _ & H)|[(_ & b' & H & _ & H2)|[[_ H]|(_ & _ & b' & H & H2)]]]]];
      congruence.
  - assert (b' = b) as -> by congruence. rewrite Hs. fold (with_flags b s).
    assert (Hdisp : dispatch_batch b (with_flags b s) = (Return o, s2)).
    { unfold dispatch_batch, dispatch_stream. mred. rewrite Hns. mred. rewrite Hst. mred. by rewrite Hd. }
    rewrite Hdisp. unfold send_acks. simpl. by rewrite Hmd, Hmsg, Hcl.
Qed.

(** A half-closed split start (metadata, message and close in one batch,
    nothing received) dispatches the request at once: unless the deadline has
    already passed, a stream task is running with exactly the batch's message
    and metadata, the time left as its timeout and the limits of the channel,
    nothing stays buffered in the call, and the answer does not wait for the
    network. *)
Theorem split_start_dispatches ops md m s o s' :
  fresh_call s -> cl_call_plugin (cs_call s) = None -> parse_ops ops = Ok (start_half_closed_batch md m) ->
  start_batch ops s = (Return o, s') ->
  cl_pending_metadata (cs_call s') = [] /\ cl_pending_message (cs_call s') = None
  /\ cl_send_closed (cs_call s') = true /\ w_script (cs_w s') = w_script (cs_w s)
  /\ if deadline_already_expired (clock (w_ticks (cs_w s))) (cl_deadline_usec (cs_call s))
     then cl_stream_state (cs_call s') = Some expired_stream_state /\ w_wire (cs_w s') = None
     else exists r, cl_stream_state (cs_call s') = Some (MkStream false None true None true)
          /\ w_wire (cs_w s') = Some r /\ wr_pc r = DStart
          /\ wr_request r = MkRequest KServerStreaming (cl_channel (cs_call s)) (cl_method (cs_call s)) m
               (apply_metadata md []) (request_timeout (clock (S (w_ticks (cs_w s)))) (cl_deadline_usec (cs_call s)))
               (cl_max_decoding (cs_call s)) (cl_max_encoding (cs_call s)).
Proof.
  intros Hf Hpl Hb H. destruct (start_batch_return _ _ _ _ _ H Hb eq_refl) as (o' & t & D & ->). clear H.
  revert D. unfold dispatch_batch, dispatch_send, on_call, plugin_pairs, take_pending_metadata, take_pending_message.
  mred. rewrite (fc_stream s Hf). mred. rewrite Hpl. mred. rewrite app_nil_r.
  unfold start_server_stream, call_get_runtime, call_pump, in_chan, read_clock, on_call, on_world. mred.
  destruct (channel_get_runtime _ _ _ _) as [[rt|e|] c1]; [|done..]. simpl.
  destruct (channel_pump _ _ _ _) as [[[]|e|] c2]; [|done..]. simpl.
  unfold now. simpl. destruct (deadline_already_expired _ _); simpl.
  - intros [= <- <-]. simpl. rewrite orb_true_r, (fc_wire s Hf). done.
  - destruct (path_try_from _) as [[]|e]; simpl; [|done]. intros [= <- <-]. simpl. rewrite orb_true_r.
    split_and!; try done. eexists. split_and!; done.
Qed.

(** The answer of a unary call started in one batch and awaited in another. *)
Lemma split_unary_answers `{!TokioLaws Tk} `{!ZendLaws Zd} ops1 ops2 md m s o1 s1 st rpE rest t :
  fresh_call s -> cl_call_plugin (cs_call s) = None ->
  parse_ops ops1 = Ok (start_half_closed_batch md m) -> parse_ops ops2 = Ok recv_all_batch ->
  start_batch ops1 s = (Return o1, s1) ->
  cl_stream_state (cs_call s1) = Some st -> as_trailers_rx st = true ->
  rpc_run clock rpc_done (cl_deadline_usec (cs_call s)) false (w_script (cs_w s))
    (rpc_init 0 (w_ticks (cs_w s1)) (w_instant (cs_w s1))) = Some (rpE, rest) -> rp_trailers rpE = Some t ->
  exists used o2 s2 hd ht so ht', w_script (cs_w s) = used ++ rest
    /\ start_batch ops2 s1 = (Return o2, s2) /\ cl_finished (cs_call s2) = true
    /\ obj_props o2 = [("metadata", zv_of_ht ht);
                       ("message", default zv_null (zv_of_bytes <$> head (omap message_of used)));
                       ("status", zv_of_obj so)]
    /\ rp_meta rpE = Some hd /\ metadata_to_php hd = Ok ht /\ metadata_to_php (tr_metadata t) = Ok ht'
    /\ obj_props so = [("metadata", zv_of_ht ht'); ("code", zv_of_long (tr_code t));
                       ("details", zv_of_string (tr_message t))].
Proof.
  intros Hf Hpl Hb1 Hb2 H1 Hst Htr Hrun Ht.
  pose proof (start_batch_closed_flag _ _ _ _ H1) as Hcl. rewrite (fc_open s Hf) in Hcl.
  destruct (split_start_stream _ _ _ _ _ _ Hf Hpl Hb1 H1) as (t0 & t1 & E & Hw0 & Hdl & -> & Htk & Hsc & Hfin).
  simpl in Hst, Hrun. pose proof (fc_live s Hf) as Hlive. rewrite <- Htk in Hlive.
  rewrite <- Hsc, <- Hdl, <- Hlive in Hrun.
  assert (st = MkStream false None true None true) as -> by (eapply start_stream_sim; eauto).
  assert (Hr : reader env_var build_error tid clock (cl_deadline_usec (cs_call t0)) rpE 0 t1)
    by (eapply reader_start; eauto).
  set (s1 := MkCS _ (cs_w t1)) in *.
  destruct (reader_all env_var build_error tid clock select (cl_deadline_usec (cs_call t0)) rpE
    (with_flags recv_all_batch s1) false t) as (o2 & s' & hd & ht & so & ht' & Hd & Hp & Hhd & Hht & Hht' & Hso);
    [by destruct Hr; split|done|done|].
  pose proof (start_batch_recv ops2 _ s1 (MkStream false None true None true) o2 s' Hb2 eq_refl eq_refl Hcl Hlive
    ltac:(by simpl; rewrite Hfin) Hst Hd) as Hs2.
  destruct (rpc_run_messages clock _ _ _ _ _ _ _ Hrun) as (used & Hu & Hm). simpl in Hm.
  pose proof (item_zvals rpE 1 (rd_wf _ _ _ _ _ _ _ _ Hr)) as Hi.
  rewrite Hm in Hi. simpl in Hi. exists used, o2, (with_finished recv_all_batch s'), hd, ht, so, ht'. rewrite <- Hsc. split_and!; try done; [simpl; by rewrite orb_true_r|].
  rewrite Hp. repeat f_equal. destruct (omap message_of used); simpl in *; congruence.
Qed.

(** C7: a unary call started in one batch (metadata, message, close) and awaited in
    another (initial metadata, message, status), as generated clients make it:
    whatever the network does until the call ends, the second batch answers
    the response headers, the server's message (null when there was none) and
    the status the call ended with, in this order, and the call is finished. *)
Theorem split_unary_end_to_end `{!TokioLaws Tk} `{!ZendLaws Zd} ops1 ops2 md m s o1 s1 st rpE rest t :
  fresh_call s -> cl_call_plugin (cs_call s) = None ->
  parse_ops ops1 = Ok (start_half_closed_batch md m) -> parse_ops ops2 = Ok recv_all_batch ->
  start_batch ops1 s = (Return o1, s1) ->
  cl_stream_state (cs_call s1) = Some st -> as_trailers_rx st = true ->
  rpc_run clock rpc_done (cl_deadline_usec (cs_call s)) false (w_script (cs_w s))
    (rpc_init 0 (w_ticks (cs_w s1)) (w_instant (cs_w s1))) = Some (rpE, rest) -> rp_trailers rpE = Some t ->
  exists used o2 s2 hd ht so ht', w_script (cs_w s) = used ++ rest
    /\ start_batch ops2 s1 = (Return o2, s2) /\ cl_finished (cs_call s2) = true
    /\ obj_props o2 = [("metadata", zv_of_ht ht);
                       ("message", default zv_null (zv_of_bytes <$> head (omap message_of used)));
                       ("status", zv_of_obj so)]
    /\ rp_meta rpE = Some hd /\ metadata_to_php hd = Ok ht /\ metadata_to_php (tr_metadata t) = Ok ht'
    /\ obj_props so = [("metadata", zv_of_ht ht'); ("code", zv_of_long (tr_code t));
                       ("details", zv_of_string (tr_message t))].
Proof. apply split_unary_answers. Qed.

End call.

(** * Witnesses *)
Definition wit_php : nat -> @Zval ZendModel -> string -> PluginOutcome (Zd := ZendModel) :=
  fun n _ _ => PoValue (Zd := ZendModel) (ZvArr [(AK_Str "token", zv_str "t")]).
Definition wit_php_throws : nat -> @Zval ZendModel -> string -> PluginOutcome (Zd := ZendModel) :=
  fun n _ _ => PoException (Zd := ZendModel) (Some "AuthError") (Some "denied").

Abbreviation wit_batch php :=
  (start_batch (Zd := ZendModel) (Tn := TonicModel) (Tls := TlsModel) (Ep := EndpointModel) (Tk := TokioModel)
     None (fun _ => None) 0%nat wit_clock (fun _ => true) php).

Definition wit_md_arr : Zv := ZvArr [(AK_Str "k", ZvArr [(AK_Long 0, zv_str "v")])].
Definition wit_msg : Zv := ZvArr [(AK_Str "message", ZvStr [x09])].

(** The operations of a batch, as PHP arrays. *)
Definition wit_ops_unary : list (ArrayKey bytes * Zv) :=
  [(AK_Long 0, wit_md_arr); (AK_Long 1, wit_msg); (AK_Long 2, ZvBool true); (AK_Long 4, ZvBool true);
   (AK_Long 5, ZvBool true); (AK_Long 6, ZvBool true)].
Definition wit_ops_md : list (ArrayKey bytes * Zv) := [(AK_Long 0, wit_md_arr)].
Definition wit_ops_msg : list (ArrayKey bytes * Zv) := [(AK_Long 1, wit_msg)].
Definition wit_ops_both : list (ArrayKey bytes * Zv) := [(AK_Long 0, wit_md_arr); (AK_Long 1, wit_msg)].
Definition wit_ops_close : list (ArrayKey bytes * Zv) := [(AK_Long 2, ZvBool true)].
Definition wit_ops_start : list (ArrayKey bytes * Zv) := take 3 wit_ops_unary.

Definition wit_unary_script : list (Event (Tn := TonicModel)) :=
  [EvReady (Tn := TonicModel) (Ok tt); EvUnary (Tn := TonicModel) (Ok ([], []))].
Definition wit_fresh := wit_state i64_max wit_unary_script.
Definition wit_with_plugin : CallSt (Zd := ZendModel) (Ep := EndpointModel) (Tk := TokioModel) :=
  MkCS (wit_call i64_max (Some (Some (ZvClosure 1)))) (wit_world []).

Definition wit_after (php : nat -> @Zval ZendModel -> string -> PluginOutcome (Zd := ZendModel)) ops s :=
  (wit_batch php ops s).2.
Definition wit_finished := wit_after wit_php wit_ops_unary wit_fresh.

Lemma wit_fresh_ok : fresh_call wit_fresh.
Proof. split; reflexivity. Defined.
Lemma wit_plugin_ok : fresh_call wit_with_plugin.
Proof. split; reflexivity. Defined.

Lemma finished_call_is_over_witness :
  (wit_batch wit_php wit_ops_unary wit_finished).2 = wit_finished.
Proof.
  assert (Hret : exists o, wit_batch wit_php wit_ops_unary wit_fresh = (Return o, wit_finished)).
  { refine (run_returns (wit_batch wit_php wit_ops_unary wit_fresh) _). vm_compute. reflexivity. }
  destruct Hret as [o Ho].
  exact (proj1 (proj2 (finished_call_is_over (Zd := ZendModel) (Tk := TokioModel) None (fun _ => None) 0%nat wit_clock
    (fun _ => true) wit_php (fun _ => None) wit_ops_unary (unary_batch [("k", "v")] [x09]) wit_fresh o wit_finished
    wit_finished Ho eq_refl eq_refl eq_refl (rtc_refl _ _)) wit_ops_unary _ _ (surjective_pairing _))).
Defined.

Lemma cancelled_call_rejects_witness :
  wit_batch wit_php wit_ops_unary (call_cancel wit_fresh).2 = (Throw call_cancelled, (call_cancel wit_fresh).2).
Proof.
  exact (cancelled_call_rejects (Zd := ZendModel) (Tk := TokioModel) None (fun _ => None) 0%nat wit_clock
    (fun _ => true) wit_php (fun _ => None) wit_fresh (Return tt) _ _ wit_ops_unary eq_refl (rtc_refl _ _)).
Defined.

Definition wit_md_sent := wit_after wit_php wit_ops_md wit_fresh.
Definition wit_closed := wit_after wit_php wit_ops_close wit_md_sent.

Lemma initial_metadata_once_witness :
  b_has_send_initial_metadata (MkBatch [] false None true false false false true false) = false.
Proof.
  assert (H1 : exists o, wit_batch wit_php wit_ops_md wit_fresh = (Return o, wit_md_sent)).
  { refine (run_returns (wit_batch wit_php wit_ops_md wit_fresh) _). vm_compute. reflexivity. }
  assert (H2 : exists o, wit_batch wit_php wit_ops_close wit_md_sent = (Return o, wit_closed)).
  { refine (run_returns (wit_batch wit_php wit_ops_close wit_md_sent) _). vm_compute. reflexivity. }
  destruct H1 as [o1 H1]. destruct H2 as [o2 H2].
  exact (initial_metadata_once (Zd := ZendModel) (Tk := TokioModel) None (fun _ => None) 0%nat wit_clock
    (fun _ => true) wit_php (fun _ => None) wit_ops_md (send_md_batch [("k", "v")]) wit_fresh o1 wit_md_sent wit_md_sent
    wit_ops_close _ o2 wit_closed H1 eq_refl eq_refl eq_refl (rtc_refl _ _) H2 eq_refl eq_refl).
Defined.

Lemma parse_ops_spec_witness : batch_of (Zd := ZendModel) wit_ops_unary (unary_batch [("k", "v")] [x09]).
Proof. exact (parse_ops_spec (Zd := ZendModel) wit_ops_unary (unary_batch [("k", "v")] [x09]) eq_refl). Defined.

Lemma unary_batch_end_to_end_witness :
  exists o vm vs so s', wit_batch wit_php wit_ops_unary wit_fresh = (Return o, s') /\ cl_finished (cs_call s') = true
    /\ obj_props o = [("metadata", vm); ("message", ZvStr []); ("status", ZvObj so);
                      ("send_metadata", ZvBool true); ("send_message", ZvBool true); ("send_close", ZvBool true)]
    /\ shows_metadata vm (Some []) /\ shows_metadata vs None
    /\ obj_props so = [("metadata", vs); ("code", ZvLong 0); ("details", zv_str "")].
Proof.
  exact (unary_batch_end_to_end (Zd := ZendModel) (Tk := TokioModel) None (fun _ => None) 0%nat wit_clock
    (fun _ => true) wit_php wit_ops_unary [("k", "v")] [x09] wit_fresh (unary_ok [] []) _
    wit_fresh_ok eq_refl eq_refl eq_refl).
Defined.

Lemma plugin_failure_sends_nothing_witness :
  exists s', wit_batch wit_php_throws wit_ops_unary wit_with_plugin
             = (Throw (callback_failed "plugin threw AuthError: denied"), s')
    /\ w_plugin_calls (cs_w s') = 1%nat /\ w_log (cs_w s') = [] /\ w_wire (cs_w s') = None
    /\ cl_finished (cs_call s') = false.
Proof.
  exact (plugin_failure_sends_nothing (Zd := ZendModel) (Tk := TokioModel) None (fun _ => None) 0%nat wit_clock
    (fun _ => true) wit_php_throws wit_ops_unary [("k", "v")] [x09] wit_with_plugin (ZvClosure 1)
    (Some "AuthError") (Some "denied") wit_plugin_ok eq_refl eq_refl eq_refl eq_refl).
Defined.

Definition wit_both_sent := wit_after wit_php wit_ops_both wit_fresh.

Lemma first_message_drops_metadata_witness :
  exists r, w_wire (cs_w wit_both_sent) = Some r /\ rq_metadata (wr_request r) = [].
Proof.
  assert (H1 : exists o, wit_batch wit_php wit_ops_both wit_fresh = (Return o, wit_both_sent)).
  { refine (run_returns (wit_batch wit_php wit_ops_both wit_fresh) _). vm_compute. reflexivity. }
  destruct H1 as [o H1].
  exact (proj2 (first_message_drops_metadata (Zd := ZendModel) (Tk := TokioModel) None (fun _ => None) 0%nat wit_clock
    (fun _ => true) wit_php wit_ops_both [("k", "v")] [x09] wit_fresh o wit_both_sent
    wit_fresh_ok eq_refl eq_refl H1)).
Defined.

Definition wit_plugin_1 := wit_after wit_php wit_ops_md wit_with_plugin.
Definition wit_plugin_2 := wit_after wit_php wit_ops_msg wit_plugin_1.

Lemma plugin_called_per_send_batch_witness : w_plugin_calls (cs_w wit_plugin_2) = 2%nat.
Proof.
  assert (H1 : exists o, wit_batch wit_php wit_ops_md wit_with_plugin = (Return o, wit_plugin_1)).
  { refine (run_returns (wit_batch wit_php wit_ops_md wit_with_plugin) _). vm_compute. reflexivity. }
  assert (H2 : exists o, wit_batch wit_php wit_ops_msg wit_plugin_1 = (Return o, wit_plugin_2)).
  { refine (run_returns (wit_batch wit_php wit_ops_msg wit_plugin_1) _). vm_compute. reflexivity. }
  destruct H1 as [o1 H1]. destruct H2 as [o2 H2].
  exact (proj1 (plugin_called_per_send_batch (Zd := ZendModel) (Tk := TokioModel) None (fun _ => None) 0%nat wit_clock
    (fun _ => true) wit_php wit_ops_md wit_ops_msg [("k", "v")] [x09] wit_with_plugin (Some (ZvClosure 1)) o1
    wit_plugin_1 o2 wit_plugin_2 wit_plugin_ok eq_refl eq_refl eq_refl H1 H2)).
Defined.

Definition wit_split := wit_after wit_php wit_ops_start wit_fresh.

Lemma split_start_dispatches_witness :
  exists r, w_wire (cs_w wit_split) = Some r /\ wr_pc r = DStart /\ rq_message (wr_request r) = [x09]
    /\ cl_pending_message (cs_call wit_split) = None.
Proof.
  assert (H1 : exists o, wit_batch wit_php wit_ops_start wit_fresh = (Return o, wit_split)).
  { refine (run_returns (wit_batch wit_php wit_ops_start wit_fresh) _). vm_compute. reflexivity. }
  destruct H1 as [o H1].
  destruct (split_start_dispatches (Zd := ZendModel) (Tk := TokioModel) None (fun _ => None) 0%nat wit_clock
    (fun _ => true) wit_php wit_ops_start [("k", "v")] [x09] wit_fresh o wit_split
    wit_fresh_ok eq_refl eq_refl H1) as (_ & Hm & _ & _ & r & _ & Hw & Hpc & Hrq).
  exists r. rewrite Hrq. repeat split; assumption.
Defined.

Definition wit_ops_recv : list (ArrayKey bytes * Zv) := drop 3 wit_ops_unary.
Definition wit_streaming := wit_state i64_max wit_script.
Definition wit_streaming_1 := wit_after wit_php wit_ops_start wit_streaming.

Lemma wit_streaming_ok : fresh_call wit_streaming.
Proof. split; reflexivity. Defined.

Lemma split_unary_end_to_end_witness :
  exists o s2 vm vs, wit_batch wit_php wit_ops_recv wit_streaming_1 = (Return o, s2)
    /\ cl_finished (cs_call s2) = true
    /\ obj_props o = [("metadata", vm); ("message", ZvStr [x01]); ("status", vs)].
Proof.
  assert (H1 : exists o, wit_batch wit_php wit_ops_start wit_streaming = (Return o, wit_streaming_1)).
  { refine (run_returns (wit_batch wit_php wit_ops_start wit_streaming) _). vm_compute. reflexivity. }
  destruct H1 as [o1 H1].
  set (run := rpc_run (Tn := TonicModel) wit_clock rpc_done i64_max false wit_script
    (rpc_init 0 (w_ticks (cs_w wit_streaming_1)) (w_instant (cs_w wit_streaming_1)))).
  assert (Hrun : run ≫= (fun x => rp_trailers x.1) = Some (MkTrailers (Tn := TonicModel) 0 "" [])) by (vm_compute; reflexivity).
  assert (Hrest : snd <$> run = Some []) by (vm_compute; reflexivity).
  destruct run as [[rpE rest]|] eqn:Erun; [|discriminate Hrest]. injection Hrest as ->.
  destruct (split_unary_end_to_end (Zd := ZendModel) (Tk := TokioModel) None (fun _ => None) 0%nat wit_clock
    (fun _ => true) wit_php wit_ops_start wit_ops_recv [("k", "v")] [x09] wit_streaming o1 wit_streaming_1
    (MkStream false None true None true) rpE [] _ wit_streaming_ok eq_refl eq_refl eq_refl H1 eq_refl eq_refl Erun Hrun)
    as (used & o & s2 & hd & ht & so & ht' & Hu & Hb & Hf & Hp & _).
  exists o, s2, (zv_of_ht ht), (zv_of_obj so). rewrite Hp. split_and!; [exact Hb|exact Hf|].
  change (wit_script = used ++ []) in Hu. rewrite app_nil_r in Hu. rewrite <- Hu. reflexivity.
Defined.
