(* ===== verification/Equiv.v ===== *)
(** The two ways src/src/call.rs makes a unary call.

    A batch with all six operations goes through [execute_call]; a split start
    (metadata, message, close) dispatches the request at once as a stream of
    one message and a second batch collects the answer.  The second is there
    so that several calls overlap on the wire.  The theorem says what each of
    them answers to every reply of a server, and so where they agree. *)

From Stdlib Require Import ZArith Lia String Strings.Byte.
From stdpp Require Import base gmap list strings.
From S2P Require Import Prelude Utf8 Zend Tokio Tonic Error Runtime Timeval Credentials Channel Metadata Deadline Driver Stream Delivery Bidi Unary Frame Call.

#[local] Open Scope string_scope.
#[local] Open Scope list_scope.
#[local] Open Scope Z_scope.

Section equiv.
Context {Zd : ZendApi} {Tn : TonicApi} {Tls : TlsApi} {Ep : EndpointApi Tn Tls} {Tk : TokioApi}.
Context `{!ZendLaws Zd} `{!TonicLaws Tn} `{!TokioLaws Tk}.
Context (env_var : option string) (build_error : nat -> option string) (tid : nat).
Context (clock : nat -> clock_reading) (select : nat -> bool).
Context (php_call : nat -> Zval -> string -> PluginOutcome).

Abbreviation start_batch := (Call.start_batch env_var build_error tid clock select php_call).

(** What a server does with a unary call, once connected: how a response that
    has started ends, and the reply. *)
Inductive Ending : Type :=
| EndOk (trailers : option MetadataMap)
| EndError (status : Status)
| EndLate (t : Z).     (* nothing more before the timer reaches [t] *)

Inductive Reply : Type :=
| ReplyHeaders (headers : MetadataMap) (bodies : list bytes) (ending : Ending)
| ReplyError (status : Status)   (* an error and no response *)
| ReplyLate (t : Z).             (* nothing before the timer reaches [t] *)

(** What [Grpc::unary] makes of a response: [MetadataMap::merge] adds the
    trailers to the headers; the error of a response without a message gets
    the headers added to its metadata, and keeps its code and message; and an
    OK response without a message is the error [missing_message], which is not
    CANCELLED. *)
Context (md_merge : MetadataMap -> MetadataMap -> MetadataMap).
Context (st_merge : Status -> MetadataMap -> Status) (missing_message : Status).
Context (st_merge_code : forall st md, st_code (st_merge st md) = st_code st).
Context (st_merge_message : forall st md, st_message (st_merge st md) = st_message st).
Context (missing_message_code : st_code missing_message <> Code_Cancelled).

Definition merged (hd : MetadataMap) (tr : option MetadataMap) : MetadataMap :=
  match tr with Some t => md_merge hd t | None => hd end.

(** The reply as [Grpc::unary] reports it, and as the stream does. *)
Definition unary_events (reply : Reply) : list Event :=
  EvReady (Ok tt) :: match reply with
                     | ReplyHeaders hd (body :: _) (EndOk tr) => [EvUnary (Ok (merged hd tr, body))]
                     | ReplyHeaders hd [] (EndOk tr) => [EvUnary (Err missing_message)]
                     | ReplyHeaders hd [] (EndError status) => [EvUnary (Err (st_merge status hd))]
                     | ReplyHeaders _ (_ :: _) (EndError status) | ReplyError status => [EvUnary (Err status)]
                     | ReplyHeaders _ _ (EndLate t) | ReplyLate t => [EvTick t]
                     end.
Definition stream_events (reply : Reply) : list Event :=
  EvReady (Ok tt) :: match reply with
                     | ReplyHeaders hd bodies ending =>
                         EvResponse (Ok hd) :: ((fun b => EvMessage (Ok (Some b))) <$> bodies)
                         ++ match ending with
                            | EndOk tr => [EvMessage (Ok None); EvTrailers (Ok tr)]
                            | EndError status => [EvMessage (Err status)]
                            | EndLate t => [EvTick t]
                            end
                     | ReplyError status => [EvResponse (Err status)]
                     | ReplyLate t => [EvTick t]
                     end.

(** The reply does not depend on which reading of the clock is compared with
    the deadline: all of them agree whether it has passed when the server says
    CANCELLED, and a late server is late by all of them. *)
Definition steady (dl : Z) (status : Status) : Prop :=
  st_code status = Code_Cancelled ->
  forall n n', deadline_already_expired (clock n) dl = deadline_already_expired (clock n') dl.

Definition clear_cut (dl instant : Z) (reply : Reply) : Prop :=
  match reply with
  | ReplyHeaders _ _ (EndOk _) => True
  | ReplyHeaders _ _ (EndError status) | ReplyError status => steady dl status
  | ReplyHeaders _ _ (EndLate t) | ReplyLate t => forall n, deadline_instant (clock n) instant dl <= t
  end.

(** The same call with another script. *)
Definition on_script (s : CallSt) (script : list Event) : CallSt := MkCS (cs_call s) (set_script (cs_w s) script).

(** The object shows the result of a call, followed by the properties [ps]. *)
Definition shows_result (res : CallResult) (ps : list (string * Zval)) (o : ZObject) : Prop :=
  exists vm vs so,
    obj_props o = [("metadata", vm);
                   ("message", match cr_body res with Some body => zv_of_bytes body | None => zv_null end);
                   ("status", zv_of_obj so)] ++ ps
    /\ shows_metadata vm (cr_initial_metadata res) /\ shows_metadata vs (cr_trailing_metadata res)
    /\ obj_props so = [("metadata", vs); ("code", zv_of_long (cr_code res)); ("details", zv_of_string (cr_message res))].

(** Two results that show as the same. *)
Definition same_result (u v : CallResult) : Prop :=
  cr_body u = cr_body v /\ cr_code u = cr_code v /\ cr_message u = cr_message v
  /\ (forall z, shows_metadata z (cr_initial_metadata u) <-> shows_metadata z (cr_initial_metadata v))
  /\ (forall z, shows_metadata z (cr_trailing_metadata u) <-> shows_metadata z (cr_trailing_metadata v)).

Lemma metadata_to_php_default : metadata_to_php md_default = Ok ht_new.
Proof. unfold metadata_to_php. by rewrite collect_metadata_group, md_iter_default. Qed.

Lemma shows_default z : shows_metadata z None <-> shows_metadata z (Some md_default).
Proof. simpl. rewrite metadata_to_php_default. naive_solver. Qed.

Lemma status_to_php_clock n n' status dl :
  steady dl status -> status_to_php (clock n) status dl = status_to_php (clock n') status dl.
Proof.
  intros H. unfold status_to_php. rewrite <- !andb_assoc. destruct (Z.eqb_spec (st_code status) Code_Cancelled) as [E|]; [|done].
  unfold steady, deadline_already_expired in H. rewrite !andb_assoc. simpl. by rewrite (H E n n').
Qed.

Lemma status_to_php_same n status status' dl :
  st_code status = st_code status' -> st_message status = st_message status' ->
  status_to_php (clock n) status dl = status_to_php (clock n) status' dl.
Proof. unfold status_to_php. by intros -> ->. Qed.

(** * The two calls *)
Section paths.
Context (s : CallSt) (md : list (string * string)) (m : bytes) (rt : nat) (c1 c2 : ChanState).
Context (Hfresh : fresh_call s) (Hplugin : cl_call_plugin (cs_call s) = None).
Context (Hpath : path_try_from (cl_method (cs_call s)) = Ok tt).
Context (Hrt : channel_get_runtime env_var build_error tid (w_chan (cs_w s)) = (Return rt, c1)).
Context (Hpump : channel_pump env_var build_error tid c1 = (Return tt, c2)).

Abbreviation dl := (cl_deadline_usec (cs_call s)).
Abbreviation expired := (deadline_already_expired (clock (w_ticks (cs_w s))) dl).

(** What [execute_call] answers. *)
Definition unary_result (reply : Reply) : CallResult :=
  if expired then unary_deadline_exceeded
  else match reply with
       | ReplyHeaders hd (body :: _) (EndOk tr) => unary_ok (merged hd tr) body
       | ReplyHeaders hd [] (EndOk tr) => unary_status (clock 0) missing_message dl
       | ReplyHeaders hd [] (EndError status) => unary_status (clock 0) (st_merge status hd) dl
       | ReplyHeaders _ (_ :: _) (EndError status) | ReplyError status => unary_status (clock 0) status dl
       | ReplyHeaders _ _ (EndLate _) | ReplyLate _ => unary_deadline_exceeded
       end.

(** What the two batches of a split call answer: the headers that came, the
    first message that came and the status the stream ended with. *)
Definition stream_status (reply : Reply) : StreamTrailers :=
  match reply with
  | ReplyHeaders _ _ (EndOk tr) => MkTrailers 0 "" (default md_default tr)
  | ReplyHeaders _ _ (EndError status) | ReplyError status => trailers_of_status (clock 0) status dl
  | ReplyHeaders _ _ (EndLate _) | ReplyLate _ => deadline_exceeded_trailers
  end.

Definition split_result (reply : Reply) : CallResult :=
  if expired then unary_deadline_exceeded
  else let t := stream_status reply in
       match reply with
       | ReplyHeaders hd bodies _ => MkResult (Some hd) (head bodies) (Some (tr_metadata t)) (tr_code t) (tr_message t)
       | _ => MkResult None None (Some (tr_metadata t)) (tr_code t) (tr_message t)
       end.

(** The replies to which both answer the same: one message or more and no
    trailing metadata, or no response at all. *)
Definition plain_reply (reply : Reply) : bool :=
  match reply with
  | ReplyHeaders _ (_ :: _) (EndOk None) | ReplyError _ | ReplyLate _ => true
  | ReplyHeaders _ _ _ => false
  end.

(** An OK response without a message. *)
Definition empty_ok (reply : Reply) : bool :=
  match reply with ReplyHeaders _ [] (EndOk _) => true | _ => false end.

Lemma results_same reply :
  expired = true \/ plain_reply reply = true -> same_result (unary_result reply) (split_result reply).
Proof.
  unfold unary_result, split_result. destruct expired; [done|]. intros [|Hp]; [done|].
  destruct reply as [hd [|body bodies] [[tr|]|status|t]|status|t]; try done; simpl;
    unfold unary_status, trailers_of_status; try destruct (status_to_php _ _ _); split_and!; try done; intros z;
    by rewrite <- shows_default.
Qed.

Lemma results_code reply :
  empty_ok reply = false ->
  cr_code (unary_result reply) = cr_code (split_result reply)
  /\ cr_message (unary_result reply) = cr_message (split_result reply).
Proof.
  unfold unary_result, split_result. destruct expired; [done|]. intros He.
  destruct reply as [hd [|body bodies] [tr|status|t]|status|t]; try done; simpl; unfold unary_status, trailers_of_status;
    [rewrite (status_to_php_same 0 (st_merge status hd) status) by done|..]; by destruct (status_to_php _ status _).
Qed.

(** Both start with the thread's runtime and a pump. *)
Lemma runtime_and_pump {A} c w (f : CallSt -> outcome PhpException A * CallSt) :
  w_chan w = w_chan (cs_w s) ->
  (_ ← call_get_runtime env_var build_error tid; call_pump env_var build_error tid ;; f) (MkCS c w)
  = f (MkCS c (set_chan w c2)).
Proof.
  intros Hw. unfold call_get_runtime, call_pump, in_chan, mbind, M_bind. simpl. rewrite Hw, Hrt. simpl. by rewrite Hpump.
Qed.

Lemma execute_reply reply :
  clear_cut dl (w_instant (cs_w s)) reply ->
  exists s', execute_call env_var build_error tid clock md [] (Some m)
               (with_flags (unary_batch md m) (on_script s (unary_events reply))) = (Return (unary_result reply), s').
Proof.
  intros Hc. unfold unary_result, execute_call, with_flags. rewrite runtime_and_pump by done.
  unfold read_clock. mred. unfold now. simpl. destruct expired; [by eexists|].
  assert (Hst : forall status n, steady dl status -> unary_status (clock n) status dl = unary_status (clock 0) status dl).
  { intros status n Hs. unfold unary_status. by rewrite (status_to_php_clock n 0 _ _ Hs). }
  assert (Hlate : forall t n, (forall n, deadline_instant (clock n) (w_instant (cs_w s)) dl <= t) ->
    deadline_instant (clock n) (w_instant (cs_w s)) dl <=? Z.max (w_instant (cs_w s)) t = true).
  { intros t n Ht. apply Z.leb_le. specialize (Ht n). lia. }
  unfold run_unary, unary_future. simpl. rewrite Hpath. simpl.
  destruct reply as [hd [|body bodies] [tr|status|t]|status|t]; simpl in *; unfold now; simpl;
    try (rewrite Hlate by done; by eexists); try by eexists.
  all: rewrite Hst; [by eexists|unfold steady; rewrite ?st_merge_code; done].
Qed.

(** The split start is answered with the acks, and leaves a running stream or
    an expired one. *)
Lemma split_starts ops1 script :
  parse_ops ops1 = Ok (start_half_closed_batch md m) ->
  exists o1 s1, start_batch ops1 (on_script s script) = (Return o1, s1)
    /\ obj_props o1 = acks (start_half_closed_batch md m)
    /\ cl_stream_state (cs_call s1) = Some (if expired then expired_stream_state else MkStream false None true None true)
    /\ runtime_ready env_var build_error tid (cs_w s1) /\ cl_finished (cs_call s1) = false
    /\ w_token (cs_w s1) = w_token (cs_w s) /\ w_instant (cs_w s1) = w_instant (cs_w s).
Proof.
  intros Hb. assert (Hf : fresh_call (on_script s script)) by (by destruct Hfresh; split).
  destruct (send_acks_shows obj_new (start_half_closed_batch md m)) as (o1 & Ho1 & Hp1).
  { rewrite obj_props_new. by intros x ?%not_elem_of_nil. }
  rewrite obj_props_new in Hp1. rewrite (start_batch_fresh _ _ _ _ _ _ _ _ _ Hf Hb eq_refl).
  assert (Hready : exists id, get_runtime env_var build_error tid (ch_rt c2) = (Return id, ch_rt c2))
    by (by eapply channel_pump_rt).
  unfold dispatch_batch, dispatch_send, on_call, plugin_pairs, take_pending_metadata, take_pending_message.
  mred. rewrite (fc_stream _ Hfresh). mred. rewrite Hplugin. mred. rewrite app_nil_r.
  unfold start_server_stream. rewrite runtime_and_pump by done. unfold read_clock, on_call, on_world. mred. unfold now. simpl.
  destruct expired; simpl; [|rewrite Hpath; simpl]; rewrite Ho1; eexists o1, _; (split; [reflexivity|]); simpl;
    by rewrite ?(fc_finished _ Hfresh).
Qed.

(** Receiving everything from a stream that had expired when it was opened. *)
Lemma recv_all_expired s1 :
  cl_stream_state (cs_call s1) = Some expired_stream_state -> runtime_ready env_var build_error tid (cs_w s1) ->
  exists o2 s2, build_stream_result env_var build_error tid clock select recv_all_batch s1 = (Return o2, s2)
    /\ shows_result unary_deadline_exceeded [] o2.
Proof.
  intros Hst Hr. destruct (call_get_runtime_ready env_var build_error tid s1 Hr) as [id Hg].
  destruct (set_prop_new "metadata" (zv_of_ht ht_new) "metadata") as (o & Ho & Hp).
  destruct (set_prop_fresh o "message" zv_null "message") as (o' & Ho' & Hp').
  { rewrite Hp. by intros ?%list_elem_of_singleton. }
  destruct (status_zval_ok md_default 4 "Deadline Exceeded") as (v & ht & so & Hht & Hv & -> & Hso).
  rewrite metadata_to_php_default in Hht. injection Hht as <-.
  destruct (set_prop_fresh o' "status" (zv_of_obj so) "status") as (o2 & Ho2 & Hp2).
  { rewrite Hp', Hp. simpl. by intros [?|?%list_elem_of_singleton]%elem_of_cons. }
  unfold build_stream_result. rewrite (M_bind_return _ _ _ _ _ Hg), (M_bind_return _ _ _ _ _ (get_stream_some s1 _ Hst)).
  unfold recv_metadata, recv_message, recv_status, final_trailers, get_stream, put_stream, on_call. mred. rewrite Hst. mred.
  rewrite Hst. mred. rewrite Ho. mred. rewrite Ho'. mred. rewrite Hv. mred. rewrite Ho2.
  eexists o2, _. split; [reflexivity|]. exists (zv_of_ht ht_new), (zv_of_ht ht_new), so. rewrite Hp2, Hp', Hp.
  split_and!; try done. simpl. rewrite metadata_to_php_default. eauto.
Qed.

(** The messages of a response, one after the other. *)
Lemma rpc_run_bodies bodies rest rp :
  rp_pc rp = RBody ->
  rpc_run clock rpc_done dl false (((fun b => EvMessage (Ok (Some b))) <$> bodies) ++ rest) rp
  = rpc_run clock rpc_done dl false rest
      (MkRpc RBody (rp_deadline rp) (rp_items rp ++ ((fun b => Ok (Some b)) <$> bodies)) (rp_meta rp) (rp_trailers rp)
         (rp_ticks rp) (rp_instant rp)).
Proof.
  clear. revert rp. induction bodies as [|b bodies IH]; intros [pc dlt its me tr n ins] Hpc; simpl in *; subst pc.
  - by rewrite app_nil_r.
  - csimpl. unfold rpc_done at 1. simpl. rewrite IH by done. simpl. by rewrite <- app_assoc.
Qed.

Lemma stream_messages reply :
  head (omap message_of (stream_events reply))
  = match reply with ReplyHeaders _ bodies _ => head bodies | _ => None end.
Proof.
  clear. destruct reply as [hd [|b bodies] [tr|status|t]|status|t]; reflexivity.
Qed.

(** How the call goes on the stream, unless it had expired. *)
Lemma stream_reply reply n :
  clear_cut dl (w_instant (cs_w s)) reply ->
  exists rpE, rpc_run clock rpc_done dl false (stream_events reply) (rpc_init 0 n (w_instant (cs_w s))) = Some (rpE, [])
    /\ rp_trailers rpE = Some (stream_status reply)
    /\ rp_meta rpE = Some (match reply with ReplyHeaders hd _ _ => hd | _ => md_default end).
Proof.
  intros Hc. unfold stream_status.
  assert (Hst : forall status k, steady dl status -> trailers_of_status (clock k) status dl = trailers_of_status (clock 0) status dl).
  { intros status k Hs. unfold trailers_of_status. by rewrite (status_to_php_clock k 0 _ _ Hs). }
  assert (Hlate : forall t, (forall n, deadline_instant (clock n) (w_instant (cs_w s)) dl <= t) ->
    deadline_instant (clock n) (w_instant (cs_w s)) dl <=? Z.max (w_instant (cs_w s)) t = true).
  { intros t Ht. apply Z.leb_le. specialize (Ht n). lia. }
  destruct reply as [hd bodies ending|status|t]; simpl in *.
  - rewrite rpc_run_bodies by done. destruct ending as [tr|status|t]; simpl.
    + eexists. by split_and!.
    + rewrite <- (Hst status (S n) Hc). eexists. by split_and!.
    + rewrite Hlate by done. eexists. by split_and!.
  - rewrite <- (Hst status (S n) Hc). eexists. by split_and!.
  - rewrite Hlate by done. eexists. by split_and!.
Qed.

End paths.

(** C8: the two ways to make a unary call, for the same call and the same
    behaviour of the server, once connected.  To every reply, the single batch
    answers [unary_result] and the split pair [split_result], with the same
    acknowledgements; both leave the call finished.  The two are the same for a
    call that had expired and for plain replies: a response with a message and
    no trailing metadata, an error instead of a response, silence until the
    deadline.  For every reply but an OK without a message the code and the
    details of the status are the same.  Where they differ: an OK without a
    message is an error of tonic's in the single batch and OK with a null
    message in the split pair; trailing metadata are merged into the headers in
    the single batch and shown in the status by the split pair; and of a
    response that fails, or stops until the deadline, after its headers the
    single batch shows neither headers nor message, the split pair both.  *)
Theorem unary_paths_agree s md m ops ops1 ops2 reply rt c1 c2 :
  fresh_call s -> cl_call_plugin (cs_call s) = None -> path_try_from (cl_method (cs_call s)) = Ok tt ->
  channel_get_runtime env_var build_error tid (w_chan (cs_w s)) = (Return rt, c1) ->
  channel_pump env_var build_error tid c1 = (Return tt, c2) ->
  parse_ops ops = Ok (unary_batch md m) ->
  parse_ops ops1 = Ok (start_half_closed_batch md m) -> parse_ops ops2 = Ok recv_all_batch ->
  clear_cut (cl_deadline_usec (cs_call s)) (w_instant (cs_w s)) reply ->
  (exists o su o1 s1 o2 s2,
     start_batch ops (on_script s (unary_events reply)) = (Return o, su)
     /\ start_batch ops1 (on_script s (stream_events reply)) = (Return o1, s1)
     /\ start_batch ops2 s1 = (Return o2, s2)
     /\ cl_finished (cs_call su) = true /\ cl_finished (cs_call s2) = true
     /\ shows_result (unary_result s reply) (obj_props o1) o
     /\ shows_result (split_result s reply) [] o2)
  /\ (deadline_already_expired (clock (w_ticks (cs_w s))) (cl_deadline_usec (cs_call s)) = true \/ plain_reply reply = true ->
       same_result (unary_result s reply) (split_result s reply))
  /\ (empty_ok reply = false -> cr_code (unary_result s reply) = cr_code (split_result s reply)
       /\ cr_message (unary_result s reply) = cr_message (split_result s reply)).
Proof.
  intros Hf Hpl Hpath Hrt Hpump Hb Hb1 Hb2 Hc. split; [|split; [apply results_same|apply results_code]].
  destruct (execute_reply s md m rt c1 c2 Hpath Hrt Hpump reply Hc) as [sx Hex].
  assert (Hfu : fresh_call (on_script s (unary_events reply))) by (by destruct Hf; split).
  destruct (unary_batch_answers env_var build_error tid clock select php_call ops md m _ _ _ Hfu Hpl Hb Hex)
    as (o & vm & vs & so & su & Ho & Hfin & Hp & Hvm & Hvs & Hso).
  destruct (split_starts s md m rt c1 c2 Hf Hpl Hpath Hrt Hpump ops1 (stream_events reply) Hb1)
    as (o1 & s1 & Ho1 & Hp1 & Hst & Hrdy & Hnf & Htk & Hins).
  pose proof (start_batch_closed_flag _ _ _ _ _ _ _ _ _ _ Ho1) as Hcl.
  change (closed_flag (on_script s (stream_events reply))) with (closed_flag s) in Hcl. rewrite (fc_open s Hf) in Hcl.
  assert (Hshow : shows_result (unary_result s reply) (obj_props o1) o) by (exists vm, vs, so; rewrite Hp1; by split_and!).
  exists o, su, o1, s1. unfold split_result. destruct (deadline_already_expired _ _) eqn:Eexp.
  - destruct (recv_all_expired (with_flags recv_all_batch s1) Hst Hrdy) as (o2 & s2 & Hbr & Hsh).
    pose proof (start_batch_recv env_var build_error tid clock select php_call ops2 _ s1 _ o2 s2 Hb2 eq_refl eq_refl Hcl
      ltac:(by rewrite Htk; apply Hf) Hnf Hst Hbr) as Ho2.
    eexists o2, _. split_and!; [done|done|exact Ho2|done|simpl; by rewrite orb_true_r|done|done].
  - destruct (stream_reply s reply (w_ticks (cs_w s1)) Hc) as (rpE & Hrun & Ht & Hm). rewrite <- Hins in Hrun.
    destruct (split_unary_answers env_var build_error tid clock select php_call ops1 ops2 md m (on_script s (stream_events reply))
      o1 s1 _ rpE [] _ ltac:(by destruct Hf; split) Hpl Hb1 Hb2 Ho1 Hst eq_refl Hrun Ht)
      as (used & o2 & s2 & hd' & ht & so2 & ht' & Hu & Ho2 & Hfin2 & Hp2 & Hhd & Hht & Hht' & Hso2).
    rewrite app_nil_r in Hu. change (stream_events reply = used) in Hu. subst used. rewrite stream_messages in Hp2.
    rewrite Hm in Hhd. injection Hhd as <-. exists o2, s2. split_and!; try done.
    exists (zv_of_ht ht), (zv_of_ht ht'), so2. rewrite Hp2, Hso2. destruct reply as [hd bodies ending|status|t]; simpl;
      split_and!; eauto; try (by destruct bodies); by rewrite metadata_to_php_default in Hht; simplify_eq.
Qed.

End equiv.

(** * Witness

    An error after the headers. *)
Definition wit_reply : Reply (Tn := TonicModel) :=
  ReplyHeaders (Tn := TonicModel) [KV_Ascii "k" "v"] [] (EndError (Tn := TonicModel) (MkStatus 5 "no such thing" [] [])).
Definition wit_merge : @MetadataMap TonicModel -> @MetadataMap TonicModel -> @MetadataMap TonicModel := app.
Definition wit_st_merge (st : @Status TonicModel) (md : @MetadataMap TonicModel) : @Status TonicModel :=
  MkStatus (ms_code st) (ms_message st) (ms_details st) (ms_metadata st ++ md).
Definition wit_missing : @Status TonicModel := MkStatus 13 "Missing response message." [] [].

Abbreviation wit_unary_events := (unary_events wit_merge wit_st_merge wit_missing).
Abbreviation wit_unary_result := (unary_result (Zd := ZendModel) (Tk := TokioModel) wit_clock wit_merge wit_st_merge wit_missing).
Abbreviation wit_split_result := (split_result (Zd := ZendModel) (Tk := TokioModel) wit_clock).

Lemma unary_paths_agree_witness :
  (exists o su o1 s1 o2 s2,
    wit_batch wit_php wit_ops_unary (on_script wit_fresh (wit_unary_events wit_reply)) = (Return o, su)
    /\ wit_batch wit_php wit_ops_start (on_script wit_fresh (stream_events wit_reply)) = (Return o1, s1)
    /\ wit_batch wit_php wit_ops_recv s1 = (Return o2, s2)
    /\ shows_result (Zd := ZendModel) (wit_unary_result wit_fresh wit_reply) (obj_props o1) o
    /\ shows_result (Zd := ZendModel) (wit_split_result wit_fresh wit_reply) [] o2)
  /\ cr_code (wit_unary_result wit_fresh wit_reply) = cr_code (wit_split_result wit_fresh wit_reply).
Proof.
  destruct (unary_paths_agree (Zd := ZendModel) (Tk := TokioModel) None (fun _ => None) 0%nat wit_clock (fun _ => true) wit_php
    wit_merge wit_st_merge wit_missing (fun _ _ => eq_refl) (fun _ _ => eq_refl) ltac:(discriminate)
    wit_fresh [("k", "v")] [x09] wit_ops_unary wit_ops_start wit_ops_recv wit_reply _ _ _
    wit_fresh_ok eq_refl eq_refl eq_refl eq_refl eq_refl eq_refl eq_refl ltac:(discriminate))
    as ((o & su & o1 & s1 & o2 & s2 & H1 & H2 & H3 & _ & _ & H4 & H5) & _ & Hcode).
  split; [exists o, su, o1, s1, o2, s2; split_and!; assumption|exact (proj1 (Hcode eq_refl))].
Defined.
