(* ===== verification/Spec.v ===== *)
(** The contract of a streaming call, and that [startBatch] of src/src/call.rs
    implements it.

    A PHP program sees a call through batches.  The abstract call knows only
    how the call goes on the network ([Rpc] of Driver.v), how many items were
    read, whether the headers were taken, whether the status was, whether the
    call was cancelled, whether the program can still send, whether it has sent
    its metadata, and the messages it sent; it has no task, no buffers, no
    channels, no runtime and no stream handles.  The refinement theorem here
    says that every program of receive batches and cancellations is answered,
    with exactly the answers the abstract call allows; Session.v has the
    programs that send too, under arbitrary interleaving. *)

From Stdlib Require Import ZArith Lia String Strings.Byte.
From stdpp Require Import base gmap list strings.
From S2P Require Import Prelude Utf8 Zend Tokio Tonic Error Runtime Timeval Credentials Channel Metadata Deadline Driver Stream Delivery Bidi Unary Frame Call.

#[local] Open Scope string_scope.
#[local] Open Scope list_scope.
#[local] Open Scope Z_scope.

Section spec.
Context {Zd : ZendApi} {Tn : TonicApi} {Tls : TlsApi} {Ep : EndpointApi Tn Tls} {Tk : TokioApi}.
Context `{!ZendLaws Zd} `{!TokioLaws Tk}.
Context (env_var : option string) (build_error : nat -> option string) (tid : nat).
Context (clock : nat -> clock_reading) (select : nat -> bool).
Context (php_call : nat -> Zval -> string -> PluginOutcome).

Abbreviation start_batch := (Call.start_batch env_var build_error tid clock select php_call).
Abbreviation reader := (Delivery.reader env_var build_error tid clock).

(** * The abstract call *)

(** What a program does with a call, and what it is answered. *)
Inductive ClientOp : Type := DoBatch (ops : HashTable) | DoCancel.
Inductive Answer : Type := AObject (o : ZObject) | AThrow (e : PhpException) | AUnit.

Record SpecSt : Type := MkSpec {
  sp_read : nat;
  sp_meta : bool;
  sp_over : bool;
  sp_cancelled : bool;
  sp_tx : bool;
  sp_md : bool;
  sp_sent : list bytes;
}.

(** A call that was just opened; [tx]: as a client stream; [md]: with metadata. *)
Definition spec_init (tx md : bool) : SpecSt := MkSpec 0 false false false tx md [].

Section abstract.
(** The deadline, the call on the network, and whether tonic let go of the
    request stream. *)
Context (dl : Z) (rpE : Rpc (Tn := Tn)) (gone : Prop).

(** The properties of the result object, one function per operation. *)
Definition answers_metadata (wanted taken : bool) (ps : list (string * Zval)) : Prop :=
  if wanted then exists ht, ps = [("metadata", zv_of_ht ht)]
    /\ if taken then ht = ht_new else exists m, rp_meta rpE = Some m /\ metadata_to_php m = Ok ht
  else ps = [].

(** The call has the [k]-th item, or will never have it. *)
Definition settled (k : nat) : Prop := (k < length (rp_items rpE))%nat \/ rpc_done rpE = true.

Definition answers_message (wanted : bool) (k : nat) (ps : list (string * Zval)) : Prop :=
  if wanted then settled k /\ ps = [("message", item_zval (rp_items rpE !! k))] else ps = [].

(** The status after [k] items were read: the trailers, and for a call that
    never connected its error once it was read. *)
Definition final_status (k : nat) (t : StreamTrailers) : Prop :=
  rpc_done rpE = true
  /\ match rp_trailers rpE with
     | Some t' => t = t'
     | None => exists status, last (rp_items rpE) = Some (Err status)
               /\ if decide (length (rp_items rpE) <= k)%nat
                  then exists n, t = trailers_of_status (clock n) status dl else t = stream_terminated
     end.

Definition answers_status (wanted : bool) (k : nat) (ps : list (string * Zval)) : Prop :=
  if wanted then exists t so ht, ps = [("status", zv_of_obj so)] /\ final_status k t
    /\ metadata_to_php (tr_metadata t) = Ok ht
    /\ obj_props so = [("metadata", zv_of_ht ht); ("code", zv_of_long (tr_code t));
                       ("details", zv_of_string (tr_message t))]
  else ps = [].

(** A batch that reaches the call. *)
Definition accepted (ops : HashTable) (b : BatchOps) (sp : SpecSt) : Prop :=
  sp_cancelled sp = false /\ parse_ops ops = Ok b /\ b_has_send_ops b || b_has_recv_ops b = true
  /\ sp_over sp = false /\ b_has_send_initial_metadata b && sp_md sp = false.

Inductive spec_step : ClientOp -> SpecSt -> Answer -> SpecSt -> Prop :=
| spec_cancel sp :
    spec_step DoCancel sp AUnit
      (MkSpec (sp_read sp) (sp_meta sp) (sp_over sp) true (sp_tx sp) (sp_md sp) (sp_sent sp))
| spec_cancelled ops sp :
    sp_cancelled sp = true -> spec_step (DoBatch ops) sp (AThrow call_cancelled) sp
| spec_malformed ops e sp :
    sp_cancelled sp = false -> parse_ops ops = Err e -> spec_step (DoBatch ops) sp (AThrow e) sp
| spec_nothing ops b o sp :
    sp_cancelled sp = false -> parse_ops ops = Ok b -> b_has_send_ops b || b_has_recv_ops b = false ->
    obj_props o = [] -> spec_step (DoBatch ops) sp (AObject o) sp
| spec_over ops b sp :
    sp_cancelled sp = false -> parse_ops ops = Ok b -> b_has_send_ops b || b_has_recv_ops b = true ->
    sp_over sp || b_has_send_initial_metadata b && sp_md sp = true ->
    spec_step (DoBatch ops) sp (AThrow too_many_operations) sp
| spec_refused ops b sp :
    accepted ops b sp -> is_Some (b_send_message b) -> (sp_tx sp = true -> gone) ->
    spec_step (DoBatch ops) sp
      (AThrow (exn_default (if sp_tx sp then "stream send channel closed" else "stream does not support sending")))
      (MkSpec (sp_read sp) (sp_meta sp) false false (sp_tx sp) (sp_md sp || b_has_send_initial_metadata b) (sp_sent sp))
| spec_batch ops b o ps1 ps2 ps3 sp :
    accepted ops b sp -> (is_Some (b_send_message b) -> sp_tx sp = true) ->
    let read := (sp_read sp + if b_recv_message b then 1 else 0)%nat in
    answers_metadata (b_recv_initial_metadata b) (sp_meta sp) ps1 ->
    answers_message (b_recv_message b) (sp_read sp) ps2 ->
    answers_status (b_recv_status b) read ps3 ->
    obj_props o = ps1 ++ ps2 ++ ps3 ++ acks b ->
    spec_step (DoBatch ops) sp (AObject o)
      (MkSpec read (sp_meta sp || b_recv_initial_metadata b) (b_recv_status b) false
         (sp_tx sp && negb (b_send_close b)) (sp_md sp || b_has_send_initial_metadata b)
         (sp_sent sp ++ option_list (b_send_message b))).

Inductive spec_run : list ClientOp -> SpecSt -> list Answer -> SpecSt -> Prop :=
| spec_nil sp : spec_run [] sp [] sp
| spec_cons op ops sp a sp1 l sp2 :
    spec_step op sp a sp1 -> spec_run ops sp1 l sp2 -> spec_run (op :: ops) sp (a :: l) sp2.

End abstract.

(** * The program against the code *)

(** A program goes on after an exception; [None]: a batch never answered. *)
Definition run_op (op : ClientOp) (s : CallSt) : option (Answer * CallSt) :=
  match op with
  | DoCancel => Some (AUnit, (call_cancel s).2)
  | DoBatch ops =>
      match start_batch ops s with
      | (Return o, s) => Some (AObject o, s)
      | (Throw e, s) => Some (AThrow e, s)
      | (Blocked, _) => None
      end
  end.

Fixpoint run_client (ops : list ClientOp) (s : CallSt) : option (list Answer * CallSt) :=
  match ops with
  | [] => Some ([], s)
  | op :: ops =>
      match run_op op s with
      | Some (a, s) => (fun '(l, s) => (a :: l, s)) <$> run_client ops s
      | None => None
      end
  end.

(** A batch is answered at once, without touching the call, or accepted and
    routed. *)
Lemma start_batch_accepts ops sp s :
  closed_flag s = false -> token_is_cancelled (w_token (cs_w s)) = sp_cancelled sp ->
  cl_finished (cs_call s) = sp_over sp -> cl_initial_metadata_sent (cs_call s) = sp_md sp ->
  (exists a, run_op (DoBatch ops) s = Some (a, s) /\ forall dl rpE gone, spec_step dl rpE gone (DoBatch ops) sp a sp)
  \/ exists b, accepted ops b sp
     /\ start_batch ops s =
        match dispatch_batch env_var build_error tid clock select php_call b (with_flags b s) with
        | (Return o, s2) => lift (send_acks o b) (with_finished b s2)
        | (Throw e, s2) => (Throw e, s2)
        | (Blocked, s2) => (Blocked, s2)
        end.
Proof.
  intros Ho Hc Hf Hm. unfold run_op, accepted. destruct (sp_cancelled sp) eqn:Ec.
  { left. eexists. split; [|intros; by apply spec_cancelled]. unfold Call.start_batch. mred. by rewrite Ho, Hc. }
  destruct (parse_ops ops) as [b|e] eqn:Hb.
  2: { left. eexists. split; [|intros; by apply spec_malformed]. unfold Call.start_batch. mred. by rewrite Ho, Hc, Hb. }
  destruct (b_has_send_ops b || b_has_recv_ops b) eqn:Hne.
  2: { left. eexists. split; [|intros; eapply spec_nothing; [done|done|done|apply obj_props_new]].
       unfold Call.start_batch. mred. by rewrite Ho, Hc, Hb, <- negb_orb, Hne. }
  destruct (sp_over sp || b_has_send_initial_metadata b && sp_md sp) eqn:Eo.
  { left. eexists. split; [|intros; by eapply spec_over]. unfold Call.start_batch. mred.
    rewrite Ho, Hc, Hb, <- negb_orb, Hne, Hf, Hm. simpl. destruct (sp_over sp); [done|]. simpl in Eo. by rewrite Eo. }
  right. exists b. apply orb_false_iff in Eo as [Eo Em]. split; [done|].
  destruct (start_batch_cases env_var build_error tid clock select php_call ops s)
    as [(r & _ & Hcs)|(b' & Hb' & _ & _ & _ & _ & Hs)]; [exfalso|by assert (b' = b) as -> by congruence].
  destruct Hcs as [[_ H]|[[_ H]|[(e & _ & H)|[(_ & b' & H & H1 & H2)|[[_ H]|(_ & H1 & b' & H & H2)]]]]]; try congruence.
  - assert (b' = b) as -> by congruence. by rewrite H1, H2 in Hne.
  - assert (b' = b) as -> by congruence. rewrite Hm in H1. by rewrite H1, H2 in Em.
Qed.

Section refinement.
Context (dl : Z) (rpE : Rpc (Tn := Tn)).

(** When the code is in a state of the abstract call. *)
Record refines (sp : SpecSt) (s : CallSt) : Prop := {
  rf_open : closed_flag s = false;
  rf_cancelled : token_is_cancelled (w_token (cs_w s)) = sp_cancelled sp;
  rf_finished : cl_finished (cs_call s) = sp_over sp;
  rf_md : cl_initial_metadata_sent (cs_call s) = sp_md sp;
  rf_reader : sp_over sp = false -> sp_cancelled sp = false -> reader dl rpE (sp_read sp) s /\ meta_read (sp_meta sp) s;
}.

(** The answer of a receive batch, operation by operation. *)
Lemma recv_metadata_answers (b : bool) k mr s :
  reader dl rpE k s -> meta_read mr s ->
  exists o s', (if b then recv_metadata clock obj_new else mret obj_new) s = (Return o, s')
    /\ answers_metadata rpE b mr (obj_props o) /\ reader dl rpE k s' /\ meta_read (mr || b) s'.
Proof.
  intros Hr Hm. destruct b; simpl.
  - destruct (reader_metadata env_var build_error tid clock obj_new dl rpE k mr s) as (ht & o & s' & H1 & Hp & Hht & Hr' & Hm'); [|done..|].
    { rewrite obj_props_new. by intros ?%not_elem_of_nil. }
    exists o, s'. rewrite orb_true_r. split_and!; try done. exists ht. by rewrite Hp, obj_props_new.
  - exists obj_new, s. rewrite orb_false_r. split_and!; try done. apply obj_props_new.
Qed.

Lemma recv_message_meta o mr s o' s' :
  meta_read mr s -> recv_message clock o s = (Return o', s') -> meta_read mr s'.
Proof.
  intros (st & Hst & Hi & Hx). unfold recv_message.
  rewrite (M_bind_return _ _ _ _ _ (get_stream_some s st Hst)).
  destruct (as_cached_trailers st).
  { unfold lift. destruct (set_prop _ _ _ _); intros; simplify_eq. by exists st. }
  unfold next_item. mred. destruct (recv_item mpsc_try_recv (cs_w s)) as [[a|] w1]; [|unfold await; destruct (block_on _ _ _ _) as [[a|e|] w2]; [|done..]];
    destruct a as [[[m|]|e]|]; unfold put_stream, on_call, read_clock, lift; mred; destruct (set_prop _ _ _ _); intros; simplify_eq; by eexists.
Qed.

Lemma recv_message_answers (b : bool) o k mr s :
  "message" ∉ (obj_props o).*1 -> reader dl rpE k s -> meta_read mr s ->
  exists o' ps s', (if b then recv_message clock o else mret o) s = (Return o', s')
    /\ obj_props o' = obj_props o ++ ps /\ answers_message rpE b k ps
    /\ reader dl rpE (k + if b then 1 else 0) s' /\ meta_read mr s'.
Proof.
  intros Hnew Hr Hm. destruct b.
  - destruct (reader_recv env_var build_error tid clock o dl rpE k s Hnew Hr) as (o' & s' & H1 & Hp & Hr').
    eexists o', _, s'. rewrite Nat.add_1_r. split_and!; try done; [|by eapply recv_message_meta].
    split; [right; apply Hr|done].
  - exists o, [], s. rewrite app_nil_r, Nat.add_0_r. done.
Qed.

Lemma recv_status_answers (b : bool) o k s :
  "status" ∉ (obj_props o).*1 -> reader dl rpE k s ->
  exists o' ps s', (if b then recv_status clock select o else mret o) s = (Return o', s')
    /\ obj_props o' = obj_props o ++ ps /\ answers_status dl rpE b k ps /\ (b = false -> s' = s).
Proof.
  intros Hnew Hr. destruct b.
  - destruct (reader_status env_var build_error tid clock select dl rpE k s Hr) as (t & s' & Hf & Ht).
    destruct (recv_status_shows clock select o s t s' Hnew Hf) as (o' & ht & so & Ho & Hp & Hht & Hso).
    eexists o', _, s'. split_and!; try done. exists t, so, ht. split_and!; try done. split; [apply Hr|done].
  - exists o, [], s. rewrite app_nil_r. done.
Qed.

(** The names an answer can have. *)
Lemma answers_metadata_keys b mr ps k :
  answers_metadata rpE b mr ps -> k <> "metadata" -> k ∉ ps.*1.
Proof.
  unfold answers_metadata. destruct b; [intros (ht & -> & _)|intros ->]; simpl; intros Hk;
    [by intros ?%list_elem_of_singleton|by intros ?%not_elem_of_nil].
Qed.

Lemma answers_message_keys b n ps k : answers_message rpE b n ps -> k <> "message" -> k ∉ ps.*1.
Proof.
  unfold answers_message. destruct b; [intros [_ ->]|intros ->]; simpl; intros Hk;
    [by intros ?%list_elem_of_singleton|by intros ?%not_elem_of_nil].
Qed.

(** A whole receive batch. *)
Lemma build_result_answers b k mr s :
  reader dl rpE k s -> meta_read mr s ->
  let read := (k + if b_recv_message b then 1 else 0)%nat in
  exists o ps1 ps2 ps3 s', build_stream_result env_var build_error tid clock select b s = (Return o, s')
    /\ obj_props o = ps1 ++ ps2 ++ ps3
    /\ answers_metadata rpE (b_recv_initial_metadata b) mr ps1
    /\ answers_message rpE (b_recv_message b) k ps2 /\ answers_status dl rpE (b_recv_status b) read ps3
    /\ (b_recv_status b = false -> reader dl rpE read s' /\ meta_read (mr || b_recv_initial_metadata b) s').
Proof.
  intros Hr Hm read. pose proof Hm as (st & Hst & _).
  destruct (call_get_runtime_ready env_var build_error tid s (rd_rt _ _ _ _ _ _ _ _ Hr)) as [rt Hrt].
  destruct (recv_metadata_answers (b_recv_initial_metadata b) k mr s Hr Hm) as (o1 & s1 & H1 & Ha1 & Hr1 & Hm1).
  destruct (recv_message_answers (b_recv_message b) o1 k _ s1 (answers_metadata_keys _ _ _ "message" Ha1 ltac:(done)) Hr1 Hm1)
    as (o2 & ps2 & s2 & H2 & Hp2 & Ha2 & Hr2 & Hm2).
  assert (Hk : "status" ∉ (obj_props o2).*1).
  { rewrite Hp2, fmap_app. intros [H|H]%elem_of_app; revert H;
      [by eapply answers_metadata_keys|by eapply answers_message_keys]. }
  destruct (recv_status_answers (b_recv_status b) o2 _ s2 Hk Hr2) as (o3 & ps3 & s3 & H3 & Hp3 & Ha3 & Hs3).
  exists o3, (obj_props o1), ps2, ps3, s3. rewrite Hp3, Hp2, <- app_assoc. split_and!; try done; [|by intros ->%Hs3].
  unfold build_stream_result.
  by rewrite (M_bind_return _ _ _ _ _ Hrt), (M_bind_return _ _ _ _ _ (get_stream_some s st Hst)),
    (M_bind_return _ _ _ _ _ H1), (M_bind_return _ _ _ _ _ H2).
Qed.

(** One operation of the program. *)
Lemma run_op_refines op sp s :
  (forall ops b, op = DoBatch ops -> parse_ops ops = Ok b -> b_has_send_ops b = false) -> refines sp s ->
  exists a s' sp', run_op op s = Some (a, s') /\ spec_step dl rpE False op sp a sp' /\ refines sp' s'.
Proof.
  intros Hrecv Hr. pose proof Hr as [Ho Hc Hf Hmds Hrd]. destruct op as [ops|]; cbn [run_op].
  2: { eexists _, _, _. split_and!; [done|apply spec_cancel|]. split; simpl; try done. apply token_cancel_done. }
  destruct (start_batch_accepts ops sp s Ho Hc Hf Hmds) as [(a & Ha & Hsp)|(b & Hacc & _)].
  { exists a, s, sp. by split_and!. }
  pose proof Hacc as (Ec & Hb & Hne & Eo & _). rewrite Ec in Hc. rewrite Eo in Hf. rewrite Ec, Eo in Hrd.
  pose proof (Hrecv ops b eq_refl Hb) as Hns. destruct (parse_ops_recv_only ops b Hb Hns) as (Hmd & Hmsg & Hclose).
  assert (Hrc : b_has_recv_ops b = true) by (by rewrite Hns in Hne).
  destruct (Hrd eq_refl eq_refl) as [Hr1 Hm1]. pose proof Hm1 as (st & Hst & _).
  destruct (build_result_answers b (sp_read sp) (sp_meta sp) (with_flags b s)) as
    (o & ps1 & ps2 & ps3 & s' & Hbr & Hp & Ha1 & Ha2 & Ha3 & Hn); [by destruct Hr1; split|done|].
  pose proof (start_batch_recv env_var build_error tid clock select php_call ops b s st o s' Hb Hns Hrc Ho Hc Hf Hst Hbr) as Hs.
  eexists _, _, _. rewrite Hs. split_and!; [done| |].
  { eapply (spec_batch _ _ _ ops b o ps1 ps2 ps3); try done.
    - rewrite Hmsg. by intros [].
    - unfold acks. by rewrite Hp, Hmd, Hmsg, Hclose, app_nil_r. }
  pose proof (start_batch_closed_flag _ _ _ _ _ _ _ _ _ _ Hs) as Hcl.
  pose proof (keeps_build_J env_var build_error tid clock select _ (flags_stable _ _ false _) b (with_flags b s) ltac:(by split_and!))
    as [(_ & K2 & K3 & K4) _]. rewrite Hbr in K2, K3, K4. simpl in K2, K3, K4.
  split; simpl; [congruence|by rewrite K4, Hc|by rewrite K3|by rewrite K2, Hmds|]. intros Hst0 _. destruct (Hn Hst0) as [Hr2 Hm2].
  split; [by destruct Hr2; split|done].
Qed.

Lemma run_client_refines ops sp s :
  Forall (fun op => forall l b, op = DoBatch l -> parse_ops l = Ok b -> b_has_send_ops b = false) ops -> refines sp s ->
  exists l s' sp', run_client ops s = Some (l, s') /\ spec_run dl rpE False ops sp l sp' /\ refines sp' s'.
Proof.
  intros Hall. revert sp s. induction Hall as [|op ops Hop _ IH]; intros sp s Hr.
  - eexists [], s, sp. split_and!; [done|constructor|done].
  - destruct (run_op_refines op sp s Hop Hr) as (a & s1 & sp1 & H1 & Hs1 & Hr1).
    destruct (IH sp1 s1 Hr1) as (l & s2 & sp2 & H2 & Hs2 & Hr2).
    exists (a :: l), s2, sp2. cbn [run_client]. rewrite H1, H2. split_and!; [done|by econstructor|done].
Qed.

End refinement.

(** * Property *)

(** C4: [startBatch] implements the abstract streaming call.  After a stream
    was opened, a program that makes any sequence of receive batches, malformed
    and empty ones included, and cancellations, going on after exceptions, gets
    an answer to each of them, and the answers are those of the abstract call:
    the headers once and the empty array from then on, the items of the call in
    order, the status the call ended with, LogicException once the status was
    taken and CANCELLED once the call was cancelled. *)
Theorem receive_batches_refine s0 s st rpE rest ops :
  opens env_var build_error tid clock s0 s -> cl_stream_state (cs_call s) = Some st -> as_trailers_rx st = true ->
  closed_flag s = false -> token_is_cancelled (w_token (cs_w s)) = false -> cl_finished (cs_call s) = false ->
  rpc_run clock rpc_done (cl_deadline_usec (cs_call s0)) false (w_script (cs_w s))
    (rpc_init 0 (w_ticks (cs_w s)) (w_instant (cs_w s))) = Some (rpE, rest) ->
  Forall (fun op => forall l b, op = DoBatch l -> parse_ops l = Ok b -> b_has_send_ops b = false) ops ->
  exists answers s' sp', run_client ops s = Some (answers, s')
    /\ spec_run (cl_deadline_usec (cs_call s0)) rpE False ops
         (spec_init (as_msg_tx st) (cl_initial_metadata_sent (cs_call s))) answers sp'
    /\ cl_finished (cs_call s') = sp_over sp'.
Proof.
  intros Hop Hst Htr Ho Hc Hf Hrun Hall. rewrite <- Hc in Hrun.
  pose proof (opens_reader _ _ _ _ _ _ _ _ _ Hop Hst Htr Hrun) as Hr.
  destruct (opens_spawns _ _ _ _ _ _ _ Hop Hst Htr) as (Hst0 & _).
  destruct (run_client_refines (cl_deadline_usec (cs_call s0)) rpE ops
    (spec_init (as_msg_tx st) (cl_initial_metadata_sent (cs_call s))) s Hall)
    as (l & s' & sp' & H1 & H2 & [_ _ H3 _ _]).
  { split; simpl; try done. intros _ _. split; [done|]. exists st. split; [done|]. by rewrite Hst0. }
  by exists l, s', sp'.
Qed.

End spec.

(** * Witness

    Two reads, the headers, the status, a read too many, and a cancellation. *)
Definition wit_recv (op : Z) : ClientOp (Zd := ZendModel) := DoBatch (Zd := ZendModel) [(AK_Long op, ZvBool true)].
Definition wit_program : list (ClientOp (Zd := ZendModel)) :=
  [wit_recv 5; wit_recv 5; wit_recv 4; wit_recv 6; wit_recv 5; DoCancel; wit_recv 5; DoBatch (Zd := ZendModel) []].
Definition wit_rpc : Rpc (Tn := TonicModel) :=
  MkRpc (Tn := TonicModel) RDone 946080000000000 [Ok (Some [x01]); Ok (Some [x02; x03]); Ok None]
    (Some [KV_Ascii "k" "v"]) (Some (MkTrailers 0 "" [])) 3 0.

Lemma wit_program_receives :
  Forall (fun op => forall l b, op = DoBatch l -> parse_ops (Zd := ZendModel) l = Ok b -> b_has_send_ops b = false) wit_program.
Proof.
  repeat constructor; intros l b Hl; try discriminate Hl; injection Hl as <-; vm_compute; by intros [= <-].
Qed.

Lemma receive_batches_refine_witness :
  exists answers s' sp',
    run_client (Zd := ZendModel) (Tk := TokioModel) None (fun _ => None) 0%nat wit_clock (fun _ => true) wit_php
      wit_program (wit_started wit_script) = Some (answers, s')
    /\ spec_run (Zd := ZendModel) wit_clock i64_max wit_rpc False wit_program (spec_init false false) answers sp'
    /\ cl_finished (cs_call s') = sp_over sp'.
Proof.
  apply (receive_batches_refine (Zd := ZendModel) (Tk := TokioModel) None (fun _ => None) 0%nat wit_clock (fun _ => true) wit_php
    (wit_state i64_max wit_script) (wit_started wit_script) (MkStream false None true None true) wit_rpc [] wit_program);
    try reflexivity; [|exact wit_program_receives].
  apply (opens_server (Zd := ZendModel) (Tk := TokioModel) None (fun _ => None) 0%nat wit_clock _ [] [] None). reflexivity.
Defined.
