(* ===== verification/Session.v ===== *)
(** Programs that send and receive on one stream of src/src/call.rs, under
    arbitrary interleaving.

    Spec.v answers receive-only programs in the default mode.  Here a PHP
    program makes any batches on an open stream, sends, half-closes and
    receives mixed, and between any two of them, as well as inside every
    [block_on], the background task, the network and the timer take any number
    of steps: with the multi-thread runtime the task runs at any time, and with
    several calls in flight on a thread it runs while PHP waits for another
    call.  The theorem says that the answers are always those of the abstract
    call of Spec.v over one run of the reference. *)

From Stdlib Require Import ZArith Lia String Strings.Byte.
From stdpp Require Import base gmap list strings.
From S2P Require Import Prelude Utf8 Zend Tokio Tonic Error Runtime Timeval Credentials Channel Metadata Deadline Driver Stream Delivery Bidi Interleave Unary Frame Call Spec.

#[local] Open Scope string_scope.
#[local] Open Scope list_scope.
#[local] Open Scope Z_scope.

Section session.
Context {Zd : ZendApi} {Tn : TonicApi} {Tls : TlsApi} {Ep : EndpointApi Tn Tls} {Tk : TokioApi}.
Context `{!ZendLaws Zd} `{!TokioLaws Tk}.
Context (env_var : option string) (build_error : nat -> option string) (tid : nat).
Context (clock : nat -> clock_reading) (select : nat -> bool).
Context (php_call : nat -> Zval -> string -> PluginOutcome).

Abbreviation Item := (result Status (option bytes)).
Abbreviation KM := (M CallSt PhpException).
Abbreviation run_op := (Spec.run_op env_var build_error tid clock select php_call).

(** * The session *)

(** The part of the script an operation used. *)
Definition consumed (s s' : CallSt) : list Event :=
  take (length (w_script (cs_w s)) - length (w_script (cs_w s'))) (w_script (cs_w s)).

(** What happens to an open stream: the events the task took so far, what the
    program did, and how it was answered.  [se_clock] and [se_channel]: the rest
    of the thread reads the clock, stores connectivity, makes channels and
    closes those the call was not made from.  [se_script]: what
    the network and the timer will do while PHP waits is open until PHP waits. *)
Inductive session (s0 : CallSt) : list Event -> list ClientOp -> list Answer -> CallSt -> Prop :=
| se_open : session s0 [] [] [] s0
| se_task evs ops answers c w :
    session s0 evs ops answers (MkCS c w) -> session s0 evs ops answers (MkCS c (task_poll clock w))
| se_event evs ops answers c w ev w' :
    session s0 evs ops answers (MkCS c w) -> driver_event clock ev w = Some w' ->
    session s0 (evs ++ [ev]) ops answers (MkCS c w')
| se_clock evs ops answers c w :
    session s0 evs ops answers (MkCS c w) -> session s0 evs ops answers (MkCS c (tick w))
| se_channel evs ops answers c w chan :
    session s0 evs ops answers (MkCS c w) ->
    ch_flags chan !! cl_channel_closed c = ch_flags (w_chan w) !! cl_channel_closed c -> ch_rt chan = ch_rt (w_chan w) ->
    session s0 evs ops answers (MkCS c (set_chan w chan))
| se_script evs ops answers c w script :
    session s0 evs ops answers (MkCS c w) -> session s0 evs ops answers (MkCS c (set_script w script))
| se_op evs ops answers s op a s' :
    session s0 evs ops answers s -> run_op op s = Some (a, s') ->
    session s0 (evs ++ consumed s s') (ops ++ [op]) (answers ++ [a]) s'.

Section invariant.
Context (dl : Z) (rp0 : Rpc (Tn := Tn)).

(** * The trace of the stream *)

(** While PHP holds the sender, the request stream is there unless tonic
    dropped it or the task is over. *)
Definition held (evs : list Event) (w : World) : Prop :=
  forall r, w_wire w = Some r -> wr_req r = None -> EvReqDrop ∈ evs \/ wr_pc r = DDone.

Record tracks (h : Trace) (rp : Rpc) (w : World) : Prop := {
  tk_inv : il_inv clock dl rp0 h w rp;
  tk_held : il_open h = true -> held (il_events h) w;
}.

Lemma task_cont_held k b r : wr_req (task_cont k b r) = wr_req r \/ wr_pc (task_cont k b r) = DDone.
Proof. destruct k, b; simpl; auto; unfold task_return; simpl; destruct (wr_handed r); auto. Qed.

Lemma task_send_held it k r : wr_req (task_send it k r) = wr_req r \/ wr_pc (task_send it k r) = DDone.
Proof.
  unfold task_send. destruct (mpsc_send (wr_msgs r) it) as [c| |]; simpl; [|auto|apply task_cont_held].
  apply (task_cont_held k true (wire_msgs r c)).
Qed.

Lemma task_poll_held evs w : held evs w -> held evs (task_poll clock w).
Proof.
  unfold held, task_poll. intros H. destruct (w_wire w) as [r|] eqn:Hw; [|intros; congruence].
  specialize (H r eq_refl). destruct (wr_pc r) eqn:E; try (intros r0 Hr0; rewrite Hw in Hr0; by injection Hr0 as <-; rewrite E); intros r0 [= <-] Hn; simpl in *.
  - destruct (H Hn); [auto|congruence].
  - destruct (task_send_held item k r) as [Hr|Hr]; [|auto]. rewrite Hr in Hn. destruct (H Hn); [auto|congruence].
Qed.

(** What one event does to the request stream and the task. *)
Definition wire_next (ev : Event) (r r' : Wire) : Prop :=
  (wr_req r' = None -> wr_req r = None \/ ev = EvReqDrop \/ wr_pc r' = DDone)
  /\ (wr_pc r = DDone -> wr_pc r' = DDone).

Lemma wire_next_send ev it k r0 r :
  wr_req r0 = wr_req r -> wr_pc r <> DDone -> wire_next ev r (task_send it k r0).
Proof.
  intros He Hd. split; [|done]. destruct (task_send_held it k r0) as [H|H]; [|auto]. rewrite H, He. auto.
Qed.

Lemma wire_next_same ev r r' : wr_req r' = wr_req r -> (wr_pc r = DDone -> wr_pc r' = DDone) -> wire_next ev r r'.
Proof. intros He Hd. split; [|done]. rewrite He. auto. Qed.

Lemma on_tick_wire t w r ev :
  w_wire w = Some r -> exists r', w_wire (on_tick t w r) = Some r' /\ wire_next ev r r'.
Proof.
  intros Hw. unfold on_tick, on_elapsed. destruct (_ <=? _); [|exists r; split; [done|by apply wire_next_same]].
  destruct (wr_pc r) eqn:E; try (exists r; split; [done|by apply wire_next_same]);
    (eexists; split; [reflexivity|]; apply wire_next_send; [done|by rewrite E]).
Qed.

Lemma on_pull_wire w r ev :
  w_wire w = Some r -> exists r', w_wire (on_pull w r) = Some r' /\ wire_next ev r r'.
Proof.
  intros Hw. assert (Hs : exists r', w_wire w = Some r' /\ wire_next ev r r')
    by (exists r; split; [done|by apply wire_next_same]).
  unfold on_pull. destruct (wr_handed r); [|done]. destruct (wr_req r) as [c|] eqn:Ec; [|done].
  destruct (mpsc_recv c); [|done|]; (eexists; split; [reflexivity|]; split; [done|done]).
Qed.

Lemma driver_event_wire ev w w' r :
  w_wire w = Some r -> driver_event clock ev w = Some w' ->
  exists r', w_wire w' = Some r' /\ wire_next ev r r'.
Proof.
  unfold driver_event. intros Hw. rewrite Hw.
  assert (Hsh : forall n, w_wire (store_connectivity (wr_shared r) n w) = Some r) by (intros n; by destruct (wr_shared r)).
  destruct ev as [x|x|x|x|x|t| | |].
  - destruct (wr_pc r) eqn:E; try done. intros [= <-]. destruct x; (eexists; split; [reflexivity|]);
      [apply wire_next_same; simpl; [done|congruence]|apply wire_next_send; [done|congruence]].
  - destruct (wr_pc r) eqn:E; try done. intros [= <-]. unfold on_response. destruct x;
      (eexists; split; [reflexivity|]); [apply wire_next_same; simpl; [done|congruence]|apply wire_next_send; [done|congruence]].
  - destruct (wr_pc r) eqn:E; try done. intros [= <-]. destruct x as [[]|];
      (eexists; split; [reflexivity|]; apply wire_next_send; [done|congruence]).
  - destruct (wr_pc r) eqn:E; try done. intros [= <-]. eexists. split; [reflexivity|]. split; [|congruence].
    unfold task_return. simpl. destruct (wr_handed r); auto.
  - by destruct (wr_pc r).
  - intros H. assert (w' = on_tick t w r) as -> by (destruct (wr_pc r); congruence). by apply on_tick_wire.
  - destruct (wr_pc r) eqn:E; try done. destruct (token_is_cancelled _); [|done]. intros [= <-].
    eexists. split; [reflexivity|]. apply wire_next_send; [done|congruence].
  - intros H. assert (w' = on_pull w r) as -> by (destruct (wr_pc r); congruence). by apply on_pull_wire.
  - intros H. assert (w' = on_req_drop w r) as -> by (destruct (wr_pc r); congruence). unfold on_req_drop.
    destruct (wr_handed r); [|exists r; split; [done|by apply wire_next_same]].
    eexists. split; [reflexivity|]. split; auto.
Qed.

Lemma driver_event_held evs ev w w' :
  driver_event clock ev w = Some w' -> held evs w -> held (evs ++ [ev]) w'.
Proof.
  intros Hev Hh. unfold held in *. destruct (w_wire w) as [r|] eqn:Hw.
  - destruct (driver_event_wire _ _ _ _ Hw Hev) as (r' & Hw' & Hn & Hd). intros r0 Hr0 Hr. simplify_eq.
    rewrite elem_of_app, list_elem_of_singleton. destruct (Hn Hr) as [H|[->|H]]; [|auto..].
    destruct (Hh r eq_refl H); auto.
  - unfold driver_event in Hev. rewrite Hw in Hev. destruct ev; simplify_eq. simpl. intros r0 Hr0. congruence.
Qed.

(** The trace goes on, and the reference with it. *)
Lemma tracks_step h w h' w' rp :
  il_step clock (h, w) (h', w') -> (il_open h' = true -> held (il_events h') w') -> tracks h rp w ->
  exists rp', tracks h' rp' w' /\ grows clock dl rp rp'.
Proof.
  intros Hs Hh [Hi _]. destruct (il_step_inv _ _ _ _ _ _ _ _ Hs Hi) as (rp' & Hi' & Hg). by exists rp'.
Qed.

Lemma tracks_task h rp w : tracks h rp w -> exists rp', tracks h rp' (task_poll clock w) /\ grows clock dl rp rp'.
Proof. intros Ht. eapply tracks_step; [apply il_task| |done]. intros Ho. by apply task_poll_held, Ht. Qed.

Lemma tracks_event evs its sent tx rp w ev w' :
  driver_event clock ev w = Some w' -> tracks (MkTrace evs its sent tx) rp w ->
  exists rp', tracks (MkTrace (evs ++ [ev]) its sent tx) rp' w' /\ grows clock dl rp rp'.
Proof.
  intros Hev Ht. eapply tracks_step; [by apply il_event| |done]. intros Ho. by eapply driver_event_held, Ht.
Qed.

Lemma tracks_clock h rp w : tracks h rp w -> exists rp', tracks h rp' (tick w) /\ grows clock dl rp rp'.
Proof. intros Ht. eapply tracks_step; [apply il_clock| |done]. apply Ht. Qed.

Lemma tracks_world h rp w w' :
  w_wire w' = w_wire w -> w_ticks w' = w_ticks w -> w_instant w' = w_instant w -> tracks h rp w -> tracks h rp w'.
Proof.
  intros H1 H2 H3 [[[r Hs] Hr Hq] Hh]. split.
  - split; [exists r; by eapply sim_world|done|]. intros r0 Hr0. apply Hq. congruence.
  - intros Ho r0 Hr0. apply Hh; [done|]. congruence.
Qed.

Lemma tracks_early h rp w : tracks h rp w -> meta_early rp.
Proof. intros [[[r Hs] _ _] _]. apply Hs. Qed.

Lemma tracks_wf h rp w : rpc_wf rp0 -> tracks h rp w -> rpc_wf rp.
Proof. intros H0 [[_ Hr _] _]. by eapply ref_run_wf. Qed.

(** ** One step of the program's thread *)

(** From [s] to [s'] the script was used from its front, and nothing but the
    world changed. *)
Record moved (h : Trace) (rp : Rpc) (s : CallSt) (h' : Trace) (rp' : Rpc) (s' : CallSt) : Prop := {
  mo_grows : grows clock dl rp rp';
  mo_tracks : tracks h' rp' (cs_w s');
  mo_script : exists used, w_script (cs_w s) = used ++ w_script (cs_w s') /\ il_events h' = il_events h ++ used;
  mo_token : w_token (cs_w s') = w_token (cs_w s);
  mo_rt : rt_of (cs_w s') = rt_of (cs_w s);
}.

Lemma moved_refl h rp c c' w : tracks h rp w -> moved h rp (MkCS c w) h rp (MkCS c' w).
Proof. intros Ht. split; [done|done| |done|done]. exists []. by rewrite app_nil_r. Qed.

Lemma moved_trans h1 rp1 s1 h2 rp2 s2 h3 rp3 s3 :
  moved h1 rp1 s1 h2 rp2 s2 -> moved h2 rp2 s2 h3 rp3 s3 -> moved h1 rp1 s1 h3 rp3 s3.
Proof.
  intros [G1 T1 (u1 & S1 & E1) K1 R1] [G2 T2 (u2 & S2 & E2) K2 R2]. split; [by etrans|done| |congruence..].
  exists (u1 ++ u2). rewrite S1, S2, E2, E1. by rewrite !app_assoc.
Qed.

(** ** Waiting *)

Section await.
Context {A L : Type} (poll : L -> World -> option A * L * World) (sent : list bytes) (tx : bool).
Context (P : L -> list Item -> Rpc -> Prop) (Q : A -> Trace -> Rpc -> Prop).

(** A poll that answers leaves the trace as [Q] says; one that does not keeps [P]. *)
Definition good_poll : Prop := forall l evs its w rp,
  tracks (MkTrace evs its sent tx) rp w -> P l its rp ->
  let '(o, l', w') := poll l w in
  w_token w' = w_token w /\ rt_of w' = rt_of w
  /\ match o with
     | Some a => exists h, tracks h rp w' /\ il_events h = evs /\ Q a h rp
     | None => exists its', tracks (MkTrace evs its' sent tx) rp w' /\ P l' its' rp
     end.

Definition lasting : Prop := forall l its rp o rp', P l its rp -> ref_step clock dl o rp rp' -> P l its rp'.

Lemma lasting_grows l its rp rp' : lasting -> grows clock dl rp rp' -> P l its rp -> P l its rp'.
Proof. intros Hl. induction 1 as [|rp1 rp2 rp3 [o H1] _ IH]; eauto. Qed.

(** One turn keeps the trace: the future answers, or has nothing yet. *)
Lemma block_on_turn_tracks : good_poll -> lasting -> forall l evs its w rp,
  tracks (MkTrace evs its sent tx) rp w -> P l its rp ->
  let '(o, l', w') := block_on_turn clock poll l w in
  w_token w' = w_token w /\ rt_of w' = rt_of w
  /\ exists rp', grows clock dl rp rp'
     /\ match o with
        | Some a => exists h, tracks h rp' w' /\ il_events h = evs /\ Q a h rp'
        | None => exists its', tracks (MkTrace evs its' sent tx) rp' w' /\ P l' its' rp'
        end.
Proof.
  intros Hpoll Hl l evs its w rp Ht HP. unfold block_on_turn. pose proof (Hpoll l evs its w rp Ht HP) as H1.
  destruct (poll l w) as [[[a|] l1] w1]; destruct H1 as (Hk1 & Hr1 & H1); [by split_and!; [..|exists rp]|].
  destruct H1 as (its1 & Ht1 & HP1); destruct (tracks_task _ _ _ Ht1) as (rp2 & Ht2 & Hg2).
  pose proof (Hpoll l1 evs its1 _ rp2 Ht2 (lasting_grows _ _ _ _ Hl Hg2 HP1)) as H3.
  destruct (poll l1 (task_poll clock w1)) as [[o l3] w3]. destruct H3 as (Hk3 & Hr3 & H3).
  rewrite task_poll_token, Hk1 in Hk3. rewrite task_poll_rt, Hr1 in Hr3. split_and!; [done..|]. by exists rp2.
Qed.

Lemma block_on_turns_tracks c script : good_poll -> lasting -> forall woken l evs its w rp,
  tracks (MkTrace evs its sent tx) rp w -> P l its rp ->
  match block_on_turns (E := PhpException) clock poll woken script l w with
  | (Return a, w') => exists h rp', Q a h rp'
      /\ moved (MkTrace evs its sent tx) rp (MkCS c (set_script w script)) h rp' (MkCS c w')
  | (Throw _, _) => False
  | (Blocked, _) => True
  end.
Proof.
  intros Hpoll Hl. induction script as [|ev script IH]; intros woken l evs its w rp Ht HP; cbn [block_on_turns].
  all: assert (Hturn : let '(o, l', w') := if woken then block_on_turn clock poll l w else (None, l, w) in
    w_token w' = w_token w /\ rt_of w' = rt_of w
    /\ exists rp', grows clock dl rp rp'
     /\ match o with
        | Some a => exists h, tracks h rp' w' /\ il_events h = evs /\ Q a h rp'
        | None => exists its', tracks (MkTrace evs its' sent tx) rp' w' /\ P l' its' rp'
        end)
    by (destruct woken; [by eapply block_on_turn_tracks|split_and!; [done..|]; exists rp; split; [done|by exists its]]).
  all: destruct (if woken then _ else _) as [[[a|] l1] w1]; destruct Hturn as (Hk1 & Hr1 & rp1 & Hg1 & H1).
  1, 3: destruct H1 as (h & Ht1 & He1 & HQ); exists h, rp1; (split; [done|]); split; simpl;
        [done|by eapply tracks_world; [..|exact Ht1]|exists []; by rewrite !app_nil_r|done|done].
  - done.
  - destruct H1 as (its1 & Ht1 & HP1). destruct (driver_event clock ev w1) as [w2|] eqn:Hev; [|done].
    destruct (tracks_event _ _ _ _ _ _ _ _ Hev Ht1) as (rp2 & Ht2 & Hg2).
    specialize (IH (negb (task_goes_on clock script w2)) l1 _ its1 w2 rp2 Ht2 (lasting_grows _ _ _ _ Hl Hg2 HP1)).
    destruct (block_on_turns _ _ _ _ _ _) as [[a|e|] w']; [|done|done].
    destruct IH as (h & rp' & HQ & [G T (used & Hsc & He) K R]). exists h, rp'. split; [done|]. simpl in *.
    split; simpl; [by etrans; [|etrans; [exact Hg2|exact G]]|done| | |].
    + exists (ev :: used). rewrite Hsc, He. by rewrite <- app_assoc.
    + by rewrite K, (driver_event_token _ _ _ _ Hev).
    + etrans; [exact R|]. etrans; [apply (driver_event_rt _ _ _ _ Hev)|exact Hr1].
Qed.

Lemma await_tracks l h its s rp :
  good_poll -> lasting -> tracks h rp (cs_w s) -> h = MkTrace (il_events h) its sent tx -> P l its rp ->
  match await clock poll l s with
  | (Return a, s') => cs_call s' = cs_call s /\ exists h' rp', Q a h' rp' /\ moved h rp s h' rp' s'
  | (Throw _, _) => False
  | (Blocked, _) => True
  end.
Proof.
  intros Hp Hl Ht Hh HP. unfold await, block_on. rewrite Hh in Ht.
  pose proof (block_on_turns_tracks (cs_call s) (w_script (cs_w s)) Hp Hl true l _ its (cs_w s) rp Ht HP) as H.
  destruct (block_on_turns _ _ _ _ _ _) as [[a|e|] w']; [|done|done].
  destruct H as (h' & rp' & HQ & [G T S K R]). split; [done|]. exists h', rp'. split; [done|]. rewrite Hh. by split.
Qed.

End await.

(** ** The futures PHP waits for *)

Lemma recv_item_held evs recv w : held evs w -> held evs (recv_item recv w).2.
Proof.
  unfold held, recv_item. intros H. destruct (w_wire w) as [r|] eqn:Hw; [|intros; simpl in *; congruence].
  specialize (H r eq_refl). destruct (recv (wr_msgs r)); simpl; intros r0 Hr0; simplify_eq; done.
Qed.

Lemma recv_item_tracks recv evs its sent tx rp w :
  (forall c, recv_law (mpsc_view c) (recv c)) -> tracks (MkTrace evs its sent tx) rp w ->
  let '(o, w') := recv_item recv w in
  w_token w' = w_token w /\ rt_of w' = rt_of w /\ w_script w' = w_script w
  /\ match o with
     | Some a => exists its', tracks (MkTrace evs its' sent tx) rp w' /\ recv_answer its a its' rp
     | None => tracks (MkTrace evs its sent tx) rp w'
     end.
Proof.
  intros Hl [[[r Hs] Hr Hq] Hh]. pose proof (recv_item_rt recv w) as Hrt.
  pose proof (recv_item_req sent tx recv w Hq) as Hq'.
  assert (Hh' : tx = true -> held evs (recv_item recv w).2) by (intros Htx; by apply recv_item_held, Hh).
  assert (Hsc : w_script (recv_item recv w).2 = w_script w).
  { unfold recv_item. destruct (w_wire w) as [r0|]; [|done]. by destruct (recv (wr_msgs r0)). }
  pose proof (recv_answer_sim recv dl its w r rp Hl Hs) as H.
  destruct (recv_item recv w) as [[a|] w']; destruct H as (Htk & its' & r' & Hs' & _ & H); (split_and!; [done..|]).
  - exists its'. split; [|apply H]. split; [split; [by exists r'|done|done]|done].
  - destruct H as (-> & _). split; [split; [by exists r'|done|done]|done].
Qed.

(** [msg_rx.recv()]. *)
Lemma recv_poll_good its sent tx :
  good_poll recv_poll sent tx (fun _ its' _ => its' = its)
    (fun a h rp => il_sent h = sent /\ il_open h = tx /\ recv_answer its a (il_items h) rp).
Proof.
  intros [] evs its0 w rp Ht ->. unfold recv_poll.
  pose proof (recv_item_tracks mpsc_recv evs its sent tx rp w (mpsc_recv_law _) Ht) as H.
  destruct (recv_item mpsc_recv w) as [[a|] w']; destruct H as (? & ? & _ & H); (split_and!; [done..|]).
  - destruct H as (its' & Ht' & Ha). by exists (MkTrace evs its' sent tx).
  - by exists its.
Qed.

(** [meta_rx]. *)
Lemma meta_poll_good its sent tx :
  good_poll meta_poll sent tx (fun _ its' _ => its' = its)
    (fun a h rp => h = MkTrace (il_events h) its sent tx /\ a = rp_meta rp /\ is_Some a).
Proof.
  intros [] evs its0 w rp Ht ->. pose proof Ht as [[[r []] _ _] _]. unfold meta_poll. rewrite sim_wire, sim_meta.
  destruct (rp_meta rp) as [m|]; (split_and!; [done..|]).
  - exists (MkTrace evs its sent tx). split_and!; try done.
  - by exists its.
Qed.

(** [tx.send(message)]. *)
Lemma send_poll_good m its sent :
  good_poll (send_poll m) sent true (fun _ its' _ => its' = its)
    (fun a h rp => h = MkTrace (il_events h) its (match a with Ok _ => sent ++ [m] | Err _ => sent end) true
       /\ match a with Ok _ => True | Err _ => EvReqDrop ∈ il_events h \/ rpc_done rp = true end).
Proof.
  intros [] evs its0 w rp Ht ->. pose proof Ht as [[[r Hs] Hr Hq] Hh].
  pose proof (send_poll_req sent true m w Hq eq_refl) as Hp.
  unfold send_poll in *. rewrite (sim_wire _ _ _ _ _ Hs) in *. simpl in Hh.
  assert (Hno : wr_req r = None -> EvReqDrop ∈ evs \/ rpc_done rp = true).
  { intros Hn. destruct (Hh eq_refl r (sim_wire _ _ _ _ _ Hs) Hn) as [H|H]; [auto|]. right. unfold rpc_done.
    by rewrite (sim_pc _ _ _ _ _ Hs), H. }
  destruct (wr_req r) as [c|] eqn:Ec.
  2: { split_and!; try done. exists (MkTrace evs its sent true). split_and!; try done. by apply Hno. }
  pose proof (mpsc_send_law _ c m) as Hsl. destruct (mpsc_send c m) as [c'| |]; (split_and!; [done..|]).
  - exists (MkTrace evs its (sent ++ [m]) true). split_and!; try done. split; [split; [|done|exact Hp]|].
    + exists (wire_req r (Some c') (wr_pulled r) (wr_req_ended r)). by apply sim_wire_req.
    + intros _ r0 [= <-]. done.
  - exists its. done.
  - exfalso. simpl in Hsl. destruct (Hq r (sim_wire _ _ _ _ _ Hs)) as [[_ H2 _] _].
    destruct (H2 c Ec) as (_ & Hrx & _). simpl in *. congruence.
Qed.

(** The drain of RECV_STATUS. *)
Lemma drain_poll_good sent tx :
  rpc_wf rp0 ->
  good_poll (drain_poll select) sent tx drain_inv
    (fun a h rp => il_sent h = sent /\ il_open h = tx /\ rpc_done rp = true /\ a = rp_trailers rp).
Proof.
  intros H0 d evs its w rp Ht Hd. pose proof (tracks_wf _ _ _ H0 Ht) as Hw. pose proof Ht as [[[r Hs] Hr Hq] Hh].
  pose proof (drain_poll_refines select dl d its w r rp Hs Hw Hd) as H. unfold drain_poll in *.
  pose proof (drain_loop_rt select (drain_fuel w) d w) as Hrt.
  pose proof (drain_loop_req select sent tx (drain_fuel w) d w Hq) as Hq'.
  assert (Hh' : tx = true -> held evs (drain_loop select (drain_fuel w) d w).2).
  { intros Htx. specialize (Hh Htx). simpl in Hh. generalize (drain_fuel w). clear - Hh. intros fuel.
    revert d w Hh. induction fuel as [|fuel IH]; intros [] w Hh; try done. cbn [drain_loop].
    pose proof (recv_item_held evs mpsc_recv (set_polls w (S (w_polls w))) Hh) as Hr.
    destruct (recv_item mpsc_recv _) as [[[[[b|]|e]|]|] w']; simpl in *;
      destruct (select (w_polls w)); repeat (case_match; simpl); auto. }
  destruct (drain_loop select (drain_fuel w) d w) as [[[a|] d'] w']; destruct H as (Htk & its' & r' & Hs' & _ & H);
    (split_and!; [done..|]).
  - exists (MkTrace evs its' sent tx). split_and!; [|done|done|done|apply H..]. split; [split; [by exists r'|done|done]|done].
  - exists its'. split; [|apply H]. split; [split; [by exists r'|done|done]|done].
Qed.

Lemma same_lasting {L} its : lasting (L := L) (fun _ its' _ => its' = its).
Proof. intros l its' rp o rp' H _. exact H. Qed.

Lemma drain_lasting : lasting drain_inv.
Proof.
  intros [] its rp o rp' Hd Hs; [done|]. destruct Hd as [Hi Hp]. unfold drain_inv.
  destruct Hs as [rp|c ev rp rp' H|t rp|rp]; simpl; try done.
  - unfold rpc_poll. destruct Hp as [Hp|Hp]; rewrite Hp; auto.
  - unfold rpc_event in H. destruct ev as [[]|[]|[[]|]| | |t| | |]; destruct Hp as [Hp|Hp]; rewrite ?Hp in H;
      simplify_eq; split; simpl; auto.
Qed.

(** * The operations of a batch *)

(** What a method of the call does when it comes back. *)
Definition runs {A} (m : KM A) (s : CallSt) (Q : A -> CallSt -> Prop) (R : PhpException -> CallSt -> Prop) : Prop :=
  match m s with
  | (Return a, s') => Q a s'
  | (Throw e, s') => R e s'
  | (Blocked, _) => True
  end.

Lemma runs_bind {A B} (m : KM A) (f : A -> KM B) s Q Q' R :
  runs m s Q' R -> (forall a s', Q' a s' -> runs (f a) s' Q R) -> runs (m ≫= f) s Q R.
Proof. unfold runs, mbind, M_bind. intros Hm Hf. destruct (m s) as [[a|e|] s']; [exact (Hf a s' Hm)|exact Hm|done]. Qed.

Lemma runs_mono {A} (m : KM A) s (Q Q' : A -> CallSt -> Prop) (R R' : PhpException -> CallSt -> Prop) :
  runs m s Q R -> (forall a s', Q a s' -> Q' a s') -> (forall e s', R e s' -> R' e s') -> runs m s Q' R'.
Proof. unfold runs. destruct (m s) as [[a|e|] s']; auto. Qed.

(** The stream between two operations of a batch, after [k] reads; [mr]: the
    headers were taken. *)
Record inside (k : nat) (mr : bool) (h : Trace) (rp : Rpc) (s : CallSt) : Prop := {
  in_rt : runtime_ready env_var build_error tid (cs_w s);
  in_dl : cl_deadline_usec (cs_call s) = dl;
  in_tracks : tracks h rp (cs_w s);
  in_stream : exists st, cl_stream_state (cs_call s) = Some st /\ as_trailers_rx st = true
    /\ as_msg_tx st = il_open h /\ as_initial_metadata st = None /\ as_meta_rx st = negb mr
    /\ match as_cached_trailers st with
       | None => Forall (fun it => ~ is_err it) (il_items h)
                 /\ (length (il_items h) = k
                     \/ rpc_done rp = true /\ il_items h = rp_items rp /\ (length (il_items h) <= k)%nat)
       | Some t => rpc_done rp = true /\ (length (rp_items rp) <= k)%nat
                   /\ exists status n, last (rp_items rp) = Some (Err status)
                      /\ t = trailers_of_status (clock n) status dl
       end;
}.

(** The sends were not touched. *)
Definition quiet (h h' : Trace) : Prop := il_sent h' = il_sent h /\ il_open h' = il_open h.

#[local] Instance quiet_preorder : PreOrder quiet.
Proof. split; [done|]. intros h1 h2 h3 [? ?] [? ?]. split; congruence. Qed.

Lemma moved_later h rp s h' rp' s' : tracks h rp (cs_w s) -> moved h rp s h' rp' s' -> later rp rp'.
Proof. intros Ht Hm. eapply grows_later; [by eapply mo_grows|by eapply tracks_early]. Qed.

Lemma inside_world k mr h rp s h' rp' s' :
  inside k mr h rp s -> tracks h' rp' (cs_w s') -> grows clock dl rp rp' -> rt_of (cs_w s') = rt_of (cs_w s) ->
  cs_call s' = cs_call s -> il_items h' = il_items h -> il_open h' = il_open h -> inside k mr h' rp' s'.
Proof.
  intros [Hrt Hdl Ht (st & Hst & Htr & Htx & Hi & Hx & Hc)] Ht' Hg Hr' Hcall Hits Hop.
  destruct (grows_later _ _ _ _ Hg (tracks_early _ _ _ Ht)) as [_ _ _ Hd].
  split; [by unfold runtime_ready; rewrite Hr'|by rewrite Hcall|done|].
  exists st. rewrite Hcall, Hop, Hits. split_and!; try done. destruct (as_cached_trailers st).
  - destruct Hc as (Hdn & Hk & He). destruct (Hd Hdn) as (? & -> & _). done.
  - destruct Hc as [Hne Hk]. split; [done|]. destruct Hk as [Hk|(Hdn & Hk)]; [auto|].
    destruct (Hd Hdn) as (? & -> & _). auto.
Qed.

Lemma inside_moved k mr h rp s h' rp' s' :
  inside k mr h rp s -> moved h rp s h' rp' s' -> cs_call s' = cs_call s -> il_items h' = il_items h ->
  il_open h' = il_open h -> inside k mr h' rp' s'.
Proof. intros Hin [Hg Ht _ _ Hr]. by apply (inside_world _ _ _ _ _ _ _ _ Hin Ht Hg Hr). Qed.

(** The headers were taken: the handle is changed. *)
Lemma inside_put k mr h rp s st mr' :
  inside k mr h rp s -> cl_stream_state (cs_call s) = Some st ->
  inside k mr' h rp (MkCS (cl_set_stream (cs_call s) (Some (MkStream (as_msg_tx st) None (negb mr')
    (as_cached_trailers st) (as_trailers_rx st)))) (cs_w s)).
Proof.
  intros [Hrt Hdl Ht (st0 & Hst & Htr & Htx & Hi & Hx & Hc)] Hst0. rewrite Hst in Hst0. injection Hst0 as <-.
  split; try done. by eexists.
Qed.

(** ** RECV_INITIAL_METADATA *)
Lemma recv_metadata_inside (b : bool) k mr h rp s :
  inside k mr h rp s ->
  runs (if b then recv_metadata clock obj_new else mret obj_new) s
    (fun o s' => exists h' rp', moved h rp s h' rp' s' /\ quiet h h'
       /\ answers_metadata rp' b mr (obj_props o) /\ inside k (mr || b) h' rp' s') (fun _ _ => False).
Proof.
  intros Hin. pose proof Hin as [_ _ Ht (st & Hst & _ & _ & Him & Hrx & _)].
  destruct b; [|exists h, rp; rewrite orb_false_r; split_and!; [by destruct s; apply moved_refl|done|apply obj_props_new|done]].
  rewrite orb_true_r. unfold runs, recv_metadata.
  rewrite (M_bind_return _ _ _ _ _ (get_stream_some s st Hst)), Him, bool_decide_true, Hrx by done. destruct mr; simpl.
  - destruct (set_prop_new "metadata" (zv_of_ht ht_new) "metadata") as (o & Ho & Hp).
    unfold get_stream, put_stream, on_call. mred. rewrite Hst. mred. rewrite Him. mred. rewrite Ho.
    exists h, rp. split_and!; [by destruct s; apply moved_refl|done|exists ht_new; by rewrite Hp|].
    pose proof (inside_put _ _ _ _ _ _ true Hin Hst) as Hn. simpl in Hn. by rewrite Hrx.
  - pose proof (inside_put _ _ _ _ _ _ true Hin Hst) as Hin1. set (s1 := MkCS _ _) in Hin1. simpl in s1.
    pose proof (await_tracks meta_poll (il_sent h) (il_open h) _ _ tt h (il_items h) s1 rp
      (meta_poll_good _ _ _) (same_lasting _) (in_tracks _ _ _ _ _ Hin1) ltac:(by destruct h) eq_refl) as Ha.
    unfold get_stream, put_stream, on_call. mred. fold s1.
    destruct (await clock meta_poll tt s1) as [[a|e|] s2]; [|done|done].
    destruct Ha as (Hcall & h' & rp' & (Hh' & Ha & [m ->]) & Hmv). destruct s2 as [c2 w2]. simpl in Hcall. subst c2.
    mred. destruct (metadata_to_php_total m) as (ht & Hht & _). rewrite Hht. mred.
    destruct (set_prop_new "metadata" (zv_of_ht ht) "metadata") as (o & Ho & Hp). rewrite Ho.
    exists h', rp'. split_and!; [|by rewrite Hh'|exists ht; rewrite Hp; eauto|].
    + destruct s as [c w]. destruct Hmv as [? ? ? ? ?]. by split.
    + eapply inside_moved; [exact Hin1|exact Hmv|done|by rewrite Hh'|by rewrite Hh'].
Qed.

(** ** RECV_MESSAGE *)
Lemma next_item_tracks h rp s :
  tracks h rp (cs_w s) ->
  runs (next_item clock) s
    (fun a s' => cs_call s' = cs_call s /\ exists h' rp', moved h rp s h' rp' s' /\ quiet h h'
       /\ recv_answer (il_items h) a (il_items h') rp') (fun _ _ => False).
Proof.
  intros Ht. unfold runs, next_item.
  pose proof (recv_item_tracks mpsc_try_recv (il_events h) (il_items h) (il_sent h) (il_open h) rp (cs_w s)
    (mpsc_try_recv_law _) ltac:(by destruct h)) as H.
  destruct (recv_item mpsc_try_recv (cs_w s)) as [[a|] w1]; destruct H as (Htk & Hrt & Hsc & H).
  - destruct H as (its' & Ht' & Ha). split; [done|]. exists (MkTrace (il_events h) its' (il_sent h) (il_open h)), rp.
    split_and!; [|done|done]. split; [done|done| |done|done]. exists []. simpl. by rewrite Hsc, app_nil_r.
  - pose proof (await_tracks recv_poll (il_sent h) (il_open h) _ _ tt h (il_items h) (MkCS (cs_call s) w1) rp
      (recv_poll_good _ _ _) (same_lasting _) ltac:(by destruct h) ltac:(by destruct h) eq_refl) as Ha.
    destruct (await clock recv_poll tt _) as [[a|e|] s2]; [|done|done].
    destruct Ha as (Hcall & h' & rp' & (H1 & H2 & H3) & [G T S K R]). split; [done|]. exists h', rp'.
    split_and!; [|done|done]. simpl in *. split; [done|done|by rewrite <- Hsc|congruence|]. by etrans.
Qed.

(** The item answered is the next one, or there is none and never will be. *)
Lemma recv_answer_next k h rp rp' a its' :
  recv_answer (il_items h) a its' rp' -> later rp rp' -> its' `prefix_of` rp_items rp' ->
  (length (il_items h) = k \/ rpc_done rp = true /\ il_items h = rp_items rp /\ (length (il_items h) <= k)%nat) ->
  settled rp' k /\ rp_items rp' !! k = a
  /\ (length its' = S k \/ rpc_done rp' = true /\ its' = rp_items rp' /\ (length its' <= S k)%nat).
Proof.
  intros Ha [_ _ _ Hd] Hp Hk. destruct a as [it|]; simpl in Ha.
  - destruct Ha as [-> Hit]. destruct Hk as [<-|(Hdn & Hi & Hk)].
    + split_and!; [left; by eapply lookup_lt_Some|done|left; rewrite length_app; simpl; lia].
    + exfalso. destruct (Hd Hdn) as (_ & Hi' & _). rewrite Hi', <- Hi in Hit. apply lookup_lt_Some in Hit. lia.
  - destruct Ha as (-> & Hi & Hdn). assert (length (il_items h) <= k)%nat by (destruct Hk as [<-|(_ & _ & ?)]; lia).
    split_and!; [by right|rewrite Hi; by apply lookup_ge_None_2|right; split_and!; [done|done|lia]].
Qed.

(** A connection error was received: its status is kept. *)
Lemma inside_error k mr h rp s st h' rp' s1 status :
  rpc_wf rp0 -> inside k mr h rp s -> cl_stream_state (cs_call s) = Some st -> moved h rp s h' rp' s1 -> quiet h h' ->
  rp_items rp' !! k = Some (Err status) ->
  let s2 := MkCS (cl_set_stream (cs_call s) (Some (MkStream (as_msg_tx st) (as_initial_metadata st) (as_meta_rx st)
                    (Some (trailers_of_status (now clock (cs_w s1)) status (cl_deadline_usec (cs_call s))))
                    (as_trailers_rx st)))) (tick (cs_w s1)) in
  exists rp2, moved h rp s h' rp2 s2 /\ rpc_done rp2 = true /\ rp_items rp2 = rp_items rp' /\ inside (S k) mr h' rp2 s2.
Proof.
  intros H0 [Hrt Hdl Ht (st0 & Hst0 & Htr & Htx & Him & Hrx & _)] Hst Hmv [_ Hq] Hit s2. simplify_eq.
  pose proof Hmv as [Hg Ht' Hsc Htk Hrt']. destruct (tracks_clock _ _ _ Ht') as (rp2 & Ht2 & Hg2).
  pose proof (grows_later _ _ _ _ Hg2 (tracks_early _ _ _ Ht')) as [_ _ _ Hd2].
  assert (Hdn : rpc_done rp' = true) by (eapply err_item_done; [by eapply (tracks_wf h' rp')|exact Hit]).
  destruct (Hd2 Hdn) as (Hdn2 & Hit2 & _). exists rp2. split; [by split; simpl; [etrans|..]|]. split; [done|]. split; [done|].
  split; simpl; [by unfold runtime_ready; change (rt_of (tick (cs_w s1))) with (rt_of (cs_w s1)); rewrite Hrt'|done|done|].
  eexists. do 2 (split; [done|]). split; [by rewrite Hq|]. do 2 (split; [done|]). simpl. rewrite Hit2.
  pose proof (take_drop_middle _ _ _ Hit) as Hm. symmetry in Hm.
  edestruct final_item_last as [Hr _]; [by eapply (tracks_wf h' rp')|exact Hm|done|]. rewrite Hr in Hm.
  pose proof (lookup_lt_Some _ _ _ Hit). split_and!; [done| |].
  - rewrite Hm, length_app, length_take. simpl. lia.
  - exists status, (w_ticks (cs_w s1)). rewrite Hm, last_snoc. split; [done|]. unfold now. by rewrite Hdl.
Qed.

Lemma recv_message_inside (b : bool) o k mr h rp s :
  rpc_wf rp0 -> "message" ∉ (obj_props o).*1 -> inside k mr h rp s ->
  runs (if b then recv_message clock o else mret o) s
    (fun o' s' => exists ps h' rp', moved h rp s h' rp' s' /\ quiet h h' /\ obj_props o' = obj_props o ++ ps
       /\ answers_message rp' b k ps /\ inside (k + if b then 1 else 0) mr h' rp' s') (fun _ _ => False).
Proof.
  intros H0 Hnew Hin. pose proof Hin as [Hrt Hdl Ht (st & Hst & Htr & Htx & Him & Hrx & Hc)].
  destruct b; [|exists [], h, rp; rewrite app_nil_r, Nat.add_0_r; split_and!; [by destruct s; apply moved_refl|done..]].
  rewrite Nat.add_1_r. unfold runs. destruct (as_cached_trailers st) as [t|] eqn:Ec.
  - destruct Hc as (Hdn & Hk & He). unfold recv_message. rewrite (M_bind_return _ _ _ _ _ (get_stream_some s st Hst)), Ec.
    destruct (set_prop_fresh o "message" zv_null "message" Hnew) as (o' & Ho & Hp). mred. rewrite Ho.
    eexists _, h, rp. split; [by destruct s; apply moved_refl|]. split; [done|]. split; [exact Hp|]. split.
    + split; [by right|]. by rewrite lookup_ge_None_2.
    + split; try done. exists st. rewrite Ec. split_and!; try done. lia.
  - pose proof (next_item_tracks h rp s Ht) as Hn. unfold runs in Hn. destruct (next_item clock s) as [[a|e|] s1] eqn:En.
    2: done.
    2: { unfold recv_message. rewrite (M_bind_return _ _ _ _ _ (get_stream_some s st Hst)), Ec. mred. by rewrite En. }
    destruct Hn as (Hcall & h' & rp' & Hmv & Hq & Ha).
    destruct (recv_message_uncached clock o s st a s1 Hnew Hst Ec En Hcall) as (o' & Hp & Hrm). rewrite Hrm.
    pose proof (moved_later _ _ _ _ _ _ Ht Hmv) as Hlt. destruct Hc as [Hne Hk].
    assert (Hpre : il_items h' `prefix_of` rp_items rp').
    { destruct Hmv as [_ [[[r Hs] _ _] _] _ _ _]. rewrite (sim_items _ _ _ _ _ Hs). by apply prefix_app_r. }
    destruct (recv_answer_next k h rp rp' a _ Ha Hlt Hpre Hk) as (Hset & Hit & Hk').
    pose proof Hmv as [Hg Ht' Hsc Htk Hrt'].
    assert (Hok : (forall e, a <> Some (Err e)) -> inside (S k) mr h' rp' s1).
    { intros Hne'. split; [by unfold runtime_ready; rewrite Hrt'|by rewrite Hcall|done|]. exists st.
      rewrite Hcall, Ec. destruct Hq as [_ ->]. split_and!; try done.
      destruct a as [it|]; simpl in Ha; [destruct Ha as [-> _]|by destruct Ha as [-> _]].
      apply Forall_app. split; [done|]. apply Forall_singleton. destruct it as [|e]; [by intros []|by destruct (Hne' e)]. }
    destruct a as [[m|status]|].
    1, 3: eexists _, h', rp'; (split; [done|]); (split; [done|]); (split; [exact Hp|]); (split; [split; [done|by rewrite Hit]|by apply Hok]).
    destruct (inside_error k mr h rp s st h' rp' s1 status H0 Hin Hst Hmv Hq Hit) as (rp2 & Hm2 & Hdn2 & Hit2 & Hin2).
    exists [("message", zv_null)], h', rp2. split; [done|]. split; [done|]. split; [exact Hp|]. split; [|done].
    split; [by right|by rewrite Hit2, Hit].
Qed.

(** ** RECV_STATUS_ON_CLIENT *)
Lemma final_trailers_inside k mr h rp s :
  rpc_wf rp0 -> inside k mr h rp s ->
  runs (final_trailers clock select) s
    (fun t s' => exists h' rp', moved h rp s h' rp' s' /\ quiet h h' /\ final_status clock dl rp' k t) (fun _ _ => False).
Proof.
  intros H0 [Hrt Hdl Ht (st & Hst & Htr & Htx & Him & Hrx & Hc)]. pose proof (tracks_wf _ _ _ H0 Ht) as Hwf.
  unfold runs, final_trailers. rewrite (M_bind_return _ _ _ _ _ (get_stream_some s st Hst)).
  destruct (as_cached_trailers st) as [t|].
  - destruct Hc as (Hdn & Hk & status & n & Hl & ->). unfold put_stream, on_call. mred.
    exists h, rp. split; [by destruct s; apply moved_refl|]. split; [done|]. split; [done|].
    rewrite (reader_err _ _ Hwf Hdn Hl). exists status. split; [done|]. rewrite decide_True by done. eauto.
  - rewrite Htr. unfold put_stream, on_call. mred.
    match goal with |- context [await _ _ _ ?s0] => set (s1 := s0) end.
    pose proof (await_tracks (drain_poll select) (il_sent h) (il_open h) _ _ DrainLoop h (il_items h) s1 rp
      (drain_poll_good _ _ H0) drain_lasting Ht ltac:(by destruct h) I) as Ha.
    destruct (await clock (drain_poll select) DrainLoop s1) as [[a|e|] s2]; [|done|done].
    destruct Ha as (_ & h' & rp' & (H1 & H2 & Hdn & ->) & Hmv). exists h', rp'.
    assert (Hm : moved h rp s h' rp' s2) by (destruct s; destruct Hmv; by split). split; [done|]. split; [done|]. split; [done|].
    pose proof (tracks_wf _ _ _ H0 (mo_tracks _ _ _ _ _ _ Hmv)) as HwE.
    destruct (rp_trailers rp') as [t|] eqn:Et; simpl; [done|]. destruct HwE as (bs & tail & Hi & Htl).
    unfold rpc_done in Hdn. destruct (rp_pc rp') eqn:Epc; try done. destruct Htl as (it & -> & _ & Hit). rewrite Et in Hit.
    destruct it as [m|status]; [by destruct Hit|]. exists status. rewrite Hi, last_snoc. split; [done|].
    rewrite decide_False; [done|]. rewrite <- Hi. intros Hge. destruct Hc as [Hne Hk].
    destruct (moved_later _ _ _ _ _ _ Ht Hm) as [_ Hpre _ Hd].
    assert (Hall : il_items h = rp_items rp').
    { destruct Hk as [Hk|(Hdn' & -> & _)]; [|by destruct (Hd Hdn') as (_ & -> & _)].
      destruct Ht as [[[r Hs] _ _] _]. assert (Hp : il_items h `prefix_of` rp_items rp').
      { etrans; [|exact Hpre]. rewrite (sim_items _ _ _ _ _ Hs). by apply prefix_app_r. }
      destruct Hp as [tl Htl]. rewrite Htl, length_app in Hge. destruct tl; [by rewrite app_nil_r in Htl|simpl in Hge; lia]. }
    rewrite Hall, Hi in Hne. apply Forall_app in Hne as [_ Hne]. rewrite Forall_singleton in Hne. by apply Hne.
Qed.

Lemma recv_status_inside (b : bool) o k mr h rp s :
  rpc_wf rp0 -> "status" ∉ (obj_props o).*1 -> inside k mr h rp s ->
  runs (if b then recv_status clock select o else mret o) s
    (fun o' s' => exists ps h' rp', moved h rp s h' rp' s' /\ quiet h h' /\ obj_props o' = obj_props o ++ ps
       /\ answers_status clock dl rp' b k ps /\ (b = false -> inside k mr h' rp' s')) (fun _ _ => False).
Proof.
  intros H0 Hnew Hin.
  destruct b; [|exists [], h, rp; rewrite app_nil_r; split; [destruct s; by apply moved_refl; apply Hin|done]].
  pose proof (final_trailers_inside _ _ _ _ _ H0 Hin) as Hf. unfold runs in *.
  destruct (final_trailers clock select s) as [[t|e|] s'] eqn:Ef.
  - destruct Hf as (h' & rp' & Hm & Hq & Hfs).
    destruct (recv_status_shows clock select o s t s' Hnew Ef) as (o' & ht & so & -> & Hp & Hht & Hso).
    eexists _, h', rp'. split; [done|]. split; [done|]. split; [exact Hp|]. split; [|done]. by exists t, so, ht.
  - done.
  - unfold recv_status. mred. by rewrite Ef.
Qed.

(** ** Sending *)

(** tonic has let go of the request stream. *)
Definition let_go (h : Trace) (rp : Rpc) : Prop := EvReqDrop ∈ il_events h \/ rpc_done rp = true.

Definition refusal (tx : bool) : PhpException :=
  exn_default (if tx then "stream send channel closed" else "stream does not support sending").

Lemma send_opt_inside m k mr h rp s :
  inside k mr h rp s ->
  runs (send_opt env_var build_error tid clock m) s
    (fun _ s' => exists h' rp', moved h rp s h' rp' s' /\ il_open h' = il_open h
       /\ il_sent h' = il_sent h ++ option_list m /\ (is_Some m -> il_open h = true) /\ inside k mr h' rp' s')
    (fun e s' => exists h' rp', moved h rp s h' rp' s' /\ quiet h h' /\ inside k mr h' rp' s'
       /\ is_Some m /\ e = refusal (il_open h) /\ (il_open h = true -> let_go h' rp')).
Proof.
  intros Hin. pose proof Hin as [Hrt Hdl Ht (st & Hst & Htr & Htx & _)].
  destruct m as [m|]; unfold runs; simpl.
  2: { exists h, rp. rewrite app_nil_r. split_and!; try done; by destruct s; apply moved_refl. }
  destruct (call_get_runtime_ready env_var build_error tid s Hrt) as [rt Hg]. unfold send_stream_message.
  rewrite (M_bind_return _ _ _ _ _ Hg). mred. rewrite Hst, Htx. destruct (il_open h) eqn:Ho.
  2: { exists h, rp. split_and!; try done; by destruct s; apply moved_refl. }
  pose proof (await_tracks (send_poll m) (il_sent h) true _ _ tt h (il_items h) s rp
    (send_poll_good m _ _) (same_lasting _) Ht ltac:(rewrite <- Ho; by destruct h) eq_refl) as Ha. mred.
  destruct (await clock (send_poll m) tt s) as [[[u|u]|e|] s']; [| |done|done].
  all: destruct Ha as (Hcall & h' & rp' & (Hh' & Hg') & Hmv).
  all: assert (Hin' : inside k mr h' rp' s') by (eapply inside_moved; [exact Hin|exact Hmv|done|by rewrite Hh'|by rewrite Hh', Ho]).
  - exists h', rp'. split; [done|]. split; [by rewrite Hh'|]. split; [by rewrite Hh'|]. done.
  - exists h', rp'. split; [done|]. split; [by rewrite Hh'; split|]. split; [done|]. by eauto.
Qed.

Lemma close_inside (b : bool) k mr h rp s :
  inside k mr h rp s ->
  runs (if b then close_stream_send else mret tt) s
    (fun _ s' => exists h', moved h rp s h' rp s' /\ il_sent h' = il_sent h /\ il_open h' = il_open h && negb b
       /\ inside k mr h' rp s') (fun _ _ => False).
Proof.
  intros Hin. pose proof Hin as [Hrt Hdl Ht (st & Hst & Htr & Htx & Him & Hrx & Hc)].
  destruct b; [|exists h; rewrite andb_true_r; split_and!; [by destruct s; apply moved_refl|done..]].
  rewrite andb_false_r. unfold runs, close_stream_send, on_call, on_world. mred. rewrite Hst, Htx. mred.
  set (h' := MkTrace (il_events h) (il_items h) (il_sent h) false).
  assert (Ht' : tracks h' rp (if il_open h then drop_sender (cs_w s) else cs_w s)).
  { destruct Ht as [[[r Hs] Hr Hq] Hh]. destruct (il_open h).
    - split; [split; [|done|by eapply drop_sender_req]|done]. unfold drop_sender. rewrite (sim_wire _ _ _ _ _ Hs).
      eauto using sim_wire_req.
    - split; [split; [by exists r|done|done]|done]. }
  destruct (il_open h) eqn:Ho; mred; exists h'.
  - split; [|split; [done|split; [done|]]].
    + split; [done|done| | |]; simpl; [exists []; rewrite app_nil_r|..]; unfold drop_sender; by destruct (w_wire (cs_w s)).
    + split; try done; [unfold runtime_ready, drop_sender; simpl; by destruct (w_wire (cs_w s))|]. eexists. by split_and!.
  - split; [|split; [done|split; [done|]]].
    + split; [done|done| |done|done]. exists []. by rewrite app_nil_r.
    + split; try done. eexists. by split_and!.
Qed.

(** ** A batch on an open stream *)

Lemma answers_metadata_later rp rp' b mr ps :
  later rp rp' -> answers_metadata rp b mr ps -> answers_metadata rp' b mr ps.
Proof.
  intros [_ _ Hm _]. unfold answers_metadata. destruct b; [|done]. intros (ht & -> & H). exists ht. split; [done|].
  destruct mr; [done|]. destruct H as (m & H & ?). eauto.
Qed.

Lemma answers_message_later rp rp' b k ps :
  later rp rp' -> answers_message rp b k ps -> answers_message rp' b k ps.
Proof.
  intros [_ Hi _ Hd]. unfold answers_message, settled. destruct b; [|done]. intros [[Hk|Hdn] ->].
  - destruct (lookup_lt_is_Some_2 _ _ Hk) as [it Hit]. pose proof (prefix_lookup_Some _ _ _ _ Hit Hi) as Hit'.
    rewrite Hit, Hit'. split; [left; by eapply lookup_lt_Some|done].
  - destruct (Hd Hdn) as (Hdn' & -> & _). auto.
Qed.

Lemma answers_status_later rp rp' b k ps :
  later rp rp' -> answers_status clock dl rp b k ps -> answers_status clock dl rp' b k ps.
Proof.
  intros [_ _ _ Hd]. unfold answers_status, final_status. destruct b; [|done].
  intros (t & so & ht & -> & [Hdn Hf] & H1 & H2). destruct (Hd Hdn) as (Hdn' & Hi & Ht).
  exists t, so, ht. rewrite Ht, Hi. by split_and!.
Qed.

Lemma spec_step_later rp rp' (gone gone' : Prop) op sp a sp' :
  later rp rp' -> (gone -> gone') ->
  spec_step clock dl rp gone op sp a sp' -> spec_step clock dl rp' gone' op sp a sp'.
Proof.
  intros Hl Hg. destruct 1; [eapply spec_cancel|eapply spec_cancelled|eapply spec_malformed|eapply spec_nothing
    |eapply spec_over|eapply spec_refused|eapply spec_batch];
    eauto using answers_metadata_later, answers_message_later, answers_status_later.
Qed.

(** The receive operations of a batch. *)
Definition recv_part (b : BatchOps) : KM ZObject :=
  if b_has_recv_ops b then build_stream_result env_var build_error tid clock select b else mret obj_new.

(** What a batch shows of the call. *)
Definition shows (b : BatchOps) (k : nat) (mr : bool) (rp : Rpc) (ps : list (string * Zval)) : Prop :=
  exists ps1 ps2 ps3, ps = ps1 ++ ps2 ++ ps3 /\ answers_metadata rp (b_recv_initial_metadata b) mr ps1
    /\ answers_message rp (b_recv_message b) k ps2
    /\ answers_status clock dl rp (b_recv_status b) (k + if b_recv_message b then 1 else 0) ps3.

Lemma shows_keys b k mr rp ps x :
  shows b k mr rp ps -> x ∈ ps.*1 -> x ∈ ["metadata"; "message"; "status"].
Proof.
  intros (ps1 & ps2 & ps3 & -> & H1 & H2 & H3). rewrite !fmap_app, !elem_of_app. intros [H|[H|H]].
  - destruct (decide (x = "metadata")) as [->|Hx]; [set_solver|]. by apply (answers_metadata_keys _ _ _ _ x) in H1.
  - destruct (decide (x = "message")) as [->|Hx]; [set_solver|]. by apply (answers_message_keys _ _ _ _ x) in H2.
  - unfold answers_status in H3. destruct (b_recv_status b); [|subst; by apply not_elem_of_nil in H].
    destruct H3 as (t & so & ht & -> & _). simpl in H. set_solver.
Qed.

Lemma recv_part_inside ops b k mr h rp s :
  rpc_wf rp0 -> parse_ops ops = Ok b -> inside k mr h rp s ->
  runs (recv_part b) s
    (fun o s' => exists h' rp', moved h rp s h' rp' s' /\ quiet h h' /\ shows b k mr rp' (obj_props o)
       /\ (b_recv_status b = false ->
            inside (k + if b_recv_message b then 1 else 0) (mr || b_recv_initial_metadata b) h' rp' s'))
    (fun _ _ => False).
Proof.
  intros H0 Hb Hin. unfold recv_part. destruct (b_has_recv_ops b) eqn:Hr.
  2: { destruct (parse_ops_batch_of _ _ Hb). rewrite bo_recv in Hr. apply orb_false_iff in Hr as [[H1 H2]%orb_false_iff H3].
       exists h, rp. split; [destruct s; apply moved_refl; apply Hin|]. split; [done|].
       rewrite bo_rmd, bo_rmsg, bo_rst, H1, H2, H3, orb_false_r, Nat.add_0_r. split; [|done].
       exists [], [], []. rewrite bo_rmd, bo_rmsg, bo_rst, H1, H2, H3. by rewrite obj_props_new. }
  pose proof Hin as [Hrt _ _ (st & Hst & _)]. unfold build_stream_result, runs.
  destruct (call_get_runtime_ready env_var build_error tid s Hrt) as [rt Hg].
  rewrite (M_bind_return _ _ _ _ _ Hg), (M_bind_return _ _ _ _ _ (get_stream_some s st Hst)).
  eapply runs_bind; [by apply recv_metadata_inside|]. intros o1 s1 (h1 & rp1 & Hm1 & Hq1 & Ha1 & Hin1).
  eapply runs_bind; [eapply recv_message_inside; [done| |exact Hin1]; by eapply answers_metadata_keys|].
  intros o2 s2 (ps2 & h2 & rp2 & Hm2 & Hq2 & Hp2 & Ha2 & Hin2).
  pose proof (moved_later _ _ _ _ _ _ (in_tracks _ _ _ _ _ Hin1) Hm2) as L2.
  eapply runs_mono; [eapply recv_status_inside; [done| |exact Hin2]| |done].
  { rewrite Hp2, fmap_app. intros [H|H]%elem_of_app; revert H; [by eapply answers_metadata_keys|by eapply answers_message_keys]. }
  intros o3 s3 (ps3 & h3 & rp3 & Hm3 & Hq3 & Hp3 & Ha3 & Hin3).
  pose proof (moved_later _ _ _ _ _ _ (in_tracks _ _ _ _ _ Hin2) Hm3) as L3.
  exists h3, rp3. split; [by eapply moved_trans; [|eapply moved_trans]|]. split; [by do 2 (etrans; [done|])|].
  split; [|done]. exists (obj_props o1), ps2, ps3. rewrite Hp3, Hp2, <- app_assoc. split; [done|].
  split_and!; [by do 2 (eapply answers_metadata_later; [done|])|by eapply answers_message_later|done].
Qed.

(** On an open stream every batch sends, half-closes, then receives. *)
Lemma dispatch_open ops b s st :
  parse_ops ops = Ok b -> b_has_send_ops b || b_has_recv_ops b = true -> cl_stream_state (cs_call s) = Some st ->
  dispatch_batch env_var build_error tid clock select php_call b s
  = (send_opt env_var build_error tid clock (b_send_message b) ;;
     (if b_send_close b then close_stream_send else mret tt) ;; recv_part b) s.
Proof.
  intros Hb Hne Hst. unfold dispatch_batch, recv_part. destruct (b_has_send_ops b) eqn:Hs; simpl in Hne.
  - destruct (b_has_recv_ops b); simpl; unfold dispatch_send, dispatch_stream; mred; by rewrite Hst, ?Hs.
  - rewrite Hne. destruct (parse_ops_recv_only _ _ Hb Hs) as (_ & -> & ->). simpl. mred. rewrite Hst.
    unfold dispatch_stream. by rewrite Hs.
Qed.

Lemma dispatch_inside ops b k mr h rp s :
  rpc_wf rp0 -> parse_ops ops = Ok b -> b_has_send_ops b || b_has_recv_ops b = true -> inside k mr h rp s ->
  runs (dispatch_batch env_var build_error tid clock select php_call b) s
    (fun o s' => exists h' rp', moved h rp s h' rp' s' /\ il_sent h' = il_sent h ++ option_list (b_send_message b)
       /\ il_open h' = il_open h && negb (b_send_close b) /\ (is_Some (b_send_message b) -> il_open h = true)
       /\ shows b k mr rp' (obj_props o)
       /\ (b_recv_status b = false ->
            inside (k + if b_recv_message b then 1 else 0) (mr || b_recv_initial_metadata b) h' rp' s'))
    (fun e s' => exists h' rp', moved h rp s h' rp' s' /\ quiet h h' /\ inside k mr h' rp' s'
       /\ is_Some (b_send_message b) /\ e = refusal (il_open h) /\ (il_open h = true -> let_go h' rp')).
Proof.
  intros H0 Hb Hne Hin. pose proof Hin as [_ _ _ (st & Hst & _)]. unfold runs. rewrite (dispatch_open ops b s st Hb Hne Hst).
  eapply runs_bind; [by apply send_opt_inside|]. intros _ s1 (h1 & rp1 & Hm1 & Ho1 & Hs1 & Htx & Hin1).
  eapply runs_bind; [eapply runs_mono; [by eapply close_inside|intros a s' H; exact H|done]|].
  intros _ s2 (h2 & Hm2 & Hs2 & Ho2 & Hin2).
  eapply runs_mono; [by eapply recv_part_inside|intros o s3 (h3 & rp3 & Hm3 & [Hs3 Ho3] & Hsh & Hin3)|done].
  exists h3, rp3. split; [by eapply moved_trans; [|eapply moved_trans]|]. by rewrite Hs3, Hs2, Hs1, Ho3, Ho2, Ho1.
Qed.

(** * The program *)

(** When the code is in a state of the abstract call. *)
Record in_session (sp : SpecSt) (h : Trace) (rp : Rpc) (s : CallSt) : Prop := {
  is_open : closed_flag s = false;
  is_cancelled : token_is_cancelled (w_token (cs_w s)) = sp_cancelled sp;
  is_finished : cl_finished (cs_call s) = sp_over sp;
  is_md : cl_initial_metadata_sent (cs_call s) = sp_md sp;
  is_sent : il_sent h = sp_sent sp;
  is_tx : il_open h = sp_tx sp;
  is_tracks : tracks h rp (cs_w s);
  is_inside : sp_over sp = false -> inside (sp_read sp) (sp_meta sp) h rp s;
}.

Lemma consumed_app s s' used : w_script (cs_w s) = used ++ w_script (cs_w s') -> consumed s s' = used.
Proof.
  intros H. unfold consumed. rewrite H, length_app, Nat.add_sub. apply take_app_length.
Qed.

(** A batch that was routed. *)
Lemma accepted_session ops b sp h rp s a s' :
  rpc_wf rp0 -> in_session sp h rp s -> accepted ops b sp ->
  run_op (DoBatch ops) s = Some (a, s') ->
  Call.start_batch env_var build_error tid clock select php_call ops s =
    match dispatch_batch env_var build_error tid clock select php_call b (with_flags b s) with
    | (Return o, s2) => lift (send_acks o b) (with_finished b s2)
    | (Throw e, s2) => (Throw e, s2)
    | (Blocked, s2) => (Blocked, s2)
    end ->
  exists sp' h' rp', moved h rp s h' rp' s' /\ in_session sp' h' rp' s'
    /\ spec_step clock dl rp' (let_go h' rp') (DoBatch ops) sp a sp'.
Proof.
  intros H0 [Ho Hc Hf Hmd Hsent Htx Ht Hin] Hacc Hrun Hs. pose proof Hacc as (Ec & Hb & Hne & Eo & Em).
  unfold Spec.run_op in Hrun. pose proof (start_batch_closed_flag env_var build_error tid clock select php_call ops s) as Hcl.
  pose proof (keeps_dispatch env_var build_error tid clock select php_call _ (flags_stable _ _ false _) b (with_flags b s)
    ltac:(by split_and!)) as [(_ & K2 & K3 & K4) _].
  assert (Hin1 : inside (sp_read sp) (sp_meta sp) h rp (with_flags b s)) by (destruct (Hin Eo); by split).
  pose proof (dispatch_inside ops b _ _ h rp _ H0 Hb Hne Hin1) as Hd. unfold runs in Hd. rewrite Hs in Hrun, Hcl.
  destruct (dispatch_batch env_var build_error tid clock select php_call b (with_flags b s)) as [[o|e|] s2];
    simpl in K2, K3, K4.
  - destruct Hd as (h' & rp' & [G T S K R] & Hsn & Hop & Hm & Hsh & Hin').
    destruct (send_acks_shows o b (fun x => shows_keys _ _ _ _ _ x Hsh)) as (o' & Ho' & Hp). rewrite Ho' in Hrun, Hcl.
    unfold lift in Hrun, Hcl. injection Hrun as <- <-. destruct Hsh as (ps1 & ps2 & ps3 & Hps & A1 & A2 & A3).
    eexists _, h', rp'. split; [by split|]. split; [|eapply (spec_batch _ _ _ _ ops b o' ps1 ps2 ps3); try done].
    + split; simpl; [rewrite (Hcl _ _ eq_refl); done|by rewrite K4, Hc|by rewrite K3|by rewrite K2, Hmd
        |by rewrite Hsn, Hsent|by rewrite Hop, Htx|done|intros Hst; destruct (Hin' Hst); by split].
    + by rewrite <- Htx.
    + by rewrite Hp, Hps, <- !app_assoc.
  - injection Hrun as <- <-. destruct Hd as (h' & rp' & Hmv & [Hq1 Hq2] & Hin' & Hm & -> & Hg). pose proof Hmv as [G T S K R].
    eexists _, h', rp'. split; [by split|]. unfold refusal. rewrite Htx.
    split; [|apply spec_refused; [exact Hacc|done|by rewrite <- Htx]].
    split; simpl; [rewrite (Hcl _ _ eq_refl); done|by rewrite K4, Hc|done|by rewrite K2, Hmd|congruence|congruence|done|done].
  - done.
Qed.

Lemma run_op_session op sp h rp s a s' :
  rpc_wf rp0 -> in_session sp h rp s -> run_op op s = Some (a, s') ->
  exists sp' h' rp', in_session sp' h' rp' s' /\ il_events h' = il_events h ++ consumed s s'
    /\ grows clock dl rp rp' /\ rt_of (cs_w s') = rt_of (cs_w s) /\ spec_step clock dl rp' (let_go h' rp') op sp a sp'.
Proof.
  intros H0 Hin Hrun. pose proof Hin as [Ho Hc Hf Hmd Hsent Htx Ht Hi]. destruct op as [ops|].
  - destruct (start_batch_accepts env_var build_error tid clock select php_call ops sp s Ho Hc Hf Hmd)
      as [(a' & Ha & Hsp)|(b & Hacc & Hs)].
    + rewrite Hrun in Ha. injection Ha as <- <-. exists sp, h, rp. rewrite (consumed_app s' s' []), app_nil_r by done.
      by split_and!.
    + destruct (accepted_session ops b sp h rp s a s' H0 Hin Hacc Hrun Hs) as (sp' & h' & rp' & Hm & Hin' & Hsp).
      exists sp', h', rp'. destruct Hm as [G _ (used & Hu & He) _ R]. rewrite (consumed_app _ _ _ Hu). by split_and!.
  - injection Hrun as <- <-. eexists _, h, rp. rewrite (consumed_app s _ []), app_nil_r by done.
    split_and!; [|done|done|done|apply spec_cancel]. destruct s as [c w].
    split; simpl; try done; [apply token_cancel_done|by eapply tracks_world; [..|exact Ht]|].
    intros Hov. destruct (Hi Hov) as [? ? ? ?]. split; try done. by eapply tracks_world; [..|exact Ht].
Qed.

(** The world moved without the program. *)
Lemma in_session_world sp h rp c w h' rp' w' :
  in_session sp h rp (MkCS c w) -> tracks h' rp' w' -> grows clock dl rp rp' -> il_items h' = il_items h -> quiet h h' ->
  w_token w' = w_token w -> ch_flags (w_chan w') !! cl_channel_closed c = ch_flags (w_chan w) !! cl_channel_closed c ->
  rt_of w' = rt_of w -> in_session sp h' rp' (MkCS c w').
Proof.
  intros [Ho Hc Hf Hmd Hsent Htx Ht Hi] Ht' Hg Hits [Hq1 Hq2] Htk Hch Hrt.
  split; simpl in *; try done; [unfold closed_flag in *; simpl in *; by rewrite Hch|by rewrite Htk|congruence|congruence|].
  intros Hov. by eapply inside_world; [by apply Hi|..].
Qed.

Lemma in_session_keep sp h rp c w h' rp' w' :
  in_session sp h rp (MkCS c w) -> tracks h' rp' w' -> grows clock dl rp rp' -> il_items h' = il_items h -> quiet h h' ->
  world_keep w w' -> rt_of w' = rt_of w -> in_session sp h' rp' (MkCS c w').
Proof. intros Hin Ht Hg Hi Hq [Htk Hch _] Hrt. eapply in_session_world; eauto. by rewrite (so_flags _ _ Hch). Qed.

(** * The session and the abstract call *)

Lemma spec_run_later rp rp' (gone gone' : Prop) ops sp answers sp' :
  later rp rp' -> (gone -> gone') ->
  spec_run clock dl rp gone ops sp answers sp' -> spec_run clock dl rp' gone' ops sp answers sp'.
Proof. intros Hl Hg. induction 1; econstructor; eauto using spec_step_later. Qed.

Lemma spec_run_snoc rp gone ops sp answers sp1 op a sp2 :
  spec_run clock dl rp gone ops sp answers sp1 -> spec_step clock dl rp gone op sp1 a sp2 ->
  spec_run clock dl rp gone (ops ++ [op]) sp (answers ++ [a]) sp2.
Proof. induction 1; simpl; intros Hs; econstructor; eauto. by constructor. Qed.

Lemma let_go_later h rp h' rp' : il_events h `prefix_of` il_events h' -> later rp rp' -> let_go h rp -> let_go h' rp'.
Proof.
  intros [tl He] [_ _ _ Hd] [H|H]; [left; rewrite He; apply elem_of_app; auto|]. right. by apply Hd.
Qed.

Lemma session_inv s0 sp0 h0 evs ops answers s :
  rpc_wf rp0 -> in_session sp0 h0 rp0 s0 -> il_events h0 = [] -> session s0 evs ops answers s ->
  exists sp h rp, in_session sp h rp s /\ il_events h = evs
    /\ spec_run clock dl rp (let_go h rp) ops sp0 answers sp.
Proof.
  intros H0 Hin0 He0. induction 1 as [|evs ops answers c w _ IH|evs ops answers c w ev w' _ IH Hev
    |evs ops answers c w _ IH|evs ops answers c w chan _ IH Hch Hrtc|evs ops answers c w script _ IH|evs ops answers s op a s' _ IH Hrun].
  - exists sp0, h0, rp0. split_and!; [done|done|constructor].
  - destruct IH as (sp & h & rp & Hin & He & Hsp). pose proof (is_tracks _ _ _ _ Hin) as Ht. simpl in Ht.
    destruct (tracks_task _ _ _ Ht) as (rp' & Ht' & Hg). exists sp, h, rp'. split_and!; [|done|].
    + eapply in_session_keep; eauto using task_poll_keep, task_poll_rt. done.
    + pose proof (grows_later _ _ _ _ Hg (tracks_early _ _ _ Ht)) as Hl. eapply spec_run_later; [done| |done]. by apply let_go_later.
  - destruct IH as (sp & [evs0 its sent tx] & rp & Hin & He & Hsp). simpl in He. subst evs0.
    pose proof (is_tracks _ _ _ _ Hin) as Ht. simpl in Ht.
    destruct (tracks_event _ _ _ _ _ _ _ _ Hev Ht) as (rp' & Ht' & Hg). eexists sp, _, rp'. split_and!; [| |].
    + eapply in_session_keep; [exact Hin|exact Ht'|done|done|done|by eapply driver_event_keep|by eapply driver_event_rt].
    + done.
    + pose proof (grows_later _ _ _ _ Hg (tracks_early _ _ _ Ht)) as Hl. eapply spec_run_later; [done| |done].
      apply let_go_later; [|done]. simpl. by apply prefix_app_r.
  - destruct IH as (sp & h & rp & Hin & He & Hsp). pose proof (is_tracks _ _ _ _ Hin) as Ht. simpl in Ht.
    destruct (tracks_clock _ _ _ Ht) as (rp' & Ht' & Hg). exists sp, h, rp'. split_and!; [|done|].
    + eapply in_session_keep; eauto. 1: done. by apply world_keep_same.
    + pose proof (grows_later _ _ _ _ Hg (tracks_early _ _ _ Ht)) as Hl. eapply spec_run_later; [done| |done]. by apply let_go_later.
  - destruct IH as (sp & h & rp & Hin & He & Hsp). exists sp, h, rp. split_and!; [|done|done].
    eapply in_session_world; [exact Hin|eapply tracks_world; [..|exact (is_tracks _ _ _ _ Hin)]; done|done|done|done|done|exact Hch|exact Hrtc].
  - destruct IH as (sp & h & rp & Hin & He & Hsp). exists sp, h, rp. split_and!; [|done|done].
    eapply in_session_keep; [exact Hin|eapply tracks_world; [..|exact (is_tracks _ _ _ _ Hin)]; done|done|done|done| |done].
    by apply world_keep_same.
  - destruct IH as (sp & h & rp & Hin & He & Hsp).
    destruct (run_op_session op sp h rp s a s' H0 Hin Hrun) as (sp' & h' & rp' & Hin' & He' & Hg & _ & Hst).
    exists sp', h', rp'. split_and!; [done|by rewrite He', He|]. eapply spec_run_snoc; [|exact Hst].
    pose proof (grows_later _ _ _ _ Hg (tracks_early _ _ _ (is_tracks _ _ _ _ Hin))) as Hl.
    eapply spec_run_later; [done| |exact Hsp]. apply let_go_later; [|done]. rewrite He'. by apply prefix_app_r.
Qed.

End invariant.
Lemma opens_session s0 s st :
  opens env_var build_error tid clock s0 s -> cl_stream_state (cs_call s) = Some st -> as_trailers_rx st = true ->
  closed_flag s = false -> token_is_cancelled (w_token (cs_w s)) = false -> cl_finished (cs_call s) = false ->
  let rp0 := rpc_init 0 (w_ticks (cs_w s)) (w_instant (cs_w s)) in
  in_session (cl_deadline_usec (cs_call s0)) rp0 (spec_init (as_msg_tx st) (cl_initial_metadata_sent (cs_call s)))
    (MkTrace [] [] [] (as_msg_tx st)) rp0 s.
Proof.
  intros Hop Hst Htr Ho Hc Hf rp0. pose proof (opens_inv _ _ _ _ _ _ _ Hop Hst Htr) as Hinv.
  destruct (opens_spawns _ _ _ _ _ _ _ Hop Hst Htr) as (Hst0 & Hcall & Hrt & rq & Hw).
  assert (Ht : tracks (cl_deadline_usec (cs_call s0)) rp0 (MkTrace [] [] [] (as_msg_tx st)) rp0 (cs_w s)).
  { split; [done|]. simpl. intros Htx r Hr. rewrite Hw, Htx in Hr. by injection Hr as <-. }
  split; try done. intros _. split; [done|by rewrite Hcall|done|]. exists st. split; [done|]. split; [done|].
  rewrite Hst0. simpl. split_and!; try done. by left.
Qed.

(** * What a session leaves of the thread

    The clock only goes on, the closed flags stay, the runtime stays. *)
Record shared_kept (w w' : World) : Prop := {
  sk_ticks : (w_ticks w <= w_ticks w')%nat;
  sk_flags : ch_flags (w_chan w') = ch_flags (w_chan w);
  sk_rt : rt_of w' = rt_of w;
}.

Lemma ref_step_ticks dl o rp rp' : ref_step clock dl o rp rp' -> (rp_ticks rp <= rp_ticks rp')%nat.
Proof.
  destruct 1 as [rp|c ev rp rp' H|t rp|rp]; simpl; try lia.
  - unfold rpc_poll. destruct (rp_pc rp); simpl; lia.
  - unfold rpc_event in H. destruct ev as [[]|[]|[[b|]|]| | |t| | |]; destruct (rp_pc rp); try done;
      repeat case_match; simplify_eq/=; lia.
Qed.

Lemma grows_ticks dl rp rp' : grows clock dl rp rp' -> (rp_ticks rp <= rp_ticks rp')%nat.
Proof. induction 1 as [|rp rp1 rp' [o Hs%ref_step_ticks] _ IH]; lia. Qed.

Lemma tracks_ticks dl rp0 h rp w : tracks dl rp0 h rp w -> rp_ticks rp = w_ticks w.
Proof. intros [[[r Hs] _ _] _]. apply Hs. Qed.

Lemma chan_kept_stable ch : stable (fun s => ch_flags (w_chan (cs_w s)) = ch).
Proof. split; simpl; try done. intros c w w' <- [_ Hc _]. apply (so_flags _ _ Hc). Qed.

Lemma run_op_kept dl rp0 op sp h rp s a s' :
  rpc_wf rp0 -> in_session dl rp0 sp h rp s -> run_op op s = Some (a, s') -> shared_kept (cs_w s) (cs_w s').
Proof.
  intros H0 Hin Hrun. destruct (run_op_session dl rp0 op sp h rp s a s' H0 Hin Hrun) as (sp' & h' & rp' & Hin' & _ & Hg & Hrt & _).
  split; [| |exact Hrt].
  - rewrite <- (tracks_ticks _ _ _ _ _ (is_tracks _ _ _ _ _ _ Hin)), <- (tracks_ticks _ _ _ _ _ (is_tracks _ _ _ _ _ _ Hin')).
    by eapply grows_ticks.
  - destruct op as [ops|]; simpl in Hrun; [|by injection Hrun as _ <-].
    destruct (Call.start_batch env_var build_error tid clock select php_call ops s) as [r s1] eqn:Hs.
    assert (Hk : ch_flags (w_chan (cs_w s1)) = ch_flags (w_chan (cs_w s)))
      by (by eapply (start_batch_keeps env_var build_error tid clock select php_call _ _ _ _ _ (chan_kept_stable _))).
    destruct r; by simplify_eq.
Qed.

(** * What the program sees

    The messages a program was told were sent, and the values of the reads it
    was answered. *)
Definition sent_by (op : ClientOp) (a : Answer) : list bytes :=
  match op, a with
  | DoBatch ops, AObject _ => match parse_ops ops with Ok b => option_list (b_send_message b) | Err _ => [] end
  | _, _ => []
  end.
Definition shown_by (a : Answer) : list Zval :=
  match a with AObject o => values_of "message" (obj_props o) | _ => [] end.
Definition sent (ops : list ClientOp) (answers : list Answer) : list bytes := concat (zip_with sent_by ops answers).
Definition shown (answers : list Answer) : list Zval := concat (shown_by <$> answers).

Lemma answers_status_keys dl rp b k ps x : answers_status clock dl rp b k ps -> x <> "status" -> x ∉ ps.*1.
Proof.
  unfold answers_status. destruct b; [intros (t & so & ht & -> & _)|intros ->]; simpl; intros Hk;
    [by intros ?%list_elem_of_singleton|by intros ?%not_elem_of_nil].
Qed.

Lemma acks_message b : values_of "message" (acks b) = [].
Proof. unfold acks. by destruct (b_has_send_initial_metadata b), (b_send_message b), (b_send_close b). Qed.

Lemma spec_step_seen dl rp gone op sp a sp' :
  spec_step clock dl rp gone op sp a sp' ->
  (sp_read sp <= sp_read sp')%nat /\ sp_sent sp' = sp_sent sp ++ sent_by op a
  /\ shown_by a = (fun i => item_zval (rp_items rp !! i)) <$> seq (sp_read sp) (sp_read sp' - sp_read sp).
Proof.
  intros [sp0|ops sp0 _|ops e sp0 _ _|ops b o sp0 _ Hb Hne Ho|ops b sp0 _ _ _ _|ops b sp0 _ _ _
         |ops b o ps1 ps2 ps3 sp0 (_ & Hb & _) _ read H1 H2 H3 Ho]; simpl; rewrite ?Nat.sub_diag, ?app_nil_r; try done.
  - apply orb_false_iff in Hne as [Hne _]. destruct (parse_ops_recv_only _ _ Hb Hne) as (_ & Hm & _).
    rewrite Hb, Hm, Ho. simpl. by rewrite app_nil_r.
  - rewrite Hb, Ho, !values_of_app, acks_message, app_nil_r.
    rewrite (values_of_notin _ ps1) by (by eapply answers_metadata_keys).
    rewrite (values_of_notin _ ps3) by (by eapply answers_status_keys).
    split_and!; [lia|done|]. unfold read, answers_message in *. destruct (b_recv_message b).
    + destruct H2 as [_ ->]. by replace (sp_read sp0 + 1 - sp_read sp0)%nat with 1%nat by lia.
    + rewrite H2. by replace (sp_read sp0 + 0 - sp_read sp0)%nat with 0%nat by lia.
Qed.

Lemma spec_run_seen dl rp gone ops sp answers sp' :
  spec_run clock dl rp gone ops sp answers sp' ->
  (sp_read sp <= sp_read sp')%nat /\ sp_sent sp' = sp_sent sp ++ sent ops answers
  /\ shown answers = (fun i => item_zval (rp_items rp !! i)) <$> seq (sp_read sp) (sp_read sp' - sp_read sp).
Proof.
  induction 1 as [sp|op ops sp a sp1 l sp2 Hs _ (Hl & Hsent & Hsh)].
  - simpl. by rewrite Nat.sub_diag, app_nil_r.
  - destruct (spec_step_seen _ _ _ _ _ _ _ Hs) as (Hl0 & Hs0 & Hsh0). unfold sent, shown in *. csimpl.
    rewrite Hsent, Hs0, Hsh, Hsh0, <- app_assoc, <- fmap_app. split_and!; [lia|done|].
    replace (sp_read sp2 - sp_read sp)%nat with ((sp_read sp1 - sp_read sp) + (sp_read sp2 - sp_read sp1))%nat by lia.
    rewrite seq_app. by replace (sp_read sp + (sp_read sp1 - sp_read sp))%nat with (sp_read sp1) by lia.
Qed.

(** A session from the opening of the stream. *)
Lemma session_result s0 s st evs ops answers s' :
  opens env_var build_error tid clock s0 s -> cl_stream_state (cs_call s) = Some st -> as_trailers_rx st = true ->
  closed_flag s = false -> token_is_cancelled (w_token (cs_w s)) = false -> cl_finished (cs_call s) = false ->
  session s evs ops answers s' ->
  exists rp sp r,
    rpc_wf rp
    /\ ref_run clock (cl_deadline_usec (cs_call s0)) (rpc_init 0 (w_ticks (cs_w s)) (w_instant (cs_w s))) evs rp
    /\ spec_run clock (cl_deadline_usec (cs_call s0)) rp (EvReqDrop ∈ evs \/ rpc_done rp = true) ops
         (spec_init (as_msg_tx st) (cl_initial_metadata_sent (cs_call s))) answers sp
    /\ omap item_message (rp_items rp) = omap message_of evs
    /\ w_wire (cs_w s') = Some r /\ wr_pulled r `prefix_of` sp_sent sp
    /\ (wr_req_ended r = true -> wr_pulled r = sp_sent sp).
Proof.
  intros Hop Hst Htr Ho Hc Hf Hse. set (dl := cl_deadline_usec (cs_call s0)).
  set (rp0 := rpc_init 0 (w_ticks (cs_w s)) (w_instant (cs_w s))).
  destruct (session_inv dl rp0 s _ _ evs ops answers s' (rpc_init_wf _ _ _)
    (opens_session s0 s st Hop Hst Htr Ho Hc Hf) eq_refl Hse) as (sp & h & rp & Hin & He & Hsp).
  pose proof Hin as [_ _ _ _ Hsent _ [[[r Hs] Href Hq] _] _]. rewrite He in Href.
  destruct (Hq r (sim_wire _ _ _ _ _ Hs)) as [[Hp _ Hend] _]. rewrite Hsent in Hp, Hend.
  exists rp, sp, r. split_and!; try done.
  - eapply tracks_wf; [apply rpc_init_wf|apply (is_tracks _ _ _ _ _ _ Hin)].
  - unfold let_go in Hsp. by rewrite He in Hsp.
  - by rewrite (ref_run_messages _ _ _ _ _ Href).
  - apply Hs.
  - intros H. by apply Hend.
Qed.

(** What such a program sees. *)
Lemma session_seen s0 s st evs ops answers s' :
  opens env_var build_error tid clock s0 s -> cl_stream_state (cs_call s) = Some st -> as_trailers_rx st = true ->
  closed_flag s = false -> token_is_cancelled (w_token (cs_w s)) = false -> cl_finished (cs_call s) = false ->
  session s evs ops answers s' ->
  exists r, w_wire (cs_w s') = Some r
    /\ shown answers = take (length (shown answers))
         ((zv_of_bytes <$> omap message_of evs) ++ replicate (length (shown answers)) zv_null)
    /\ wr_pulled r `prefix_of` sent ops answers /\ (wr_req_ended r = true -> wr_pulled r = sent ops answers).
Proof.
  intros Hop Hst Htr Ho Hc Hf Hse.
  destruct (session_result s0 s st evs ops answers s' Hop Hst Htr Ho Hc Hf Hse) as (rp & sp & r & Hwf & _ & Hsp & Hm & Hr & Hp & He).
  destruct (spec_run_seen _ _ _ _ _ _ _ Hsp) as (_ & Hsent & Hsh). simpl in Hsent, Hsh. rewrite Nat.sub_0_r in Hsh.
  exists r. rewrite <- Hsent, <- Hm. split_and!; try done.
  rewrite Hsh, length_fmap, length_seq. by apply item_zvals.
Qed.

(** * Property *)

(** C2: every program on an open stream, whatever it sends and receives and
    however the task, the network and the timer interleave with it, is answered
    as the abstract call allows, over one run of the reference on the events
    that happened: its receives see the headers once, the items in order and
    the status the call ended with; a send is acknowledged and joins the
    messages sent, or is refused, and then only because the program
    half-closed, tonic dropped the request stream or the call is over; a
    metadata operation is accepted once; nothing is answered after the status
    or after a cancellation.  The items shown are the messages the network
    delivered, and tonic pulls the messages sent, in order, and sees the end
    only after all of them. *)
Theorem session_refines s0 s st evs ops answers s' :
  opens env_var build_error tid clock s0 s -> cl_stream_state (cs_call s) = Some st -> as_trailers_rx st = true ->
  closed_flag s = false -> token_is_cancelled (w_token (cs_w s)) = false -> cl_finished (cs_call s) = false ->
  session s evs ops answers s' ->
  exists rp sp r,
    ref_run clock (cl_deadline_usec (cs_call s0)) (rpc_init 0 (w_ticks (cs_w s)) (w_instant (cs_w s))) evs rp
    /\ spec_run clock (cl_deadline_usec (cs_call s0)) rp (EvReqDrop ∈ evs \/ rpc_done rp = true) ops
         (spec_init (as_msg_tx st) (cl_initial_metadata_sent (cs_call s))) answers sp
    /\ omap item_message (rp_items rp) = omap message_of evs
    /\ w_wire (cs_w s') = Some r /\ wr_pulled r `prefix_of` sp_sent sp
    /\ (wr_req_ended r = true -> wr_pulled r = sp_sent sp).
Proof.
  intros Hop Hst Htr Ho Hc Hf Hse.
  destruct (session_result s0 s st evs ops answers s' Hop Hst Htr Ho Hc Hf Hse) as (rp & sp & r & _ & H). eauto.
Qed.

End session.

(** * Witness

    A bidi call: one message is sent, the headers and the answer are received,
    a second message is sent with the half-close and the status received, and
    one batch more is made. *)
Abbreviation wit_run op s :=
  (Spec.run_op (Zd := ZendModel) (Tn := TonicModel) (Tls := TlsModel) (Ep := EndpointModel) (Tk := TokioModel)
     None (fun _ => None) 0%nat wit_clock (fun _ => true) wit_php op s).
Definition wit_did op s := default (AUnit (Zd := ZendModel), s) (wit_run op s).
Definition wit_next_script (s : CallSt (Zd := ZendModel) (Ep := EndpointModel) (Tk := TokioModel)) script :=
  MkCS (cs_call s) (set_script (cs_w s) script).

Lemma wit_did_run op s : bool_decide (is_Some (wit_run op s)) = true -> wit_run op s = Some ((wit_did op s).1, (wit_did op s).2).
Proof. intros H. rewrite <- surjective_pairing. by apply run_default. Qed.

Abbreviation wit_session :=
  (session (Zd := ZendModel) (Tn := TonicModel) (Tls := TlsModel) (Ep := EndpointModel) (Tk := TokioModel)
     None (fun _ => None) 0%nat wit_clock (fun _ => true) wit_php wit_bidi_start).

Lemma wit_session_op evs ops answers s script op x :
  wit_session evs ops answers s -> x = wit_did op (wit_next_script s script) ->
  bool_decide (is_Some (wit_run op (wit_next_script s script))) = true ->
  wit_session (evs ++ consumed (wit_next_script s script) x.2) (ops ++ [op]) (answers ++ [x.1]) x.2.
Proof.
  intros Hs -> Hr. eapply se_op; [|by apply wit_did_run]. destruct s as [c w]. by apply se_script.
Qed.

Definition wit_op1 : ClientOp (Zd := ZendModel) := DoBatch (Zd := ZendModel) [(AK_Long 1, wit_msg)].
Definition wit_op2 : ClientOp (Zd := ZendModel) := DoBatch (Zd := ZendModel) [(AK_Long 4, ZvBool true); (AK_Long 5, ZvBool true)].
Definition wit_op3 : ClientOp (Zd := ZendModel) :=
  DoBatch (Zd := ZendModel) [(AK_Long 1, wit_msg); (AK_Long 2, ZvBool true); (AK_Long 6, ZvBool true)].
Definition wit_events2 : list (Event (Tn := TonicModel)) :=
  [EvReady (Tn := TonicModel) (Ok tt); EvPull; EvResponse (Tn := TonicModel) (Ok [KV_Ascii "k" "v"]);
   EvMessage (Tn := TonicModel) (Ok (Some [x01]))].
Definition wit_events3 : list (Event (Tn := TonicModel)) :=
  [EvPull; EvMessage (Tn := TonicModel) (Ok None); EvTrailers (Tn := TonicModel) (Ok None)].
Definition wit_se1 := (wit_did wit_op1 (wit_next_script wit_bidi_start [])).
Definition wit_se2 := (wit_did wit_op2 (wit_next_script wit_se1.2 wit_events2)).
Definition wit_se3 := (wit_did wit_op3 (wit_next_script wit_se2.2 wit_events3)).
Definition wit_se4 := (wit_did wit_op2 (wit_next_script wit_se3.2 [])).

Lemma session_refines_witness :
  exists evs rp sp r,
    spec_run (Zd := ZendModel) wit_clock i64_max rp (EvReqDrop ∈ evs \/ rpc_done rp = true)
      [wit_op1; wit_op2; wit_op3; wit_op2] (spec_init true false) [wit_se1.1; wit_se2.1; wit_se3.1; wit_se4.1] sp
    /\ omap item_message (rp_items rp) = omap message_of evs
    /\ w_wire (cs_w wit_se4.2) = Some r /\ wr_pulled r `prefix_of` sp_sent sp.
Proof.
  assert (H1 := wit_session_op [] [] [] wit_bidi_start [] wit_op1 wit_se1 (se_open _ _ _ _ _ _ wit_bidi_start)
    ltac:(unfold wit_se1; reflexivity) ltac:(vm_compute; reflexivity)).
  assert (H2 := wit_session_op _ _ _ wit_se1.2 wit_events2 wit_op2 wit_se2 H1
    ltac:(unfold wit_se2; reflexivity) ltac:(vm_compute; reflexivity)).
  assert (H3 := wit_session_op _ _ _ wit_se2.2 wit_events3 wit_op3 wit_se3 H2
    ltac:(unfold wit_se3; reflexivity) ltac:(vm_compute; reflexivity)).
  assert (H4 := wit_session_op _ _ _ wit_se3.2 [] wit_op2 wit_se4 H3
    ltac:(unfold wit_se4; reflexivity) ltac:(vm_compute; reflexivity)).
  assert (Hop : opens (Zd := ZendModel) (Tk := TokioModel) None (fun _ => None) 0%nat wit_clock
                  (wit_state i64_max []) wit_bidi_start).
  { apply (opens_bidi _ _ _ _ _ [] []). refine (run_fst (start_bidi_stream _ _ _ _ _ _ _) _ _). vm_compute. reflexivity. }
  destruct (session_refines (Zd := ZendModel) (Tk := TokioModel) None (fun _ => None) 0%nat wit_clock (fun _ => true) wit_php
    (wit_state i64_max []) wit_bidi_start (MkStream true None true None true) _ _ _ _ Hop eq_refl eq_refl eq_refl eq_refl eq_refl H4)
    as (rp & sp & r & _ & Hsp & Hm & Hr & Hp & _).
  eexists _, rp, sp, r. split; [exact Hsp|]. split; [exact Hm|]. split; [exact Hr|exact Hp].
Defined.
