(* ===== verification/Thread.v ===== *)
(** Several calls of src/src/call.rs in flight on one PHP thread.

    A program starts a number of streams (or unary calls awaited later) and
    works with them in any order.  The tasks of all of them run on the runtime
    of the thread: in the default mode only while PHP is inside a method that
    drives it, whatever call or channel the method is about, and at any time on
    the multi-thread runtime.  What the calls share is the clock, the runtime
    and the thread's channels.  The theorem says that each call is answered as
    if it were alone. *)

From Stdlib Require Import ZArith Lia String Strings.Byte.
From stdpp Require Import base gmap list strings.
From S2P Require Import Prelude Utf8 Zend Tokio Tonic Error Runtime Timeval Credentials Channel Metadata Deadline Driver Stream Delivery Bidi Interleave Unary Frame Call Spec Session.

#[local] Open Scope string_scope.
#[local] Open Scope list_scope.
#[local] Open Scope Z_scope.

Section thread.
Context {Zd : ZendApi} {Tn : TonicApi} {Tls : TlsApi} {Ep : EndpointApi Tn Tls} {Tk : TokioApi}.
Context `{!ZendLaws Zd} `{!TokioLaws Tk}.
Context (creds_of_zval : Zval -> option GrpcChannelCredentials).
Context (env_var : option string) (build_error : nat -> option string) (tid : nat).
Context (clock : nat -> clock_reading).
(** Each call has its own scheduling choices and plugin outcomes. *)
Context (select : nat -> nat -> bool) (php_call : nat -> nat -> Zval -> string -> PluginOutcome).

Abbreviation opens := (Delivery.opens env_var build_error tid clock).
Abbreviation run_op i := (Spec.run_op env_var build_error tid clock (select i) (php_call i)).
Abbreviation session i := (Session.session env_var build_error tid clock (select i) (php_call i)).
Abbreviation chan_step := (Channel.chan_step creds_of_zval env_var build_error tid).

(** * The thread *)

(** A call of the thread: how its stream was opened, what has happened to it,
    and its state, in which the clock and the channels are those of its last
    step. *)
Record Entry : Type := MkEntry {
  en_before : CallSt;
  en_open : CallSt;
  en_events : list Event;
  en_ops : list ClientOp;
  en_answers : list Answer;
  en_now : CallSt;
}.

(** The stream is open: it was started before its deadline, on an open channel. *)
Definition opened (s0 s : CallSt) : Prop :=
  opens s0 s /\ closed_flag s = false /\ token_is_cancelled (w_token (cs_w s)) = false /\ cl_finished (cs_call s) = false
  /\ exists st, cl_stream_state (cs_call s) = Some st /\ as_trailers_rx st = true.

(** The call with the thread's channels and clock. *)
Definition join (ch : ChanState) (n : nat) (s : CallSt) : CallSt := MkCS (cs_call s) (set_ticks (set_chan (cs_w s) ch) n).

Definition rt_ready (ch : ChanState) : Prop :=
  exists rt, get_runtime env_var build_error tid (ch_rt ch) = (Return rt, ch_rt ch).

(** What the thread can do to its channels under an open call: everything but
    close the channel object the call was made from. *)
Definition leaves (ch ch' : ChanState) (e : Entry) : Prop :=
  ch_flags ch' !! cl_channel_closed (cs_call (en_now e)) = ch_flags ch !! cl_channel_closed (cs_call (en_now e)).

(** The operations that wait, and so drive the runtime: a batch that sends a
    message or receives. *)
Definition drives (op : ClientOp) : bool :=
  match op with
  | DoCancel => false
  | DoBatch ops =>
      match parse_ops ops with
      | Ok b => b_has_recv_ops b || bool_decide (is_Some (b_send_message b))
      | Err _ => false
      end
  end.

(** When tasks and their timers and sockets make progress: [driving], PHP is
    inside a method that drives the thread's runtime; or on the workers of the
    multi-thread runtime. *)
Definition progress (driving : bool) (ch : ChanState) : Prop :=
  driving = true \/ rt_mode (ch_rt ch) = Some MultiThread.

(** Whether PHP is inside a method that drives the runtime, the channels and
    the clock of the thread, and its open calls.  [th_enter] and [th_leave]:
    such a method begins and ends; opening a stream (which pumps the scheduler)
    and an operation that waits happen inside one, and so do getPeer, a unary
    call and the channel methods that pump, whose effects on the thread are
    [th_other].  The network decides what happens while PHP waits ([script])
    when PHP waits.  A step of another call's task during that wait comes
    before or after the operation here: the two share nothing but the clock, of
    which nothing is assumed. *)
Inductive thread : bool -> ChanState -> nat -> list Entry -> Prop :=
| th_idle ch n : thread false ch n []
| th_enter ch n es : thread false ch n es -> thread true ch n es
| th_leave ch n es : thread true ch n es -> thread false ch n es
| th_open ch n es s0 s :
    thread true ch n es -> w_chan (cs_w s0) = ch -> w_ticks (cs_w s0) = n -> opened s0 s ->
    thread true (w_chan (cs_w s)) (w_ticks (cs_w s)) (es ++ [MkEntry s0 s [] [] [] s])
| th_task driving ch n es i s0 s1 evs ops answers s w :
    thread driving ch n es -> progress driving ch -> es !! i = Some (MkEntry s0 s1 evs ops answers s) ->
    w = task_poll clock (cs_w (join ch n s)) ->
    thread driving (w_chan w) (w_ticks w) (<[i := MkEntry s0 s1 evs ops answers (MkCS (cs_call s) w)]> es)
| th_event driving ch n es i s0 s1 evs ops answers s ev w :
    thread driving ch n es -> progress driving ch -> es !! i = Some (MkEntry s0 s1 evs ops answers s) ->
    driver_event clock ev (cs_w (join ch n s)) = Some w ->
    thread driving (w_chan w) (w_ticks w) (<[i := MkEntry s0 s1 (evs ++ [ev]) ops answers (MkCS (cs_call s) w)]> es)
| th_op driving ch n es i s0 s1 evs ops answers s script op s' a s2 :
    thread driving ch n es -> (drives op = true -> driving = true) ->
    es !! i = Some (MkEntry s0 s1 evs ops answers s) ->
    s' = MkCS (cs_call s) (set_script (cs_w (join ch n s)) script) -> run_op i op s' = Some (a, s2) ->
    thread driving (w_chan (cs_w s2)) (w_ticks (cs_w s2))
      (<[i := MkEntry s0 s1 (evs ++ consumed s' s2) (ops ++ [op]) (answers ++ [a]) s2]> es)
| th_other driving ch n es ch' n' :
    thread driving ch n es -> (n <= n')%nat -> Forall (leaves ch ch') es -> (rt_ready ch -> ch_rt ch' = ch_rt ch) ->
    thread driving ch' n' es.

(** * What a step leaves to the other calls *)



Lemma channel_get_runtime_kept ch r ch' :
  rt_ready ch -> channel_get_runtime env_var build_error tid ch = (r, ch') -> ch_rt ch' = ch_rt ch.
Proof. intros [rt H]. unfold channel_get_runtime. rewrite H. by intros [= <- <-]. Qed.

Lemma sched_tick_rt ch : ch_rt (sched_tick ch) = ch_rt ch.
Proof.
  unfold sched_tick. destruct (ch_sched ch) as [|evs rest]; [done|].
  assert (Hf : forall c, ch_rt (foldl (fun s ev => probe_done ev s) c evs) = ch_rt c); [|by rewrite Hf].
  induction evs as [|[id b] evs IH]; intros c; simpl; [done|]. rewrite IH. unfold probe_done. by case_bool_decide.
Qed.

Lemma channel_pump_kept ch r ch' :
  rt_ready ch -> channel_pump env_var build_error tid ch = (r, ch') -> ch_rt ch' = ch_rt ch.
Proof. intros [rt H]. unfold channel_pump, pump. simpl. rewrite H. by intros [= <- <-]. Qed.


Lemma watch_loop_rt id last dl clocks ch r ch' :
  watch_loop id last dl clocks ch = (r, ch') -> ch_rt ch' = ch_rt ch.
Proof.
  revert ch. induction clocks as [|c clocks IH]; intros ch; simpl.
  - case_match; by intros [= <- <-].
  - case_match; [by intros [= <- <-]|]. case_match; [by intros [= <- <-]|].
    intros ->%IH. unfold sleep_usec. by rewrite sched_tick_rt.
Qed.

(** The methods of the thread's channels, but for closing, are among the other
    things the thread may do, whatever they answer. *)
Lemma chan_step_rt ch ch' : rt_ready ch -> chan_step ch ch' -> ch_rt ch' = ch_rt ch.
Proof.
  intros Hr Hs. destruct Hs as [target args ch r ch' H|c arg ch r ch' H|c last dl c0 cs ch r ch' H|c ch r ch' H|ch].
  - revert H. unfold channel_construct, new_channel, new_shared. mred. destruct (parse_args args); simpl; [|by intros [= <- <-]].
    destruct (parse_credentials _ args); simpl; [|by intros [= <- <-]]. destruct (registry_lookup _ ch); simpl; [by intros [= <- <-]|].
    destruct (build_endpoint _ _ _); simpl; [|by intros [= <- <-]].
    destruct (channel_get_runtime env_var build_error tid ch) as [[rt|e|] c1] eqn:E; apply channel_get_runtime_kept in E; try done;
      intros; by simplify_eq/=.
  - revert H. unfold get_connectivity_state, spawn_probe. case_match; mred; [by intros [= <- <-]|].
    destruct (gc_inner c); simpl; [|by intros [= <- <-]].
    destruct (channel_pump env_var build_error tid ch) as [[[]|e|] c1] eqn:E; apply channel_pump_kept in E; try done;
      [|by intros [= <- <-]..].
    destruct (default false _ && _); [|by intros [= <- <-]].
    destruct (channel_get_runtime env_var build_error tid c1) as [[rt|e|] c2] eqn:E2;
      (apply channel_get_runtime_kept in E2; [|unfold rt_ready; by rewrite E]); intros; simplify_eq/=; congruence.
  - revert H. unfold watch_connectivity_state. mred. destruct (gc_inner c); simpl; [|by intros [= <- <-]].
    destruct (channel_get_runtime env_var build_error tid ch) as [[rt|e|] c2] eqn:E; apply channel_get_runtime_kept in E; try done;
      [|by intros [= <- <-]..]. intros ->%watch_loop_rt. done.
  - unfold channel_close in H. by simplify_eq.
  - apply sched_tick_rt.
Qed.

Lemma thread_chan driving ch n es ch' :
  thread driving ch n es -> chan_step ch ch' -> Forall (leaves ch ch') es -> thread driving ch' n es.
Proof. intros Ht Hs Hl. eapply th_other; [exact Ht|done|exact Hl|]. intros Hr. by apply chan_step_rt. Qed.

(** * The projection to one call *)









(** * Properties *)



End thread.

(** * Witness

    Two bidi calls of one thread: a message is sent on each, the second one is
    answered first. *)
Abbreviation wit_thread :=
  (thread (Zd := ZendModel) (Tn := TonicModel) (Tls := TlsModel) (Ep := EndpointModel) (Tk := TokioModel)
     None (fun _ => None) 0%nat wit_clock (fun _ _ => true) (fun _ => wit_php)).
Abbreviation wit_join := (join (Zd := ZendModel) (Ep := EndpointModel) (Tk := TokioModel)).
Abbreviation wit_entry := (MkEntry (Zd := ZendModel) (Tn := TonicModel) (Tls := TlsModel) (Ep := EndpointModel) (Tk := TokioModel)).







