(* ===== verification/Server.v ===== *)
(** The test server of the repository, tests/server/src/main.rs, and a client
    of the extension talking to it.

    The handlers of [TestServiceImpl] are functions of the request; the two
    that answer a stream spawn a task that feeds a bounded channel, modelled as
    a step relation.  The messages prost generates from proto/test.proto, the
    constructors of tonic's [Status] and the http request are an interface
    ([ServerApi]).  The theorem puts the bidi echo behind a call of the
    extension: a PHP program reads back what it sent. *)

From Stdlib Require Import ZArith Lia Ascii String Strings.Byte Sorted OrderedTypeEx.
From stdpp Require Import base gmap list strings.
From S2P Require Import Prelude Utf8 Zend Tokio Tonic Error Runtime Timeval Credentials Channel Metadata Deadline Driver Stream Delivery Bidi Interleave Unary Frame Call Spec Session.

#[local] Open Scope string_scope.
#[local] Open Scope list_scope.
#[local] Open Scope Z_scope.

(** [Payload] is its body; encoding a message and decoding it is the identity,
    and a status shows what it was made of. *)
Class ServerApi (Tn : TonicApi) := {
  payload_encode : bytes -> bytes;
  payload_decode : bytes -> result Status bytes;
  status_with_details : Z -> string -> bytes -> Status;
  status_internal : string -> Status;
  val_as_encoded_bytes : AsciiVal -> bytes;
  bin_error_display : BinVal -> string;
  HttpRequest : Type;
  HeaderValue : Type;
  uri_authority : HttpRequest -> option string;
  header_value_from_str : string -> option HeaderValue;
  headers_insert : HttpRequest -> string -> HeaderValue -> HttpRequest;
  payload_roundtrip b : payload_decode (payload_encode b) = Ok b;
  status_with_details_spec c m d :
    st_code (status_with_details c m d) = c /\ st_message (status_with_details c m d) = m
    /\ st_details (status_with_details c m d) = d;
}.

(** [str::strip_prefix] and [str::parse::<u64>] ([usize] is as wide). *)
Fixpoint strip_prefix (p s : string) : option string :=
  match p, s with
  | EmptyString, _ => Some s
  | String a p', String b s' => if bool_decide (a = b) then strip_prefix p' s' else None
  | String _ _, EmptyString => None
  end.

Definition parse_u64 (s : string) : option Z :=
  let body := match s with String "+" rest => rest | _ => s end in
  match body with
  | EmptyString => None
  | _ => v ← parse_digits 0 body; if v <=? u64_max then Some v else None
  end.

Section server.
Context {Tn : TonicApi} {Sv : ServerApi Tn}.

(** * The unary handlers *)

Record Response (A : Type) : Type := MkResponse { rs_metadata : MetadataMap; rs_message : A }.
Arguments MkResponse {A}.
Arguments rs_metadata {A}.
Arguments rs_message {A}.

(** What a handler does: how long it sleeps, if it does (in milliseconds), and
    what it answers. *)
Record Handled (A : Type) : Type := MkHandled { h_sleep : option Z; h_result : result Status (Response A) }.
Arguments MkHandled {A}.
Arguments h_sleep {A}.
Arguments h_result {A}.

Definition response_new {A} (a : A) : Response A := MkResponse md_default a.

(** The number of a body ["sleep:N"], ["size:N"] or ["repeat:N"]. *)
Definition body_number (prefix : string) (body : bytes) : option Z :=
  s ← from_utf8 body; n ← strip_prefix prefix s; parse_u64 n.

Definition test_binary : bytes := as_bytes "hello" ++ [x00; xff] ++ as_bytes "trailer".
Definition SLOW_ECHO_DELAY : Z := 250.

Definition echo (payload : bytes) : Handled bytes :=
  MkHandled (body_number "sleep:" payload)
    (Ok (MkResponse (md_insert_bin md_default "x-test-binary-bin" (bin_from_bytes test_binary)) payload)).

Definition empty_response (_ : bytes) : Handled unit := MkHandled None (Ok (response_new tt)).

Definition slow_echo (payload : bytes) : Handled bytes :=
  MkHandled (Some SLOW_ECHO_DELAY) (Ok (response_new payload)).

(** A size no allocation can have aborts the server, which is not modelled. *)
Definition large_response (body : bytes) : Handled bytes :=
  let size := default (64 * 1024) (body_number "size:" body) in
  MkHandled None (Ok (response_new (replicate (Z.to_nat size) x42))).

Definition error_response (_ : bytes) : Handled bytes :=
  MkHandled None (Err (status_with_details 13 "test error" test_binary)).

(** [format!("{b:02x}")], over the bytes. *)
Definition hex_digit (n : N) : ascii :=
  ascii_of_N (if (n <? 10)%N then 48 + n else 87 + n)%N.
Definition hex_byte (b : byte) : string :=
  String (hex_digit (Byte.to_N b / 16)) (String (hex_digit (Byte.to_N b mod 16)) "").
Definition hex (b : bytes) : string := foldr String.append "" (hex_byte <$> b).

(** [BTreeMap::entry(k).or_default().push(v)]: the entries in the order of
    their keys. *)
Fixpoint btree_push (k v : string) (m : list (string * list string)) : list (string * list string) :=
  match m with
  | [] => [(k, [v])]
  | (k', vs) :: m' =>
      match String.compare k k' with
      | Lt => (k, [v]) :: m
      | Eq => (k', vs ++ [v]) :: m'
      | Gt => (k', vs) :: btree_push k v m'
      end
  end.

Definition echo_entry (by_key : list (string * list string)) (kv : KeyAndValueRef AsciiVal BinVal)
    : result Status (list (string * list string)) :=
  match kv with
  | KV_Ascii k v => Ok (btree_push k (hex (val_as_encoded_bytes v)) by_key)
  | KV_Binary k v =>
      decoded ← ok_or (bin_to_bytes v) (status_internal ("bad binary metadata: " +:+ bin_error_display v));
      Ok (btree_push k (hex decoded) by_key)
  end.

Definition echo_line (kv : string * list string) : string := kv.1 +:+ ":" +:+ str_join "," kv.2 +:+ String "010" "".

Definition echo_metadata (metadata : MetadataMap) : Handled bytes :=
  MkHandled None
    (by_key ← try_fold echo_entry [] (md_iter metadata);
     Ok (response_new (as_bytes (foldr String.append "" (echo_line <$> by_key))))).

(** The request stream of a handler is what [stream.next()] yields until the
    end. *)
Definition collect_payloads (stream : list (result Status bytes)) : Handled bytes :=
  MkHandled None
    (collected ← try_fold (fun collected payload => body ← payload; Ok (collected ++ body)) [] stream;
     Ok (response_new collected)).

(** Copy the authority of the request into a header. *)
Definition inject_authority (req : HttpRequest) : HttpRequest :=
  match header_value_from_str (default "" (uri_authority req)) with
  | Some value => headers_insert req "x-seen-authority" value
  | None => req
  end.

(** ** The sorted map *)

Definition str_lt (k k' : string) : Prop := String.compare k k' = Lt.

Lemma str_lt_trans k1 k2 k3 : str_lt k1 k2 -> str_lt k2 k3 -> str_lt k1 k3.
Proof. unfold str_lt. rewrite !String_as_OT.cmp_lt. apply String_as_OT.lt_trans. Qed.

Lemma str_lt_ne k k' : str_lt k k' -> k' <> k.
Proof. intros H ->. by apply String_as_OT.cmp_lt, String_as_OT.lt_not_eq in H. Qed.

Lemma values_of_above {A} k (m : list (string * A)) : Forall (str_lt k) m.*1 -> values_of k m = [].
Proof. intros H. apply values_of_notin. intros Hk. rewrite Forall_forall in H. by apply (str_lt_ne k k (H k Hk)). Qed.

Lemma btree_push_keys k v m (P : string -> Prop) : P k -> Forall P m.*1 -> Forall P (btree_push k v m).*1.
Proof.
  induction m as [|[k' vs] m IH]; simpl; intros Hk H; [by constructor|]. inversion H; subst.
  destruct (String.compare k k'); constructor; auto.
Qed.

Lemma btree_push_sorted k v m : StronglySorted str_lt m.*1 -> StronglySorted str_lt (btree_push k v m).*1.
Proof.
  induction m as [|[k' vs] m IH]; simpl; intros H; [by repeat constructor|]. inversion H as [|? ? Hs Hf]; subst.
  destruct (String.compare k k') eqn:E; simpl; [done|constructor; [done|]|constructor; [by apply IH|]].
  - constructor; [done|]. eapply Forall_impl; [exact Hf|]. intros k2. by apply str_lt_trans.
  - apply btree_push_keys; [|done]. unfold str_lt. by rewrite String.compare_antisym, E.
Qed.

Lemma btree_push_values k v m k' :
  StronglySorted str_lt m.*1 ->
  values_of k' (btree_push k v m) = if bool_decide (k = k') then [default [] (head (values_of k m)) ++ [v]] else values_of k' m.
Proof.
  induction m as [|[k0 vs] m IH]; simpl; intros H.
  { case_bool_decide; [by subst|done]. }
  inversion H as [|? ? Hs Hf]; subst. destruct (String.compare k k0) eqn:E; csimpl.
  - apply String.compare_eq_iff in E as ->. case_bool_decide; csimpl; [subst|done].
    by rewrite bool_decide_true, (values_of_above k') by done.
  - assert (Hm : Forall (str_lt k) (k0 :: m.*1)).
    { constructor; [done|]. eapply Forall_impl; [exact Hf|]. intros k2. by apply str_lt_trans. }
    pose proof (values_of_above k ((k0, vs) :: m) Hm) as Hv. csimpl in Hv. rewrite Hv.
    destruct (decide (k = k')) as [<-|Hne]; [by rewrite !(bool_decide_true (k = k)), Hv by done|by rewrite !(bool_decide_false (k = k'))].
  - assert (k0 <> k) by (intros ->; pose proof (String.compare_antisym k k) as Hc; by rewrite E in Hc).
    rewrite (bool_decide_false (k0 = k)), IH by done. repeat case_bool_decide; congruence.
Qed.

(** One entry of the request as [echo_metadata] shows it. *)
Definition echo_value (kv : KeyAndValueRef AsciiVal BinVal) : option (string * string) :=
  match kv with
  | KV_Ascii k v => Some (k, hex (val_as_encoded_bytes v))
  | KV_Binary k v => (fun d => (k, hex d)) <$> bin_to_bytes v
  end.

Definition one_group {A} (vs : list A) : list (list A) := match vs with [] => [] | _ => [vs] end.

Lemma echo_entry_group l by_key :
  try_fold echo_entry [] l = Ok by_key ->
  StronglySorted str_lt by_key.*1 /\ forall k, values_of k by_key = one_group (values_of k (omap echo_value l)).
Proof.
  revert by_key. induction l as [|kv l IH] using rev_ind; intros by_key.
  - intros [= <-]. split; [constructor|done].
  - rewrite try_fold_app. destruct (try_fold echo_entry [] l) as [m|e]; [|done]. destruct (IH m eq_refl) as [Hs Hv].
    intros H. assert (Hk : exists k v, echo_value kv = Some (k, v) /\ by_key = btree_push k v m).
    { revert H. destruct kv as [k v|k v]; simpl; [|destruct (bin_to_bytes v); simpl; [|done]]; intros [= <-]; eauto. }
    destruct Hk as (k & v & Hkv & ->). split; [by apply btree_push_sorted|]. intros k'.
    rewrite btree_push_values, omap_app, values_of_app, !Hv by done. csimpl. rewrite Hkv. csimpl.
    case_bool_decide; [subst|by rewrite app_nil_r]. by destruct (values_of k' (omap echo_value l)).
Qed.

Lemma echo_entry_ok l by_key0 :
  Forall (fun kv => is_Some (echo_value kv)) l -> exists by_key, try_fold echo_entry by_key0 l = Ok by_key.
Proof.
  intros H. revert by_key0. induction H as [|kv l Hkv _ IH]; intros m; simpl; [eauto|].
  destruct kv as [k v|k v]; simpl in *; [apply IH|]. destruct (bin_to_bytes v); simpl in *; [apply IH|by destruct Hkv].
Qed.

Lemma echo_values_ascii k l :
  binary_at k l = [] -> values_of k (omap echo_value l) = (fun v => hex (val_as_encoded_bytes v)) <$> ascii_at k l.
Proof.
  unfold binary_at, ascii_at. induction l as [|[k' v|k' v] l IH]; csimpl; [done| |].
  - intros H. case_bool_decide; csimpl; by rewrite IH.
  - case_bool_decide; [done|]. intros Hb. destruct (bin_to_bytes v); csimpl; [rewrite bool_decide_false by done|]; by apply IH.
Qed.

(** C26: what a client finds out with EchoMetadata is what it sent: whatever other
    headers the transport adds, the handler answers one line per key, the keys
    in increasing order, and the line of a key the request carried shows the
    one value tonic was given for it, the last acceptable one of the caller's
    pairs followed by the plugin's (so a key with several values sends only the
    last, and no -bin pair is ever sent); there is no line for a key without
    an acceptable value. *)
Theorem echo_metadata_shows_request `{!TonicLaws Tn} (m : MetadataMap) (send plugin : list (string * string)) (k : string) :
  Forall (fun kv => is_Some (echo_value kv)) (md_iter m) ->
  ascii_at k (md_iter m) = ascii_at k (md_iter (apply_metadata send plugin)) ->
  binary_at k (md_iter m) = binary_at k (md_iter (apply_metadata send plugin)) ->
  exists by_key,
    echo_metadata m = MkHandled None (Ok (response_new (as_bytes (foldr String.append "" (echo_line <$> by_key)))))
    /\ StronglySorted str_lt by_key.*1
    /\ values_of k by_key
       = match last (Metadata.accepted k (send ++ plugin)) with Some v => [[hex (val_as_encoded_bytes v)]] | None => [] end.
Proof.
  intros Hd Ha Hb. destruct (request_metadata_last send plugin k) as [Hl Hn]. rewrite Hl in Ha. rewrite Hn in Hb.
  destruct (echo_entry_ok _ [] Hd) as [by_key Hk]. exists by_key. unfold echo_metadata. rewrite Hk.
  destruct (echo_entry_group _ _ Hk) as [Hs Hv]. split_and!; [done|done|].
  rewrite Hv, echo_values_ascii, Ha by done. by destruct (last _).
Qed.

(** * The streaming handlers *)
Section tasks.
Context {Tk : TokioApi}.

Definition stream_items (payload : bytes) : list (result Status bytes) :=
  if bool_decide (payload = as_bytes "stream-status-error")
  then [Err (status_with_details 13 "stream test error" test_binary)]
  else match body_number "repeat:" payload with
       | Some n => replicate (Z.to_nat n) (Ok (as_bytes "x"))
       | None => replicate 3 (Ok payload)
       end.

(** One poll of the task of [stream_echo], from what it has still to send;
    [None]: the task returned. *)
Fixpoint stream_task (todo : list (result Status bytes)) (tx : mpsc (result Status bytes))
    : option (list (result Status bytes)) * mpsc (result Status bytes) :=
  match todo with
  | [] => (None, mpsc_drop_tx tx)
  | item :: rest =>
      match mpsc_send tx item with
      | SendOk tx => stream_task rest tx
      | SendPending => (Some todo, tx)
      | SendClosed => (None, mpsc_drop_tx tx)
      end
  end.

Definition stream_echo (payload : bytes)
    : list (result Status bytes) * Handled (mpsc (result Status bytes)) :=
  (stream_items payload, MkHandled None (Ok (response_new (mpsc_channel 4)))).

(** The task of [bidi_echo] awaits the next request or room for an item. *)
Inductive BidiPc : Type := BNext | BSend (item : result Status bytes) | BDone.

(** A [tx.send(..).await] with its [break]s. *)
Definition bidi_send (item : result Status bytes) (tx : mpsc (result Status bytes)) : BidiPc * mpsc (result Status bytes) :=
  match mpsc_send tx item with
  | SendOk tx => match item with Ok _ => (BNext, tx) | Err _ => (BDone, mpsc_drop_tx tx) end
  | SendPending => (BSend item, tx)
  | SendClosed => (BDone, mpsc_drop_tx tx)
  end.

(** [stream.next()] yields. *)
Definition bidi_next (x : option (result Status bytes)) (tx : mpsc (result Status bytes)) : BidiPc * mpsc (result Status bytes) :=
  match x with
  | Some item => bidi_send item tx
  | None => (BDone, mpsc_drop_tx tx)
  end.

Definition bidi_echo : BidiPc * Handled (mpsc (result Status bytes)) :=
  (BNext, MkHandled None (Ok (response_new (mpsc_channel 4)))).

(** ** The bidi echo as a process

    The requests its stream yielded, the program point, the channel, and the
    items tonic took from the response stream. *)
Record EchoSt : Type := MkEcho {
  ec_reqs : list (result Status bytes);
  ec_pc : BidiPc;
  ec_tx : mpsc (result Status bytes);
  ec_out : list (result Status bytes);
}.

Definition echo_start (e : EchoSt) : Prop :=
  ec_reqs e = [] /\ ec_out e = [] /\ ec_pc e = (bidi_echo).1
  /\ h_result (bidi_echo).2 = Ok (response_new (ec_tx e)).

(** The request stream yields or ends, the task is polled again, tonic takes an
    item, or drops the response stream. *)
Inductive echo_step : EchoSt -> EchoSt -> Prop :=
| ec_next x reqs tx out :
    echo_step (MkEcho reqs BNext tx out) (let '(pc, tx) := bidi_next x tx in MkEcho (reqs ++ option_list x) pc tx out)
| ec_poll item reqs tx out :
    echo_step (MkEcho reqs (BSend item) tx out) (let '(pc, tx) := bidi_send item tx in MkEcho reqs pc tx out)
| ec_take item reqs pc tx tx' out :
    mpsc_recv tx = RecvItem item tx' -> echo_step (MkEcho reqs pc tx out) (MkEcho reqs pc tx' (out ++ [item]))
| ec_drop reqs pc tx out : echo_step (MkEcho reqs pc tx out) (MkEcho reqs pc (mpsc_drop_rx tx) out).

Definition echo_run (e : EchoSt) : Prop := exists e0, echo_start e0 /\ rtc echo_step e0 e.

Context `{!TokioLaws Tk}.

Definition echo_pending (pc : BidiPc) : list (result Status bytes) := match pc with BSend item => [item] | _ => [] end.

(** Nothing is lost, reordered or made up between the request stream and the
    response stream while tonic holds the latter. *)
Record echo_inv (e : EchoSt) : Prop := {
  ei_prefix : ec_out e `prefix_of` ec_reqs e;
  ei_cap : mv_cap (mpsc_view (ec_tx e)) = 4%nat;
  ei_bound : (length (mv_queue (mpsc_view (ec_tx e))) <= 4)%nat;
  ei_tx : mv_tx (mpsc_view (ec_tx e)) = negb (if ec_pc e is BDone then true else false);
  ei_gone : mv_rx (mpsc_view (ec_tx e)) = false -> mv_queue (mpsc_view (ec_tx e)) = [];
  ei_order : mv_rx (mpsc_view (ec_tx e)) = true ->
    ec_out e ++ mv_queue (mpsc_view (ec_tx e)) ++ echo_pending (ec_pc e) = ec_reqs e;
}.

Lemma bidi_send_inv item reqs tx out :
  echo_inv (MkEcho reqs (BSend item) tx out) ->
  echo_inv (let '(pc, tx) := bidi_send item tx in MkEcho reqs pc tx out).
Proof.
  intros Hi. pose proof Hi as [Hp Hc Hl Ht Hg Hq]. simpl in *. unfold bidi_send. pose proof (mpsc_send_law _ tx item) as Hs.
  destruct (mpsc_send tx item) as [tx'| |]; simpl in Hs; [|exact Hi|].
  - destruct Hs as (Hrx & Hlen & Hv). specialize (Hq Hrx).
    destruct item; split; simpl; rewrite ?mpsc_drop_tx_view, ?Hv; simpl; rewrite ?length_app, ?app_nil_r; simpl;
      first [done|lia|congruence].
  - split; simpl; rewrite ?mpsc_drop_tx_view; simpl; first [done|congruence].
Qed.

Lemma echo_step_inv e e' : echo_step e e' -> echo_inv e -> echo_inv e'.
Proof.
  intros [x reqs tx out|item reqs tx out|item reqs pc tx tx' out Hr|reqs pc tx out] Hi; [| | |]; pose proof Hi as [Hp Hc Hl Ht Hg Hq]; simpl in *.
  - destruct x as [item|]; simpl.
    + apply bidi_send_inv. split; simpl; try done; [by apply prefix_app_r|].
      intros H. specialize (Hq H). rewrite app_nil_r in Hq. by rewrite app_assoc, Hq.
    + split; simpl; rewrite ?mpsc_drop_tx_view, ?app_nil_r in *; done.
  - by apply bidi_send_inv.
  - pose proof (mpsc_recv_law _ tx) as Hl'. rewrite Hr in Hl'. destruct Hl' as (q & Hqu & Hv). rewrite Hqu in *.
    destruct (mv_rx (mpsc_view tx)) eqn:Erx; [|by specialize (Hg eq_refl)]. specialize (Hq eq_refl).
    split; simpl; rewrite ?Hv; simpl; try done; [|simpl in Hl; lia|congruence|].
    + rewrite <- Hq. exists (q ++ echo_pending pc). by rewrite <- app_assoc.
    + intros _. rewrite <- Hq. by rewrite <- !app_assoc.
  - split; simpl; rewrite ?mpsc_drop_rx_view; simpl; first [done|lia|congruence].
Qed.

Lemma echo_run_inv e : echo_run e -> echo_inv e.
Proof.
  intros (e0 & (Hr & Ho & Hpc & Htx) & Hrun). simpl in *. injection Htx as Htx. assert (Hi : echo_inv e0).
  { split; rewrite ?Hr, ?Ho, ?Hpc, <- ?Htx, ?mpsc_channel_view; simpl; first [done|lia]. }
  clear Hr Ho Hpc Htx. induction Hrun as [|x y z Hs _ IH]; [done|]. apply IH. by eapply echo_step_inv.
Qed.

(** Once the channel is closed and drained, every request was answered. *)
Lemma echo_run_complete e :
  echo_run e -> mv_rx (mpsc_view (ec_tx e)) = true -> mpsc_recv (ec_tx e) = RecvClosed -> ec_out e = ec_reqs e.
Proof.
  intros Hi%echo_run_inv Hrx Hc. destruct Hi as [_ _ _ Ht _ Hq]. pose proof (mpsc_recv_law _ (ec_tx e)) as Hl.
  rewrite Hc in Hl. destruct Hl as [Hqe Hf]. rewrite <- (Hq Hrx), Hqe.
  destruct (ec_pc e); simpl in *; [congruence..|]. by rewrite app_nil_r.
Qed.

End tasks.
End server.

Arguments h_sleep {Tn A}.
Arguments h_result {Tn A}.
Arguments rs_metadata {Tn A}.
Arguments rs_message {Tn A}.

(** * A client of the extension and the bidi echo *)
Section end_to_end.
Context {Zd : ZendApi} {Tn : TonicApi} {Tls : TlsApi} {Ep : EndpointApi Tn Tls} {Tk : TokioApi} {Sv : ServerApi Tn}.
Context `{!ZendLaws Zd} `{!TokioLaws Tk}.
Context (env_var : option string) (build_error : nat -> option string) (tid : nat).
Context (clock : nat -> clock_reading) (select : nat -> bool).
Context (php_call : nat -> Zval -> string -> PluginOutcome).

(** The connection: the server's request stream yields the messages tonic
    pulled on the client's side, decoded, the first [n] of them so far, and
    possibly errors after them; the client's response stream yields what tonic
    took of the server's, encoded. *)
Definition carries (pulled : list bytes) (e : EchoSt) (evs : list Event) (n : nat) : Prop :=
  (exists errors : list Status, ec_reqs e = (payload_decode <$> take n pulled) ++ (Err <$> errors))
  /\ omap message_of evs `prefix_of` (payload_encode <$> omap result_ok (ec_out e)).

(** The connection carried everything: the server finished and its response
    stream was taken and delivered to the end. *)
Definition carried_all (r : Wire) (e : EchoSt) (evs : list Event) (n : nat) : Prop :=
  wr_req_ended r = true /\ (length (wr_pulled r) <= n)%nat
  /\ mv_rx (mpsc_view (ec_tx e)) = true /\ mpsc_recv (ec_tx e) = RecvClosed
  /\ omap message_of evs = payload_encode <$> omap result_ok (ec_out e).

Definition is_payload (m : bytes) : Prop := exists body, m = payload_encode body.

(** Decoding requests and encoding them back. *)
Lemma payloads_back (ms : list bytes) (errs : list Status) :
  Forall is_payload ms -> payload_encode <$> omap result_ok ((payload_decode <$> ms) ++ (Err <$> errs)) = ms.
Proof.
  intros H. rewrite omap_app, fmap_app. assert (omap result_ok (Err (A := bytes) <$> errs) = []) as ->
    by (induction errs; csimpl; done).
  rewrite app_nil_r. induction H as [|m ms [body ->] _ IH]; [done|]. csimpl. rewrite payload_roundtrip. csimpl. by rewrite IH.
Qed.

Lemma omap_fmap_prefix {A B C} (f : A -> option B) (g : B -> C) (l1 l2 : list A) :
  l1 `prefix_of` l2 -> (g <$> omap f l1) `prefix_of` (g <$> omap f l2).
Proof. intros [l ->]. rewrite omap_app, fmap_app. by apply prefix_app_r. Qed.

(** C9: a PHP program that talks to the bidi echo reads back what it sent: in
    every session of the extension with the server, whatever is interleaved,
    buffered or lost with the connection, the values of its reads are, in
    order, a prefix of the messages it was told were sent and then null; and
    all of them once the program has half-closed and the connection has carried
    everything. *)
Theorem bidi_echo_reads_back s0 s st evs ops answers s' r e n :
  opens env_var build_error tid clock s0 s -> cl_stream_state (cs_call s) = Some st -> as_trailers_rx st = true ->
  closed_flag s = false -> token_is_cancelled (w_token (cs_w s)) = false -> cl_finished (cs_call s) = false ->
  session env_var build_error tid clock select php_call s evs ops answers s' -> w_wire (cs_w s') = Some r ->
  echo_run e -> carries (wr_pulled r) e evs n -> Forall is_payload (sent ops answers) ->
  exists echoed, echoed `prefix_of` sent ops answers
    /\ shown answers = take (length (shown answers))
         ((zv_of_bytes <$> echoed) ++ replicate (length (shown answers)) zv_null)
    /\ (carried_all r e evs n -> echoed = sent ops answers).
Proof.
  intros Hop Hst Htr Ho Hc Hf Hse Hr He [[errs Hq] Hm] Hpay.
  destruct (session_seen _ _ _ _ _ _ _ _ _ _ _ _ _ Hop Hst Htr Ho Hc Hf Hse) as (r' & Hr' & Hsh & Hp & Hend).
  rewrite Hr in Hr'. injection Hr' as <-.
  assert (Hpp : Forall is_payload (take n (wr_pulled r))).
  { apply Forall_take. destruct Hp as [l Hl]. rewrite Hl in Hpay. by apply Forall_app in Hpay as [??]. }
  exists (omap message_of evs). split_and!; [|exact Hsh|].
  - etrans; [exact Hm|]. etrans; [apply omap_fmap_prefix, (ei_prefix _ (echo_run_inv _ He))|].
    rewrite Hq, payloads_back by done. etrans; [apply prefix_take|exact Hp].
  - intros (H1 & H2 & H3 & H4 & ->). rewrite (echo_run_complete _ He H3 H4), Hq, payloads_back, take_ge by done. by apply Hend.
Qed.

End end_to_end.

(** * Witness

    One message sent, pulled, echoed and read. *)
#[global, refine] Instance ServerModel : ServerApi TonicModel := {|
  payload_encode b := x09 :: b;
  payload_decode b := match b with x09 :: b => Ok b | _ => Err (MkStatus 13 "failed to decode Protobuf message" [] []) end;
  status_with_details c m d := MkStatus c m d [];
  status_internal m := MkStatus 13 m [] [];
  val_as_encoded_bytes v := as_bytes v;
  bin_error_display _ := "invalid metadata value";
  HttpRequest := option string * list (string * string);
  HeaderValue := string;
  uri_authority r := r.1;
  header_value_from_str s := Some s;
  headers_insert r k v := (r.1, r.2 ++ [(k, v)]);
|}.
Proof. all: done. Defined.

(** A request with a header of the transport beside the program's. *)
Definition wit_request : MetadataMap (TonicApi := TonicModel) := [KV_Ascii "user-agent" "u"; KV_Ascii "k" "v2"].

Lemma echo_metadata_shows_request_witness :
  exists by_key, values_of "k" by_key = [["7632"]]
    /\ h_result (echo_metadata (Sv := ServerModel) wit_request)
       = Ok (response_new (as_bytes (foldr String.append "" (echo_line <$> by_key)))).
Proof.
  destruct (echo_metadata_shows_request (Sv := ServerModel) wit_request [("k", "v1"); ("k", "v2"); ("x-bin", "b")] [] "k")
    as (by_key & He & _ & Hv).
  - repeat constructor; by eexists.
  - reflexivity.
  - reflexivity.
  - exists by_key. split; [rewrite Hv; reflexivity|]. by rewrite He.
Defined.

Definition wit_echo_events : list (Event (Tn := TonicModel)) :=
  [EvReady (Tn := TonicModel) (Ok tt); EvPull; EvResponse (Tn := TonicModel) (Ok []);
   EvMessage (Tn := TonicModel) (Ok (Some [x09]))].
Definition wit_echo_read := (wit_did wit_op2 (wit_next_script wit_se1.2 wit_echo_events)).
Definition wit_echo : EchoSt (Tn := TonicModel) (Tk := TokioModel) :=
  MkEcho (Tn := TonicModel) (Tk := TokioModel) [Ok []] BNext (MkView [] 4 true true) [Ok []].

Lemma wit_echo_run : echo_run wit_echo.
Proof.
  exists (MkEcho (Tn := TonicModel) (Tk := TokioModel) [] BNext (MkView [] 4 true true) []). split; [done|].
  eapply rtc_l; [apply (ec_next (Some (Ok [])))|]. eapply rtc_l; [by apply (ec_take (Ok []))|]. apply rtc_refl.
Defined.

Lemma bidi_echo_reads_back_witness :
  shown (Zd := ZendModel) [wit_se1.1; wit_echo_read.1] = [ZvStr [x09]]
  /\ exists echoed, echoed `prefix_of` sent (Zd := ZendModel) [wit_op1; wit_op2] [wit_se1.1; wit_echo_read.1]
     /\ [ZvStr [x09]] = take 1 ((ZvStr <$> echoed) ++ [ZvNull]).
Proof.
  assert (Hsh : shown (Zd := ZendModel) [wit_se1.1; wit_echo_read.1] = [ZvStr [x09]]) by (vm_compute; reflexivity).
  split; [exact Hsh|].
  assert (H1 := wit_session_op [] [] [] wit_bidi_start [] wit_op1 wit_se1 (se_open _ _ _ _ _ _ wit_bidi_start)
    ltac:(unfold wit_se1; reflexivity) ltac:(vm_compute; reflexivity)).
  assert (H2 := wit_session_op _ _ _ wit_se1.2 wit_echo_events wit_op2 wit_echo_read H1
    ltac:(unfold wit_echo_read; reflexivity) ltac:(vm_compute; reflexivity)).
  assert (Hop : opens (Zd := ZendModel) (Tk := TokioModel) None (fun _ => None) 0%nat wit_clock
                  (wit_state i64_max []) wit_bidi_start).
  { apply (opens_bidi _ _ _ _ _ [] []). refine (run_fst (start_bidi_stream _ _ _ _ _ _ _) _ _). vm_compute. reflexivity. }
  assert (Hpulled : (wr_pulled <$> w_wire (cs_w wit_echo_read.2)) = Some [[x09]]) by (vm_compute; reflexivity).
  destruct (w_wire (cs_w wit_echo_read.2)) as [r|] eqn:Hr; [|discriminate Hpulled]. injection Hpulled as Hpulled.
  destruct (bidi_echo_reads_back (Zd := ZendModel) (Tk := TokioModel) (Sv := ServerModel) None (fun _ => None) 0%nat wit_clock
    (fun _ => true) wit_php (wit_state i64_max []) wit_bidi_start (MkStream true None true None true) _ _ _ _ r wit_echo 1
    Hop eq_refl eq_refl eq_refl eq_refl eq_refl H2 Hr wit_echo_run) as (echoed & Hp & Hs & _).
  - rewrite Hpulled. split; [by exists []|]. vm_compute. by exists [].
  - vm_compute. repeat constructor. by exists [].
  - exists echoed. split; [exact Hp|]. change (([] ++ [wit_se1.1]) ++ [wit_echo_read.1]) with [wit_se1.1; wit_echo_read.1] in Hs.
    rewrite Hsh in Hs. exact Hs.
Defined.
