(* ===== verification/Lifecycle.v ===== *)
(** Channels and calls together: the life of a call among everything a thread
    does.

    A call keeps handles of the channel it was made from: the flag its channel
    object sets when it is closed, and the shared transport whose connectivity
    the call updates.  Here the methods of the call, the methods of every
    [Grpc\Channel] of the thread, the construction of further channels, the
    background task and the network take turns in any order. *)

From Stdlib Require Import ZArith Lia String Strings.Byte.
From stdpp Require Import base gmap list strings.
From S2P Require Import Prelude Utf8 Zend Tokio Tonic Error Runtime Timeval Credentials Channel Metadata Deadline Driver Stream Delivery Bidi Unary Frame Call.

#[local] Open Scope string_scope.
#[local] Open Scope list_scope.
#[local] Open Scope Z_scope.

Section lifecycle.
Context {Zd : ZendApi} {Tn : TonicApi} {Tls : TlsApi} {Ep : EndpointApi Tn Tls} {Tk : TokioApi}.
Context (creds_of_zval : Zval -> option GrpcChannelCredentials).
Context (env_var : option string) (build_error : nat -> option string) (tid : nat).
Context (clock : nat -> clock_reading) (select : nat -> bool).
Context (php_call : nat -> Zval -> string -> PluginOutcome) (lookup_host : string -> option SocketAddr).

Abbreviation call_step := (Call.call_step env_var build_error tid clock select php_call lookup_host).
Abbreviation start_batch := (Call.start_batch env_var build_error tid clock select php_call).
Abbreviation chan_step := (Channel.chan_step creds_of_zval env_var build_error tid).
Abbreviation channel_construct := (Channel.channel_construct creds_of_zval env_var build_error tid).

(** * The system *)

Inductive life_step : CallSt -> CallSt -> Prop :=
| ls_call s s' : call_step s s' -> life_step s s'
| ls_chan c w ch : chan_step (w_chan w) ch -> life_step (MkCS c w) (MkCS c (set_chan w ch))
| ls_task c w : life_step (MkCS c w) (MkCS c (task_poll clock w))
| ls_event c w ev w' : driver_event clock ev w = Some w' -> life_step (MkCS c w) (MkCS c w').

(** The handles of a call are those of existing objects, the transport it
    updates is the one it sends through, and so is its task's. *)
Record call_wf (s : CallSt) : Prop := {
  cw_reg : reg_wf (w_chan (cs_w s));
  cw_flag : (cl_channel_closed (cs_call s) < length (ch_flags (w_chan (cs_w s))))%nat;
  cw_shared : exists id, cl_channel_shared (cs_call s) = Some id
    /\ (sh_channel <$> ch_shared (w_chan (cs_w s))) !! id = Some (cl_channel (cs_call s));
  cw_wire : forall r, w_wire (cs_w s) = Some r ->
    wr_shared r = cl_channel_shared (cs_call s) /\ wr_deadline_usec r = cl_deadline_usec (cs_call s)
    /\ rq_channel (wr_request r) = cl_channel (cs_call s) /\ rq_path (wr_request r) = cl_method (cs_call s);
}.

(** What the steps of a channel never undo. *)
Record chan_le (c c' : ChanState) : Prop := {
  cle_flags : (length (ch_flags c) <= length (ch_flags c'))%nat;
  cle_closed : forall i, ch_flags c !! i = Some true -> ch_flags c' !! i = Some true;
  cle_channels : (sh_channel <$> ch_shared c) `prefix_of` (sh_channel <$> ch_shared c');
}.

#[local] Instance chan_le_preorder : PreOrder chan_le.
Proof. split; [by split|]. intros c1 c2 c3 [] []. split; [lia|auto|by etrans]. Qed.

Lemma state_only_le c c' : state_only c c' -> chan_le c c'.
Proof. intros [_ Hf Hc _ _]. split; rewrite ?Hf, ?Hc; auto. Qed.

Lemma chan_step_le c c' : chan_step c c' -> chan_le c c'.
Proof.
  intros Hs. destruct Hs as [target args c [ch|e|] c' H|???? c' H|??????? c' H|??? c' H|?].
  - apply channel_construct_inv in H
      as (pa & pc & i & _ & _ & _ & _ & _ & _ & _ & _ & Hf & [(k & _ & _ & _ & Hs)|(_ & _ & ep & _ & Hs & _)]);
      (split; [rewrite Hf, length_app; lia| |rewrite Hs, ?fmap_app; try done; by apply prefix_app_r]);
      intros j Hj; rewrite Hf; by apply lookup_app_l_Some.
  - apply state_only_le. by eapply channel_construct_fail.
  - apply state_only_le. by eapply channel_construct_fail.
  - apply state_only_le. by eapply get_connectivity_state_only.
  - apply state_only_le. by eapply watch_connectivity_only.
  - unfold channel_close in H. simplify_eq. split; simpl; [by rewrite length_insert| |done].
    intros i Hi. destruct (decide (gc_closed_flag c = i)) as [<-|Hne].
    + apply list_lookup_insert_eq. by eapply lookup_lt_Some.
    + by rewrite list_lookup_insert_ne.
  - apply state_only_le, sched_tick_only.
Qed.

Lemma call_wf_stable : stable call_wf.
Proof.
  split.
  - intros c w w' [Hr Hf Hsh Hw] [_ Hc Hwr]. split; simpl in *.
    + by eapply state_only_wf.
    + by rewrite (so_flags _ _ Hc).
    + by rewrite (so_channels _ _ Hc).
    + intros r' Hr'. rewrite Hr' in Hwr. destruct (w_wire w) as [r|]; [|done].
      destruct (Hw r eq_refl) as (<- & <- & <- & <-). unfold wire_call in Hwr. simplify_eq/=. split_and!; congruence.
  - intros c w st [Hr Hf Hsh Hw]. by split.
  - intros c w req kind t md pm m [Hr Hf Hsh Hw]. split; try done. intros r [= <-]. done.
  - intros c w md m [Hr Hf Hsh Hw]. by split.
Qed.

(** What a call was made with. *)
Definition call_ident (c : GrpcCall) : TonicChannel * string * string * Z * nat * option nat :=
  (cl_channel c, cl_method c, cl_target c, cl_deadline_usec c, cl_channel_closed c, cl_channel_shared c).

(** The parts a step leaves alone, and the channels that only grow. *)
Definition handles_are (c : GrpcCall) (ch : ChanState) (s : CallSt) : Prop :=
  call_ident (cs_call s) = call_ident c /\ chan_le ch (w_chan (cs_w s)).

Lemma handles_stable c0 ch : stable (handles_are c0 ch).
Proof.
  split; unfold handles_are; simpl; try done. intros c w w' [Hc0 Hle] [_ Hc _]. split; [done|].
  etrans; [exact Hle|by apply state_only_le].
Qed.

(** What every method of a call keeps. *)
Lemma call_step_keeps J s s' :
  stable J -> (forall c w closed sent finished, J (MkCS c w) -> J (MkCS (cl_set_flags c closed sent finished) w)) ->
  (forall c w tok, J (MkCS c w) -> J (MkCS c (set_token w tok))) ->
  (forall s r s' creds, set_credentials creds s = (r, s') -> J s -> J s') ->
  call_step s s' -> J s -> J s'.
Proof.
  intros HJ Hfl Htok Hcr Hs. destruct Hs as [ops s r s' H|s r s' H|creds s r s' H|s r s' H]; intros Hi.
  - by eapply start_batch_keeps.
  - unfold call_cancel, on_world, modify in H. simplify_eq. destruct s. by apply Htok.
  - by eapply Hcr.
  - unfold get_peer in H. destruct (keeps_runtime_J env_var build_error tid J HJ s Hi) as [K _].
    destruct (call_get_runtime env_var build_error tid s) as [[] s1]; by simplify_eq.
Qed.

Lemma life_step_wf s s' : life_step s s' -> call_wf s ->
  call_wf s' /\ handles_are (cs_call s) (w_chan (cs_w s)) s'.
Proof.
  intros Hs Hi. destruct Hs as [s s' H|c w ch H|c w|c w ev w' H].
  - split.
    + eapply (call_step_keeps call_wf); [apply call_wf_stable| | | |exact H|exact Hi].
      * intros c w cl se fi []. by split.
      * intros c w tok []. by split.
      * intros s0 r s1 creds Hc []. unfold set_credentials, on_call, modify, mbind, M_bind, mret, M_ret in Hc. simplify_eq. by split.
    + eapply (call_step_keeps (handles_are _ _)); [apply handles_stable| | | |exact H|done]; try done.
      intros s0 r s1 creds Hc Hh. unfold set_credentials, on_call, modify, mbind, M_bind, mret, M_ret in Hc. by simplify_eq.
  - destruct Hi as [Hr Hf (id & Hid & Hch) Hw]. simpl in *. pose proof (chan_step_le _ _ H) as [Hl Hcl Hpre].
    split; [|done]. split; simpl; [by eapply chan_step_wf|lia| |done].
    exists id. split; [done|]. by eapply prefix_lookup_Some.
  - pose proof (task_poll_keep clock w) as Hk. split; [by eapply (st_world _ call_wf_stable)|].
    by eapply (st_world _ (handles_stable _ _)).
  - pose proof (driver_event_keep clock _ _ _ H) as Hk. split; [by eapply (st_world _ call_wf_stable)|].
    by eapply (st_world _ (handles_stable _ _)).
Qed.

Lemma life_steps_wf s s' : rtc life_step s s' -> call_wf s ->
  call_wf s' /\ handles_are (cs_call s) (w_chan (cs_w s)) s'.
Proof.
  induction 1 as [|s1 s2 s3 H12 _ IH]; intros Hi; [by split|].
  destruct (life_step_wf _ _ H12 Hi) as [H2 [Hc2 Hl2]]. destruct (IH H2) as [H3 [Hc3 Hl3]].
  split; [done|]. split; [congruence|by etrans].
Qed.

(** * Connectivity *)

(** Everything that can happen to the channels of a thread: their own methods
    and probes, and the methods, tasks and network events of any call. *)
Inductive conn_step : ChanState -> ChanState -> Prop :=
| cn_life s s' : life_step s s' -> conn_step (w_chan (cs_w s)) (w_chan (cs_w s')).

(** The states seen from [ch]: valid, and never behind. *)
Definition states_from (ch : ChanState) (s : CallSt) : Prop :=
  reg_wf (w_chan (cs_w s)) /\ reg_le ch (w_chan (cs_w s)).

Lemma states_from_stable ch : stable (states_from ch).
Proof.
  split; unfold states_from; simpl; try done. intros c w w' [Hr Hle] [_ Hc _].
  destruct (state_only_wf _ _ Hc Hr) as [Hr' Hle']. split; [done|by etrans].
Qed.

Lemma conn_step_wf ch ch' : conn_step ch ch' -> reg_wf ch -> reg_wf ch' /\ reg_le ch ch'.
Proof.
  intros [s s' Hs] Hr. destruct Hs as [s s' H|c w c' H|c w|c w ev w' H].
  - change (states_from (w_chan (cs_w s)) s').
    eapply (call_step_keeps (states_from (w_chan (cs_w s)))); [apply states_from_stable|done|done| |exact H|by split].
    intros s0 r s1 creds Hc Hi. unfold set_credentials, on_call, modify, mbind, M_bind, mret, M_ret in Hc. by simplify_eq.
  - by eapply chan_step_wf.
  - eapply state_only_wf; [|done]. apply (wk_chan _ _ (task_poll_keep clock w)).
  - eapply state_only_wf; [|done]. apply (wk_chan _ _ (driver_event_keep clock _ _ _ H)).
Qed.

Lemma conn_steps_wf ch ch' : rtc conn_step ch ch' -> reg_wf ch -> reg_wf ch' /\ reg_le ch ch'.
Proof.
  induction 1 as [|c1 c2 c3 H _ IH]; [done|]. intros W. destruct (conn_step_wf _ _ H W) as [W2 L].
  destruct (IH W2) as [W3 L3]. split; [done|by etrans].
Qed.

(** * Construction *)

(** A call made from a channel object at some point of the thread's history. *)
Record call_made (ch : GrpcChannel) (c2 : ChanState) (s : CallSt) : Prop := {
  cm_wf : reg_wf c2;
  cm_flag : (gc_closed_flag ch < length (ch_flags c2))%nat;
  cm_construct : exists method deadline host now,
    call_construct ch method deadline host now c2 = Ok (cs_call s);
  cm_world : exists instant script wake, cs_w s = call_world c2 instant script wake;
}.

Lemma chan_steps_le c c' : rtc chan_step c c' -> chan_le c c'.
Proof. induction 1 as [|c1 c2 c3 H _ IH]; [done|]. etrans; [by apply chan_step_le|done]. Qed.

(** The channel object [ch] was constructed between the states [c] and [c']. *)
Definition constructed (ch : GrpcChannel) (c c' : ChanState) : Prop :=
  exists target args, channel_construct target args c = (Return ch, c').

Lemma constructed_flag ch c c' :
  constructed ch c c' -> gc_closed_flag ch = length (ch_flags c) /\ ch_flags c' = ch_flags c ++ [false].
Proof.
  intros (target & args & H).
  apply channel_construct_inv in H as (pa & pc & i & _ & _ & _ & _ & _ & _ & _ & Hg & Hf & _). done.
Qed.

Lemma constructed_made sched ch c0 c1 c2 method deadline host now call instant script wake :
  rtc chan_step (chan_init sched) c0 -> constructed ch c0 c1 -> rtc chan_step c1 c2 ->
  call_construct ch method deadline host now c2 = Ok call ->
  call_made ch c2 (MkCS call (call_world c2 instant script wake)).
Proof.
  intros H0 Hc H2 Hcall. destruct (constructed_flag _ _ _ Hc) as [Hg Hf].
  assert (H1 : chan_step c0 c1) by (destruct Hc as (? & ? & ?); by eapply cs_construct).
  assert (Hall : rtc chan_step (chan_init sched) c2) by (etrans; [exact H0|]; by eapply rtc_l).
  split; simpl; eauto.
  - by destruct (chan_steps_wf _ _ _ _ _ _ Hall (chan_init_wf sched)).
  - pose proof (cle_flags _ _ (chan_steps_le _ _ H2)) as Hl. rewrite Hf, length_app in Hl. simpl in Hl. lia.
Qed.

Lemma call_made_wf ch c2 s : call_made ch c2 s -> call_wf s
  /\ cl_channel_closed (cs_call s) = gc_closed_flag ch /\ w_chan (cs_w s) = c2 /\ cl_channel_shared (cs_call s) = get_shared ch.
Proof.
  intros [Hwf Hfl (method & deadline & host & now & Hc) (instant & script & wake & Hw)].
  unfold call_construct, get_tonic_channel, get_shared in *. destruct (gc_inner ch) as [i|]; simpl in *; [|done].
  destruct (ch_shared c2 !! ci_shared i) as [sh|] eqn:Hsh; simpl in *; [|done].
  destruct s as [c w]. simpl in *. simplify_eq. simpl. split_and!; try done. split; simpl; try done.
  exists (ci_shared i). split; [done|]. by rewrite list_lookup_fmap, Hsh.
Qed.

(** * Properties *)

(** C15: whatever the thread, its channels, the task and the network do after a
    call was made, the call's handles stay valid and consistent: its closed flag
    is the flag of the channel object it was made from; its transport is the
    one of that channel, the same the call and its task send through, and has
    one of the registered connectivity states; target, method and deadline
    never change. *)
Theorem call_handles_valid ch c2 s0 s :
  call_made ch c2 s0 -> rtc life_step s0 s ->
  ch_flags (w_chan (cs_w s)) !! get_closed_flag ch = Some (closed_flag s)
  /\ call_ident (cs_call s) = call_ident (cs_call s0)
  /\ exists id sh, get_shared ch = Some id /\ ch_shared (w_chan (cs_w s)) !! id = Some sh
     /\ sh_channel sh = cl_channel (cs_call s) /\ 0 <= sh_state sh <= 3
     /\ forall r, w_wire (cs_w s) = Some r ->
          wr_shared r = Some id /\ rq_channel (wr_request r) = sh_channel sh
          /\ rq_path (wr_request r) = cl_method (cs_call s0)
          /\ wr_deadline_usec r = cl_deadline_usec (cs_call s0).
Proof.
  intros Hm Hl. destruct (call_made_wf _ _ _ Hm) as (Hw0 & Hcl & _ & Hsh0).
  destruct (life_steps_wf _ _ Hl Hw0) as [[Hr Hf (id & Hid & Hch) Hw] [Hident Hle]].
  unfold call_ident in Hident. simplify_eq. split; [|split; [unfold call_ident; congruence|]].
  - unfold get_closed_flag, closed_flag. rewrite <- Hcl.
    match goal with E : cl_channel_closed _ = cl_channel_closed _ |- _ => rewrite <- E end.
    by destruct (lookup_lt_is_Some_2 _ _ Hf) as [b ->].
  - rewrite list_lookup_fmap in Hch. destruct (ch_shared _ !! id) as [sh|] eqn:Hs; simplify_eq/=.
    exists id, sh. split; [congruence|]. split; [done|]. split; [congruence|]. split.
    + pose proof (reg_states _ Hr) as Hst. rewrite Forall_lookup in Hst. by apply (Hst id).
    + intros r Hr'. destruct (Hw r Hr') as (-> & -> & -> & ->). split_and!; congruence.
Qed.

(** C12: closing a channel stops exactly the calls made from that channel
    object.  From then on every batch on such a call throws [Channel is closed]
    and changes nothing, whatever is done in between; closing any other channel
    object, before or after, even one that shares the transport, leaves the
    call open. *)
Theorem closed_channel_stops_calls ch1 ch2 a0 a1 a2 a3 a4 (first : bool) s0 s c5 r r' :
  constructed ch1 a0 a1 -> rtc chan_step a1 a2 -> constructed ch2 a2 a3 ->
  call_made (if first then ch1 else ch2) a4 s0 -> rtc life_step s0 s ->
  channel_close (if first then ch1 else ch2) (w_chan (cs_w s)) = (r, c5) ->
  (forall s2 ops, rtc life_step (MkCS (cs_call s) (set_chan (cs_w s) c5)) s2 ->
     start_batch ops s2 = (Throw channel_is_closed, s2))
  /\ forall c6, channel_close (if first then ch2 else ch1) (w_chan (cs_w s)) = (r', c6) ->
     closed_flag (MkCS (cs_call s) (set_chan (cs_w s) c6)) = closed_flag s.
Proof.
  intros H1 H12 H2 Hm Hl Hc. destruct (call_made_wf _ _ _ Hm) as (Hw0 & Hcl & Hch & _).
  destruct (life_steps_wf _ _ Hl Hw0) as [Hw [Hident Hle]].
  assert (Hcl' : cl_channel_closed (cs_call s) = gc_closed_flag (if first then ch1 else ch2)).
  { rewrite <- Hcl. unfold call_ident in Hident. congruence. }
  assert (Hne : gc_closed_flag ch1 <> gc_closed_flag ch2).
  { destruct (constructed_flag _ _ _ H1) as [-> Hf1]. destruct (constructed_flag _ _ _ H2) as [-> _].
    pose proof (cle_flags _ _ (chan_steps_le _ _ H12)) as Hlen. rewrite Hf1, length_app in Hlen. simpl in Hlen. lia. }
  unfold channel_close in Hc. simplify_eq. split.
  - intros s2 ops Hl2. assert (Hstep : life_step s (MkCS (cs_call s) (set_chan (cs_w s)
      (channel_close (if first then ch1 else ch2) (w_chan (cs_w s))).2))).
    { destruct s as [c w]. apply ls_chan. by eapply (cs_close _ _ _ _ (if first then ch1 else ch2)). }
    destruct (life_step_wf _ _ Hstep Hw) as [Hw3 _].
    destruct (life_steps_wf _ _ Hl2 Hw3) as [Hw2 [Hid2 [_ Hcle _]]]. simpl in *.
    assert (Hflag : closed_flag s2 = true).
    { unfold closed_flag. rewrite (Hcle (cl_channel_closed (cs_call s2))); [done|].
      unfold call_ident in Hid2. simplify_eq.
      match goal with E : cl_channel_closed (cs_call s2) = _ |- _ => rewrite E, Hcl' end.
      apply list_lookup_insert_eq. rewrite <- Hcl'. by destruct Hw. }
    unfold Call.start_batch. mred. by rewrite Hflag.
  - intros c6 Hc6. unfold channel_close in Hc6. simplify_eq. unfold closed_flag. simpl.
    rewrite list_lookup_insert_ne; [done|]. rewrite Hcl'. destruct first; congruence.
Qed.

(** C32: connectivity states stay within the four registered constants and a
    transport that left IDLE never returns to it, whatever the thread does: the
    methods of its channels and the probes they start, and the methods, the
    background tasks and the network events of any of its calls, which store
    the connectivity they see; asking an idle channel to connect answers IDLE
    and leaves it CONNECTING with one more probe in flight. *)
Theorem connectivity_state_machine sched s s' id sh :
  rtc conn_step (chan_init sched) s -> rtc conn_step s s' -> ch_shared s' !! id = Some sh ->
  0 <= sh_state sh <= 3
  /\ ((id < length (ch_shared s))%nat -> shared_state id s <> CHANNEL_IDLE ->
       shared_state id s' <> CHANNEL_IDLE)
  /\ (forall c i z s2 r, gc_inner c = Some i -> ci_shared i = id -> zv_bool z = Some true ->
        get_connectivity_state env_var build_error tid c (Some z) s' = (Return r, s2) -> r = CHANNEL_IDLE ->
        shared_state id s2 = CHANNEL_CONNECTING
        /\ exists s1, channel_pump env_var build_error tid s' = (Return tt, s1) /\ ch_probes s2 = ch_probes s1 ++ [id]).
Proof.
  intros R1 R2 Hsh.
  destruct (conn_steps_wf _ _ R1 (chan_init_wf sched)) as [W1 _].
  destruct (conn_steps_wf _ _ R2 W1) as [W2 L2].
  split; [|split].
  - pose proof (reg_states _ W2) as Hf. rewrite Forall_lookup in Hf. by apply (Hf id).
  - apply (le_idle _ _ L2).
  - intros c i z s2 r Hi <- Hz Hg Hr. eapply idle_connects; eauto. by eapply lookup_lt_Some.
Qed.

End lifecycle.

(** * Witnesses

    Two channels on one shared transport, and a call made from the first. *)
Definition wit_life_chan := wit_s2 "a:1" wit_tls_args "a:1" wit_tls_args.
Definition wit_life_call : CallSt (Zd := ZendModel) (Tn := TonicModel) (Tls := TlsModel) (Ep := EndpointModel) (Tk := TokioModel) :=
  match call_construct (Zd := ZendModel) (Tn := TonicModel) (Tls := TlsModel) (Ep := EndpointModel)
          (wit_chan 0 0 "a:1") "/s/m" (MkTimeval 9 false) None (Ok 1) wit_life_chan with
  | Ok c => MkCS c (call_world (Tk := TokioModel) wit_life_chan 0 [] (fun _ => false))
  | Err _ => wit_state 0 []
  end.
Definition wit_life_closed : CallSt (Zd := ZendModel) (Tn := TonicModel) (Tls := TlsModel) (Ep := EndpointModel) (Tk := TokioModel) :=
  MkCS (cs_call wit_life_call)
    (set_chan (cs_w wit_life_call)
       (channel_close (Zd := ZendModel) (wit_chan 0 0 "a:1") (w_chan (cs_w wit_life_call))).2).

Lemma wit_call_made :
  call_made (Zd := ZendModel) (Tk := TokioModel) (wit_chan 0 0 "a:1") wit_life_chan wit_life_call.
Proof.
  eapply (constructed_made (Zd := ZendModel) (Tk := TokioModel) model_creds None (fun _ => None) 0%nat []
    (wit_chan 0 0 "a:1") (wit_init []) (wit_s1 "a:1" wit_tls_args) wit_life_chan "/s/m" (MkTimeval 9 false) None (Ok 1)).
  - apply rtc_refl.
  - exists "a:1", wit_tls_args. reflexivity.
  - apply rtc_once. eapply (cs_construct (Zd := ZendModel) (Tls := TlsModel) (Ep := EndpointModel) model_creds None (fun _ => None) 0%nat "a:1" wit_tls_args _ (Return (wit_chan 0 1 "a:1"))). vm_compute. reflexivity.
  - reflexivity.
Qed.

Lemma call_handles_valid_witness :
  ch_flags (w_chan (cs_w wit_life_call)) !! 0%nat = Some (closed_flag wit_life_call).
Proof.
  exact (proj1 (call_handles_valid (Zd := ZendModel) (Tk := TokioModel) model_creds None (fun _ => None) 0%nat wit_clock
    (fun _ => true) wit_php (fun _ => None) (wit_chan 0 0 "a:1") wit_life_chan wit_life_call wit_life_call
    wit_call_made (rtc_refl _ _))).
Defined.

Lemma closed_channel_stops_calls_witness :
  wit_batch wit_php wit_ops_unary wit_life_closed = (Throw channel_is_closed, wit_life_closed)
  /\ closed_flag (MkCS (cs_call wit_life_call) (set_chan (cs_w wit_life_call)
       (channel_close (Zd := ZendModel) (wit_chan 0 1 "a:1") (w_chan (cs_w wit_life_call))).2)) = false.
Proof.
  destruct (closed_channel_stops_calls (Zd := ZendModel) (Tk := TokioModel) model_creds None (fun _ => None) 0%nat wit_clock
    (fun _ => true) wit_php (fun _ => None) (wit_chan 0 0 "a:1") (wit_chan 0 1 "a:1") (wit_init [])
    (wit_s1 "a:1" wit_tls_args) (wit_s1 "a:1" wit_tls_args) wit_life_chan wit_life_chan true wit_life_call wit_life_call
    (channel_close (Zd := ZendModel) (wit_chan 0 0 "a:1") (w_chan (cs_w wit_life_call))).2
    (Return (MkChannel None 0%nat)) (Return (MkChannel None 1%nat))
    (ex_intro _ "a:1" (ex_intro _ wit_tls_args eq_refl)) (rtc_refl _ _)
    (ex_intro _ "a:1" (ex_intro _ wit_tls_args eq_refl)) wit_call_made (rtc_refl _ _) eq_refl) as [H1 H2].
  split.
  - exact (H1 wit_life_closed wit_ops_unary (rtc_refl _ _)).
  - exact (H2 _ eq_refl).
Defined.

Definition wit_conn_call ch : CallSt (Zd := ZendModel) (Tn := TonicModel) (Tls := TlsModel) (Ep := EndpointModel) (Tk := TokioModel) :=
  MkCS (cs_call wit_life_call) (set_chan (cs_w wit_life_call) ch).

Lemma wit_conn_construct :
  conn_step (Zd := ZendModel) (Tk := TokioModel) model_creds None (fun _ => None) 0%nat wit_clock (fun _ => true) wit_php (fun _ => None)
    (wit_init []) (wit_s1 "a:1" wit_tls_args).
Proof.
  apply (cn_life (Zd := ZendModel) (Tk := TokioModel) model_creds None (fun _ => None) 0%nat wit_clock (fun _ => true) wit_php
    (fun _ => None) (wit_conn_call (wit_init [])) (wit_conn_call (wit_s1 "a:1" wit_tls_args))).
  apply (ls_chan (Zd := ZendModel) (Tk := TokioModel) model_creds None (fun _ => None) 0%nat wit_clock (fun _ => true) wit_php
    (fun _ => None) (cs_call wit_life_call) (set_chan (cs_w wit_life_call) (wit_init [])) (wit_s1 "a:1" wit_tls_args)).
  exact (cs_construct (Zd := ZendModel) (Ep := EndpointModel) model_creds None (fun _ => None) 0%nat
       "a:1" wit_tls_args (wit_init []) (Return (wit_chan 0 0 "a:1")) (wit_s1 "a:1" wit_tls_args) eq_refl).
Qed.

Lemma connectivity_state_machine_witness :
  shared_state 0 (get_connectivity_state (Zd := ZendModel) (Ep := EndpointModel) None (fun _ => None) 0%nat
     (wit_chan 0 0 "a:1") (Some (ZvBool true)) (wit_s1 "a:1" wit_tls_args)).2 = CHANNEL_CONNECTING.
Proof.
  apply (proj2 (proj2 (connectivity_state_machine (Zd := ZendModel) (Tls := TlsModel) (Ep := EndpointModel) (Tk := TokioModel)
    model_creds None (fun _ => None) 0%nat wit_clock (fun _ => true) wit_php (fun _ => None) []
    (wit_init []) (wit_s1 "a:1" wit_tls_args) 0%nat
    (MkShared (Ep := EndpointModel) ["https://a:1"; "tls"; "webpki"; "connect"; "20"] 0) (rtc_refl _ _)
    (rtc_once _ _ wit_conn_construct) eq_refl))
    (wit_chan 0 0 "a:1") (MkInner (Zd := ZendModel) 0 "a:1" None None None) (ZvBool true) _ CHANNEL_IDLE
    eq_refl eq_refl eq_refl eq_refl eq_refl).
Defined.
