(* ===== verification/Module.v ===== *)
(** src/src/lib.rs: the module.  [get_module] describes it to ext-php-rs: its
    name and version, its classes and its startup hooks.  [register_constants],
    the module startup, registers the ini entries and then the constants one by
    one, stopping at the first one the engine refuses; [accepts] is the
    engine's answer.  The request startup is [strip_return_types] of Compat.v. *)

From Stdlib Require Import ZArith Lia String.
From stdpp Require Import base list strings gmap.
From S2P Require Import Prelude Utf8 Zend Tokio Tonic Error Runtime Timeval Credentials Channel Metadata Deadline Driver Stream Delivery Bidi Unary Call Compat.

#[local] Open Scope string_scope.
#[local] Open Scope list_scope.
#[local] Open Scope Z_scope.

Definition EXT_GRPC_COMPAT_VERSION : string := "1.83.0".

(** The ini entries with their defaults (system permission). *)
Definition ini_entries : list (string * string) :=
  [("grpc.enable_fork_support", "0"); ("grpc.poll_strategy", ""); ("grpc.grpc_verbosity", "");
   ("grpc.grpc_trace", "")].

(** The integer constants, in registration order. *)
Definition int_constants : list (string * Z) :=
  [("Grpc\STATUS_OK", 0);
   ("Grpc\STATUS_CANCELLED", 1);
   ("Grpc\STATUS_UNKNOWN", 2);
   ("Grpc\STATUS_INVALID_ARGUMENT", 3);
   ("Grpc\STATUS_DEADLINE_EXCEEDED", 4);
   ("Grpc\STATUS_NOT_FOUND", 5);
   ("Grpc\STATUS_ALREADY_EXISTS", 6);
   ("Grpc\STATUS_PERMISSION_DENIED", 7);
   ("Grpc\STATUS_RESOURCE_EXHAUSTED", 8);
   ("Grpc\STATUS_FAILED_PRECONDITION", 9);
   ("Grpc\STATUS_ABORTED", 10);
   ("Grpc\STATUS_OUT_OF_RANGE", 11);
   ("Grpc\STATUS_UNIMPLEMENTED", 12);
   ("Grpc\STATUS_INTERNAL", 13);
   ("Grpc\STATUS_UNAVAILABLE", 14);
   ("Grpc\STATUS_DATA_LOSS", 15);
   ("Grpc\STATUS_UNAUTHENTICATED", 16);
   ("Grpc\CHANNEL_IDLE", 0);
   ("Grpc\CHANNEL_CONNECTING", 1);
   ("Grpc\CHANNEL_READY", 2);
   ("Grpc\CHANNEL_TRANSIENT_FAILURE", 3);
   ("Grpc\CHANNEL_FATAL_FAILURE", 4);
   ("Grpc\CALL_OK", 0);
   ("Grpc\CALL_ERROR", 1);
   ("Grpc\CALL_ERROR_NOT_ON_SERVER", 2);
   ("Grpc\CALL_ERROR_NOT_ON_CLIENT", 3);
   ("Grpc\CALL_ERROR_ALREADY_INVOKED", 5);
   ("Grpc\CALL_ERROR_NOT_INVOKED", 6);
   ("Grpc\CALL_ERROR_ALREADY_FINISHED", 7);
   ("Grpc\CALL_ERROR_TOO_MANY_OPERATIONS", 8);
   ("Grpc\CALL_ERROR_INVALID_FLAGS", 9);
   ("Grpc\OP_SEND_INITIAL_METADATA", 0);
   ("Grpc\OP_SEND_MESSAGE", 1);
   ("Grpc\OP_SEND_CLOSE_FROM_CLIENT", 2);
   ("Grpc\OP_SEND_STATUS_FROM_SERVER", 3);
   ("Grpc\OP_RECV_INITIAL_METADATA", 4);
   ("Grpc\OP_RECV_MESSAGE", 5);
   ("Grpc\OP_RECV_STATUS_ON_CLIENT", 6);
   ("Grpc\OP_RECV_CLOSE_ON_SERVER", 7);
   ("Grpc\WRITE_BUFFER_HINT", 1);
   ("Grpc\WRITE_NO_COMPRESS", 2)].

Inductive ConstVal : Type := CInt (n : Z) | CStr (s : string).

Record ModuleState : Type := MkModule {
  mod_ini : list (string * string);
  mod_consts : list (string * ConstVal);
}.

Section module.
Context (accepts : string -> bool).

(** The [reg!] lines: [None] is the early [return -1]. *)
Fixpoint register_all (l : list (string * ConstVal)) (m : ModuleState) : bool * ModuleState :=
  match l with
  | [] => (true, m)
  | (name, v) :: l' =>
      if accepts name then register_all l' (MkModule (mod_ini m) (mod_consts m ++ [(name, v)]))
      else (false, m)
  end.

Definition all_constants : list (string * ConstVal) :=
  ((fun '(n, v) => (n, CInt v)) <$> int_constants) ++ [("Grpc\VERSION", CStr EXT_GRPC_COMPAT_VERSION)].

Definition register_constants (m : ModuleState) : Z * ModuleState :=
  let '(ok, m) := register_all all_constants (MkModule (mod_ini m ++ ini_entries) (mod_consts m)) in
  ((if ok then 0 else -1), m).

Lemma register_all_spec l m :
  let '(ok, m') := register_all l m in
  mod_ini m' = mod_ini m
  /\ exists k, mod_consts m' = mod_consts m ++ take k l
     /\ if ok then forallb accepts l.*1 = true /\ k = length l
        else (exists n v, l !! k = Some (n, v) /\ accepts n = false) /\ forallb accepts (take k l).*1 = true.
Proof.
  revert m. induction l as [|[n v] l IH]; intros m; simpl.
  - split; [done|]. exists 0%nat. by rewrite app_nil_r.
  - destruct (accepts n) eqn:E; simpl.
    + specialize (IH (MkModule (mod_ini m) (mod_consts m ++ [(n, v)]))).
      destruct (register_all l _) as [ok m']. destruct IH as (Hi & k & Hc & Hk). split; [done|].
      exists (S k). simpl in *. rewrite Hc, <- app_assoc. split; [done|]. rewrite E. simpl.
      destruct ok; [|done]. destruct Hk as [? ->]. done.
    + split; [done|]. exists 0%nat. rewrite app_nil_r. split; [done|]. split; [by exists n, v|done].
Qed.

End module.

(** The value a constant is registered with. *)
Definition const_value (name : string) : option Z :=
  snd <$> List.find (fun kv => bool_decide (kv.1 = name)) int_constants.

(** Module startup answers 0 exactly when the engine accepted every constant,
    and then all of them are registered, each name once; otherwise it answers
    -1 with exactly those before the first refused one registered.  The values
    agree with the ones the extension uses: operation codes, connectivity
    states, the call error of a sequencing mistake. *)
Theorem register_constants_spec (accepts : string -> bool) (m : ModuleState) :
  let '(rc, m') := register_constants accepts m in
  mod_ini m' = mod_ini m ++ ini_entries
  /\ (rc = 0 <-> forallb accepts all_constants.*1 = true)
  /\ (rc = 0 -> mod_consts m' = mod_consts m ++ all_constants)
  /\ (rc <> 0 -> rc = -1 /\ exists k n v, all_constants !! k = Some (n, v) /\ accepts n = false
       /\ mod_consts m' = mod_consts m ++ take k all_constants)
  /\ NoDup all_constants.*1
  /\ const_value "Grpc\OP_SEND_INITIAL_METADATA" = Some OP_SEND_INITIAL_METADATA
  /\ const_value "Grpc\OP_SEND_MESSAGE" = Some OP_SEND_MESSAGE
  /\ const_value "Grpc\OP_SEND_CLOSE_FROM_CLIENT" = Some OP_SEND_CLOSE_FROM_CLIENT
  /\ const_value "Grpc\OP_RECV_INITIAL_METADATA" = Some OP_RECV_INITIAL_METADATA
  /\ const_value "Grpc\OP_RECV_MESSAGE" = Some OP_RECV_MESSAGE
  /\ const_value "Grpc\OP_RECV_STATUS_ON_CLIENT" = Some OP_RECV_STATUS_ON_CLIENT
  /\ const_value "Grpc\CHANNEL_IDLE" = Some CHANNEL_IDLE
  /\ const_value "Grpc\CHANNEL_CONNECTING" = Some CHANNEL_CONNECTING
  /\ const_value "Grpc\CHANNEL_READY" = Some CHANNEL_READY
  /\ const_value "Grpc\CHANNEL_TRANSIENT_FAILURE" = Some CHANNEL_TRANSIENT_FAILURE
  /\ const_value "Grpc\STATUS_DEADLINE_EXCEEDED" = Some (tr_code (Tn := TonicModel) deadline_exceeded_trailers)
  /\ const_value "Grpc\CALL_ERROR_TOO_MANY_OPERATIONS"
     = Some (exn_code (too_many_operations (Zd := ZendModel))).
Proof.
  unfold register_constants.
  pose proof (register_all_spec accepts all_constants (MkModule (mod_ini m ++ ini_entries) (mod_consts m))) as H.
  destruct (register_all accepts all_constants _) as [ok m']. destruct H as (Hi & k & Hc & Hk). cbn [mod_ini mod_consts] in *.
  split; [done|]. split.
  { destruct ok; [by destruct Hk|]. split; [done|]. intros Ha. destruct Hk as [(n & v & Hl & Hn) _].
    rewrite forallb_forall in Ha. rewrite Ha in Hn; [done|].
    apply list_elem_of_In, list_elem_of_fmap. exists (n, v). split; [done|]. by eapply list_elem_of_lookup_2. }
  split. { destruct ok; [|done]. intros _. destruct Hk as [_ ->]. by rewrite Hc, firstn_all. }
  split. { destruct ok; [done|]. intros _. split; [done|]. destruct Hk as [(n & v & Hl & Hn) _]. eauto 10. }
  split; [apply (bool_decide_eq_true_1 _); vm_compute; reflexivity|].
  repeat split; reflexivity.
Qed.

(** * The module table *)

(** A function of a [#[php_impl]] block: its Rust name and the [#[php(name)]]
    given to it.  Without one, ext-php-rs derives the PHP name ([camel]). *)
Record PhpFn : Type := MkFn {
  fn_rust : string;
  fn_php : option string;
}.

Record PhpClass : Type := MkClass {
  pc_name : string;
  pc_fns : list PhpFn;
}.

Abbreviation named r p := (MkFn r (Some p)).
Abbreviation unnamed r := (MkFn r None).

Definition channel_class : PhpClass := MkClass "Grpc\Channel"
  [unnamed "__construct"; named "get_target" "getTarget"; named "get_connectivity_state" "getConnectivityState";
   named "watch_connectivity_state" "watchConnectivityState"; unnamed "close"].

Definition call_class : PhpClass := MkClass "Grpc\Call"
  [unnamed "__construct"; named "start_batch" "startBatch"; named "get_peer" "getPeer"; unnamed "cancel";
   named "set_credentials" "setCredentials"].

Definition channel_credentials_class : PhpClass := MkClass "Grpc\ChannelCredentials"
  [named "create_ssl" "createSsl"; named "create_insecure" "createInsecure"; named "create_composite" "createComposite";
   named "create_default" "createDefault"; named "set_default_roots_pem" "setDefaultRootsPem";
   named "is_default_roots_pem_set" "isDefaultRootsPemSet";
   named "invalidate_default_roots_pem" "invalidateDefaultRootsPem"].

Definition call_credentials_class : PhpClass := MkClass "Grpc\CallCredentials"
  [named "create_from_plugin" "createFromPlugin"; named "create_composite" "createComposite"].

Definition timeval_class : PhpClass := MkClass "Grpc\Timeval"
  [unnamed "__construct"; unnamed "get_usec"; unnamed "to_absolute_usec"; unnamed "now";
   named "inf_future" "infFuture"; named "inf_past" "infPast"; unnamed "zero"; unnamed "similar"; unnamed "compare";
   unnamed "add"; unnamed "subtract"; named "sleep_until" "sleepUntil"].

Abbreviation class_table := (gmap string (gmap string Z)).

(** What a module declares: its name and version, its classes and its hooks. *)
Record ModuleDesc : Type := MkDesc {
  md_name : string;
  md_version : string;
  md_classes : list PhpClass;
  md_startup : option ((string -> bool) -> ModuleState -> Z * ModuleState);
  md_request_startup : option (Z -> bool * class_table -> Z * (bool * class_table));
}.

(** [ModuleBuilder] of ext-php-rs, and what its methods do to the declaration. *)
Class ModuleApi := {
  ModuleBuilder : Type;
  mb_name : string -> ModuleBuilder -> ModuleBuilder;
  mb_version : string -> ModuleBuilder -> ModuleBuilder;
  mb_class : PhpClass -> ModuleBuilder -> ModuleBuilder;
  mb_startup_function : ((string -> bool) -> ModuleState -> Z * ModuleState) -> ModuleBuilder -> ModuleBuilder;
  mb_request_startup_function :
    (Z -> bool * class_table -> Z * (bool * class_table)) -> ModuleBuilder -> ModuleBuilder;
}.

Class ModuleLaws (Mb : ModuleApi) := {
  mb_desc : ModuleBuilder -> ModuleDesc;
  mb_name_desc n m : mb_desc (mb_name n m)
    = MkDesc n (md_version (mb_desc m)) (md_classes (mb_desc m)) (md_startup (mb_desc m)) (md_request_startup (mb_desc m));
  mb_version_desc v m : mb_desc (mb_version v m)
    = MkDesc (md_name (mb_desc m)) v (md_classes (mb_desc m)) (md_startup (mb_desc m)) (md_request_startup (mb_desc m));
  mb_class_desc c m : mb_desc (mb_class c m)
    = MkDesc (md_name (mb_desc m)) (md_version (mb_desc m)) (md_classes (mb_desc m) ++ [c]) (md_startup (mb_desc m))
        (md_request_startup (mb_desc m));
  mb_startup_desc f m : mb_desc (mb_startup_function f m)
    = MkDesc (md_name (mb_desc m)) (md_version (mb_desc m)) (md_classes (mb_desc m)) (Some f) (md_request_startup (mb_desc m));
  mb_request_startup_desc f m : mb_desc (mb_request_startup_function f m)
    = MkDesc (md_name (mb_desc m)) (md_version (mb_desc m)) (md_classes (mb_desc m)) (md_startup (mb_desc m)) (Some f);
}.

(** The [#[php(startup = register_constants)]] attribute sets the startup. *)
Definition get_module {Mb : ModuleApi} (module : ModuleBuilder) : ModuleBuilder :=
  let module := mb_startup_function register_constants module in
  let module := mb_version EXT_GRPC_COMPAT_VERSION (mb_name "grpc" module) in
  let module := mb_class channel_class module in
  let module := mb_class call_class module in
  let module := mb_class channel_credentials_class module in
  let module := mb_class call_credentials_class module in
  let module := mb_class timeval_class module in
  mb_request_startup_function strip_return_types module.

Section names.
Context (camel : string -> string).

Definition ascii_lower (a : Ascii.ascii) : Ascii.ascii :=
  let n := Ascii.nat_of_ascii a in
  if (65 <=? n)%nat && (n <=? 90)%nat then Ascii.ascii_of_nat (n + 32) else a.
Fixpoint lower (s : string) : string :=
  match s with EmptyString => EmptyString | String a s => String (ascii_lower a) (lower s) end.

(** The key of a function in the class's function table. *)
Definition fn_key (f : PhpFn) : string := lower (default (camel (fn_rust f)) (fn_php f)).

Definition method_keys (classes : list PhpClass) : list (string * string) :=
  c ← classes; (fun f => (pc_name c, fn_key f)) <$> pc_fns c.

(** [s.replace('_', "")]. *)
Fixpoint without_underscores (s : string) : string :=
  match s with
  | EmptyString => EmptyString
  | String a s => if Ascii.eqb a (Ascii.ascii_of_nat 95) then without_underscores s else String a (without_underscores s)
  end.

(** Camel case of a snake-case name has the same letters without the
    underscores; magic methods keep their name. *)
Context (camel_snake : forall s, String.prefix "__" s = false -> lower (camel s) = lower (without_underscores s)).
Context (camel_magic : forall s, String.prefix "__" s = true -> camel s = s).

(** The classes, in registration order. *)
Definition module_classes : list PhpClass :=
  [channel_class; call_class; channel_credentials_class; call_credentials_class; timeval_class].

(** The methods left typed: constructors have no return type to begin with. *)
Definition unstripped (ck : string * string) : bool :=
  bool_decide (ck.2 = "__construct") || bool_decide (ck = ("Grpc\Timeval", "toabsoluteusec")).

Definition static_key (f : PhpFn) : string :=
  lower (match fn_php f with
         | Some p => p
         | None => if String.prefix "__" (fn_rust f) then fn_rust f else without_underscores (fn_rust f)
         end).

Lemma fn_key_static f : fn_key f = static_key f.
Proof.
  unfold fn_key, static_key. destruct f as [r [p|]]; simpl; [done|].
  destruct (String.prefix "__" r) eqn:E; [by rewrite camel_magic|by apply camel_snake].
Qed.

Lemma method_keys_static classes :
  method_keys classes = c ← classes; (fun f => (pc_name c, static_key f)) <$> pc_fns c.
Proof.
  unfold method_keys. induction classes as [|c cs IH]; [done|]. rewrite !bind_cons, IH. f_equal.
  apply list_fmap_ext. intros _ f _. by rewrite fn_key_static.
Qed.

Lemma strip_flag_clears h flags : Z.land (strip_flag h flags) h = 0.
Proof.
  apply Z.bits_inj'. intros n Hn. unfold strip_flag. rewrite !Z.land_spec, Z.lnot_spec, Z.bits_0 by done.
  by destruct (Z.testbit flags n), (Z.testbit h n).
Qed.

(** C37: the module registers the five [Grpc] classes, reports the ext-grpc
    compatible version, and its first request startup leaves every method PHP
    sees without a declared return type, except the constructors and
    [Timeval::toAbsoluteUsec], a helper of the Rust side that is exported with
    the class but missing from the list; the lists name no method that does
    not exist, and both hooks are the ones of this crate. *)
Theorem module_methods_untyped {Mb : ModuleApi} `{!ModuleLaws Mb} (module : ModuleBuilder) (h : Z) (ct : class_table) :
  md_classes (mb_desc module) = [] ->
  let m := mb_desc (get_module module) in
  md_name m = "grpc" /\ md_version m = EXT_GRPC_COMPAT_VERSION /\ md_startup m = Some register_constants
  /\ (pc_name <$> md_classes m) ≡ₚ stripped_classes.*1
  /\ (forall c k, is_stripped stripped_classes c k = true -> (c, k) ∈ method_keys (md_classes m))
  /\ exists rinit, md_request_startup m = Some rinit
     /\ let ct' := (rinit h (false, ct)).2.2 in
        forall c k flags, (c, k) ∈ method_keys (md_classes m) -> (ft ← ct' !! c; ft !! k) = Some flags ->
          if unstripped (c, k) then (ft ← ct !! c; ft !! k) = Some flags else Z.land flags h = 0.
Proof.
  intros Hempty m. assert (Hm : m = MkDesc "grpc" EXT_GRPC_COMPAT_VERSION module_classes (Some register_constants) (Some strip_return_types)).
  { unfold m, get_module. rewrite mb_request_startup_desc, !mb_class_desc, mb_version_desc, mb_name_desc, mb_startup_desc. simpl.
    by rewrite Hempty. }
  rewrite Hm. clear m Hm Hempty. cbn [md_name md_version md_classes md_startup md_request_startup]. split_and!; try done.
  - apply (bool_decide_eq_true_1 _). vm_compute. reflexivity.
  - intros c k Hs. rewrite method_keys_static. unfold is_stripped in Hs. apply existsb_exists in Hs as ([c' ms] & Hin%list_elem_of_In & Hd).
    apply bool_decide_eq_true in Hd as [-> Hk]. simpl in Hk.
    assert (Hall : Forall (fun cm => Forall (fun k => (cm.1, k) ∈ (c ← module_classes; (fun f => (pc_name c, static_key f)) <$> pc_fns c)) cm.2) stripped_classes).
    { apply (bool_decide_eq_true_1 _). vm_compute. reflexivity. }
    rewrite Forall_forall in Hall. apply Hall in Hin. rewrite Forall_forall in Hin. by apply Hin.
  - exists strip_return_types. split; [done|]. set (ct' := (strip_return_types h (false, ct)).2.2). intros c k flags Hin Hl.
    assert (Hs : (ft ← ct' !! c; ft !! k) = if is_stripped stripped_classes c k
      then strip_flag h <$> (ft ← ct !! c; ft !! k) else (ft ← ct !! c; ft !! k))
      by exact (strip_classes_lookup h stripped_classes ct c k).
    rewrite Hl in Hs.
    assert (Hall : Forall (fun ck => is_stripped stripped_classes ck.1 ck.2 = negb (unstripped ck)) (method_keys module_classes)).
    { rewrite method_keys_static. apply (bool_decide_eq_true_1 _). vm_compute. reflexivity. }
    rewrite Forall_forall in Hall. specialize (Hall _ Hin). cbn [fst snd] in Hall. rewrite Hall in Hs.
    destruct (unstripped (c, k)); simpl in Hs; [done|].
    destruct (ct !! c ≫= _); simplify_eq/=. apply strip_flag_clears.
Qed.

End names.

(** * Witness *)

(** A camel-case rule as the interface describes it. *)
Definition wit_camel (s : string) : string := if String.prefix "__" s then s else without_underscores s.

(** A builder that is its own declaration. *)
#[local] Instance ModuleModel : ModuleApi := {|
  ModuleBuilder := ModuleDesc;
  mb_name n m := MkDesc n (md_version m) (md_classes m) (md_startup m) (md_request_startup m);
  mb_version v m := MkDesc (md_name m) v (md_classes m) (md_startup m) (md_request_startup m);
  mb_class c m := MkDesc (md_name m) (md_version m) (md_classes m ++ [c]) (md_startup m) (md_request_startup m);
  mb_startup_function f m := MkDesc (md_name m) (md_version m) (md_classes m) (Some f) (md_request_startup m);
  mb_request_startup_function f m := MkDesc (md_name m) (md_version m) (md_classes m) (md_startup m) (Some f);
|}.
#[local, refine] Instance ModuleModelLaws : ModuleLaws ModuleModel := {| mb_desc m := m |}.
Proof. all: done. Defined.

Definition wit_module : ModuleDesc := MkDesc "" "" [] None None.

Lemma module_methods_untyped_witness :
  Z.land 2 4 = 0 /\ md_name (get_module (Mb := ModuleModel) wit_module) = "grpc".
Proof.
  destruct (module_methods_untyped wit_camel
    ltac:(intros s H; unfold wit_camel; rewrite H; reflexivity) ltac:(intros s H; unfold wit_camel; rewrite H; reflexivity)
    (Mb := ModuleModel) (ModuleLaws0 := ModuleModelLaws) wit_module 4 {[ "Grpc\Call" := {[ "cancel" := 6 ]} ]} eq_refl) as (Hn & _ & _ & _ & _ & rinit & Hr & H).
  split; [|exact Hn]. injection Hr as <-.
  apply (H "Grpc\Call" "cancel" 2); [|vm_compute; reflexivity].
  vm_compute. repeat (first [left|right]).
Defined.
