(* ===== verification/Tests.v ===== *)
(** The unit tests of the crate ([mod tests] of src/src/call.rs,
    src/src/error.rs, src/src/runtime.rs and src/src/codec.rs), as boolean functions over the
    interfaces.  A test run checks one tonic and one tokio; here each test is
    proved to pass with every tonic that has the documented behaviour, and for
    every way the process can be configured. *)

From Stdlib Require Import ZArith Lia String Ascii Strings.Byte.
From stdpp Require Import base gmap list strings.
From S2P Require Import Prelude Utf8 Zend Tokio Tonic Error Runtime Metadata Deadline Codec.

#[local] Open Scope string_scope.
#[local] Open Scope list_scope.

(** * call.rs: collecting metadata *)
Section metadata_tests.
Context {Tn : TonicApi} `{!TonicLaws Tn}.
(** [MetadataMap::append] adds a value after those of its key. *)
Context (md_append : MetadataMap -> AsciiKey -> AsciiVal -> MetadataMap).
Context (md_append_ascii : forall m k v k', ascii_at k' (md_iter (md_append m k v))
  = ascii_at k' (md_iter m) ++ if bool_decide (key_str k = k') then [v] else []).
Context (md_append_binary : forall m k v k', binary_at k' (md_iter (md_append m k v)) = binary_at k' (md_iter m)).

(** [collected.iter().find(|(k, _)| k == key)]. *)
Definition find_entry (key : string) (collected : list (string * list bytes)) : option (string * list bytes) :=
  List.find (fun kv => bool_decide (kv.1 = key)) collected.

(** [collected.iter().any(|(k, v)| k == key && v == values)]. *)
Definition any_entry (key : string) (values : list bytes) (collected : list (string * list bytes)) : bool :=
  existsb (fun kv => bool_decide (kv.1 = key) && bool_decide (kv.2 = values)) collected.

(** An assertion on the entry of a key that must be present. *)
Definition entry_is (key : string) (values : list bytes) (collected : list (string * list bytes)) : bool :=
  match find_entry key collected with Some (_, vs) => bool_decide (vs = values) | None => false end.

(** The keys and values are those the static strings parse to. *)
Definition ascii_metadata_is_collected (foo other : AsciiKey) (bar baz qux : AsciiVal) : bool :=
  let map := md_insert md_default foo bar in
  let map := md_append map foo baz in
  let map := md_insert map other qux in
  let collected := collect_metadata map in
  entry_is "foo" [as_bytes "bar"; as_bytes "baz"] collected && entry_is "other" [as_bytes "qux"] collected.

Definition binary_payload : bytes :=
  [x00; x01; x02; xff; xfe] ++ as_bytes "hello" ++ [x00] ++ as_bytes "world".

Definition binary_metadata_is_surfaced_as_decoded_bytes : bool :=
  let map := md_insert_bin md_default "x-custom-bin" (bin_from_bytes binary_payload) in
  entry_is "x-custom-bin" [binary_payload] (collect_metadata map).

Definition small_payload : bytes := [x08; x05; x12; x00].

Definition mixed_ascii_and_binary_are_both_present (content_type : AsciiKey) (application_grpc : AsciiVal) : bool :=
  let map := md_insert md_default content_type application_grpc in
  let map := md_insert_bin map "grpc-status-details-bin" (bin_from_bytes small_payload) in
  let collected := collect_metadata map in
  Nat.eqb (length collected) 2
  && any_entry "content-type" [as_bytes "application/grpc"] collected
  && any_entry "grpc-status-details-bin" [small_payload] collected.

Definition rich_payload : bytes := [x08; x0d; x12; x0b] ++ as_bytes "rich status".

(** [status] is what [Status::from_header_map] answers. *)
Definition status_details_bin_is_reinjected_after_tonic_parses_headers (status : option Status) : bool :=
  match status with
  | None => false
  | Some status =>
      bool_decide (st_details status = rich_payload)
      && match binary_at "grpc-status-details-bin" (md_iter (st_metadata status)) with [] => true | _ => false end
      && any_entry "grpc-status-details-bin" [rich_payload] (collect_metadata (status_metadata_for_php status))
  end.

Definition empty_metadata_produces_empty_entries : bool :=
  match collect_metadata md_default with [] => true | _ => false end.

(** ** What is collected, key by key *)

Definition key_values (k : string) (m : MetadataMap) : list bytes := values_of k (omap decode_entry (md_iter m)).

Lemma key_values_ascii k m :
  binary_at k (md_iter m) = [] ->
  key_values k m = omap (fun v => as_bytes <$> val_to_str v) (ascii_at k (md_iter m)).
Proof.
  unfold key_values, values_of, binary_at, ascii_at. generalize (md_iter m). clear.
  induction l as [|[q v|q v] l IH]; csimpl; [done| |].
  - intros H. destruct (val_to_str v) as [s|] eqn:E; csimpl; case_bool_decide; csimpl; rewrite ?E; csimpl;
      rewrite ?IH by done; done.
  - case_bool_decide as Hq; [done|]. intros H. destruct (bin_to_bytes v); csimpl; [|by apply IH].
    rewrite bool_decide_false by done. by apply IH.
Qed.

Lemma key_values_binary k m :
  ascii_at k (md_iter m) = [] -> key_values k m = omap bin_to_bytes (binary_at k (md_iter m)).
Proof.
  unfold key_values, values_of, binary_at, ascii_at. generalize (md_iter m). clear.
  induction l as [|[q v|q v] l IH]; csimpl; [done| |].
  - case_bool_decide as Hq; [done|]. intros H. destruct (val_to_str v); csimpl; [|by apply IH].
    rewrite bool_decide_false by done. by apply IH.
  - intros H. destruct (bin_to_bytes v) as [s|] eqn:E; csimpl; case_bool_decide; csimpl; rewrite ?E; csimpl;
      rewrite ?IH by done; done.
Qed.

Lemma values_of_nil {A} k (l : list (string * A)) : values_of k l <> [] -> k ∈ l.*1.
Proof.
  clear. unfold values_of. induction l as [|[q v] l IH]; csimpl; [done|]. case_bool_decide as Hq; [intros _; subst; by left|].
  intros H. right. by apply IH.
Qed.

Lemma collected_elem k vs m : (k, vs) ∈ collect_metadata m <-> vs = key_values k m /\ vs <> [].
Proof.
  rewrite collect_metadata_group. unfold group_by_key, key_values. rewrite list_elem_of_fmap. split.
  - intros (k' & [= -> ->] & Hk). split; [done|]. apply values_of_in. by apply first_occ_elem.
  - intros [-> Hne]. exists k. split; [done|]. by apply first_occ_elem, values_of_nil.
Qed.

Lemma entry_is_true k vs m : key_values k m = vs -> vs <> [] -> entry_is k vs (collect_metadata m) = true.
Proof.
  intros Hk Hne. assert (Hin : (k, vs) ∈ collect_metadata m) by (by apply collected_elem).
  unfold entry_is, find_entry. destruct (List.find _ _) as [[k' vs']|] eqn:Hf.
  - apply find_some in Hf as [Hin' Hk']. apply bool_decide_eq_true in Hk'. simpl in Hk'. subst k'.
    apply list_elem_of_In, collected_elem in Hin' as [-> _]. by apply bool_decide_eq_true.
  - apply list_elem_of_In in Hin. pose proof (find_none _ _ Hf _ Hin) as H. simpl in H. by rewrite bool_decide_true in H.
Qed.

Lemma any_entry_true k vs m : key_values k m = vs -> vs <> [] -> any_entry k vs (collect_metadata m) = true.
Proof.
  intros Hk Hne. unfold any_entry. apply existsb_exists. exists (k, vs). split.
  - apply list_elem_of_In. by apply collected_elem.
  - simpl. by rewrite !bool_decide_true.
Qed.

(** ** The tests pass *)

Lemma ascii_metadata_is_collected_passes foo other bar baz qux :
  key_str foo = "foo" -> key_str other = "other" ->
  val_to_str bar = Some "bar" -> val_to_str baz = Some "baz" -> val_to_str qux = Some "qux" ->
  ascii_metadata_is_collected foo other bar baz qux = true.
Proof.
  intros Hf Ho Hbar Hbaz Hqux. unfold ascii_metadata_is_collected. apply andb_true_intro.
  split; apply entry_is_true; try done; rewrite key_values_ascii.
  all: rewrite ?md_insert_ascii, ?md_append_ascii, ?md_insert_ascii, ?md_insert_binary, ?md_append_binary,
    ?md_insert_binary, ?md_iter_default, ?Hf, ?Ho; try done; csimpl; by rewrite ?Hbar, ?Hbaz, ?Hqux.
Qed.

Lemma binary_metadata_passes : binary_metadata_is_surfaced_as_decoded_bytes = true.
Proof.
  apply entry_is_true; [|done]. rewrite key_values_binary.
  - rewrite md_insert_bin_binary, bool_decide_true by done. csimpl. by rewrite bin_roundtrip.
  - by rewrite md_insert_bin_ascii, md_iter_default.
Qed.

Lemma mixed_passes content_type application_grpc :
  key_str content_type = "content-type" -> val_to_str application_grpc = Some "application/grpc" ->
  mixed_ascii_and_binary_are_both_present content_type application_grpc = true.
Proof.
  intros Hk Hv. unfold mixed_ascii_and_binary_are_both_present.
  set (map := md_insert_bin _ _ _).
  assert (Ha : forall k, ascii_at k (md_iter map) = if bool_decide ("content-type" = k) then [application_grpc] else []).
  { intros k. unfold map. rewrite md_insert_bin_ascii, md_insert_ascii, Hk, md_iter_default. done. }
  assert (Hb : forall k, binary_at k (md_iter map)
    = if bool_decide ("grpc-status-details-bin" = k) then [bin_from_bytes small_payload] else []).
  { intros k. unfold map. rewrite md_insert_bin_binary, md_insert_binary, md_iter_default. done. }
  assert (H1 : key_values "content-type" map = [as_bytes "application/grpc"]).
  { rewrite key_values_ascii by (by rewrite Hb). rewrite Ha, bool_decide_true by done. csimpl. by rewrite Hv. }
  assert (H2 : key_values "grpc-status-details-bin" map = [small_payload]).
  { rewrite key_values_binary by (by rewrite Ha). rewrite Hb, bool_decide_true by done. csimpl. by rewrite bin_roundtrip. }
  rewrite !any_entry_true by done. rewrite !andb_true_r. apply Nat.eqb_eq.
  assert (Hp : (collect_metadata map).*1 ≡ₚ ["content-type"; "grpc-status-details-bin"]).
  { apply NoDup_Permutation; [|repeat constructor; set_solver|].
    - rewrite collect_metadata_group. unfold group_by_key. rewrite <- list_fmap_compose. simpl.
      rewrite (list_fmap_ext _ id), list_fmap_id by done. apply first_occ_NoDup.
    - intros k. rewrite list_elem_of_fmap. split.
      + intros ([k' vs] & -> & [-> Hne]%collected_elem). simpl.
        destruct (decide (k' = "content-type")) as [->|Hc]; [left|].
        rewrite key_values_binary in Hne by (rewrite Ha; by rewrite bool_decide_false).
        rewrite Hb in Hne. case_bool_decide; [subst; right; left|done].
      + intros [->|[->|[]%not_elem_of_nil]%elem_of_cons]%elem_of_cons;
          eexists (_, _); (split; [done|]); apply collected_elem; split; [reflexivity|congruence|reflexivity|congruence]. }
  apply Permutation_length in Hp. by rewrite length_fmap in Hp.
Qed.

Lemma status_details_passes status :
  st_details status = rich_payload ->
  binary_at "grpc-status-details-bin" (md_iter (st_metadata status)) = [] ->
  ascii_at "grpc-status-details-bin" (md_iter (st_metadata status)) = [] ->
  status_details_bin_is_reinjected_after_tonic_parses_headers (Some status) = true.
Proof.
  intros Hd Hb Ha. unfold status_details_bin_is_reinjected_after_tonic_parses_headers.
  rewrite Hb, bool_decide_true by done. simpl. apply any_entry_true; [|done].
  unfold status_metadata_for_php. rewrite Hd. simpl. rewrite key_values_binary by (by rewrite md_insert_bin_ascii).
  rewrite md_insert_bin_binary, bool_decide_true by done. csimpl. by rewrite bin_roundtrip.
Qed.

Lemma empty_metadata_passes : empty_metadata_produces_empty_entries = true.
Proof. unfold empty_metadata_produces_empty_entries, collect_metadata. by rewrite md_iter_default. Qed.

End metadata_tests.

(** * error.rs: the messages of the errors *)
Section error_tests.
Context {Tn : TonicApi}.

(** [io] is how [std::io::Error::other("test io")] prints. *)
Definition error_display_messages (io : string) : bool :=
  bool_decide (grpc_error_display (InvalidArg "bad input") = "invalid argument: bad input")
  && bool_decide (grpc_error_display (InvalidUri "not://valid") = "invalid URI: not://valid")
  && bool_decide (grpc_error_display (CallbackFailed "plugin error") = "callback failed: plugin error")
  && bool_decide (grpc_error_display (StatusError 14 "unavailable") = "gRPC status 14: unavailable")
  && str_contains "test io" (grpc_error_display (RuntimeInit io)).

(** The [#[from]] conversion of an I/O error. *)
Definition error_from_io (fail : string) : bool :=
  match RuntimeInit fail with RuntimeInit _ => true | _ => false end.

Lemma str_contains_app a b needle : str_contains needle b = true -> str_contains needle (a +:+ b) = true.
Proof.
  intros H. induction a as [|c a IH]; [done|]. change (String c a +:+ b) with (String c (a +:+ b)). cbn [str_contains].
  rewrite IH. apply orb_true_r.
Qed.

Lemma error_tests_pass io fail :
  str_contains "test io" io = true -> error_display_messages io = true /\ error_from_io fail = true.
Proof.
  intros Hio. split; [|done]. unfold error_display_messages. simpl grpc_error_display.
  rewrite str_contains_app by done. by vm_compute.
Qed.

End error_tests.

(** * runtime.rs *)
Section runtime_tests.
Context {Zd : ZendApi} {Tn : TonicApi}.
Context (env_var : option string) (build_error : nat -> option string) (tid : nat).

Definition get_runtime_returns_same_instance (s : RtState) : bool :=
  match get_runtime env_var build_error tid s with
  | (Return rt1, s1) =>
      match get_runtime env_var build_error tid s1 with
      | (Return rt2, _) => Nat.eqb rt1 rt2
      | _ => false
      end
  | _ => false
  end.

Lemma get_runtime_same_passes s rt s1 :
  get_runtime env_var build_error tid s = (Return rt, s1) -> get_runtime_returns_same_instance s = true.
Proof.
  intros H. unfold get_runtime_returns_same_instance. rewrite H, (get_runtime_idem _ _ _ _ _ _ H). apply Nat.eqb_refl.
Qed.

(** tokio's futures, as far as the tests use them: an async block that answers
    at once, spawning it, and awaiting the handle. *)
Context (Future JoinHandle : Type -> Type) (JoinError : Type) (async_value : forall A, A -> Future A).
Context (rt_block_on : forall A, nat -> Future A -> A) (rt_spawn : forall A, nat -> Future A -> JoinHandle A).
Context (handle_await : forall A, JoinHandle A -> Future (result JoinError A)).
Context (block_on_value : forall A rt (a : A), rt_block_on A rt (async_value A a) = a).
Context (spawned_runs : forall A rt (a : A),
  rt_block_on _ rt (handle_await A (rt_spawn A rt (async_value A a))) = Ok a).

Definition runtime_can_spawn_task (s : RtState) : bool :=
  match get_runtime env_var build_error tid s with
  | (Return rt, _) => Nat.eqb (rt_block_on nat rt (async_value nat 42)) 42
  | _ => false
  end.

Definition spawned_tasks_run_when_driven (s : RtState) : bool :=
  match get_runtime env_var build_error tid s with
  | (Return rt, _) =>
      match rt_block_on _ rt (handle_await nat (rt_spawn nat rt (async_value nat 7))) with
      | Ok v => Nat.eqb v 7
      | Err _ => false
      end
  | _ => false
  end.

Lemma runtime_tests_pass s rt s1 :
  get_runtime env_var build_error tid s = (Return rt, s1) ->
  runtime_can_spawn_task s = true /\ spawned_tasks_run_when_driven s = true.
Proof.
  intros H. unfold runtime_can_spawn_task, spawned_tasks_run_when_driven. rewrite H.
  by rewrite block_on_value, spawned_runs.
Qed.

End runtime_tests.

(** * codec.rs *)
Definition codec_produces_encoder_and_decoder : bool :=
  let '(_, codec) := codec_encoder MkRawBytesCodec in
  let '(_, _) := codec_decoder codec in true.
